(* ===== verification/_CoqProject ===== *)
-Q . S2P
Prelude.v
PMM.v
Paging.v
PagePerm.v
DList.v
Spans.v
KMonad.v
VmmSpace.v
VmmProps.v
Liballoc.v
LiballocInv.v
LiballocSpec.v
LiballocProps.v
KString.v
KStringProps.v
Font.v
Ports.v
Console.v
ConsoleProps.v
ConsoleLog.v
ConsoleBoot.v
Descriptors.v
Keyboard.v
Reports.v
Interrupts.v
Diagnostics.v
Kernel.v
KernelProps.v
KernelHeap.v
Syscalls.v
Os.v
LibcString.v
Utf8.v
Stdio.v
StdioProps.v
Printf.v
PrintfProps.v
PrintfText.v
OsMain.v
Calendar.v
Search.v
SearchTree.v
SearchRep.v
SearchProps.v
SearchDelete.v
SearchWalk.v
HashTable.v
HashProbe.v
HashProps.v
HashSearch.v
SearchList.v
Qsort.v
Smooth.v
QsortBits.v
QsortMem.v
QsortProps.v
