(* ===== verification/Prelude.v ===== *)
(** * Verification of bootable-stuff

    The program is a small 64-bit operating system: a boot loader, a kernel in C
    ([src/src/kernel]), a kernel heap ([src/ports/liballoc]), and a user program
    ([src/src/os]) linked with a C library ([src/ports/musl-1.2.2]).  This library models the
    C code of the kernel, the heap, the user program and parts of the C library (those that its
    output goes through, dates, searching and sorting) by shallow embedding and proves what makes
    it correct.

    ** The parts and where they are

    - Memory.  [PMM] (memory/PMM.c): a bitmap of physical pages.  [Paging], [PagePerm]
      (memory/VMM.c): the four-level page tables, with the boot loader's tables as start
      state; the supply of table pages is the class [PageSupply], which the bitmap
      implements.  [VmmSpace], [VmmProps] (memory/VMM.c): the address-space manager, a
      doubly linked list of free spans ([DList], [Spans]) kept in pages it maps itself.
      [Liballoc], [LiballocInv], [LiballocSpec], [LiballocProps] (liballoc_1_1.c): the heap;
      its page source is a class.
    - Text.  [KString], [KStringProps] (lib/string, lib/math, lib/memory): [vsprintf] and the
      routines below it, on byte memory.  [Font], [Console], [ConsoleProps], [ConsoleLog],
      [ConsoleBoot] (VGA/VGA.c, VGA/Font.c, memcpy.asm): the pixel console and [log].
      [Reports]: sequences of [log] calls.
    - Hardware.  [Ports] (PortIO.c, PIC.c): port I/O as the class [PortBus], and the pair of
      interrupt controllers behind it.  [Descriptors] (IDT.h, Ring3.c): IDT and TSS.
      [Keyboard] (KbController.c).  [Interrupts] (Interrupts.c): exceptions and interrupt
      lines.  [Diagnostics] (Diagnostics.c, ubsan_handlers.c).
    - The whole.  [Kernel], [KernelProps] (Kernel.c): the state of all components in one
      record, [kmain], and the key handler, over any memory managers.  [KernelHeap]
      (liballoc_hooks.c): the heap and the address space manager tied together, each calling
      the other, and [kmain] on top of them.  [Syscalls] (syscalls.c).  [Os] (os/src/Main.c):
      the loop of [dvd_bounce].
    - C library.  [LibcString] (string/): the word-at-a-time string routines and [memset].
      [Utf8] (multibyte/).  [Stdio], [StdioProps] (stdio/fwrite.c, __stdio_write.c,
      vsnprintf.c and others): output streams; the system call below them is the class [SysOk],
      and a place output goes to is the class [Sink].  [Printf], [PrintfProps], [PrintfText]
      (stdio/vfprintf.c): [printf_core] and its callers.  [OsMain] (os/src/Main.c):
      [os_main] on top of them.  [Calendar] (time/): times and dates.  [Search], [SearchTree],
      [SearchRep], [SearchProps], [SearchDelete], [SearchWalk] (search/tsearch.c and others):
      balanced search trees; [HashTable], [HashProbe], [HashProps], [HashSearch]
      (search/hsearch.c): hash tables; [SearchList] (search/lsearch.c, insque.c).  [Qsort]
      (stdlib/qsort.c, bsearch.c): smoothsort and binary search; [Smooth] is smoothsort on an
      abstract array, [QsortBits] its bit vector, [QsortMem] the array in memory, [QsortProps]
      their connection.

    ** How the code is represented

    C integers are [Z] with the wrap-around of their width written out ([u8] .. [u64], [s8]
    .. [s64] in this file).  Stateful code is written in the monad of [KMonad]: a function
    from the state to a result and a new state, or [None] for undefined behaviour (a bad
    pointer, an array index out of range, a buffer overrun) and for loops that do not end.
    [wp] is total correctness in this monad.  A component is written over any state that has
    its part ([Has S K]), so that components call each other on one state.  Code that is not
    C (hardware, assembly) or belongs to another component is a class with laws; every class
    with laws has an instance that the witnesses run on.

    ** What the theorems show

    - Physical pages: the bitmap refines a set of free pages; no page is handed out twice.
    - Page tables: mapping a page changes the translation of that page only; sections get
      their permissions; what overwriting the shared upper entries costs.
    - Address space: first fit, coalescing, spans never overlap along any sequence of calls,
      allocate and free is the identity on the free list.
    - Heap: blocks are fresh, aligned and disjoint; [kfree] removes exactly one block; a
      double free is detected; [krealloc] keeps the contents.
    - Formatting: [vsprintf] writes exactly the text of a pure formatting function; [itoa]
      can be read back; the bounds of [gcvt].
    - Console: [log] is refined by an abstract terminal (grid, cursor, wrap, scroll, tab,
      backspace); the start-up sequence establishes the invariant.
    - Interrupts: vectors, masks, end of interrupt, gates; reports that always fit the buffer
      of [log]; a key press from the port to the screen.
    - Memory as a whole: the first mapping returns through the calls nested in it; no two
      ranges of memory handed out by the two managers ever overlap, except for the frame
      buffer in modes of which it is not a whole number of pages (the boot loader's is one).
    - Start-up: the state in which [kmain] enters user mode, on the real memory managers.
    - System calls: [writev], [open], and calls without a handler.
    - User program: the bouncing square never leaves the frame buffer; [os_main] hands the
      kernel exactly its lines.
    - C library: string routines agree with their byte-by-byte meaning; [printf] delivers
      exactly the text the C standard gives, or reports an error; [vsnprintf] stays within its
      buffer; encoding and decoding of characters, and dates and times, are inverse.  Search
      trees behave like ordered sets and hash tables like finite maps, through any sequence of
      calls and also when memory runs out; their loops end, within the arrays they use.  [qsort]
      sorts, with every total preorder for a comparison; [bsearch] finds.

    ** Bounds and fuel

    Loops over linked lists and strings carry fuel; the theorems hold for every fuel above
    the length of the list or string, and say that a result is returned.  [log] formats into
    512 bytes: longer texts are a fault.  [putChar] calls itself once (for a tab).  The
    memory managers may nest calls to a given depth ([hooks]); depth one is enough.  The loop
    of [printf_core] has fuel for every character of the format; the retry loop of
    [__stdio_write] for every byte to write, since a write that succeeds writes one.  The way
    down a search tree has the [MAXH] places of the C array (a balanced tree with all of memory
    as nodes has fewer than 92 levels); a search in a hash table tries each slot once.
    [qsort] is proved for arrays of fewer elements than the Leonardo number of order 62 (about
    10^13), whose heaps fit in the lower word of its bit vector; for longer ones the code may
    shift by the width of a word, which is a fault of the model.

    ** Not modelled

    The boot loader and the assembly stubs (real mode, privileged instructions, stack
    switches), except for the page tables they build and the copy loop [kmemcpy_128]; nesting
    of interrupts and their interleaving with other code; timing; the older liballoc 1.0,
    which is not compiled.  Of the C library: floating point conversions of [printf] and
    [strerror] (parameters of the model), locks (the program has one thread), and, except for
    the calendar, searching and sorting, everything the program does not call or calls only at
    the start of [dvd_bounce] ([open], [mmap], [malloc], [memcpy]).  Requests that use up a free
    block to the last page, for which [vmm_mmap] frees a node, are modelled but not covered by
    the theorems about the memory managers together, except for one that shows how they go
    wrong. *)
From stdpp Require Export base list gmap strings.
From Stdlib Require Export ZArith Lia.
#[global] Open Scope Z_scope.

(** ** Notations for the C bit operators *)
Declare Scope word_scope.
Infix "&&&" := Z.land (at level 40, left associativity) : word_scope.
Infix "|||" := Z.lor (at level 50, left associativity) : word_scope.
Infix "<<<" := Z.shiftl (at level 38, left associativity) : word_scope.
Infix ">>>" := Z.shiftr (at level 38, left associativity) : word_scope.
#[global] Open Scope word_scope.

(** ** Machine integers
    A [w]-bit unsigned integer is a [Z] in [0, 2^w); [wrap w] is the C
    conversion to that type and [swrap w] the conversion to the signed type of
    the same width (two's complement, as gcc implements it). *)
Definition wrap (w x : Z) : Z := x mod 2 ^ w.
Definition swrap (w x : Z) : Z :=
  let y := wrap w x in if y <? 2 ^ (w - 1) then y else y - 2 ^ w.

Abbreviation u8 := (wrap 8).
Abbreviation u16 := (wrap 16).
Abbreviation u32 := (wrap 32).
Abbreviation u64 := (wrap 64).
Abbreviation s8 := (swrap 8).
Abbreviation s32 := (swrap 32).
Abbreviation s64 := (swrap 64).

Definition in_u (w x : Z) : Prop := 0 <= x < 2 ^ w.
Definition in_s (w x : Z) : Prop := - 2 ^ (w - 1) <= x < 2 ^ (w - 1).

#[export] Instance in_u_dec w x : Decision (in_u w x).
Proof. unfold in_u. apply _. Defined.
#[export] Instance in_s_dec w x : Decision (in_s w x).
Proof. unfold in_s. apply _. Defined.

(** C truth value of an integer. *)
Definition truth (x : Z) : bool := negb (x =? 0).

Create HintDb words.

Lemma wrap_small w x : in_u w x -> wrap w x = x.
Proof. intros ?. by apply Z.mod_small. Qed.

Lemma wrap_range w x : 0 <= w -> in_u w (wrap w x).
Proof. intros ?. unfold in_u, wrap. apply Z.mod_pos_bound. lia. Qed.

Lemma wrap_wrap w x : 0 <= w -> wrap w (wrap w x) = wrap w x.
Proof. intros ?. apply wrap_small, wrap_range. lia. Qed.

Lemma swrap_range w x : 0 < w -> in_s w (swrap w x).
Proof.
  intros ?. unfold swrap. pose proof (wrap_range w x ltac:(lia)) as Hr.
  unfold in_u in Hr. unfold in_s.
  replace (2 ^ w) with (2 * 2 ^ (w - 1)) in *
    by (rewrite <- Z.pow_succ_r by lia; f_equal; lia).
  case_match; lia.
Qed.

Lemma swrap_small w x : 0 < w -> in_s w x -> swrap w x = x.
Proof.
  unfold in_s, swrap, wrap. intros ? Hs.
  assert (2 ^ w = 2 * 2 ^ (w - 1)) as E
    by (rewrite <- Z.pow_succ_r by lia; f_equal; lia).
  rewrite E. destruct (Z.ltb_spec (x mod (2 * 2 ^ (w - 1))) (2 ^ (w - 1))) as [Hlt|Hge];
  destruct (decide (0 <= x)).
  - apply Z.mod_small. lia.
  - exfalso. replace (x mod _) with (x + 2 * 2 ^ (w - 1)) in Hlt; [lia|].
    apply Z.mod_unique_pos with (-1); lia.
  - rewrite Z.mod_small in Hge; lia.
  - replace (x mod (2 * 2 ^ (w - 1))) with (x + 2 * 2 ^ (w - 1)); [lia|].
    apply Z.mod_unique_pos with (-1); lia.
Qed.

(** Converting a value to the signed type and back to the unsigned one is the
    identity on the bit pattern. *)
Lemma wrap_swrap w x : 0 < w -> wrap w (swrap w x) = wrap w x.
Proof.
  intros ?. unfold swrap. case_match; [apply wrap_wrap; lia|].
  unfold wrap. replace (x mod 2 ^ w - 2 ^ w) with (x mod 2 ^ w + (-1) * 2 ^ w) by lia.
  rewrite Z_mod_plus_full. apply Z.mod_mod. lia.
Qed.

(** ** Bit-level reasoning *)
Lemma testbit_high k x i : in_u k x -> k <= i -> Z.testbit x i = false.
Proof.
  unfold in_u. intros Hx Hi. destruct (decide (i < 0)).
  { by apply Z.testbit_neg_r. }
  destruct (decide (x = 0)) as [->|]; [apply Z.testbit_0_l|].
  apply Z.bits_above_log2; [lia|].
  apply Z.log2_lt_pow2; [lia|].
  assert (2 ^ k <= 2 ^ i) by (apply Z.pow_le_mono_r; lia). lia.
Qed.

Lemma testbit_aligned k x i : x mod 2 ^ k = 0 -> i < k -> Z.testbit x i = false.
Proof.
  intros Hx Hi. destruct (decide (i < 0)); [by apply Z.testbit_neg_r|].
  rewrite <- (Z.mod_pow2_bits_low x k i) by lia. rewrite Hx. apply Z.testbit_0_l.
Qed.

(** The bits of a contiguous mask: [n] ones starting at bit [lo]. *)
Lemma testbit_mask lo n i :
  0 <= lo -> 0 <= n ->
  Z.testbit (Z.shiftl (Z.ones n) lo) i = bool_decide (lo <= i < lo + n).
Proof.
  intros. destruct (decide (i < 0)).
  { rewrite Z.testbit_neg_r, bool_decide_eq_false_2 by lia. done. }
  rewrite Z.shiftl_spec by lia.
  destruct (decide (lo <= i < lo + n)).
  - rewrite bool_decide_eq_true_2 by done. apply Z.ones_spec_low. lia.
  - rewrite bool_decide_eq_false_2 by done. destruct (decide (i < lo)).
    + apply Z.testbit_neg_r. lia.
    + apply Z.ones_spec_high. lia.
Qed.

Lemma land_mask_mod x k : 0 <= k -> x &&& (2 ^ k - 1) = x mod 2 ^ k.
Proof.
  intros. rewrite <- Z.land_ones by lia. f_equal. rewrite Z.ones_equiv. lia.
Qed.

Lemma shiftr_mask x s k :
  0 <= s -> 0 <= k -> (x >>> s) &&& (2 ^ k - 1) = (x / 2 ^ s) mod 2 ^ k.
Proof. intros. rewrite land_mask_mod, Z.shiftr_div_pow2 by lia. done. Qed.

(** Or-ing a value below [2^k] into a multiple of [2^k] is addition. *)
Lemma lor_aligned_add k x y :
  0 <= k -> x mod 2 ^ k = 0 -> in_u k y -> x ||| y = x + y.
Proof.
  intros Hk Hx Hy. rewrite <- Z.lxor_lor.
  - rewrite <- Z.add_nocarry_lxor; [done|].
    apply Z.bits_inj'. intros i Hi. rewrite Z.land_spec, Z.testbit_0_l.
    destruct (decide (i < k)).
    + rewrite (testbit_aligned k x i) by lia. done.
    + rewrite (testbit_high k y i) by (done || lia). apply andb_false_r.
  - apply Z.bits_inj'. intros i Hi. rewrite Z.land_spec, Z.testbit_0_l.
    destruct (decide (i < k)).
    + rewrite (testbit_aligned k x i) by lia. done.
    + rewrite (testbit_high k y i) by (done || lia). apply andb_false_r.
Qed.

Lemma land_range k x y : in_u k y -> in_u k (x &&& y).
Proof.
  unfold in_u. intros Hy. assert (0 <= x &&& y) by (apply Z.land_nonneg; lia).
  split; [done|]. destruct (decide (x &&& y = 0)); [lia|].
  destruct (decide (0 <= k)); [|rewrite Z.pow_neg_r in Hy by lia; lia].
  apply Z.log2_lt_pow2; [lia|]. apply Z.nle_gt. intros Hk.
  assert (Z.testbit (x &&& y) (Z.log2 (x &&& y)) = true) as Hb
    by (apply Z.bit_log2; lia).
  rewrite Z.land_spec, (testbit_high k y), andb_false_r in Hb by (unfold in_u; lia). done.
Qed.

Lemma lor_range k x y : 0 <= k -> in_u k x -> in_u k y -> in_u k (x ||| y).
Proof.
  unfold in_u. intros Hk Hx Hy. assert (0 <= x ||| y) by (apply Z.lor_nonneg; lia).
  split; [done|]. destruct (decide (x ||| y = 0)); [lia|].
  apply Z.log2_lt_pow2; [lia|]. rewrite Z.log2_lor by lia.
  apply Z.max_lub_lt.
  - destruct (decide (x = 0)) as [->|]; [|apply Z.log2_lt_pow2; lia].
    destruct (decide (k = 0)) as [->|]; [|simpl; lia].
    exfalso. change (2 ^ 0) with 1 in *. assert (y = 0) by lia. subst. done.
  - destruct (decide (y = 0)) as [->|]; [|apply Z.log2_lt_pow2; lia].
    destruct (decide (k = 0)) as [->|]; [|simpl; lia].
    exfalso. change (2 ^ 0) with 1 in *. assert (x = 0) by lia. subst. done.
Qed.

(** Extensionality on bits, pushing [Z.testbit] through the operators. *)
Ltac push_bits :=
  repeat first
    [ rewrite Z.land_spec | rewrite Z.lor_spec | rewrite Z.lxor_spec
    | rewrite Z.ldiff_spec | rewrite Z.lnot_spec by lia
    | rewrite Z.testbit_0_l
    | rewrite Z.shiftr_spec by lia | rewrite Z.shiftl_spec by lia
    | rewrite testbit_mask by lia ].
Ltac bit_ext i := apply Z.bits_inj'; intros i ?; push_bits.

(** A flag test in C. *)
Lemma truth_bit x b : 0 <= b -> truth (x &&& (1 <<< b)) = Z.testbit x b.
Proof.
  intros Hb. unfold truth. rewrite Z.shiftl_1_l. destruct (Z.testbit x b) eqn:E.
  - apply negb_true_iff, Z.eqb_neq. intros H0.
    assert (Z.testbit (x &&& 2 ^ b) b = true) as Ht
      by (rewrite Z.land_spec, E, Z.pow2_bits_true by lia; done).
    by rewrite H0, Z.testbit_0_l in Ht.
  - apply negb_false_iff, Z.eqb_eq. apply Z.bits_inj'. intros i Hi.
    rewrite Z.land_spec, Z.pow2_bits_eqb, Z.testbit_0_l by lia.
    destruct (Z.eqb_spec b i) as [->|]; [by rewrite E|apply andb_false_r].
Qed.

(** ** Lists *)
Definition zsum (l : list Z) : Z := foldr Z.add 0 l.

Lemma zsum_app l k : zsum (l ++ k) = zsum l + zsum k.
Proof. induction l as [|x l IH]; simpl; lia. Qed.

(** [nthZ l i] is [l[i]] with [0] outside; [updZ] the assignment. *)
Definition nthZ (l : list Z) (i : Z) : Z := default 0 (l !! Z.to_nat i).
Definition updZ (l : list Z) (i x : Z) : list Z := <[Z.to_nat i := x]> l.

Lemma nthZ_upd l i j x :
  0 <= i -> 0 <= j < Z.of_nat (length l) ->
  nthZ (updZ l i x) j = if decide (i = j) then x else nthZ l j.
Proof.
  intros Hi Hj. unfold nthZ, updZ. case_decide as E.
  - subst. rewrite list_lookup_insert_eq; [done|lia].
  - rewrite list_lookup_insert_ne; [done|lia].
Qed.

Lemma length_updZ l i x : length (updZ l i x) = length l.
Proof. apply length_insert. Qed.

(** ** Tactics *)
(** Turn the boolean tests of the source into propositions. *)
Ltac zb :=
  repeat match goal with
  | H : (_ =? _) = true |- _ => apply Z.eqb_eq in H
  | H : (_ =? _) = false |- _ => apply Z.eqb_neq in H
  | H : (_ <? _) = true |- _ => apply Z.ltb_lt in H
  | H : (_ <? _) = false |- _ => apply Z.ltb_ge in H
  | H : (_ <=? _) = true |- _ => apply Z.leb_le in H
  | H : (_ <=? _) = false |- _ => apply Z.leb_gt in H
  | H : negb _ = true |- _ => apply negb_true_iff in H
  | H : negb _ = false |- _ => apply negb_false_iff in H
  | H : _ && _ = true |- _ => apply andb_true_iff in H as [??]
  | H : _ || _ = false |- _ => apply orb_false_iff in H as [??]
  end.

(** Case analysis on the conditions of the goal, as propositions. *)
Ltac zcase :=
  match goal with
  | |- context [if ?b then _ else _] =>
      let E := fresh "E" in destruct b eqn:E; zb
  end.

#[export] Hint Resolve wrap_range land_range lor_range : words.

(** *** Lists whose elements are pairwise related *)
Section Pairwise.
Context {A : Type} (R : A -> A -> Prop).

Fixpoint pairwise (l : list A) : Prop :=
  match l with [] => True | x :: l' => Forall (R x) l' /\ pairwise l' end.

Context `{!Symmetric R}.

Lemma pairwise_mid l1 x l2 :
  pairwise (l1 ++ x :: l2) <-> pairwise (l1 ++ l2) /\ Forall (R x) (l1 ++ l2).
Proof.
  induction l1 as [|y l1 IH]; simpl; [tauto|].
  rewrite IH, !Forall_app, !Forall_cons, !Forall_app. split.
  - intros [(H1 & Hyx & H2) [H3 [H4 H5]]]. split_and!; auto.
  - intros [[[H1 H2] H3] [Hxy [H4 H5]]]. split_and!; auto.
Qed.

Lemma pairwise_elem l x y : pairwise l -> x ∈ l -> y ∈ l -> x = y \/ R x y.
Proof.
  intros Hp (l1 & l2 & ->)%list_elem_of_split Hy. apply pairwise_mid in Hp as [_ Hf].
  rewrite Forall_forall in Hf. apply elem_of_app in Hy as [Hy|[->|Hy]%elem_of_cons]; [|by left|];
    right; apply Hf; apply elem_of_app; auto.
Qed.
End Pairwise.
