(* ===== verification/PMM.v ===== *)
(** Physical memory manager: [src/src/kernel/src/memory/PMM.c].

    The bitmap of 512 words hands out 4 KiB pages of the 128 MiB above
    [RESERVED_START].  Page [k] is bit [63 - k mod 64] of word [k / 64], so the
    [bsr] (highest set bit) of a word is its lowest free page.  The file models
    both allocation entry points and proves that they implement "take the least
    free page at or above the starting word" on an abstract set of free pages;
    [PageSupply] is the interface the virtual memory manager is verified
    against, and the bitmap is an instance of it. *)
From S2P Require Import Prelude.

Module PMM.

Definition MEM_START : Z := 0x200000.
Definition PAGE_SIZE : Z := 4096.
Definition PAGES : Z := 128 * 4.

(** The two globals of the file. *)
Record pmm := MkPmm { bitmap : list Z; RESERVED_START : Z }.

Definition set_bitmap (p : pmm) (i w : Z) : pmm :=
  MkPmm (updZ (bitmap p) i w) (RESERVED_START p).

(** [kmemset(bitmap, 0xff, sizeof(bitmap))] on 64-bit words. *)
Definition pmm_init (_FIRST_FREE_PAGE_ : Z) : pmm :=
  MkPmm (replicate (Z.to_nat PAGES) (2 ^ 64 - 1)) _FIRST_FREE_PAGE_.

(** The [bsr] instruction: [None] is the zero flag, otherwise the index of the
    highest set bit. *)
Definition bsr (w : Z) : option Z := if w =? 0 then None else Some (Z.log2 w).

(** The [for] loop of [allocate_page_from] from word [i], at most [n] rounds. *)
Fixpoint allocate_loop (n : nat) (i : Z) (p : pmm) : pmm * Z :=
  match n with
  | O => (p, 0)
  | S n' =>
      let w := nthZ (bitmap p) i in
      match bsr w with
      | None => allocate_loop n' (i + 1) p
      | Some first_set =>
          if negb (first_set =? 0) then
            (set_bitmap p i (w &&& u64 (Z.lnot (1 <<< first_set))),
             u64 (RESERVED_START p + PAGE_SIZE * (64 * i + (63 - first_set))))
          else
            (set_bitmap p i 0,
             u64 (RESERVED_START p + PAGE_SIZE * (64 * i + 63)))
      end
  end.

Definition start_word (p : pmm) (start : Z) : Z :=
  u64 (start - RESERVED_START p) / PAGE_SIZE / 64.

Definition allocate_page_from (start : Z) (p : pmm) : pmm * Z :=
  let i := start_word p start in
  allocate_loop (Z.to_nat (PAGES - i)) i p.

Definition pmm_allocate_page_table (p : pmm) : pmm * Z :=
  allocate_page_from (RESERVED_START p) p.

Definition pmm_allocate_page (p : pmm) : pmm * Z :=
  allocate_page_from MEM_START p.

(** ** Abstract view: numbered pages *)
Definition NPAGES : Z := 64 * PAGES.

Definition page_free (p : pmm) (k : Z) : bool :=
  Z.testbit (nthZ (bitmap p) (k / 64)) (63 - k mod 64).

Definition page_addr (p : pmm) (k : Z) : Z := RESERVED_START p + PAGE_SIZE * k.

Record wf (p : pmm) : Prop := {
  wf_len : Z.of_nat (length (bitmap p)) = PAGES;
  wf_words : forall i, 0 <= i < PAGES -> in_u 64 (nthZ (bitmap p) i);
  wf_start : 0 < RESERVED_START p <= MEM_START;
  wf_align : RESERVED_START p mod PAGE_SIZE = 0
}.

Lemma page_split k : 0 <= k -> k = 64 * (k / 64) + k mod 64 /\ 0 <= k mod 64 < 64.
Proof. intros. split; [apply Z.div_mod; lia|apply Z.mod_pos_bound; lia]. Qed.

Lemma page_word i b :
  0 <= b < 64 -> (64 * i + b) / 64 = i /\ (64 * i + b) mod 64 = b.
Proof.
  intros. split.
  - symmetry. apply Z.div_unique_pos with b; lia.
  - symmetry. apply Z.mod_unique_pos with i; lia.
Qed.

Lemma bsr_spec w b :
  in_u 64 w -> bsr w = Some b ->
  0 <= b < 64 /\ Z.testbit w b = true /\ (forall j, b < j -> Z.testbit w j = false).
Proof.
  unfold bsr, in_u. intros Hw. case_match; [done|]. intros [= <-]. zb. split_and!.
  - apply Z.log2_nonneg.
  - apply Z.log2_lt_pow2; lia.
  - apply Z.bit_log2. lia.
  - intros j Hj. apply Z.bits_above_log2; lia.
Qed.

Lemma bsr_None w : bsr w = None -> w = 0.
Proof. unfold bsr. case_match; [by zb|done]. Qed.

(** Both branches after the [bsr] clear exactly the bit that was found. *)
Lemma clear_bit w b :
  in_u 64 w -> bsr w = Some b ->
  (if negb (b =? 0) then w &&& u64 (Z.lnot (1 <<< b)) else 0) = Z.clearbit w b.
Proof.
  intros Hw Hb. pose proof (bsr_spec w b Hw Hb) as (Hr & Ht & Hj).
  unfold bsr in Hb. destruct (Z.eqb_spec w 0); [done|]. injection Hb as Hl.
  apply Z.bits_inj'. intros i Hi. rewrite Z.clearbit_eqb.
  destruct (Z.eqb_spec b 0) as [->|Hb0]; cbn [negb].
  - rewrite Z.testbit_0_l. destruct (Z.eqb_spec 0 i); cbn [negb]; [by rewrite andb_false_r|].
    rewrite Hj by lia. done.
  - rewrite Z.land_spec. destruct (decide (i < 64)).
    + unfold wrap. rewrite Z.mod_pow2_bits_low by lia.
      rewrite Z.lnot_spec, Z.shiftl_spec by lia. f_equal. f_equal.
      destruct (Z.eqb_spec b i) as [->|]; [by rewrite Z.sub_diag|].
      destruct (decide (i < b)); [by rewrite Z.testbit_neg_r by lia|].
      apply testbit_high with 1; [unfold in_u|]; lia.
    + rewrite (testbit_high 64 w i) by (done || lia). done.
Qed.

(** One iteration that finds a set bit. *)
Lemma allocate_step n i p b :
  wf p -> 0 <= i < PAGES -> bsr (nthZ (bitmap p) i) = Some b ->
  allocate_loop (S n) i p =
    (set_bitmap p i (Z.clearbit (nthZ (bitmap p) i) b),
     u64 (page_addr p (64 * i + (63 - b)))).
Proof.
  intros Hwf Hi Hb. pose proof (wf_words p Hwf i Hi) as Hw.
  rewrite <- (clear_bit _ b Hw Hb). simpl. rewrite Hb.
  unfold page_addr. destruct (Z.eqb_spec b 0) as [->|]; simpl; done.
Qed.

Lemma page_addr_u64 p k : wf p -> 0 <= k < NPAGES -> u64 (page_addr p k) = page_addr p k.
Proof.
  intros [? ? ? ?] Hk. apply wrap_small. unfold page_addr, in_u.
  unfold NPAGES, PAGES, PAGE_SIZE, MEM_START in *. lia.
Qed.

Lemma page_free_clear p i b k :
  wf p -> 0 <= i < PAGES -> 0 <= b < 64 -> 0 <= k < NPAGES ->
  page_free (set_bitmap p i (Z.clearbit (nthZ (bitmap p) i) b)) k =
  page_free p k && negb (k =? 64 * i + (63 - b)).
Proof.
  intros [Hl ? ? ?] Hi Hb Hk. unfold page_free. simpl.
  destruct (page_split k) as [Ek ?]; [lia|].
  rewrite nthZ_upd by (rewrite ?Hl; unfold NPAGES, PAGES in *; lia).
  case_decide as E.
  - rewrite Z.clearbit_eqb. subst i. f_equal. f_equal.
    apply Bool.eq_iff_eq_true. rewrite !Z.eqb_eq. lia.
  - replace (k =? _) with false; [by rewrite andb_true_r|].
    symmetry. apply Z.eqb_neq. intros E'. apply E.
    rewrite E'. symmetry. apply page_word. lia.
Qed.

Lemma wf_set_bitmap p i w :
  wf p -> 0 <= i -> in_u 64 w -> wf (set_bitmap p i w).
Proof.
  intros [Hl Hw Hs Ha] Hi Hu. split; simpl; [by rewrite length_updZ| |done|done].
  intros j Hj. rewrite nthZ_upd by lia. case_decide; auto.
Qed.

Lemma clearbit_range w b : in_u 64 w -> in_u 64 (Z.clearbit w b).
Proof.
  unfold Z.clearbit. rewrite Z.ldiff_land, Z.land_comm.
  intros. by apply land_range.
Qed.

(** What an allocation from word [i] does: page [k] is the least free page of
    the words from [i] on, and the only one that stops being free. *)
Record takes (p p' : pmm) (lo k : Z) : Prop := {
  tk_range : lo <= k < NPAGES;
  tk_was_free : page_free p k = true;
  tk_least : forall j, lo <= j < k -> page_free p j = false;
  tk_frame : forall j, 0 <= j < NPAGES ->
    page_free p' j = page_free p j && negb (j =? k);
  tk_base : RESERVED_START p' = RESERVED_START p;
  tk_wf : wf p'
}.

Lemma word_free_none p i k :
  bsr (nthZ (bitmap p) i) = None -> 64 * i <= k < 64 * (i + 1) -> page_free p k = false.
Proof.
  intros Hb%bsr_None Hk. unfold page_free.
  replace (k / 64) with i by (apply Z.div_unique_pos with (k - 64 * i); lia).
  rewrite Hb. apply Z.testbit_0_l.
Qed.

Lemma allocate_loop_spec n : forall i p,
  wf p -> 0 <= i -> Z.of_nat n = PAGES - i ->
  let '(p', a) := allocate_loop n i p in
  (a = 0 /\ p' = p /\ forall k, 64 * i <= k < NPAGES -> page_free p k = false) \/
  (exists k, a = page_addr p k /\ takes p p' (64 * i) k).
Proof.
  induction n as [|n IH]; intros i p Hwf Hi Hn.
  { simpl. left. split_and!; [done..|]. intros k Hk. unfold NPAGES in Hk. lia. }
  destruct (bsr (nthZ (bitmap p) i)) as [b|] eqn:Hb.
  - assert (0 <= i < PAGES) as Hi' by lia.
    rewrite (allocate_step n i p b) by done. right.
    pose proof (bsr_spec _ b (wf_words p Hwf i Hi') Hb) as (Hr & Ht & Hj).
    assert (0 <= 64 * i + (63 - b) < NPAGES) by (unfold NPAGES; lia).
    exists (64 * i + (63 - b)). split; [by apply page_addr_u64|].
    destruct (page_word i (63 - b)) as [Ed Em]; [lia|]. split.
    + lia.
    + unfold page_free. rewrite Ed, Em. by replace (63 - (63 - b)) with b by lia.
    + intros j Hjr. unfold page_free.
      replace (j / 64) with i by (apply Z.div_unique_pos with (j - 64 * i); lia).
      replace (j mod 64) with (j - 64 * i) by (apply Z.mod_unique_pos with i; lia).
      apply Hj. lia.
    + intros j Hjr. by apply page_free_clear.
    + done.
    + apply wf_set_bitmap; [done|lia|]. apply clearbit_range. by apply wf_words.
  - simpl. rewrite Hb. specialize (IH (i + 1) p Hwf ltac:(lia) ltac:(lia)).
    destruct (allocate_loop n (i + 1) p) as [p' a].
    destruct IH as [(-> & -> & Hnone)|(k & -> & [H1 H2 H3 H4 H5 H6])].
    + left. split_and!; [done..|]. intros k Hk.
      destruct (decide (k < 64 * (i + 1))).
      * apply (word_free_none p i); [done|lia].
      * apply Hnone. lia.
    + right. exists k. split; [done|]. split; [lia|done| |done..].
      intros j Hjr. destruct (decide (j < 64 * (i + 1))).
      * apply (word_free_none p i); [done|lia].
      * apply H3. lia.
Qed.

Lemma start_word_bound p start :
  wf p -> RESERVED_START p <= start -> start < RESERVED_START p + PAGE_SIZE * NPAGES ->
  0 <= start_word p start < PAGES /\
  start_word p start = (start - RESERVED_START p) / PAGE_SIZE / 64.
Proof.
  intros [? ? ? ?] H1 H2. unfold start_word.
  rewrite wrap_small by (unfold in_u, NPAGES, PAGES, PAGE_SIZE, MEM_START in *; lia).
  split; [|done]. rewrite Z.div_div by (unfold PAGE_SIZE; lia). split.
  - apply Z.div_pos; unfold PAGE_SIZE; lia.
  - apply Z.div_lt_upper_bound; unfold NPAGES, PAGES, PAGE_SIZE in *; lia.
Qed.

(** Functional behaviour of [allocate_page_from] on every branch. *)
Lemma allocate_page_from_spec start p :
  wf p -> RESERVED_START p <= start ->
  start < RESERVED_START p + PAGE_SIZE * NPAGES ->
  let lo := 64 * start_word p start in
  let '(p', a) := allocate_page_from start p in
  (a = 0 /\ p' = p /\ forall k, lo <= k < NPAGES -> page_free p k = false) \/
  (exists k, a = page_addr p k /\ takes p p' lo k).
Proof.
  intros Hwf H1 H2. simpl. destruct (start_word_bound p start Hwf H1 H2) as [Hs _].
  unfold allocate_page_from. apply allocate_loop_spec; [done|lia|lia].
Qed.

(** ** Refinement to a set of free pages *)
Definition free_set (p : pmm) : gset Z :=
  list_to_set (filter (fun k => page_free p k = true) (seqZ 0 NPAGES)).

Lemma elem_of_free_set p k :
  k ∈ free_set p <-> 0 <= k < NPAGES /\ page_free p k = true.
Proof.
  unfold free_set. rewrite elem_of_list_to_set, list_elem_of_filter, elem_of_seqZ.
  split; intros; destruct_and!; split; (done || lia).
Qed.

(** The contract: an allocation from page [lo] on takes the least free page, and
    fails exactly when there is none. *)
Inductive spec_alloc (lo : Z) (S : gset Z) : option Z -> gset Z -> Prop :=
| spec_take k :
    k ∈ S -> lo <= k -> (forall j, j ∈ S -> lo <= j -> k <= j) ->
    spec_alloc lo S (Some k) (S ∖ {[k]})
| spec_exhausted :
    (forall j, j ∈ S -> j < lo) -> spec_alloc lo S None S.

(** The page number a returned pointer stands for ([NULL] is none). *)
Definition page_of (p : pmm) (a : Z) : option Z :=
  if a =? 0 then None else Some ((a - RESERVED_START p) / PAGE_SIZE).

Lemma page_of_addr p k : wf p -> 0 <= k -> page_of p (page_addr p k) = Some k.
Proof.
  intros [? ? ? ?] Hk. unfold page_of, page_addr, PAGE_SIZE.
  destruct (Z.eqb_spec (RESERVED_START p + 4096 * k) 0); [lia|]. f_equal.
  symmetry. apply Z.div_unique_pos with 0; lia.
Qed.

Lemma takes_set p p' lo k :
  0 <= lo -> takes p p' lo k ->
  spec_alloc lo (free_set p) (Some k) (free_set p').
Proof.
  intros Hlo [H1 H2 H3 H4 _ _].
  assert (free_set p' = free_set p ∖ {[k]}) as ->.
  { apply set_eq. intros j. rewrite elem_of_difference, !elem_of_free_set, elem_of_singleton.
    split.
    - intros [Hj Hf]. rewrite H4 in Hf by done. zb. done.
    - intros [[Hj Hf] Hne]. split; [done|]. rewrite H4 by done.
      apply andb_true_iff. split; [done|]. by apply negb_true_iff, Z.eqb_neq. }
  constructor.
  - apply elem_of_free_set. split; [lia|done].
  - lia.
  - intros j [Hj Hf]%elem_of_free_set Hl. apply Z.nlt_ge. intros Hlt.
    rewrite H3 in Hf by lia. done.
Qed.

Lemma allocate_set start p :
  wf p -> RESERVED_START p <= start -> start < RESERVED_START p + PAGE_SIZE * NPAGES ->
  let '(p', a) := allocate_page_from start p in
  wf p' /\ RESERVED_START p' = RESERVED_START p /\
  spec_alloc (64 * start_word p start) (free_set p) (page_of p a) (free_set p') /\
  (a = 0 \/ exists k, 0 <= k < NPAGES /\ a = page_addr p k).
Proof.
  intros Hwf H1 H2. pose proof (allocate_page_from_spec start p Hwf H1 H2) as Hs.
  pose proof (start_word_bound p start Hwf H1 H2) as [Hw _].
  cbv zeta in Hs. destruct (allocate_page_from start p) as [p' a].
  destruct Hs as [(-> & -> & Hn)|(k & -> & Ht)].
  - split_and!; [done..| |by left]. constructor. intros j [Hj Hf]%elem_of_free_set.
    apply Z.nle_gt. intros Hle. rewrite Hn in Hf by lia. done.
  - pose proof Ht as [? ? ? ? ? ?]. rewrite page_of_addr by (done || lia).
    split_and!; [done..|by apply takes_set; [lia|]|]. right. exists k. split; [lia|done].
Qed.

Lemma start_ok p : wf p ->
  RESERVED_START p <= MEM_START < RESERVED_START p + PAGE_SIZE * NPAGES /\
  RESERVED_START p < RESERVED_START p + PAGE_SIZE * NPAGES.
Proof. intros [? ? ? ?]. unfold NPAGES, PAGES, PAGE_SIZE, MEM_START in *. lia. Qed.

#[local] Opaque free_set.

(** ** Sequences of requests *)
Inductive request := AllocTable | AllocPage.

Definition serve (r : request) (p : pmm) : pmm * Z :=
  match r with
  | AllocTable => pmm_allocate_page_table p
  | AllocPage => pmm_allocate_page p
  end.

Fixpoint serve_all (rs : list request) (p : pmm) : pmm * list Z :=
  match rs with
  | [] => (p, [])
  | r :: rs =>
      let '(p1, a) := serve r p in
      let '(p2, l) := serve_all rs p1 in (p2, a :: l)
  end.

Definition serve_lo (r : request) (p : pmm) : Z :=
  match r with
  | AllocTable => 64 * start_word p (RESERVED_START p)
  | AllocPage => 64 * start_word p MEM_START
  end.

Lemma serve_set r p : wf p ->
  let '(p', a) := serve r p in
  wf p' /\ RESERVED_START p' = RESERVED_START p /\
  spec_alloc (serve_lo r p) (free_set p) (page_of p a) (free_set p') /\
  (a = 0 \/ exists k, 0 <= k < NPAGES /\ a = page_addr p k).
Proof.
  intros Hwf. destruct (start_ok p Hwf) as [? ?].
  destruct r; simpl; apply allocate_set; (done || lia).
Qed.

(** Pages handed out by a run were free before it, and are no longer. *)
Lemma serve_all_fresh rs : forall p, wf p ->
  let '(p', l) := serve_all rs p in
  wf p' /\ RESERVED_START p' = RESERVED_START p /\
  NoDup (filter (fun a => a ≠ 0) l) /\
  (forall a, a ∈ l -> a ≠ 0 ->
     exists k, a = page_addr p k /\ k ∈ free_set p /\ k ∉ free_set p') /\
  free_set p' ⊆ free_set p.
Proof.
  induction rs as [|r rs IH]; intros p Hwf; simpl.
  { split_and!; [done|done|constructor|set_solver|done]. }
  pose proof (serve_set r p Hwf) as Hs. destruct (serve r p) as [p1 a].
  destruct Hs as (Hwf1 & Hrs1 & Hsp & Ha). specialize (IH p1 Hwf1).
  destruct (serve_all rs p1) as [p2 l]. destruct IH as (Hwf2 & Hrs2 & Hnd & Hl & Hsub).
  assert (free_set p1 ⊆ free_set p) as Hsub1 by (inversion Hsp; set_solver).
  assert (forall b, b ∈ l -> b ≠ 0 ->
    exists k, b = page_addr p k /\ k ∈ free_set p1 /\ k ∉ free_set p2) as Hl1.
  { intros b Hb Hb0. destruct (Hl b Hb Hb0) as (k & -> & ? & ?).
    exists k. unfold page_addr. by rewrite Hrs1. }
  destruct Ha as [->|(k & Hk & ->)].
  { split_and!; [done|congruence| | |set_solver].
    - rewrite filter_cons_False by naive_solver. done.
    - intros b [->|Hb]%elem_of_cons Hb0; [done|].
      destruct (Hl1 b Hb Hb0) as (k & ? & ? & ?). exists k. set_solver. }
  rewrite page_of_addr in Hsp by (done || lia). inversion Hsp as [? Hin Hlo Hmin E1 E2|].
  assert (page_addr p k ≠ 0) as Hnz
    by (destruct Hwf; unfold page_addr, PAGE_SIZE; lia).
  split_and!; [done|congruence| | |set_solver].
  - rewrite filter_cons_True by done. constructor; [|done].
    rewrite list_elem_of_filter. intros [_ Hb]. destruct (Hl1 _ Hb Hnz) as (k' & E & Hk' & _).
    assert (k' = k) as -> by (unfold page_addr, PAGE_SIZE in E; lia).
    rewrite <- E2 in Hk'. set_solver.
  - intros b [->|Hb]%elem_of_cons Hb0.
    + exists k. rewrite <- E2 in Hsub. set_solver.
    + destruct (Hl1 b Hb Hb0) as (k' & ? & ? & ?). exists k'. set_solver.
Qed.

Lemma pmm_init_wf base :
  0 < base <= MEM_START -> base mod PAGE_SIZE = 0 -> wf (pmm_init base).
Proof.
  intros H1 H2. split; unfold pmm_init; cbn [bitmap RESERVED_START];
    [|intros i Hi|done|done].
  - by rewrite length_replicate.
  - unfold nthZ. rewrite lookup_replicate_2 by lia. simpl. unfold in_u. lia.
Qed.

(** ** Properties *)

(** C6: on every well-formed bitmap both allocation functions behave as the
    abstract operation on the set of free pages: they return the least free
    page at or above their starting word and remove exactly that page, or, when
    no such page is free, return NULL and change nothing; the bitmap stays
    well formed. *)
Theorem pmm_refines_free_set (r : request) (p : pmm) (Hwf : wf p) :
  wf (serve r p).1 /\
  spec_alloc (serve_lo r p) (free_set p) (page_of p (serve r p).2) (free_set (serve r p).1) /\
  ((serve r p).2 = 0 -> page_of p (serve r p).2 = None).
Proof.
  pose proof (serve_set r p Hwf) as Hs. destruct (serve r p) as [p' a]; simpl.
  destruct Hs as (? & ? & ? & ?). split_and!; [done..|]. by intros ->.
Qed.

Lemma pmm_refines_free_set_witness :
  (serve AllocTable (pmm_init 0x40000)).2 = 0x40000 /\
  spec_alloc 0 (free_set (pmm_init 0x40000)) (Some 0)
    (free_set (serve AllocTable (pmm_init 0x40000)).1).
Proof.
  split; [vm_compute; reflexivity|].
  apply (pmm_refines_free_set AllocTable (pmm_init 0x40000)).
  apply pmm_init_wf; [unfold MEM_START; lia|reflexivity].
Defined.

(** no page is handed out twice.  For every sequence of page-table and page
    requests, the non-NULL results are pairwise distinct, each is a
    4 KiB-aligned address inside the 128 MiB window above [RESERVED_START],
    was free before the run and is allocated after it. *)
Theorem pmm_no_double_allocation (rs : list request) (p : pmm) (Hwf : wf p) :
  NoDup (filter (fun a => a ≠ 0) (serve_all rs p).2) /\
  Forall (fun a => a = 0 \/
    (a mod PAGE_SIZE = 0 /\
     RESERVED_START p <= a < RESERVED_START p + 128 * 1024 * 1024 /\
     page_free p ((a - RESERVED_START p) / PAGE_SIZE) = true /\
     page_free (serve_all rs p).1 ((a - RESERVED_START p) / PAGE_SIZE) = false))
    (serve_all rs p).2.
Proof.
  pose proof (serve_all_fresh rs p Hwf) as Hs. destruct (serve_all rs p) as [p' l]; simpl.
  destruct Hs as (Hwf' & Hrs & Hnd & Hl & _). split; [done|].
  apply Forall_forall. intros a Ha. destruct (decide (a = 0)); [by left|right].
  destruct (Hl a Ha) as (k & -> & Hin & Hout); [done|].
  pose proof (proj1 (elem_of_free_set p k) Hin) as [Hk Hf].
  assert ((page_addr p k - RESERVED_START p) / PAGE_SIZE = k) as E
    by (unfold page_addr, PAGE_SIZE; symmetry; apply Z.div_unique_pos with 0; lia).
  destruct Hwf as [? ? ? Hal]. rewrite E. split_and!; [| | |done|].
  - unfold page_addr. by rewrite Z.mul_comm, Z_mod_plus_full.
  - unfold page_addr, PAGE_SIZE. lia.
  - unfold page_addr, NPAGES, PAGES, PAGE_SIZE in *. lia.
  - apply not_true_iff_false. intros Hf'. apply Hout, elem_of_free_set. done.
Qed.

Lemma pmm_no_double_allocation_witness :
  (serve_all [AllocTable; AllocPage; AllocTable; AllocPage] (pmm_init 0x40000)).2
    = [0x40000; 0x200000; 0x41000; 0x201000] /\
  NoDup (filter (fun a => a ≠ 0)
    (serve_all [AllocTable; AllocPage; AllocTable; AllocPage] (pmm_init 0x40000)).2).
Proof.
  split; [vm_compute; reflexivity|]. apply pmm_no_double_allocation. apply pmm_init_wf; [unfold MEM_START; lia|reflexivity].
Defined.

(** where data pages come from.  [pmm_allocate_page] starts at the bitmap
    word that contains [MEM_START], so a page it returns lies at most 63 pages
    below [MEM_START], and at or above it when the distance from
    [RESERVED_START] to [MEM_START] is a multiple of 64 pages. *)
Theorem pmm_allocate_page_lower_bound (p : pmm)
    (Hwf : wf p) (Hok : (pmm_allocate_page p).2 ≠ 0) :
  MEM_START - 63 * PAGE_SIZE <= (pmm_allocate_page p).2 /\
  ((MEM_START - RESERVED_START p) mod (64 * PAGE_SIZE) = 0 ->
   MEM_START <= (pmm_allocate_page p).2).
Proof.
  destruct (start_ok p Hwf) as [[H1 H2] _].
  pose proof (allocate_page_from_spec MEM_START p Hwf H1 H2) as Hs.
  destruct (start_word_bound p MEM_START Hwf H1 H2) as [Hw E].
  unfold pmm_allocate_page in *. cbv zeta in Hs.
  destruct (allocate_page_from MEM_START p) as [p' a]; simpl in *.
  destruct Hs as [(-> & _)|(k & -> & [Hk _ _ _ _ _])]; [done|].
  rewrite Z.div_div in E by (unfold PAGE_SIZE; lia).
  pose proof (Z.div_mod (MEM_START - RESERVED_START p) (PAGE_SIZE * 64)) as Hdm.
  pose proof (Z.mod_pos_bound (MEM_START - RESERVED_START p) (PAGE_SIZE * 64)) as Hb.
  destruct Hwf as [_ _ _ Hal].
  assert (((MEM_START - RESERVED_START p) mod (PAGE_SIZE * 64)) mod PAGE_SIZE = 0) as Hm.
  { rewrite <- Znumtheory.Zmod_div_mod; [|unfold PAGE_SIZE; lia..|by exists 64].
    rewrite Zminus_mod, Hal. done. }
  rewrite <- E in Hdm. unfold page_addr in *.
  rewrite (Z.mul_comm 64 PAGE_SIZE).
  set (q := start_word p MEM_START) in *.
  set (m := (MEM_START - RESERVED_START p) mod (PAGE_SIZE * 64)) in *.
  apply Z.mod_divide in Hm as [c Hc]; [|done]. unfold PAGE_SIZE in *.
  specialize (Hdm ltac:(lia)). specialize (Hb ltac:(lia)).
  split; [|intros E0]; lia.
Qed.

Lemma pmm_allocate_page_lower_bound_witness :
  (pmm_allocate_page (pmm_init 0x50000)).2 = 0x1d0000 /\
  MEM_START - 63 * PAGE_SIZE <= (pmm_allocate_page (pmm_init 0x50000)).2.
Proof.
  split; [vm_compute; reflexivity|].
  apply pmm_allocate_page_lower_bound; [|vm_compute; discriminate].
  apply pmm_init_wf; [unfold MEM_START; lia|reflexivity].
Defined.

End PMM.

(** ** What the virtual memory manager relies on
    A supply of page frames: what an allocation gives as long as enough pages
    are left.  [ps_avail s n] says that [n] more requests of any kind succeed. *)
Class PageSupply (P : Type) := {
  ps_table : P -> P * Z;
  ps_page : P -> P * Z;
  ps_inv : P -> Prop;
  ps_avail : P -> nat -> Prop;
  ps_free : P -> Z -> Prop
}.

Record ps_gives `{PageSupply P} (s s' : P) (a : Z) : Prop := {
  gives_inv : ps_inv s';
  gives_nonnull : a ≠ 0;
  gives_aligned : a mod 4096 = 0;
  gives_range : 0 <= a < 2 ^ 40;
  gives_was_free : ps_free s a;
  gives_frame : forall b, ps_free s' b <-> ps_free s b /\ b ≠ a
}.

Class PageSupplyOk (P : Type) `{PageSupply P} : Prop := {
  ps_table_ok : forall s n, ps_inv s -> ps_avail s (S n) ->
    ps_gives s (ps_table s).1 (ps_table s).2 /\ ps_avail (ps_table s).1 n;
  ps_page_ok : forall s n, ps_inv s -> ps_avail s (S n) ->
    ps_gives s (ps_page s).1 (ps_page s).2 /\ ps_avail (ps_page s).1 n;
  ps_avail_mono : forall s n m, ps_avail s n -> (m <= n)%nat -> ps_avail s m
}.

Module PmmSupply.
Import PMM.

(** Free pages in the words [pmm_allocate_page] searches. *)
Definition high_free (p : pmm) : gset Z :=
  filter (fun k => 64 * start_word p MEM_START <= k) (free_set p).

#[export] Instance pmm_supply : PageSupply pmm := {
  ps_table := pmm_allocate_page_table;
  ps_page := pmm_allocate_page;
  ps_inv := wf;
  ps_avail p n := (n <= size (high_free p))%nat;
  ps_free p a := exists k, k ∈ free_set p /\ a = page_addr p k
}.

Lemma size_high_free p p' k :
  free_set p' = free_set p ∖ {[k]} -> RESERVED_START p' = RESERVED_START p ->
  (size (high_free p) <= S (size (high_free p')))%nat.
Proof.
  intros E Hr. unfold high_free. rewrite E.
  replace (start_word p' MEM_START) with (start_word p MEM_START)
    by (unfold start_word; by rewrite Hr).
  set (P k' := 64 * start_word p MEM_START <= k').
  transitivity (size ({[k]} ∪ filter P (free_set p ∖ {[k]}))).
  - apply subseteq_size. intros j. rewrite elem_of_union, !elem_of_filter,
      elem_of_difference, elem_of_singleton.
    destruct (decide (j = k)); naive_solver.
  - rewrite size_union_alt, size_singleton.
    pose proof (subseteq_size (filter P (free_set p ∖ {[k]}) ∖ {[k]})
      (filter P (free_set p ∖ {[k]})) ltac:(set_solver)). lia.
Qed.

#[local] Opaque free_set.

(** A free page in the high words is in reach of both requests. *)
Lemma high_free_reachable r p :
  wf p -> (0 < size (high_free p))%nat -> exists j, j ∈ free_set p /\ serve_lo r p <= j.
Proof.
  intros Hwf Hn. destruct (size_pos_elem_of (high_free p)) as [j Hj]; [lia|].
  unfold high_free in Hj. apply elem_of_filter in Hj as [Hlo Hj]. exists j.
  split; [done|]. destruct r; [|exact Hlo]. unfold serve_lo.
  apply elem_of_free_set in Hj as [? _]. destruct (start_ok p Hwf) as [? ?].
  destruct (start_word_bound p (RESERVED_START p)) as [_ ->]; [done|lia|lia|].
  rewrite Z.sub_diag. change (0 / PAGE_SIZE / 64) with 0. lia.
Qed.

Lemma page_addr_facts p k :
  wf p -> 0 <= k < NPAGES ->
  page_addr p k ≠ 0 /\ page_addr p k mod 4096 = 0 /\ 0 <= page_addr p k < 2 ^ 40.
Proof.
  intros [? ? ? Hal] Hk. unfold page_addr, NPAGES, PAGES, PAGE_SIZE, MEM_START in *.
  split_and!; [lia| |lia..]. by rewrite Z.mul_comm, Z_mod_plus_full.
Qed.

Lemma taken_gives p p' k :
  wf p -> wf p' -> k ∈ free_set p -> free_set p' = free_set p ∖ {[k]} ->
  RESERVED_START p' = RESERVED_START p -> ps_gives p p' (page_addr p k).
Proof.
  intros Hwf Hwf' Hin E Hrs. pose proof (proj1 (elem_of_free_set p k) Hin) as [Hk _].
  destruct (page_addr_facts p k Hwf Hk) as (? & ? & ?).
  split; [done..|by exists k|]. intros b. split.
  - intros (k' & Hk' & ->). rewrite E in Hk'.
    apply elem_of_difference in Hk' as [Hk' Hne]. unfold page_addr. rewrite Hrs. split.
    + by exists k'.
    + intros Eq. apply Hne, elem_of_singleton. unfold PAGE_SIZE in Eq. lia.
  - intros [(k' & Hk' & ->) Hne]. exists k'. rewrite E. split.
    + apply elem_of_difference. split; [done|]. by intros ->%elem_of_singleton.
    + unfold page_addr. by rewrite Hrs.
Qed.

Lemma serve_gives r p n :
  wf p -> (S n <= size (high_free p))%nat ->
  ps_gives p (serve r p).1 (serve r p).2 /\ (n <= size (high_free (serve r p).1))%nat.
Proof.
  intros Hwf Hn. pose proof (serve_set r p Hwf) as Hs.
  destruct (serve r p) as [p' a]; cbn [fst snd]. destruct Hs as (Hwf' & Hrs & Hsp & Ha).
  destruct (high_free_reachable r p) as (j & Hj & Hlo); [done|lia|].
  destruct Ha as [->|(k & Hk & ->)].
  { inversion Hsp as [|Hnone]. specialize (Hnone j Hj). lia. }
  rewrite page_of_addr in Hsp by (done || lia). inversion Hsp as [? Hin ? ? E1 E2|].
  symmetry in E2. split; [by apply taken_gives|].
  pose proof (size_high_free p p' k E2 Hrs). lia.
Qed.

#[export] Instance pmm_supply_ok : PageSupplyOk pmm.
Proof.
  split.
  - intros s n ? ?. apply (serve_gives AllocTable); done.
  - intros s n ? ?. apply (serve_gives AllocPage); done.
  - simpl. intros. lia.
Qed.

End PmmSupply.
