(* ===== verification/Paging.v ===== *)
(** Page tables: the paging half of [src/src/kernel/src/memory/VMM.c]
    ([vmm_map_memory], [ensure_pages_mapped], [set_page_permission],
    [vmm_set_page_permissions]).

    Physical memory is a map from the address of an 8-byte cell to its value:
    every access of this code is to a [uint64_t] entry or clears a whole page,
    and the tables lie in the identity-mapped low memory, so a table pointer is
    its physical address.  A cell never written reads as zero.  The hardware
    side, the four-level walk of the x86-64 MMU, is [walk] and [frame].  The
    invariant [tables_ok] says that the tables form a tree; the theorems show
    that mapping a page changes the translation of that page only. *)
From S2P Require Import Prelude PMM.

Module Paging.

(** ** Constants *)
Definition NO_EXEC_BIT : Z := 1 <<< 63.
Definition ADDRESS_MASK : Z := 0xfffffff000.
Definition USER_ACCESS_BIT : Z := 0x4.
Definition READ_WRITE_BIT : Z := 0x2.
Definition PRESENT_BIT : Z := 0x1.
Definition DIRECTORY_DEFAULTS : Z := READ_WRITE_BIT ||| PRESENT_BIT.
Definition PAGE_SIZE : Z := 0x1000.

(** [~0xfff], an [int] converted to [uint64_t]. *)
Definition NOT_FFF : Z := u64 (Z.lnot 0xfff).

Section Paging.
Context {P : Type} `{!PageSupply P}.

(** The state the code works on: memory, the global [pt4], the physical page
    supply, the interrupt flag and the addresses given to [invlpg]. *)
Record paging := MkPaging {
  mem : gmap Z Z;
  pt4 : Z;
  supply : P;
  IF : bool;
  flushed : list Z
}.

Definition rd (s : paging) (a : Z) : Z := default 0 (mem s !! a).
Definition set_mem (s : paging) (m : gmap Z Z) : paging :=
  MkPaging m (pt4 s) (supply s) (IF s) (flushed s).
Definition wr (s : paging) (a v : Z) : paging := set_mem s (<[a := v]> (mem s)).
Definition set_supply (s : paging) (p : P) : paging :=
  MkPaging (mem s) (pt4 s) p (IF s) (flushed s).
Definition set_IF (s : paging) (b : bool) : paging :=
  MkPaging (mem s) (pt4 s) (supply s) b (flushed s).

Definition are_interrupts_enabled (s : paging) : bool := IF s.
Definition disable_interrupts (s : paging) : paging := set_IF s false.
Definition enable_interrupts (s : paging) : paging := set_IF s true.

Definition flush_tlb (addr : Z) (s : paging) : paging :=
  MkPaging (mem s) (pt4 s) (supply s) (IF s) (flushed s ++ [addr]).

(** [kmemset(a, 0, 8 * n)] on cells. *)
Fixpoint clear_cells (n : nat) (a : Z) (m : gmap Z Z) : gmap Z Z :=
  match n with
  | O => m
  | S n' => clear_cells n' (a + 8) (<[a := 0]> m)
  end.

Definition allocate_page_table (s : paging) : paging * Z :=
  let '(p, table) := ps_table (supply s) in
  let s := set_supply s p in
  (set_mem s (clear_cells 512 table (mem s)), table).

Definition present (e : Z) : bool := truth (e &&& PRESENT_BIT).

(** The block "Check P4/P3/P2 entry": create the lower table or refresh the
    flags of the entry [table->entries[index]]. *)
Definition ensure_entry (table index flags : Z) (s : paging) : paging :=
  let slot := table + 8 * index in
  if negb (present (rd s slot)) then
    let '(s, lower) := allocate_page_table s in
    wr s slot (lower ||| flags)
  else
    wr s slot ((rd s slot &&& NOT_FFF) ||| flags).

Definition pt_index (shift virtual : Z) : Z := (virtual >>> shift) &&& 0x1ff.

(** The block "Check P1 (page table) entry"; returns the value of the variable
    [physical] after it. *)
Definition map_page (page_table page_index physical flags : Z) (s : paging) : paging * Z :=
  let slot := page_table + 8 * page_index in
  if negb (present (rd s slot)) then
    let '(s, physical) :=
      if physical =? 0 then
        let '(p, a) := ps_page (supply s) in (set_supply s p, a)
      else (s, physical) in
    (wr s slot (physical ||| flags ||| NO_EXEC_BIT), physical)
  else
    (wr s slot ((rd s slot &&& NOT_FFF) ||| flags ||| NO_EXEC_BIT), physical).

Definition vmm_map_memory (physical virtual flags : Z) (s : paging) : paging :=
  let pt4_index := pt_index 39 virtual in
  let pt3_index := pt_index 30 virtual in
  let pt2_index := pt_index 21 virtual in
  let page_index := pt_index 12 virtual in
  let interrupts := are_interrupts_enabled s in
  let s := disable_interrupts s in
  let s := ensure_entry (pt4 s) pt4_index flags s in
  let pt3 := rd s (pt4 s + 8 * pt4_index) &&& ADDRESS_MASK in
  let s := ensure_entry pt3 pt3_index flags s in
  let pt2 := rd s (pt3 + 8 * pt3_index) &&& ADDRESS_MASK in
  let s := ensure_entry pt2 pt2_index flags s in
  let page_table := rd s (pt2 + 8 * pt2_index) &&& ADDRESS_MASK in
  let '(s, physical) := map_page page_table page_index physical flags s in
  let s := flush_tlb physical s in
  if interrupts then enable_interrupts s else s.

(** The loop of [ensure_pages_mapped], [n] pages still to map from page [i] on
    ([i] counts up, [physical] advances unless it is NULL). *)
Fixpoint map_pages (n : nat) (i : Z) (physical vstart flags : Z) (s : paging) : paging :=
  match n with
  | O => s
  | S n' =>
      let s := vmm_map_memory physical (u64 (vstart + i * PAGE_SIZE)) flags s in
      let physical := if negb (physical =? 0) then u64 (physical + PAGE_SIZE) else physical in
      map_pages n' (i + 1) physical vstart flags s
  end.

(** ** The MMU
    [PHYS_MASK] selects bits 51:12 of an entry; depth 0 is the table in CR3. *)
Definition PHYS_MASK : Z := 0xffffffffff000.

Definition didx (d : nat) (v : Z) : Z := pt_index (39 - 9 * Z.of_nat d) v.

Fixpoint walk (d : nat) (s : paging) (v : Z) : option Z :=
  match d with
  | O => Some (pt4 s)
  | S d' =>
      match walk d' s v with
      | None => None
      | Some t =>
          let e := rd s (t + 8 * didx d' v) in
          if present e then Some (e &&& PHYS_MASK) else None
      end
  end.

(** The page-table entry of [v], and the frame it is translated to. *)
Definition pte (s : paging) (v : Z) : option Z :=
  match walk 3 s v with
  | None => None
  | Some t =>
      let e := rd s (t + 8 * didx 3 v) in
      if present e then Some e else None
  end.

Definition frame (s : paging) (v : Z) : option Z :=
  match pte s v with None => None | Some e => Some (e &&& PHYS_MASK) end.

(** The part of [v] that selects the table at depth [d]; depth 4 is the page. *)
Definition dprefix (d : nat) (v : Z) : Z := v >>> (48 - 9 * Z.of_nat d).

Definition page_of (v : Z) : Z := v >>> 12.

(** ** The tables form a tree
    [O] gives every table its depth and the prefix of the addresses below it. *)
Record tables_ok (s : paging) (O : gmap Z (nat * Z)) : Prop := {
  tk_supply : ps_inv (supply s);
  tk_root : O !! pt4 s = Some (0%nat, 0);
  tk_inj : forall t1 t2 x, O !! t1 = Some x -> O !! t2 = Some x -> t1 = t2;
  tk_tab : forall t d q, O !! t = Some (d, q) ->
    t mod 4096 = 0 /\ in_u 40 t /\ (d <= 3)%nat /\ ~ ps_free (supply s) t;
  tk_edge : forall t d q i, O !! t = Some (d, q) -> (d < 3)%nat -> 0 <= i < 512 ->
    present (rd s (t + 8 * i)) = true ->
    O !! (rd s (t + 8 * i) &&& PHYS_MASK) = Some (S d, q * 512 + i);
  tk_reach : forall t d q, O !! t = Some (S d, q) ->
    exists t' i, O !! t' = Some (d, q / 512) /\ 0 <= i < 512 /\ i = q mod 512 /\
      present (rd s (t' + 8 * i)) = true /\ rd s (t' + 8 * i) &&& PHYS_MASK = t
}.

End Paging.
Arguments paging : clear implicits.
#[global] Arguments clear_cells : simpl never.

(** ** Entry arithmetic *)
Lemma PHYS_MASK_bits i : Z.testbit PHYS_MASK i = bool_decide (12 <= i < 52).
Proof.
  change PHYS_MASK with (Z.shiftl (Z.ones 40) 12). rewrite testbit_mask by lia. done.
Qed.
Lemma ADDRESS_MASK_bits i : Z.testbit ADDRESS_MASK i = bool_decide (12 <= i < 40).
Proof.
  change ADDRESS_MASK with (Z.shiftl (Z.ones 28) 12). rewrite testbit_mask by lia. done.
Qed.
Lemma NOT_FFF_bits i : Z.testbit NOT_FFF i = bool_decide (12 <= i < 64).
Proof.
  change NOT_FFF with (Z.shiftl (Z.ones 52) 12). rewrite testbit_mask by lia. done.
Qed.
Lemma NO_EXEC_BIT_bits i : Z.testbit NO_EXEC_BIT i = bool_decide (i = 63).
Proof.
  change NO_EXEC_BIT with (Z.shiftl (Z.ones 1) 63). rewrite testbit_mask by lia.
  apply bool_decide_ext. lia.
Qed.

Lemma present_testbit e : present e = Z.testbit e 0.
Proof.
  unfold present, PRESENT_BIT, truth. rewrite Z.bit0_odd.
  change 1 with (Z.ones 1). rewrite Z.land_ones by lia.
  rewrite Zmod_odd. by destruct (Z.odd e).
Qed.

(** Case split on the position of bit [i] in an entry. *)
Ltac entry_bits :=
  let i := fresh "i" in
  apply Z.bits_inj'; intros i ?; push_bits;
  rewrite ?PHYS_MASK_bits, ?ADDRESS_MASK_bits, ?NOT_FFF_bits, ?NO_EXEC_BIT_bits;
  repeat case_bool_decide; try lia;
  rewrite ?andb_true_r, ?andb_false_r, ?orb_false_r, ?orb_false_l; try done.

Lemma entry_phys a fl :
  a mod 4096 = 0 -> in_u 52 a -> in_u 12 fl -> (a ||| fl) &&& PHYS_MASK = a.
Proof.
  intros Ha Hr Hf. entry_bits.
  - rewrite (testbit_high 12 fl) by (done || lia). by rewrite orb_false_r.
  - destruct (decide (i < 12)); [symmetry; by apply (testbit_aligned 12)|].
    symmetry. apply (testbit_high 52); [done|lia].
Qed.

Lemma leaf_phys a fl :
  a mod 4096 = 0 -> in_u 52 a -> in_u 12 fl ->
  (a ||| fl ||| NO_EXEC_BIT) &&& PHYS_MASK = a.
Proof.
  intros Ha Hr Hf. rewrite <- (entry_phys a fl) at 2 by done. entry_bits.
Qed.

Lemma refresh_phys e fl :
  in_u 12 fl -> ((e &&& NOT_FFF) ||| fl) &&& PHYS_MASK = e &&& PHYS_MASK.
Proof.
  intros Hf. entry_bits. rewrite (testbit_high 12 fl) by (done || lia).
  by rewrite orb_false_r.
Qed.

Lemma refresh_leaf_phys e fl :
  in_u 12 fl -> ((e &&& NOT_FFF) ||| fl ||| NO_EXEC_BIT) &&& PHYS_MASK = e &&& PHYS_MASK.
Proof. intros Hf. rewrite <- (refresh_phys e fl Hf). entry_bits. Qed.

Lemma address_mask_phys e : in_u 40 (e &&& PHYS_MASK) -> e &&& ADDRESS_MASK = e &&& PHYS_MASK.
Proof.
  intros Hr. entry_bits. symmetry.
  pose proof (testbit_high 40 _ i Hr ltac:(lia)) as Hb.
  rewrite Z.land_spec, PHYS_MASK_bits, bool_decide_eq_true_2, andb_true_r in Hb by lia. done.
Qed.

(** A low flag bit of an entry whose address part is page aligned. *)
Lemma entry_flag a fl b :
  a mod 4096 = 0 -> 0 <= b < 12 -> Z.testbit (a ||| fl) b = Z.testbit fl b.
Proof. intros. rewrite Z.lor_spec, (testbit_aligned 12 a) by (done || lia). done. Qed.

Lemma refresh_flag e fl b :
  0 <= b < 12 -> Z.testbit ((e &&& NOT_FFF) ||| fl) b = Z.testbit fl b.
Proof.
  intros. rewrite Z.lor_spec, Z.land_spec, NOT_FFF_bits, bool_decide_eq_false_2 by lia.
  by rewrite andb_false_r.
Qed.

Lemma no_exec_flag x b : 0 <= b < 63 -> Z.testbit (x ||| NO_EXEC_BIT) b = Z.testbit x b.
Proof.
  intros. rewrite Z.lor_spec, NO_EXEC_BIT_bits, bool_decide_eq_false_2 by lia.
  apply orb_false_r.
Qed.

(** ** Indices and prefixes *)
Lemma didx_range d v : 0 <= didx d v < 512.
Proof. apply (land_range 9). unfold in_u. lia. Qed.

Lemma dprefix_S d v : (d <= 3)%nat -> dprefix (S d) v = dprefix d v * 512 + didx d v.
Proof.
  intros. unfold dprefix, didx, pt_index. change 0x1ff with (2 ^ 9 - 1).
  rewrite shiftr_mask by lia. rewrite !Z.shiftr_div_pow2 by lia.
  replace (48 - 9 * Z.of_nat (S d)) with (39 - 9 * Z.of_nat d) by lia.
  replace (48 - 9 * Z.of_nat d) with (39 - 9 * Z.of_nat d + 9) by lia.
  rewrite Z.pow_add_r by lia. rewrite <- Z.div_div by lia.
  change 512 with (2 ^ 9). rewrite (Z.mul_comm _ (2 ^ 9)). apply Z.div_mod. lia.
Qed.

Lemma dprefix_0 v : in_u 48 v -> dprefix 0 v = 0.
Proof. intros. unfold dprefix. rewrite Z.shiftr_div_pow2 by lia. apply Z.div_small. done. Qed.

(** Equal prefixes at depth [S d] are equal prefixes and indices at depth [d]. *)
Lemma dprefix_S_inj d v w :
  (d <= 3)%nat -> dprefix (S d) v = dprefix (S d) w <->
  dprefix d v = dprefix d w /\ didx d v = didx d w.
Proof.
  intros. rewrite !dprefix_S by done.
  pose proof (didx_range d v). pose proof (didx_range d w). lia.
Qed.

(** Slots of aligned tables are equal only when table and index are. *)
Lemma slot_inj t i t' i' :
  t mod 4096 = 0 -> t' mod 4096 = 0 -> 0 <= i < 512 -> 0 <= i' < 512 ->
  t + 8 * i = t' + 8 * i' -> t = t' /\ i = i'.
Proof.
  intros Ht Ht' Hi Hi' E. apply Z.mod_divide in Ht as [c ->]; [|lia].
  apply Z.mod_divide in Ht' as [c' ->]; [|lia]. lia.
Qed.

Lemma clear_cells_S n a m : clear_cells (S n) a m = clear_cells n (a + 8) (<[a := 0]> m).
Proof. done. Qed.

Lemma clear_cells_in n : forall a m i,
  0 <= i < Z.of_nat n -> clear_cells n a m !! (a + 8 * i) = Some 0.
Proof.
  assert (forall k a m b, b < a -> clear_cells k a m !! b = m !! b) as Hlow.
  { induction k as [|k IH]; intros a m b Hb; try rewrite clear_cells_S; [done|].
    rewrite IH by lia. apply lookup_insert_ne. lia. }
  induction n as [|n IH]; intros a m i Hi; try rewrite clear_cells_S; [lia|].
  destruct (decide (i = 0)) as [->|].
  - rewrite Z.mul_0_r, Z.add_0_r, Hlow by lia. apply lookup_insert_eq.
  - replace (a + 8 * i) with (a + 8 + 8 * (i - 1)) by lia. apply IH. lia.
Qed.

Lemma clear_cells_out n : forall a m b,
  (forall i, 0 <= i < Z.of_nat n -> b ≠ a + 8 * i) -> clear_cells n a m !! b = m !! b.
Proof.
  induction n as [|n IH]; intros a m b Hb; try rewrite clear_cells_S; [done|].
  rewrite IH; [apply lookup_insert_ne; specialize (Hb 0); lia|].
  intros i Hi. specialize (Hb (i + 1)). lia.
Qed.

#[local] Opaque clear_cells.

Section Facts.
Context {P : Type} `{!PageSupply P} `{!PageSupplyOk P}.
Implicit Types (s : paging P) (O : gmap Z (nat * Z)).

Lemma rd_set_mem s m a : rd (set_mem s m) a = default 0 (m !! a).
Proof. done. Qed.
Lemma rd_wr_eq s a v : rd (wr s a v) a = v.
Proof. unfold rd, wr. simpl. by rewrite lookup_insert_eq. Qed.
Lemma rd_wr_ne s a b v : a ≠ b -> rd (wr s a v) b = rd s b.
Proof. intros. unfold rd, wr. simpl. by rewrite lookup_insert_ne. Qed.

(** The table the walk reaches for [v] at depth [d] is the one registered for
    the prefix of [v]. *)
Lemma walk_registered s O v : tables_ok s O -> in_u 48 v ->
  forall d t, (d <= 3)%nat -> walk d s v = Some t -> O !! t = Some (d, dprefix d v).
Proof.
  intros Hok Hv. induction d as [|d IH]; intros t Hd; simpl.
  - intros [= <-]. rewrite dprefix_0 by done. apply tk_root. done.
  - destruct (walk d s v) as [t'|] eqn:E; [|done]. case_match eqn:Hp; [|done].
    intros [= <-]. rewrite dprefix_S by lia.
    apply (tk_edge s O Hok t' d); [apply IH; (done || lia)|lia|apply didx_range|done].
Qed.

(** A slot of a registered table. *)
Definition slot_of O (t i : Z) : Prop := (exists x, O !! t = Some x) /\ 0 <= i < 512.

Lemma slots_distinct s O t i t' i' : tables_ok s O ->
  slot_of O t i -> slot_of O t' i' -> t + 8 * i = t' + 8 * i' -> t = t' /\ i = i'.
Proof.
  intros Hok [[[d q] Ht] Hi] [[[d' q'] Ht'] Hi'].
  destruct (tk_tab s O Hok _ _ _ Ht) as (? & _). destruct (tk_tab s O Hok _ _ _ Ht') as (? & _).
  by apply slot_inj.
Qed.

(** *** Writing an entry that stays present with the same address *)
Section Refresh.
Variables (s : paging P) (O : gmap Z (nat * Z)) (t i e : Z) (d : nat) (q : Z).
Hypothesis Hok : tables_ok s O.
Hypothesis Ht : O !! t = Some (d, q).
Hypothesis Hi : 0 <= i < 512.
Hypothesis Hold : present (rd s (t + 8 * i)) = true.
Hypothesis Hnew : present e = true.
Hypothesis Haddr : e &&& PHYS_MASK = rd s (t + 8 * i) &&& PHYS_MASK.

Let s' := wr s (t + 8 * i) e.

Lemma refresh_rd a :
  present (rd s' a) = present (rd s a) /\ rd s' a &&& PHYS_MASK = rd s a &&& PHYS_MASK.
Proof.
  unfold s'. destruct (decide (t + 8 * i = a)) as [<-|].
  - rewrite rd_wr_eq. by rewrite Hold.
  - by rewrite rd_wr_ne.
Qed.

Lemma refresh_ok : tables_ok s' O.
Proof.
  destruct Hok as [H1 H2 H3 H4 H5 H6]. split; [done..| |].
  - intros t1 d1 q1 i1 A B C D. destruct (refresh_rd (t1 + 8 * i1)) as [E1 E2].
    rewrite E2. apply (H5 t1 d1); [done..|]. by rewrite <- E1.
  - intros t1 d1 q1 A. destruct (H6 t1 d1 q1 A) as (t2 & i2 & ? & ? & ? & ? & ?).
    exists t2, i2. destruct (refresh_rd (t2 + 8 * i2)) as [-> ->]. done.
Qed.

Lemma refresh_walk k v : walk k s' v = walk k s v.
Proof.
  induction k as [|k IH]; simpl; [done|]. rewrite IH.
  destruct (walk k s v) as [x|]; [|done].
  destruct (refresh_rd (x + 8 * didx k v)) as [-> ->]. done.
Qed.

Lemma refresh_frame v : frame s' v = frame s v.
Proof.
  unfold frame, pte. rewrite refresh_walk. destruct (walk 3 s v) as [x|]; [|done].
  destruct (refresh_rd (x + 8 * didx 3 v)) as [-> E].
  destruct (present (rd s (x + 8 * didx 3 v))); [exact (f_equal Some E)|done].
Qed.
End Refresh.

(** *** Hanging a fresh, cleared table below an absent entry *)
Section Fresh.
Variables (s : paging P) (O : gmap Z (nat * Z)) (t v f e : Z) (d : nat) (p' : P).
Hypothesis Hok : tables_ok s O.
Hypothesis Hv : in_u 48 v.
Hypothesis Hd : (d < 3)%nat.
Hypothesis Ht : O !! t = Some (d, dprefix d v).
Hypothesis Hold : present (rd s (t + 8 * didx d v)) = false.
Hypothesis Hgive : ps_gives (supply s) p' f.
Hypothesis Hnew : present e = true.
Hypothesis Haddr : e &&& PHYS_MASK = f.

Let s' := wr (set_mem (set_supply s p') (clear_cells 512 f (mem s))) (t + 8 * didx d v) e.
Let O' := <[f := (S d, dprefix (S d) v)]> O.

Lemma fresh_unregistered : O !! f = None.
Proof.
  destruct (O !! f) as [[d1 q1]|] eqn:E; [|done]. exfalso.
  destruct (tk_tab s O Hok _ _ _ E) as (_ & _ & _ & Hnf).
  apply Hnf, (gives_was_free _ _ _ Hgive).
Qed.

Lemma fresh_sub x y : O !! x = Some y -> O' !! x = Some y.
Proof.
  intros Hx. unfold O'. rewrite lookup_insert_ne; [done|].
  intros E. pose proof fresh_unregistered as Hun. rewrite E, Hx in Hun. done.
Qed.

Lemma fresh_new : O' !! f = Some (S d, dprefix (S d) v).
Proof. apply lookup_insert_eq. Qed.

Lemma fresh_inv x y : O' !! x = Some y -> (x = f /\ y = (S d, dprefix (S d) v)) \/ O !! x = Some y.
Proof.
  unfold O'. destruct (decide (f = x)) as [<-|].
  - rewrite lookup_insert_eq. intros [= <-]. by left.
  - rewrite lookup_insert_ne by done. by right.
Qed.

(** What the three kinds of slots hold afterwards. *)
Lemma fresh_rd_slot : rd s' (t + 8 * didx d v) = e.
Proof. apply rd_wr_eq. Qed.

Lemma fresh_rd_table i : 0 <= i < 512 -> rd s' (f + 8 * i) = 0.
Proof.
  intros Hi. unfold s'. rewrite rd_wr_ne.
  - by rewrite rd_set_mem, clear_cells_in by lia.
  - intros E. destruct (tk_tab s O Hok _ _ _ Ht) as (Ha & _).
    apply slot_inj in E as [E _]; [|done|apply Hgive|apply didx_range|done].
    pose proof fresh_unregistered as Hun. rewrite <- E, Ht in Hun. done.
Qed.

Lemma fresh_rd_other t1 i x :
  O !! t1 = Some x -> 0 <= i < 512 -> (t1 ≠ t \/ i ≠ didx d v) ->
  rd s' (t1 + 8 * i) = rd s (t1 + 8 * i).
Proof.
  intros Ht1 Hi Hne. destruct x as [d1 q1].
  destruct (tk_tab s O Hok _ _ _ Ht) as (Ha & _). destruct (tk_tab s O Hok _ _ _ Ht1) as (Ha1 & _).
  unfold s'. rewrite rd_wr_ne.
  - rewrite rd_set_mem, clear_cells_out; [done|]. intros j Hj E.
    apply slot_inj in E as [E _]; [|done|apply Hgive|done|lia].
    pose proof fresh_unregistered as Hun. rewrite <- E, Ht1 in Hun. done.
  - intros E. apply slot_inj in E as [E1 E2]; [|done..|apply didx_range|done].
    naive_solver.
Qed.

(** A present entry of an old table is not the slot that was filled. *)
Lemma fresh_rd_present t1 i x :
  O !! t1 = Some x -> 0 <= i < 512 -> present (rd s (t1 + 8 * i)) = true ->
  rd s' (t1 + 8 * i) = rd s (t1 + 8 * i).
Proof.
  intros Ht1 Hi Hp. apply (fresh_rd_other t1 i x); [done..|].
  destruct (decide (t1 = t)) as [E1|]; [|by left]. right. intros E2. congruence.
Qed.

Lemma fresh_not_present0 : present 0 = false.
Proof. done. Qed.

(** No table was registered for the new prefix: its parent entry was absent. *)
Lemma fresh_prefix_unused x : O !! x ≠ Some (S d, dprefix (S d) v).
Proof.
  intros Hx. destruct (tk_reach s O Hok _ _ _ Hx) as (t1 & i1 & H1 & H2 & H3 & H4 & _).
  rewrite dprefix_S in H1, H3 by lia. pose proof (didx_range d v).
  assert ((dprefix d v * 512 + didx d v) / 512 = dprefix d v) as E1
    by (symmetry; apply Z.div_unique_pos with (didx d v); lia).
  assert ((dprefix d v * 512 + didx d v) mod 512 = didx d v) as E2
    by (symmetry; apply Z.mod_unique_pos with (dprefix d v); lia).
  rewrite E1 in H1. rewrite E2 in H3. subst i1.
  rewrite (tk_inj s O Hok t1 t _ H1 Ht) in H4. congruence.
Qed.

Lemma fresh_ok : tables_ok s' O'.
Proof.
  destruct Hgive as [G1 G2 G3 G4 G5 G6]. destruct Hok as [H1 H2 H3 H4 H5 H6]. split.
  - done.
  - apply fresh_sub. done.
  - intros t1 t2 x [[-> ->]|A]%fresh_inv [[-> E]|B]%fresh_inv; [done| | |by eapply H3].
    + by apply fresh_prefix_unused in B.
    + subst. by apply fresh_prefix_unused in A.
  - intros t1 d1 q1 [[-> [= -> ->]]|A]%fresh_inv.
    + split_and!; [done|done|lia|]. simpl. rewrite G6. naive_solver.
    + destruct (H4 t1 d1 q1 A) as (? & ? & ? & Hnf). split_and!; [done..|].
      simpl. rewrite G6. naive_solver.
  - intros t1 d1 q1 i [[-> [= -> ->]]|A]%fresh_inv B C D.
    + rewrite fresh_rd_table in D by done. done.
    + destruct (decide (t1 = t /\ i = didx d v)) as [[-> ->]|Hne].
      * rewrite fresh_rd_slot. rewrite Haddr. rewrite Ht in A. injection A as <- <-.
        rewrite <- dprefix_S by lia. apply fresh_new.
      * apply not_and_l in Hne. rewrite (fresh_rd_other t1 i (d1, q1)) in * by done.
        apply fresh_sub. by apply (H5 t1 d1).
  - intros t1 d1 q1 [[-> [= -> ->]]|A]%fresh_inv.
    + exists t, (didx d v). rewrite fresh_rd_slot. pose proof (didx_range d v).
      rewrite dprefix_S by lia. split_and!; [|lia|lia| |done|done].
      * rewrite <- (Z.div_unique_pos (dprefix d v * 512 + didx d v) 512 (dprefix d v) (didx d v))
          by lia. by apply fresh_sub.
      * apply Z.mod_unique_pos with (dprefix d v); lia.
    + destruct (H6 t1 d1 q1 A) as (t2 & i2 & B & ? & ? & ? & ?). exists t2, i2.
      rewrite (fresh_rd_present t2 i2 _ B) by done. split_and!; [by apply fresh_sub|lia|lia|done..].
Qed.

(** Walks through old tables go on as before ... *)
Lemma fresh_walk_mono w : in_u 48 w -> forall k x, (k <= 3)%nat ->
  walk k s w = Some x -> walk k s' w = Some x.
Proof.
  intros Hw. induction k as [|k IH]; intros x Hk; [done|]. simpl.
  destruct (walk k s w) as [y|] eqn:E; [|done]. rewrite (IH y) by (done || lia).
  pose proof (walk_registered s O w Hok Hw k y ltac:(lia) E) as Hy.
  case_match eqn:Hp; [|done]. rewrite (fresh_rd_present y _ _ Hy (didx_range _ _) Hp).
  rewrite Hp. done.
Qed.

(** ... and the only new walks end in the fresh table. *)
Lemma fresh_walk_inv w : in_u 48 w -> forall k x, (k <= 3)%nat ->
  walk k s' w = Some x -> walk k s w = Some x \/ (k = S d /\ x = f /\ walk k s w = None).
Proof.
  intros Hw. induction k as [|k IH]; intros x Hk; [by left|]. simpl.
  destruct (walk k s' w) as [y|] eqn:E; [|done]. case_match eqn:Hp; [|done]. intros [= <-].
  destruct (IH y ltac:(lia) eq_refl) as [Ey|(-> & -> & _)].
  - rewrite Ey. pose proof (walk_registered s O w Hok Hw k y ltac:(lia) Ey) as Hy.
    destruct (decide (y = t /\ didx k w = didx d v)) as [[E1 Ei]|Hne].
    + right. rewrite E1, Ei in *. rewrite fresh_rd_slot in *. rewrite Hold.
      rewrite Ht in Hy. injection Hy as Hy _. rewrite Haddr. by rewrite Hy.
    + left. apply not_and_l in Hne.
      rewrite (fresh_rd_other y (didx k w) _ Hy (didx_range _ _) Hne) in Hp |- *.
      by rewrite Hp.
  - rewrite fresh_rd_table in Hp by apply didx_range. done.
Qed.

Lemma fresh_frame w : in_u 48 w -> frame s' w = frame s w.
Proof.
  intros Hw. unfold frame, pte. destruct (walk 3 s' w) as [x|] eqn:E'.
  - destruct (fresh_walk_inv w Hw 3 x ltac:(lia) E') as [E|(Ed & -> & E)]; rewrite E.
    + pose proof (walk_registered s O w Hok Hw 3 x ltac:(lia) E) as Hx.
      rewrite (fresh_rd_other x (didx 3 w) _ Hx (didx_range _ _)); [done|].
      left. intros E1. rewrite E1, Ht in Hx. injection Hx as Hx _. lia.
    + rewrite fresh_rd_table by apply didx_range. done.
  - destruct (walk 3 s w) as [x|] eqn:E; [|done].
    rewrite (fresh_walk_mono w Hw 3 x ltac:(lia) E) in E'. done.
Qed.
End Fresh.

(** *** The three upper levels *)
(** What one "Check Pn entry" block guarantees for the slot of [v] at depth [d]. *)
Record entry_step s O s' O' (t v fl : Z) (d n : nat) : Prop := {
  es_ok : tables_ok s' O';
  es_sub : forall x y, O !! x = Some y -> O' !! x = Some y;
  es_regs : pt4 s' = pt4 s /\ IF s' = IF s /\ flushed s' = flushed s;
  es_avail : ps_avail (supply s') n;
  es_taken : forall b, ps_free (supply s') b -> ps_free (supply s) b;
  es_frame : forall w, in_u 48 w -> frame s' w = frame s w;
  es_walk : forall w k x, in_u 48 w -> (k <= 3)%nat ->
    walk k s w = Some x -> walk k s' w = Some x;
  es_other : forall t1 i1 x, O !! t1 = Some x -> 0 <= i1 < 512 ->
    (t1 ≠ t \/ i1 ≠ didx d v) -> rd s' (t1 + 8 * i1) = rd s (t1 + 8 * i1);
  es_present : present (rd s' (t + 8 * didx d v)) = true;
  es_flags : forall b, 0 <= b < 12 ->
    Z.testbit (rd s' (t + 8 * didx d v)) b = Z.testbit fl b;
  es_next : O' !! (rd s' (t + 8 * didx d v) &&& PHYS_MASK) = Some (S d, dprefix (S d) v)
}.

Arguments es_regs {s O s' O' t v fl d n} _.
Arguments es_next {s O s' O' t v fl d n} _.
Arguments es_sub {s O s' O' t v fl d n} _.
Arguments es_frame {s O s' O' t v fl d n} _.
Arguments es_other {s O s' O' t v fl d n} _.

Definition flags_ok (fl : Z) : Prop := in_u 12 fl /\ Z.testbit fl 0 = true.

Lemma ensure_entry_step s O t v fl d n :
  tables_ok s O -> in_u 48 v -> flags_ok fl -> (d < 3)%nat ->
  O !! t = Some (d, dprefix d v) -> ps_avail (supply s) (S n) ->
  exists O', entry_step s O (ensure_entry t (didx d v) fl s) O' t v fl d n.
Proof.
  intros Hok Hv [Hfl Hp] Hd Ht Hav. unfold ensure_entry.
  destruct (tk_tab s O Hok _ _ _ Ht) as (Hal & _).
  destruct (present (rd s (t + 8 * didx d v))) eqn:Hold; cbn [negb].
  - assert (present ((rd s (t + 8 * didx d v) &&& NOT_FFF) ||| fl) = true) as Hnew
      by (rewrite present_testbit, refresh_flag by lia; done).
    pose proof (refresh_phys (rd s (t + 8 * didx d v)) fl Hfl) as Haddr.
    exists O. split; rewrite ?rd_wr_eq; try done.
    + by eapply refresh_ok.
    + by eapply ps_avail_mono; [|apply Nat.le_succ_diag_r].
    + intros w _. by eapply refresh_frame.
    + intros w k x _ _ E. by rewrite (refresh_walk s t (didx d v) _ Hold Hnew Haddr).
    + intros t1 i1 x Ht1 Hi1 Hne. apply rd_wr_ne. intros E.
      destruct (tk_tab s O Hok t1 (x.1) (x.2)) as (Hal1 & _); [by destruct x|].
      apply slot_inj in E as [E1 E2]; [|done|done|apply didx_range|done].
      destruct Hne; congruence.
    + intros b Hb. by apply refresh_flag.
    + rewrite Haddr, dprefix_S by lia.
      by apply (tk_edge s O Hok t d); [| |apply didx_range|].
  - unfold allocate_page_table.
    destruct (ps_table_ok (supply s) n (tk_supply s O Hok) Hav) as [Hg Hav'].
    destruct (ps_table (supply s)) as [p' f]; cbn [fst snd] in *.
    pose proof Hg as [G1 G2 G3 G4 G5 G6].
    change (mem (set_supply s p')) with (mem s).
    assert (present (f ||| fl) = true) as Hnew
      by (rewrite present_testbit, entry_flag by (done || lia); done).
    assert ((f ||| fl) &&& PHYS_MASK = f) as Haddr
      by (apply entry_phys; [done|unfold in_u in *; lia|done]).
    exists (<[f := (S d, dprefix (S d) v)]> O). split; rewrite ?rd_wr_eq; try done.
    + by apply fresh_ok.
    + intros x y. by apply (fresh_sub s O v f d p').
    + intros b Hb. by apply G6 in Hb as [? _].
    + intros w Hw. by eapply fresh_frame.
    + intros w k x Hw Hk E. by eapply fresh_walk_mono.
    + intros t1 i1 x Ht1 Hi1 Hne. by eapply fresh_rd_other.
    + intros b Hb. by apply entry_flag.
    + rewrite Haddr. apply lookup_insert_eq.
Qed.

(** *** The leaf *)
Section Leaf.
Variables (s : paging P) (O : gmap Z (nat * Z)) (t v e : Z).
Hypothesis Hok : tables_ok s O.
Hypothesis Hv : in_u 48 v.
Hypothesis Ht : walk 3 s v = Some t.

Let s' := wr s (t + 8 * didx 3 v) e.

Lemma leaf_registered : O !! t = Some (3%nat, dprefix 3 v).
Proof. by apply (walk_registered s O v Hok Hv 3 t). Qed.

(** A slot of another table, or another slot of this one. *)
Lemma leaf_rd_other t1 i1 x :
  O !! t1 = Some x -> 0 <= i1 < 512 -> (t1 ≠ t \/ i1 ≠ didx 3 v) ->
  rd s' (t1 + 8 * i1) = rd s (t1 + 8 * i1).
Proof.
  intros Ht1 Hi1 Hne. apply rd_wr_ne. intros E. destruct x as [d q].
  destruct (tk_tab s O Hok _ _ _ Ht1) as (? & _).
  destruct (tk_tab s O Hok _ _ _ leaf_registered) as (? & _).
  apply slot_inj in E as [E1 E2]; [|done..|apply didx_range|done]. naive_solver.
Qed.

Lemma leaf_rd_upper t1 d q i1 :
  O !! t1 = Some (d, q) -> (d < 3)%nat -> 0 <= i1 < 512 ->
  rd s' (t1 + 8 * i1) = rd s (t1 + 8 * i1).
Proof.
  intros Ht1 Hd Hi1. apply (leaf_rd_other t1 i1 (d, q)); [done..|]. left. intros E.
  rewrite E, leaf_registered in Ht1. injection Ht1 as ? ?. lia.
Qed.

Lemma leaf_ok : tables_ok s' O.
Proof.
  destruct Hok as [H1 H2 H3 H4 H5 H6]. split; [done..| |].
  - intros t1 d q i Ht1 Hd Hi. rewrite (leaf_rd_upper t1 d q i) by done.
    by apply (H5 t1 d).
  - intros t1 d q Ht1. destruct (H6 t1 d q Ht1) as (t2 & i2 & A & ? & ? & ? & ?).
    exists t2, i2. destruct (H4 _ _ _ Ht1) as (_ & _ & ? & _).
    rewrite (leaf_rd_upper t2 d (q / 512) i2) by (done || lia). done.
Qed.

Lemma leaf_walk w : in_u 48 w -> forall k, (k <= 3)%nat -> walk k s' w = walk k s w.
Proof.
  intros Hw. induction k as [|k IH]; intros Hk; [done|]. simpl. rewrite IH by lia.
  destruct (walk k s w) as [x|] eqn:E; [|done].
  rewrite (leaf_rd_upper x k (dprefix k w));
    [done|by apply (walk_registered s O w Hok Hw k x ltac:(lia))|lia|apply didx_range].
Qed.

Lemma leaf_pte_other w : in_u 48 w -> page_of w ≠ page_of v -> pte s' w = pte s w.
Proof.
  intros Hw Hne. unfold pte. rewrite leaf_walk by (done || lia).
  destruct (walk 3 s w) as [x|] eqn:E; [|done].
  pose proof (walk_registered s O w Hok Hw 3 x ltac:(lia) E) as Hx.
  rewrite (leaf_rd_other x (didx 3 w) _ Hx (didx_range _ _)); [done|].
  apply not_and_l. intros [E1 E2]. apply Hne.
  rewrite E1, leaf_registered in Hx. injection Hx as Hx.
  change (dprefix 4 w = dprefix 4 v). by apply dprefix_S_inj; [lia|].
Qed.

Lemma leaf_pte_self : present e = true -> pte s' v = Some e.
Proof.
  intros He. unfold pte. rewrite leaf_walk, Ht by (done || lia).
  unfold s'. rewrite rd_wr_eq. by rewrite He.
Qed.
End Leaf.

(** What mapping one page guarantees. *)
Record page_mapped s s' O' (phys v fl : Z) (n : nat) : Prop := {
  pm_ok : tables_ok s' O';
  pm_regs : pt4 s' = pt4 s /\ IF s' = IF s;
  pm_avail : ps_avail (supply s') n;
  pm_taken : forall b, ps_free (supply s') b -> ps_free (supply s) b;
  pm_frame : forall w, in_u 48 w -> page_of w ≠ page_of v -> frame s' w = frame s w;
  pm_self : match frame s v with
            | Some f => frame s' v = Some f
            | None =>
                if phys =? 0
                then exists a, frame s' v = Some a /\ ps_free (supply s) a /\
                       ~ ps_free (supply s') a
                else frame s' v = Some phys
            end;
  pm_root_flags : forall b, 0 <= b < 12 ->
    Z.testbit (rd s' (pt4 s' + 8 * didx 0 v)) b = Z.testbit fl b
}.

Lemma walk_next s O t v d :
  tables_ok s O -> (d < 3)%nat -> walk d s v = Some t ->
  present (rd s (t + 8 * didx d v)) = true ->
  O !! (rd s (t + 8 * didx d v) &&& PHYS_MASK) = Some (S d, dprefix (S d) v) ->
  walk (S d) s v = Some (rd s (t + 8 * didx d v) &&& PHYS_MASK) /\
  rd s (t + 8 * didx d v) &&& ADDRESS_MASK = rd s (t + 8 * didx d v) &&& PHYS_MASK.
Proof.
  intros Hok Hd Hw Hp HO. split; [simpl; by rewrite Hw, Hp|].
  apply address_mask_phys. by destruct (tk_tab s O Hok _ _ _ HO) as (_ & ? & _).
Qed.

(** The invariant does not depend on the interrupt flag and the flush log. *)
Lemma tables_ok_regs s O b l :
  tables_ok s O -> tables_ok (MkPaging (mem s) (pt4 s) (supply s) b l) O.
Proof. intros [H1 H2 H3 H4 H5 H6]; by split. Qed.

(** Every outcome of the leaf block writes one entry [e] over a state that
    differs from [s] at most in the supply. *)
Lemma leaf_write s O t v p e :
  tables_ok s O -> in_u 48 v -> walk 3 s v = Some t ->
  ps_inv p -> (forall b, ps_free p b -> ps_free (supply s) b) ->
  let s' := wr (set_supply s p) (t + 8 * didx 3 v) e in
  tables_ok s' O /\
  (forall w, in_u 48 w -> page_of w ≠ page_of v -> frame s' w = frame s w) /\
  (forall t1 i1 x, O !! t1 = Some x -> x.1 ≠ 3%nat -> 0 <= i1 < 512 ->
     rd s' (t1 + 8 * i1) = rd s (t1 + 8 * i1)) /\
  (present e = true -> frame s' v = Some (e &&& PHYS_MASK)).
Proof.
  intros Hok Hv Ht Hinv Hsub s'. set (s1 := set_supply s p).
  assert (tables_ok s1 O) as Hok1.
  { destruct Hok as [H1 H2 H3 H4 H5 H6]. split; [done..| |done|done].
    intros t1 d q Hx. destruct (H4 t1 d q Hx) as (? & ? & ? & ?). naive_solver. }
  split_and!; [by eapply leaf_ok| | |].
  - intros w Hw Hne. unfold frame, s'. by rewrite (leaf_pte_other s1 O t v).
  - intros t1 i1 [d q] Hx Hd Hi. destruct (tk_tab s O Hok _ _ _ Hx) as (_ & _ & ? & _).
    simpl in Hd. apply (leaf_rd_upper s1 O t v e Hok1 Hv Ht t1 d q); (done || lia).
  - intros He. unfold frame, s'. by rewrite (leaf_pte_self s1 O t v).
Qed.

(** The leaf block, with what it allocates. *)
Lemma map_page_step s O t v phys fl n :
  tables_ok s O -> in_u 48 v -> flags_ok fl -> walk 3 s v = Some t ->
  phys mod 4096 = 0 -> in_u 52 phys -> ps_avail (supply s) (S n) ->
  let s' := (map_page t (didx 3 v) phys fl s).1 in
  tables_ok s' O /\ pt4 s' = pt4 s /\ IF s' = IF s /\ ps_avail (supply s') n /\
  (forall b, ps_free (supply s') b -> ps_free (supply s) b) /\
  (forall w, in_u 48 w -> page_of w ≠ page_of v -> frame s' w = frame s w) /\
  (forall t1 i1 x, O !! t1 = Some x -> x.1 ≠ 3%nat -> 0 <= i1 < 512 ->
     rd s' (t1 + 8 * i1) = rd s (t1 + 8 * i1)) /\
  match frame s v with
  | Some f => frame s' v = Some f
  | None => if phys =? 0
      then exists a, frame s' v = Some a /\ ps_free (supply s) a /\ ~ ps_free (supply s') a
      else frame s' v = Some phys
  end.
Proof.
  intros Hok Hv [Hfl Hp] Ht Hal Hr Hav. cbv zeta.
  assert (frame s v = if present (rd s (t + 8 * didx 3 v))
    then Some (rd s (t + 8 * didx 3 v) &&& PHYS_MASK) else None) as Hfr
    by (unfold frame, pte; rewrite Ht; by destruct (present _)).
  pose proof (tk_supply s O Hok) as Hinv.
  unfold map_page. rewrite Hfr. destruct (present (rd s (t + 8 * didx 3 v))) eqn:Hold; cbn [negb].
  - destruct (leaf_write s O t v (supply s) ((rd s (t + 8 * didx 3 v) &&& NOT_FFF) ||| fl ||| NO_EXEC_BIT)
      Hok Hv Ht Hinv ltac:(done)) as (L1 & L2 & L3 & L4).
    cbn [fst]. replace (set_supply s (supply s)) with s in * by (by destruct s).
    split_and!; try done; [by eapply ps_avail_mono; [|apply Nat.le_succ_diag_r]|].
    rewrite L4; [by rewrite refresh_leaf_phys|].
    by rewrite present_testbit, no_exec_flag, refresh_flag by lia.
  - destruct (Z.eqb_spec phys 0) as [->|Hnz].
    + destruct (ps_page_ok (supply s) n Hinv Hav) as [Hg Hav'].
      destruct (ps_page (supply s)) as [p a]; cbn [fst snd] in *.
      pose proof Hg as [G1 G2 G3 G4 G5 G6].
      destruct (leaf_write s O t v p (a ||| fl ||| NO_EXEC_BIT) Hok Hv Ht G1) as (L1 & L2 & L3 & L4);
        [intros b Hb; by apply G6 in Hb as [? _]|].
      split_and!; try done; [intros b Hb; by apply G6 in Hb as [? _]|].
      exists a. split_and!; [|done|simpl; rewrite G6; naive_solver].
      rewrite L4; [rewrite leaf_phys; [done|done|unfold in_u in *; lia|done]|].
      by rewrite present_testbit, no_exec_flag, entry_flag by (done || lia).
    + destruct (leaf_write s O t v (supply s) (phys ||| fl ||| NO_EXEC_BIT)
        Hok Hv Ht Hinv ltac:(done))
        as (L1 & L2 & L3 & L4).
      cbn [fst]. replace (set_supply s (supply s)) with s in * by (by destruct s).
      split_and!; try done; [by eapply ps_avail_mono; [|apply Nat.le_succ_diag_r]|].
      rewrite L4; [by rewrite leaf_phys|].
      by rewrite present_testbit, no_exec_flag, entry_flag by (done || lia).
Qed.

(** The three upper levels together, from the state with interrupts disabled. *)
Lemma upper_levels s O v fl n :
  tables_ok s O -> in_u 48 v -> flags_ok fl -> ps_avail (supply s) (S (S (S n))) ->
  let s1 := ensure_entry (pt4 s) (didx 0 v) fl s in
  let pt3 := rd s1 (pt4 s1 + 8 * didx 0 v) &&& ADDRESS_MASK in
  let s2 := ensure_entry pt3 (didx 1 v) fl s1 in
  let pt2 := rd s2 (pt3 + 8 * didx 1 v) &&& ADDRESS_MASK in
  let s3 := ensure_entry pt2 (didx 2 v) fl s2 in
  let page_table := rd s3 (pt2 + 8 * didx 2 v) &&& ADDRESS_MASK in
  exists O3, tables_ok s3 O3 /\ walk 3 s3 v = Some page_table /\
    pt4 s3 = pt4 s /\ IF s3 = IF s /\ ps_avail (supply s3) n /\
    (forall b, ps_free (supply s3) b -> ps_free (supply s) b) /\
    (forall w, in_u 48 w -> frame s3 w = frame s w) /\
    (forall b, 0 <= b < 12 ->
       Z.testbit (rd s3 (pt4 s + 8 * didx 0 v)) b = Z.testbit fl b).
Proof.
  intros Hok Hv Hfl Hav s1 pt3 s2 pt2 s3 page_table.
  assert (O !! pt4 s = Some (0%nat, dprefix 0 v)) as H0
    by (rewrite dprefix_0 by done; apply tk_root, Hok).
  destruct (ensure_entry_step s O (pt4 s) v fl 0 (S (S n))) as [O1 E1]; [done..|lia|done|done|].
  fold s1 in E1. destruct (es_regs E1) as (R1 & R1' & _).
  destruct (walk_next s1 O1 (pt4 s) v 0) as [W1 M1];
    [apply E1|lia|simpl; by rewrite R1|apply E1|exact (es_next E1)|].
  assert (pt3 = rd s1 (pt4 s + 8 * didx 0 v) &&& PHYS_MASK) as Ept3
    by (unfold pt3; rewrite R1; exact M1).
  rewrite <- Ept3 in W1. pose proof (es_next E1) as N1. rewrite <- Ept3 in N1.
  destruct (ensure_entry_step s1 O1 pt3 v fl 1 (S n)) as [O2 E2]; [apply E1|done|done|lia|done|apply E1|].
  fold s2 in E2. destruct (es_regs E2) as (R2 & R2' & _).
  destruct (walk_next s2 O2 pt3 v 1) as [W2 M2];
    [apply E2|lia|apply E2; (done || lia)|apply E2|exact (es_next E2)|].
  assert (pt2 = rd s2 (pt3 + 8 * didx 1 v) &&& PHYS_MASK) as Ept2 by exact M2.
  rewrite <- Ept2 in W2. pose proof (es_next E2) as N2. rewrite <- Ept2 in N2.
  destruct (ensure_entry_step s2 O2 pt2 v fl 2 n) as [O3 E3]; [apply E2|done|done|lia|done|apply E2|].
  fold s3 in E3. destruct (es_regs E3) as (R3 & R3' & _).
  destruct (walk_next s3 O3 pt2 v 2) as [W3 M3];
    [apply E3|lia|apply E3; (done || lia)|apply E3|exact (es_next E3)|].
  assert (page_table = rd s3 (pt2 + 8 * didx 2 v) &&& PHYS_MASK) as -> by exact M3.
  exists O3. split_and!; [apply E3|done|congruence|congruence|apply E3| | |].
  - intros b Hb. by apply E1, E2, E3.
  - intros w Hw. by rewrite (es_frame E3), (es_frame E2),
      (es_frame E1).
  - intros b Hb. pose proof (es_sub E1 _ _ H0) as H1.
    pose proof (es_sub E2 _ _ H1) as H2.
    rewrite (es_other E3 _ _ _ H2 (didx_range _ _)), 
      (es_other E2 _ _ _ H1 (didx_range _ _));
      [by apply E1| |]; left; intros E; rewrite E in *; congruence.
Qed.

Lemma vmm_map_memory_spec s O phys v fl n :
  tables_ok s O -> in_u 48 v -> flags_ok fl -> phys mod 4096 = 0 -> in_u 52 phys ->
  ps_avail (supply s) (4 + n) ->
  exists O', page_mapped s (vmm_map_memory phys v fl s) O' phys v fl n.
Proof.
  intros Hok Hv Hfl Hal Hr Hav. unfold vmm_map_memory.
  change (pt_index 39 v) with (didx 0 v). change (pt_index 30 v) with (didx 1 v).
  change (pt_index 21 v) with (didx 2 v). change (pt_index 12 v) with (didx 3 v).
  set (s0 := disable_interrupts s).
  assert (tables_ok s0 O) as Hok0 by (by apply (tables_ok_regs s)).
  pose proof (upper_levels s0 O v fl (S n) Hok0 Hv Hfl Hav) as U. cbv zeta in U.
  set (s1 := ensure_entry (pt4 s0) (didx 0 v) fl s0) in *.
  set (pt3 := rd s1 (pt4 s1 + 8 * didx 0 v) &&& ADDRESS_MASK) in *.
  set (s2 := ensure_entry pt3 (didx 1 v) fl s1) in *.
  set (pt2 := rd s2 (pt3 + 8 * didx 1 v) &&& ADDRESS_MASK) in *.
  set (s3 := ensure_entry pt2 (didx 2 v) fl s2) in *.
  set (t := rd s3 (pt2 + 8 * didx 2 v) &&& ADDRESS_MASK) in *.
  destruct U as (O3 & Hok3 & W3 & R3 & I3 & Hav3 & F3 & Fr3 & Fl3).
  clearbody t. clearbody s3. clear pt2 s2 pt3 s1.
  pose proof (map_page_step s3 O3 t v phys fl n Hok3 Hv Hfl W3 Hal Hr Hav3) as M.
  cbv zeta in M. destruct (map_page t (didx 3 v) phys fl s3) as [s4 ph]; cbn [fst] in M.
  destruct M as (Hok4 & R4 & I4 & Hav4 & F4 & Fr4 & Oth4 & Self4).
  assert ((if are_interrupts_enabled s then enable_interrupts (flush_tlb ph s4)
           else flush_tlb ph s4)
     = MkPaging (mem s4) (pt4 s4) (supply s4) (IF s) (flushed s4 ++ [ph])) as ->.
  { rewrite I3 in I4. unfold are_interrupts_enabled, flush_tlb. rewrite I4.
    destruct (IF s) eqn:EI; by simpl. }
  exists O3. split.
  - by apply (tables_ok_regs s4).
  - simpl. split; [|done]. by rewrite R4, R3.
  - done.
  - intros b Hb. by apply F3, F4.
  - intros w Hw Hne. transitivity (frame s4 w); [done|]. by rewrite Fr4, Fr3.
  - rewrite <- (Fr3 v Hv : _ = frame s v). destruct (frame s3 v) as [f|]; [done|].
    destruct (phys =? 0); [|done]. destruct Self4 as (a & ? & ? & ?). exists a.
    split_and!; [done|by apply F3|done].
  - intros b Hb. change (Z.testbit (rd s4 (pt4 s4 + 8 * didx 0 v)) b = Z.testbit fl b).
    rewrite R4, (Oth4 (pt4 s3) (didx 0 v) (0%nat, 0));
      [rewrite R3; exact (Fl3 b Hb)|exact (tk_root s3 O3 Hok3)|done|apply didx_range].
Qed.

(** *** A range of pages *)
Lemma page_of_add v j : page_of (v + j * PAGE_SIZE) = page_of v + j.
Proof.
  unfold page_of, PAGE_SIZE. rewrite !Z.shiftr_div_pow2 by lia. change (2 ^ 12) with 4096.
  by rewrite Z.div_add by lia.
Qed.

Record range_mapped s s' (vstart i : Z) (n : nat) (avail : nat) : Prop := {
  rm_ok : exists O, tables_ok s' O;
  rm_regs : pt4 s' = pt4 s /\ IF s' = IF s;
  rm_avail : ps_avail (supply s') avail;
  rm_taken : forall b, ps_free (supply s') b -> ps_free (supply s) b;
  rm_frame : forall w, in_u 48 w ->
    (forall j, i <= j < i + Z.of_nat n -> page_of w ≠ page_of (vstart + j * PAGE_SIZE)) ->
    frame s' w = frame s w
}.

Lemma map_pages_spec fl : flags_ok fl -> forall n i phys vstart s O m,
  tables_ok s O -> phys mod 4096 = 0 -> 0 <= phys -> phys + Z.of_nat n * 4096 <= 2 ^ 52 ->
  0 <= i -> 0 <= vstart -> vstart + (i + Z.of_nat n) * 4096 <= 2 ^ 48 ->
  (forall j, i <= j < i + Z.of_nat n -> frame s (vstart + j * PAGE_SIZE) = None) ->
  ps_avail (supply s) (4 * n + m) ->
  let s' := map_pages n i phys vstart fl s in
  range_mapped s s' vstart i n m /\
  (phys ≠ 0 -> forall j, i <= j < i + Z.of_nat n ->
     frame s' (vstart + j * PAGE_SIZE) = Some (phys + (j - i) * PAGE_SIZE)) /\
  (phys = 0 -> forall j, i <= j < i + Z.of_nat n ->
     exists a, frame s' (vstart + j * PAGE_SIZE) = Some a /\
       ps_free (supply s) a /\ ~ ps_free (supply s') a) /\
  (phys = 0 -> forall j k, i <= j < i + Z.of_nat n -> i <= k < i + Z.of_nat n ->
     frame s' (vstart + j * PAGE_SIZE) = frame s' (vstart + k * PAGE_SIZE) -> j = k).
Proof.
  intros Hfl. induction n as [|n IH];
    intros i phys vstart s O m Hok Hal Hp0 Hpn Hi Hv0 Hvn Hnone Hav; cbn [map_pages].
  { split_and!; [split; eauto|intros; lia..]. }
  set (v := vstart + i * PAGE_SIZE).
  assert (u64 v = v) as -> by (apply wrap_small; unfold v, in_u, PAGE_SIZE in *; lia).
  assert (in_u 48 v) as Hv by (unfold v, in_u, PAGE_SIZE in *; lia).
  destruct (vmm_map_memory_spec s O phys v fl (4 * n + m)) as [O1 M];
    [done..|unfold in_u; lia| |].
  { by replace (4 + (4 * n + m))%nat with (4 * S n + m)%nat by lia. }
  destruct M as [M1 M2 M3 M4 M5 M6 _]. set (s1 := vmm_map_memory phys v fl s) in *.
  set (phys1 := if negb (phys =? 0) then u64 (phys + PAGE_SIZE) else phys).
  assert (phys1 = if negb (phys =? 0) then phys + PAGE_SIZE else phys) as Ephys1.
  { unfold phys1. destruct (negb _); [|done]. apply wrap_small. unfold in_u, PAGE_SIZE. lia. }
  clearbody phys1.
  assert (forall j, i + 1 <= j < i + 1 + Z.of_nat n ->
    frame s1 (vstart + j * PAGE_SIZE) = None) as Hnone1.
  { intros j Hj. rewrite M5; [apply Hnone; lia|unfold in_u, PAGE_SIZE; lia|].
    unfold v. rewrite !page_of_add. lia. }
  destruct (IH (i + 1) phys1 vstart s1 O1 m) as (R & A1 & A2 & A3);
    [done| | | |lia..|done|done|]; try (rewrite Ephys1; destruct (Z.eqb_spec phys 0); cbn [negb];
      unfold PAGE_SIZE; lia).
  { rewrite Ephys1. destruct (Z.eqb_spec phys 0); cbn [negb]; [done|].
    unfold PAGE_SIZE. rewrite Z.add_mod, Hal by lia. done. }
  set (s' := map_pages n (i + 1) phys1 vstart fl s1) in *. clearbody s'.
  destruct R as [R1 R2 R3 R4 R5].
  assert (frame s' v = frame s1 v) as Hself.
  { apply R5; [done|]. intros j Hj. unfold v. rewrite !page_of_add. lia. }
  rewrite (Hnone i ltac:(lia) : frame s v = None) in M6. split_and!.
  - split; [done|split; destruct R2, M2; congruence|done|auto|]. intros w Hw Hne.
    rewrite R5, M5; [done|done| |done|].
    + apply (Hne i). lia.
    + intros j Hj. apply Hne. lia.
  - intros Hne j Hj. destruct (decide (j = i)) as [->|].
    + fold v. rewrite Hself. destruct (Z.eqb_spec phys 0); [lia|]. rewrite M6. f_equal. lia.
    + rewrite A1; [|rewrite Ephys1; destruct (Z.eqb_spec phys 0); unfold PAGE_SIZE; cbn; lia|lia].
      rewrite Ephys1. destruct (Z.eqb_spec phys 0); [lia|]. cbn [negb]. f_equal. lia.
  - intros -> j Hj. cbn in M6, Ephys1. subst phys1. destruct (decide (j = i)) as [->|].
    + fold v. rewrite Hself. destruct M6 as (a & E & F1 & F2). exists a. split_and!; auto.
    + destruct (A2 eq_refl j ltac:(lia)) as (a & ? & ? & ?). exists a. split_and!; auto.
  - intros -> . cbn in M6, Ephys1. subst phys1. destruct M6 as (a & E & F1 & F2).
    assert (forall k, i < k < i + Z.of_nat (S n) ->
      frame s' (vstart + k * PAGE_SIZE) ≠ frame s' v) as Hdiff.
    { intros k Hk. rewrite Hself, E. destruct (A2 eq_refl k ltac:(lia)) as (b & -> & ? & ?).
      intros [= ->]. done. }
    intros j k Hj Hk Ejk. destruct (decide (j = i)) as [->|], (decide (k = i)) as [->|].
    + done.
    + exfalso. apply (Hdiff k ltac:(lia)). done.
    + exfalso. apply (Hdiff j ltac:(lia)). done.
    + apply A3; (done || lia).
Qed.
End Facts.

End Paging.
