(* ===== verification/PagePerm.v ===== *)
(** Page permissions ([set_page_permission], [vmm_set_page_permissions] of
    [src/src/kernel/src/memory/VMM.c]) and the page tables the boot loader hands
    over ([setup_paging] of [src/src/boot/include/protected_mode.asm]), with the
    properties of the paging code and concrete runs of it. *)
From S2P Require Import Prelude PMM Paging.
Import Paging.

Module PagePerm.

(** ** set_page_permission *)
Section Ops.
Context {P : Type} `{!PageSupply P}.

(** The macro [SET_FLAGS]. *)
Definition SET_FLAGS (is_os : bool) (X : Z) : Z :=
  (X &&& ADDRESS_MASK) ||| DIRECTORY_DEFAULTS ||| (if is_os then USER_ACCESS_BIT else 0).

Definition set_page_permission (addr : Z) (is_os is_writable is_executable : bool)
    (s : paging P) : paging P :=
  let pt4_index := pt_index 39 addr in
  let pt3_index := pt_index 30 addr in
  let pt2_index := pt_index 21 addr in
  let page_index := pt_index 12 addr in
  let interrupts := are_interrupts_enabled s in
  let s := disable_interrupts s in
  let s := wr s (pt4 s + 8 * pt4_index) (SET_FLAGS is_os (rd s (pt4 s + 8 * pt4_index))) in
  let pt3 := rd s (pt4 s + 8 * pt4_index) &&& ADDRESS_MASK in
  let s := wr s (pt3 + 8 * pt3_index) (SET_FLAGS is_os (rd s (pt3 + 8 * pt3_index))) in
  let pt2 := rd s (pt3 + 8 * pt3_index) &&& ADDRESS_MASK in
  let s := wr s (pt2 + 8 * pt2_index) (SET_FLAGS is_os (rd s (pt2 + 8 * pt2_index))) in
  let page_table := rd s (pt2 + 8 * pt2_index) &&& ADDRESS_MASK in
  let slot := page_table + 8 * page_index in
  let s := wr s slot (SET_FLAGS is_os (rd s slot)) in
  let s := if negb is_executable then wr s slot (rd s slot ||| NO_EXEC_BIT) else s in
  let s := if negb is_writable then wr s slot (rd s slot &&& u64 (Z.lnot READ_WRITE_BIT)) else s in
  let s := flush_tlb (rd s slot) s in
  if interrupts then enable_interrupts s else s.

(** The macro [SET_PERMISSIONS]: the loop from [start] while it is below [end_],
    with the value of the loop variable afterwards. *)
Fixpoint permission_loop (n : nat) (start end_ : Z) (is_os w x : bool) (s : paging P)
    : paging P * Z :=
  match n with
  | O => (s, start)
  | S n' =>
      if start <? end_ then
        permission_loop n' (start + PAGE_SIZE) end_ is_os w x
          (set_page_permission start is_os w x s)
      else (s, start)
  end.

(** Enough rounds for the loop to reach its exit test. *)
Definition rounds (start end_ : Z) : nat := Z.to_nat ((end_ - start) / PAGE_SIZE + 1).

Definition SET_PERMISSIONS (sec : Z * Z) (is_os w x : bool) (s : paging P) : paging P * Z :=
  permission_loop (rounds sec.1 sec.2) sec.1 sec.2 is_os w x s.

(** The linker symbols [_X_START_], [_X_END_]. *)
Record sections := {
  BOOT : Z * Z; KERNEL_TEXT : Z * Z; KERNEL_RODATA : Z * Z; KERNEL_DATA : Z * Z;
  KERNEL_BSS : Z * Z; OS_TEXT : Z * Z; OS_RODATA : Z * Z; OS_DATA : Z * Z; OS_BSS : Z * Z
}.

Definition vmm_set_page_permissions (l : sections) (s : paging P) : paging P :=
  let '(s, BOOT_start) := SET_PERMISSIONS (BOOT l) false true true s in
  let '(s, _) := SET_PERMISSIONS (0, BOOT_start) false true true s in
  let '(s, _) := SET_PERMISSIONS (KERNEL_TEXT l) false false true s in
  let '(s, _) := SET_PERMISSIONS (KERNEL_RODATA l) false false false s in
  let '(s, _) := SET_PERMISSIONS (KERNEL_DATA l) false true false s in
  let '(s, _) := SET_PERMISSIONS (KERNEL_BSS l) false true false s in
  let '(s, _) := SET_PERMISSIONS (OS_TEXT l) true false true s in
  let '(s, _) := SET_PERMISSIONS (OS_RODATA l) true false false s in
  let '(s, _) := SET_PERMISSIONS (OS_DATA l) true true false s in
  let '(s, _) := SET_PERMISSIONS (OS_BSS l) true true false s in
  s.

(** What the MMU grants: the permissions of the leaf entry. *)
Record perm := MkPerm { p_user : bool; p_write : bool; p_exec : bool }.
#[export] Instance perm_eq_dec : EqDecision perm.
Proof. solve_decision. Defined.
Definition entry_perm (e : Z) : perm :=
  MkPerm (Z.testbit e 2) (Z.testbit e 1) (negb (Z.testbit e 63)).
Definition leaf_perm (s : paging P) (v : Z) : option perm :=
  match pte s v with None => None | Some e => Some (entry_perm e) end.

(** Ring 3 needs the user bit at all four levels. *)
Fixpoint walk_user (d : nat) (s : paging P) (v : Z) : bool :=
  match d with
  | O => true
  | S d' =>
      walk_user d' s v &&
      match walk d' s v with
      | None => false
      | Some t => Z.testbit (rd s (t + 8 * didx d' v)) 2
      end
  end.
Definition user_accessible (s : paging P) (v : Z) : bool := walk_user 4 s v.

End Ops.

(** ** setup_paging: the tables at boot *)
(** The four tables are consecutive pages of [.bss]; the loop stores
    [0x1000 * i + 3] into entry [i] of the last one. *)
Fixpoint set_entries (n : nat) (ebx edi : Z) (m : gmap Z Z) : gmap Z Z :=
  match n with
  | O => m
  | S n' => set_entries n' (ebx + 0x1000) (edi + 8) (<[edi := ebx]> m)
  end.

Definition setup_paging {P} (PML4T : Z) (p : P) : paging P :=
  let PDPT := PML4T + 0x1000 in
  let PDT := PML4T + 0x2000 in
  let PT := PML4T + 0x3000 in
  let m := <[PML4T := PDPT ||| 3]> ∅ in
  let m := <[PDPT := PDT ||| 3]> m in
  let m := <[PDT := PT ||| 3]> m in
  MkPaging (set_entries 512 0x3 PT m) PML4T p false [].

Definition boot_owner (PML4T : Z) : gmap Z (nat * Z) :=
  <[PML4T := (0%nat, 0)]> (<[PML4T + 0x1000 := (1%nat, 0)]>
  (<[PML4T + 0x2000 := (2%nat, 0)]> (<[PML4T + 0x3000 := (3%nat, 0)]> ∅))).

#[global] Arguments set_entries : simpl never.

Lemma set_entries_S n b a m : set_entries (S n) b a m = set_entries n (b + 0x1000) (a + 8) (<[a := b]> m).
Proof. done. Qed.

Lemma set_entries_out n : forall b a m c,
  (forall i, 0 <= i < Z.of_nat n -> c ≠ a + 8 * i) -> set_entries n b a m !! c = m !! c.
Proof.
  induction n as [|n IH]; intros b a m c Hc; [done|]. rewrite set_entries_S, IH.
  - apply lookup_insert_ne. specialize (Hc 0). lia.
  - intros i Hi. specialize (Hc (i + 1)). lia.
Qed.

Lemma set_entries_in n : forall b a m i,
  0 <= i < Z.of_nat n -> set_entries n b a m !! (a + 8 * i) = Some (b + 0x1000 * i).
Proof.
  induction n as [|n IH]; intros b a m i Hi; [lia|]. rewrite set_entries_S.
  destruct (decide (i = 0)) as [->|].
  - rewrite set_entries_out by (intros; lia). rewrite Z.mul_0_r, Z.add_0_r.
    rewrite lookup_insert_eq. f_equal. lia.
  - replace (a + 8 * i) with (a + 8 + 8 * (i - 1)) by lia. rewrite IH by lia. f_equal. lia.
Qed.

Section Boot.
Context {P : Type} `{!PageSupply P} `{!PageSupplyOk P}.
Variables (base : Z) (p : P).
Hypothesis Hbase : 0 < base < 0x1fc000.
Hypothesis Halign : base mod 4096 = 0.
Hypothesis Hinv : ps_inv p.
Hypothesis Hused : forall t, base <= t <= base + 0x3000 -> ~ ps_free p t.

Let s := setup_paging base p.

Lemma boot_rd_PT i : 0 <= i < 512 -> rd s (base + 0x3000 + 8 * i) = 3 + 0x1000 * i.
Proof. intros Hi. unfold rd, s, setup_paging. cbn [mem]. by rewrite set_entries_in by lia. Qed.

Lemma boot_rd_upper k i :
  0 <= k < 3 -> 0 <= i < 512 ->
  rd s (base + 0x1000 * k + 8 * i) =
  if decide (i = 0) then (base + 0x1000 * (k + 1)) ||| 3 else 0.
Proof.
  intros Hk Hi. unfold rd, s, setup_paging. cbn [mem].
  rewrite set_entries_out by (intros; lia).
  assert (k = 0 \/ k = 1 \/ k = 2) as [->|[->| ->]] by lia; case_decide as E; subst;
    repeat first
    [ rewrite lookup_insert_ne by lia
    | rewrite lookup_empty
    | match goal with |- context [<[?a := ?x]> ?m !! ?b] =>
        replace b with a by lia; rewrite lookup_insert_eq end ]; done.
Qed.

Lemma boot_owner_inv t x : boot_owner base !! t = Some x ->
  exists k, 0 <= k <= 3 /\ t = base + 0x1000 * k /\ x = (Z.to_nat k, 0).
Proof.
  unfold boot_owner.
  assert (forall (O : gmap Z (nat * Z)) a y, <[a := y]> O !! t = Some x ->
    (t = a /\ x = y) \/ O !! t = Some x) as Hstep.
  { intros O a y. destruct (decide (a = t)) as [->|].
    - rewrite lookup_insert_eq. intros [= ->]. by left.
    - rewrite lookup_insert_ne by done. by right. }
  intros [[-> ->]|[[-> ->]|[[-> ->]|[[-> ->]|H]%Hstep]%Hstep]%Hstep]%Hstep.
  - exists 0. split_and!; (done || lia).
  - exists 1. split_and!; (done || lia).
  - exists 2. split_and!; (done || lia).
  - exists 3. split_and!; (done || lia).
  - done.
Qed.

Lemma boot_owner_at k : 0 <= k <= 3 -> boot_owner base !! (base + 0x1000 * k) = Some (Z.to_nat k, 0).
Proof.
  intros Hk. unfold boot_owner.
  assert (k = 0 \/ k = 1 \/ k = 2 \/ k = 3) as [->|[->|[->| ->]]] by lia;
    repeat first
    [ rewrite lookup_insert_ne by lia
    | match goal with |- context [<[?a := ?x]> ?m !! ?b] =>
        replace b with a by lia; rewrite lookup_insert_eq end ]; done.
Qed.

Lemma boot_table_aligned k : (base + 0x1000 * k) mod 4096 = 0.
Proof. rewrite (Z.mul_comm 0x1000 k). change 0x1000 with 4096. by rewrite Z_mod_plus_full. Qed.

Lemma boot_entry k : 0 <= k <= 3 ->
  present ((base + 0x1000 * k) ||| 3) = true /\
  ((base + 0x1000 * k) ||| 3) &&& PHYS_MASK = base + 0x1000 * k.
Proof.
  intros Hk. pose proof (boot_table_aligned k). split.
  - by rewrite present_testbit, entry_flag by (done || lia).
  - apply entry_phys; [done|unfold in_u; lia|unfold in_u; lia].
Qed.

Lemma setup_paging_ok : tables_ok s (boot_owner base).
Proof.
  split.
  - done.
  - apply lookup_insert_eq.
  - intros t1 t2 x (k1 & ? & -> & ->)%boot_owner_inv (k2 & ? & -> & [= E])%boot_owner_inv. lia.
  - intros t d q (k & ? & -> & [= -> ->])%boot_owner_inv.
    split_and!; [apply boot_table_aligned|unfold in_u; lia..|lia|]. apply Hused. lia.
  - intros t d q i (k & ? & -> & [= -> ->])%boot_owner_inv Hd Hi.
    rewrite boot_rd_upper by lia. case_decide as E; [|done]. subst i. intros _.
    destruct (boot_entry (k + 1)) as [_ ->]; [lia|]. rewrite boot_owner_at by lia.
    do 2 f_equal; lia.
  - intros t d q (k & ? & -> & [= E ->])%boot_owner_inv.
    exists (base + 0x1000 * (k - 1)), 0. rewrite boot_owner_at, boot_rd_upper by lia.
    destruct (decide (0 = 0)); [|done].
    replace (k - 1 + 1) with k by lia. destruct (boot_entry k) as [-> ->]; [lia|].
    split_and!; try done; [|lia..]. do 2 f_equal. lia.
Qed.

Lemma boot_walk v d : in_u 48 v -> (d <= 3)%nat ->
  walk d s v = if decide (dprefix d v = 0) then Some (base + 0x1000 * Z.of_nat d) else None.
Proof.
  intros Hv. induction d as [|d IH]; intros Hd.
  { rewrite dprefix_0 by done. rewrite decide_True by done. cbn [walk]. f_equal.
    change (pt4 s) with base. lia. }
  cbn [walk]. rewrite IH by lia. rewrite dprefix_S by lia. pose proof (didx_range d v).
  assert (0 <= dprefix d v) by (apply Z.shiftr_nonneg; unfold in_u in Hv; lia).
  destruct (decide (dprefix d v = 0)) as [E|]; [|by rewrite decide_False by lia].
  rewrite boot_rd_upper by lia. rewrite E. destruct (decide (didx d v = 0)) as [->|].
  - destruct (boot_entry (Z.of_nat d + 1)) as [-> ->]; [lia|].
    rewrite decide_True by lia. f_equal. lia.
  - rewrite decide_False by lia. done.
Qed.

(** The boot tables map the first 2 MiB to themselves and nothing else. *)
Lemma setup_paging_frame v : in_u 48 v ->
  frame s v = if decide (v < 0x200000) then Some (0x1000 * page_of v) else None.
Proof.
  intros Hv. unfold frame, pte. rewrite boot_walk by (done || lia).
  assert (dprefix 3 v = v / 0x200000) as E3
    by (unfold dprefix; rewrite Z.shiftr_div_pow2 by lia; done).
  unfold in_u in Hv.
  destruct (decide (v < 0x200000)) as [Hlt|Hge].
  - rewrite decide_True by (rewrite E3; apply Z.div_small; lia).
    pose proof (didx_range 3 v) as Hr. change (Z.of_nat 3) with 3.
    change (0x1000 * 3) with 0x3000. rewrite boot_rd_PT by done.
    assert (page_of v = didx 3 v) as ->.
    { change (page_of v) with (dprefix 4 v). rewrite dprefix_S, E3 by lia.
      rewrite Z.div_small by lia. lia. }
    replace (3 + 4096 * didx 3 v) with (4096 * didx 3 v ||| 3).
    + assert ((4096 * didx 3 v) mod 4096 = 0) by (rewrite Z.mul_comm; apply Z.mod_mul; lia).
      rewrite present_testbit, entry_flag by (done || lia).
      change (Z.testbit 3 0) with true. cbv iota beta.
      rewrite entry_phys by (done || unfold in_u; lia). done.
    + rewrite (lor_aligned_add 12), Z.add_comm; [done|lia| |unfold in_u; lia].
      rewrite Z.mul_comm. by apply Z.mod_mul.
  - rewrite decide_False; [done|]. rewrite E3. intros E.
    apply Z.div_small_iff in E; lia.
Qed.
End Boot.

(** ** Entry arithmetic of set_page_permission *)
Definition os_flags (is_os : bool) : Z :=
  DIRECTORY_DEFAULTS ||| (if is_os then USER_ACCESS_BIT else 0).

Lemma os_flags_range is_os : in_u 12 (os_flags is_os).
Proof. by destruct is_os. Qed.

Lemma SET_FLAGS_split is_os e : SET_FLAGS is_os e = (e &&& ADDRESS_MASK) ||| os_flags is_os.
Proof. unfold SET_FLAGS, os_flags. by rewrite Z.lor_assoc. Qed.

Lemma address_mask_aligned e : (e &&& ADDRESS_MASK) mod 4096 = 0.
Proof.
  change 4096 with (2 ^ 12). rewrite <- Z.land_ones by lia.
  apply Z.bits_inj'. intros i Hi. rewrite !Z.land_spec, ADDRESS_MASK_bits, Z.testbit_0_l.
  case_bool_decide; [|by rewrite andb_false_r].
  rewrite Z.ones_spec_high by lia. apply andb_false_r.
Qed.

Lemma SET_FLAGS_low is_os e b : 0 <= b < 12 ->
  Z.testbit (SET_FLAGS is_os e) b = Z.testbit (os_flags is_os) b.
Proof. intros. rewrite SET_FLAGS_split. apply entry_flag; [apply address_mask_aligned|done]. Qed.

Lemma SET_FLAGS_phys is_os e :
  in_u 40 (e &&& PHYS_MASK) -> SET_FLAGS is_os e &&& PHYS_MASK = e &&& PHYS_MASK.
Proof.
  intros Hr. rewrite SET_FLAGS_split, entry_phys, address_mask_phys; [done|done| | |].
  - apply address_mask_aligned.
  - rewrite address_mask_phys by done. unfold in_u in *. lia.
  - apply os_flags_range.
Qed.

Lemma SET_FLAGS_63 is_os e : Z.testbit (SET_FLAGS is_os e) 63 = false.
Proof.
  rewrite SET_FLAGS_split, Z.lor_spec, Z.land_spec, ADDRESS_MASK_bits.
  rewrite bool_decide_eq_false_2, andb_false_r by lia.
  by apply (testbit_high 12); [apply os_flags_range|].
Qed.

Definition NOT_RW : Z := u64 (Z.lnot READ_WRITE_BIT).

Lemma NOT_RW_bits i : 0 <= i < 64 -> Z.testbit NOT_RW i = negb (i =? 1).
Proof.
  intros. unfold NOT_RW, wrap. rewrite Z.mod_pow2_bits_low, Z.lnot_spec by lia.
  f_equal. change READ_WRITE_BIT with (2 ^ 1). rewrite Z.pow2_bits_eqb by lia.
  by rewrite Z.eqb_sym.
Qed.

(** The final value of the leaf entry. *)
Definition leaf_value (is_os w x : bool) (e : Z) : Z :=
  let e := SET_FLAGS is_os e in
  let e := if negb x then e ||| NO_EXEC_BIT else e in
  if negb w then e &&& NOT_RW else e.

Lemma leaf_value_bit is_os w x e b : 0 <= b < 64 ->
  Z.testbit (leaf_value is_os w x e) b =
  (Z.testbit (SET_FLAGS is_os e) b || (negb x && (b =? 63))) && (w || negb (b =? 1)).
Proof.
  intros Hb. unfold leaf_value. destruct w, x; cbn [negb];
    rewrite ?Z.land_spec, ?Z.lor_spec, ?NO_EXEC_BIT_bits, ?NOT_RW_bits by lia;
    rewrite ?(bool_decide_ext (b = 63) (b = 63)) by done;
    destruct (Z.eqb_spec b 63), (Z.eqb_spec b 1); try case_bool_decide; try lia;
    cbn [negb andb orb]; rewrite ?andb_true_r, ?andb_false_r, ?orb_false_r, ?orb_true_r; done.
Qed.

Lemma leaf_value_perm is_os w x e :
  present (leaf_value is_os w x e) = true /\
  entry_perm (leaf_value is_os w x e) = MkPerm is_os w x.
Proof.
  rewrite present_testbit. unfold entry_perm.
  rewrite !leaf_value_bit, SET_FLAGS_63, !SET_FLAGS_low by lia.
  by destruct is_os, w, x.
Qed.

Lemma leaf_value_phys is_os w x e :
  in_u 40 (e &&& PHYS_MASK) -> leaf_value is_os w x e &&& PHYS_MASK = e &&& PHYS_MASK.
Proof.
  intros Hr. rewrite <- (SET_FLAGS_phys is_os e Hr).
  apply Z.bits_inj'. intros i Hi. rewrite !Z.land_spec, PHYS_MASK_bits.
  case_bool_decide; [|by rewrite !andb_false_r]. rewrite !andb_true_r.
  rewrite leaf_value_bit by lia.
  destruct (Z.eqb_spec i 63), (Z.eqb_spec i 1); try lia.
  by rewrite andb_false_r, orb_false_r, orb_true_r, andb_true_r.
Qed.

(** ** What set_page_permission does *)
Section Spec.
Context {P : Type} `{!PageSupply P} `{!PageSupplyOk P}.
Implicit Types (s : paging P) (O : gmap Z (nat * Z)).

(** One upper level: only flags of a non-leaf entry change. *)
Lemma upper_flags s O v t d is_os :
  tables_ok s O -> in_u 48 v -> (d < 3)%nat -> walk d s v = Some t ->
  present (rd s (t + 8 * didx d v)) = true ->
  let s1 := wr s (t + 8 * didx d v) (SET_FLAGS is_os (rd s (t + 8 * didx d v))) in
  tables_ok s1 O /\ (forall k w, walk k s1 w = walk k s w) /\
  (forall w, in_u 48 w -> pte s1 w = pte s w) /\
  rd s1 (t + 8 * didx d v) &&& ADDRESS_MASK = rd s (t + 8 * didx d v) &&& PHYS_MASK.
Proof.
  intros Hok Hv Hd Ht Hp. cbv zeta.
  pose proof (walk_registered s O v Hok Hv d t ltac:(lia) Ht) as HO.
  pose proof (tk_edge s O Hok _ _ _ _ HO Hd (didx_range d v) Hp) as HE.
  destruct (tk_tab s O Hok _ _ _ HE) as (_ & Hr & _).
  pose proof (SET_FLAGS_phys is_os _ Hr) as Haddr.
  assert (present (SET_FLAGS is_os (rd s (t + 8 * didx d v))) = true) as Hnew
    by (rewrite present_testbit, SET_FLAGS_low by lia; by destruct is_os).
  assert (forall k w, walk k (wr s (t + 8 * didx d v)
    (SET_FLAGS is_os (rd s (t + 8 * didx d v)))) w = walk k s w) as Hw
    by (intros; by apply refresh_walk).
  split_and!; [by apply refresh_ok|done| |].
  - intros w Hwr. unfold pte. rewrite Hw. destruct (walk 3 s w) as [t3|] eqn:E3; [|done].
    rewrite rd_wr_ne; [done|]. intros E.
    pose proof (walk_registered s O w Hok Hwr 3 t3 ltac:(lia) E3) as HO3.
    destruct (tk_tab s O Hok _ _ _ HO) as (? & _). destruct (tk_tab s O Hok _ _ _ HO3) as (? & _).
    apply slot_inj in E as [E _]; [|done..|apply didx_range|apply didx_range].
    rewrite E, HO3 in HO. injection HO as HO _. lia.
  - rewrite rd_wr_eq, address_mask_phys; rewrite Haddr; done.
Qed.

Lemma wr_wr s a x y : wr (wr s a x) a y = wr s a y.
Proof. unfold wr, set_mem. simpl. by rewrite insert_insert_eq. Qed.

Lemma walk_present s v d t t' :
  walk d s v = Some t -> walk (S d) s v = Some t' ->
  present (rd s (t + 8 * didx d v)) = true /\ rd s (t + 8 * didx d v) &&& PHYS_MASK = t'.
Proof. simpl. intros ->. case_match; [|done]. by intros [= ->]. Qed.

Record permitted s s' O (v : Z) (pm : perm) : Prop := {
  pd_ok : tables_ok s' O;
  pd_regs : pt4 s' = pt4 s /\ IF s' = IF s /\ supply s' = supply s;
  pd_frame : forall w, in_u 48 w -> frame s' w = frame s w;
  pd_other : forall w, in_u 48 w -> page_of w ≠ page_of v -> leaf_perm s' w = leaf_perm s w;
  pd_self : leaf_perm s' v = Some pm
}.

(** Addresses of one page share their entries. *)
Lemma pte_page s u v : page_of u = page_of v -> pte s u = pte s v.
Proof.
  intros E. assert (forall d, (d <= 3)%nat -> didx d u = didx d v) as Hi.
  { intros d Hd. unfold didx, pt_index. f_equal.
    replace (39 - 9 * Z.of_nat d) with (12 + (27 - 9 * Z.of_nat d)) by lia.
    rewrite <- !Z.shiftr_shiftr by lia. unfold page_of in E. by rewrite E. }
  assert (forall d, (d <= 3)%nat -> walk d s u = walk d s v) as Hw.
  { induction d as [|d IH]; intros Hd; simpl; [done|]. rewrite IH by lia.
    destruct (walk d s v); [|done]. by rewrite Hi by lia. }
  unfold pte. by rewrite Hw, Hi by lia.
Qed.

(** The three upper levels together. *)
Lemma permission_upper s O v e is_os :
  tables_ok s O -> in_u 48 v -> pte s v = Some e ->
  let s1 := wr s (pt4 s + 8 * didx 0 v) (SET_FLAGS is_os (rd s (pt4 s + 8 * didx 0 v))) in
  let pt3 := rd s1 (pt4 s1 + 8 * didx 0 v) &&& ADDRESS_MASK in
  let s2 := wr s1 (pt3 + 8 * didx 1 v) (SET_FLAGS is_os (rd s1 (pt3 + 8 * didx 1 v))) in
  let pt2 := rd s2 (pt3 + 8 * didx 1 v) &&& ADDRESS_MASK in
  let s3 := wr s2 (pt2 + 8 * didx 2 v) (SET_FLAGS is_os (rd s2 (pt2 + 8 * didx 2 v))) in
  let page_table := rd s3 (pt2 + 8 * didx 2 v) &&& ADDRESS_MASK in
  tables_ok s3 O /\ walk 3 s3 v = Some page_table /\
  rd s3 (page_table + 8 * didx 3 v) = e /\
  (forall u, in_u 48 u -> pte s3 u = pte s u) /\
  pt4 s3 = pt4 s /\ IF s3 = IF s /\ supply s3 = supply s.
Proof.
  intros Hok Hv Hpte.
  assert (exists t1 t2 t3, walk 1 s v = Some t1 /\ walk 2 s v = Some t2 /\
    walk 3 s v = Some t3) as (t1 & t2 & t3 & W1 & W2 & W3).
  { unfold pte in Hpte. destruct (walk 3 s v) as [t3|] eqn:W3; [|done].
    destruct (walk 2 s v) as [t2|] eqn:W2; [|simpl in W3, W2; by rewrite W2 in W3].
    destruct (walk 1 s v) as [t1|] eqn:W1; [|simpl in W2, W1; by rewrite W1 in W2].
    by exists t1, t2, t3. }
  intros s1 pt3 s2 pt2 s3 page_table.
  destruct (walk_present s v 0 (pt4 s) t1 eq_refl W1) as [P1 E1].
  destruct (upper_flags s O v (pt4 s) 0 is_os Hok Hv ltac:(lia) eq_refl P1) as (Ok1 & K1 & T1 & A1).
  fold s1 in Ok1, K1, T1, A1. rewrite E1 in A1. rewrite <- K1 in W1, W2, W3.
  destruct (walk_present s1 v 1 t1 t2 W1 W2) as [P2 E2].
  destruct (upper_flags s1 O v t1 1 is_os Ok1 Hv ltac:(lia) W1 P2) as (Ok2 & K2 & T2 & A2).
  assert (pt3 = t1) as Ep3 by exact A1. rewrite <- Ep3 in Ok2, K2, T2, A2, E2.
  fold s2 in Ok2, K2, T2, A2. rewrite E2 in A2. rewrite <- K2 in W2, W3.
  destruct (walk_present s2 v 2 t2 t3 W2 W3) as [P3 E3].
  destruct (upper_flags s2 O v t2 2 is_os Ok2 Hv ltac:(lia) W2 P3) as (Ok3 & K3 & T3 & A3).
  assert (pt2 = t2) as Ep2 by exact A2. rewrite <- Ep2 in Ok3, K3, T3, A3, E3.
  fold s3 in Ok3, K3, T3, A3. rewrite E3 in A3. rewrite <- K3 in W3.
  assert (page_table = t3) as -> by exact A3.
  assert (forall u, in_u 48 u -> pte s3 u = pte s u) as HT
    by (intros u Hu; by rewrite T3, T2, T1).
  split_and!; try done.
  pose proof (HT v Hv) as Hx. rewrite Hpte in Hx. unfold pte in Hx. rewrite W3 in Hx.
  destruct (present (rd s3 (t3 + 8 * didx 3 v))); by inversion Hx.
Qed.

(** The leaf writes collapse to one. *)
Lemma permission_leaf s slot is_os w x :
  let s1 := wr s slot (SET_FLAGS is_os (rd s slot)) in
  let s2 := if negb x then wr s1 slot (rd s1 slot ||| NO_EXEC_BIT) else s1 in
  (if negb w then wr s2 slot (rd s2 slot &&& u64 (Z.lnot READ_WRITE_BIT)) else s2) =
  wr s slot (leaf_value is_os w x (rd s slot)).
Proof. unfold leaf_value. destruct w, x; cbn [negb]; by rewrite ?rd_wr_eq, ?wr_wr. Qed.

Lemma set_page_permission_spec s O v e is_os w x :
  tables_ok s O -> in_u 48 v -> pte s v = Some e -> in_u 40 (e &&& PHYS_MASK) ->
  permitted s (set_page_permission v is_os w x s) O v (MkPerm is_os w x).
Proof.
  intros Hok Hv Hpte Hr. unfold set_page_permission.
  change (pt_index 39 v) with (didx 0 v). change (pt_index 30 v) with (didx 1 v).
  change (pt_index 21 v) with (didx 2 v). change (pt_index 12 v) with (didx 3 v).
  set (s0 := disable_interrupts s).
  assert (tables_ok s0 O) as Hok0 by (by apply (tables_ok_regs s)).
  pose proof (permission_upper s0 O v e is_os Hok0 Hv Hpte) as U. cbv zeta in U.
  set (s1 := wr s0 (pt4 s0 + 8 * didx 0 v) _) in *.
  set (pt3 := rd s1 (pt4 s1 + 8 * didx 0 v) &&& ADDRESS_MASK) in *.
  set (s2 := wr s1 (pt3 + 8 * didx 1 v) _) in *.
  set (pt2 := rd s2 (pt3 + 8 * didx 1 v) &&& ADDRESS_MASK) in *.
  set (s3 := wr s2 (pt2 + 8 * didx 2 v) _) in *.
  set (t := rd s3 (pt2 + 8 * didx 2 v) &&& ADDRESS_MASK) in *.
  destruct U as (Ok3 & W3 & Ee & T3 & R3 & I3 & S3).
  clearbody t. clearbody s3. clear pt2 s2 pt3 s1.
  rewrite (permission_leaf s3 (t + 8 * didx 3 v)), Ee.
  destruct (leaf_value_perm is_os w x e) as [Lp Lq].
  pose proof (leaf_value_phys is_os w x e Hr) as La.
  set (s4 := wr s3 (t + 8 * didx 3 v) (leaf_value is_os w x e)) in *.
  assert ((if are_interrupts_enabled s then enable_interrupts (flush_tlb (rd s4 (t + 8 * didx 3 v)) s4)
     else flush_tlb (rd s4 (t + 8 * didx 3 v)) s4)
     = MkPaging (mem s4) (pt4 s4) (supply s4) (IF s) (flushed s4 ++ [rd s4 (t + 8 * didx 3 v)])) as ->.
  { unfold are_interrupts_enabled, flush_tlb. change (IF s4) with (IF s3). rewrite I3.
    destruct (IF s); done. }
  pose proof (leaf_pte_self s3 O t v _ Ok3 Hv W3 Lp) as Hself. fold s4 in Hself.
  assert (forall u, in_u 48 u -> page_of u ≠ page_of v -> pte s4 u = pte s u) as Hoth
    by (intros u Hu Hne; unfold s4; rewrite (leaf_pte_other s3 O t v) by done; by apply T3).
  split.
  - apply (tables_ok_regs s4). unfold s4. by apply (leaf_ok s3 O t v).
  - done.
  - intros u Hu. change (frame s4 u = frame s u). unfold frame.
    destruct (decide (page_of u = page_of v)) as [E|]; [|by rewrite Hoth].
    assert (forall r : paging P, pte r u = pte r v) as Hsame by (intros; by apply pte_page).
    by rewrite !Hsame, Hself, Hpte, La.
  - intros u Hu Hne. change (leaf_perm s4 u = leaf_perm s u). unfold leaf_perm. by rewrite Hoth.
  - change (leaf_perm s4 v = Some (MkPerm is_os w x)). unfold leaf_perm. by rewrite Hself, Lq.
Qed.

(** *** Loops over sections *)
(** The pages the loop from [start] to [end_] visits. *)
Definition touched (sec : Z * Z) (w : Z) : Prop :=
  exists k, 0 <= k /\ sec.1 + k * PAGE_SIZE < sec.2 /\
    page_of w = page_of (sec.1 + k * PAGE_SIZE).

(** Everything the loop visits is mapped, to a frame below 2^40. *)
Definition mapped_below (s : paging P) (hi : Z) : Prop :=
  forall v, 0 <= v < hi -> exists f, frame s v = Some f /\ in_u 40 f.

Record swept s s' O (sec : Z * Z) (pm : perm) : Prop := {
  sw_ok : tables_ok s' O;
  sw_regs : pt4 s' = pt4 s /\ IF s' = IF s /\ supply s' = supply s;
  sw_frame : forall w, in_u 48 w -> frame s' w = frame s w;
  sw_out : forall w, in_u 48 w -> ~ touched sec w -> leaf_perm s' w = leaf_perm s w;
  sw_in : forall w, in_u 48 w -> touched sec w -> leaf_perm s' w = Some pm
}.

Lemma leaf_perm_page s u v : page_of u = page_of v -> leaf_perm s u = leaf_perm s v.
Proof. intros E. unfold leaf_perm. by rewrite (pte_page s u v). Qed.

Lemma touched_cons start end_ u : start < end_ ->
  touched (start, end_) u <->
  page_of u = page_of start \/ touched (start + PAGE_SIZE, end_) u.
Proof.
  intros Hlt. unfold touched. cbn [fst snd]. split.
  - intros (k & ? & ? & E). destruct (decide (k = 0)) as [->|].
    + left. by rewrite Z.add_0_r in E.
    + right. exists (k - 1). replace (start + PAGE_SIZE + (k - 1) * PAGE_SIZE)
        with (start + k * PAGE_SIZE) by lia. split_and!; (done || lia).
  - intros [E|(k & ? & ? & E)].
    + exists 0. rewrite Z.add_0_r. done.
    + exists (k + 1). replace (start + (k + 1) * PAGE_SIZE)
        with (start + PAGE_SIZE + k * PAGE_SIZE) by lia. split_and!; (done || lia).
Qed.

Lemma permission_loop_spec hi is_os w x : hi <= 2 ^ 48 -> forall n start end_ s O,
  tables_ok s O -> 0 <= start -> end_ <= hi -> mapped_below s hi ->
  end_ <= start + Z.of_nat n * PAGE_SIZE ->
  swept s (permission_loop n start end_ is_os w x s).1 O (start, end_) (MkPerm is_os w x) /\
  end_ <= (permission_loop n start end_ is_os w x s).2 < Z.max (start + 1) (end_ + PAGE_SIZE).
Proof.
  intros Hhi. induction n as [|n IH]; intros start end_ s O Hok Hs He Hm Hn; cbn [permission_loop].
  { unfold PAGE_SIZE in *. split; [split; try done|simpl; lia].
    intros u _ (k & ? & Hk & _). cbn [fst snd] in Hk. unfold PAGE_SIZE in Hk. lia. }
  destruct (Z.ltb_spec start end_) as [Hlt|Hge]; cycle 1.
  { unfold PAGE_SIZE in *. split; [split; try done|simpl; lia].
    intros u _ (k & ? & Hk & _). cbn [fst snd] in Hk. unfold PAGE_SIZE in Hk. lia. }
  destruct (Hm start ltac:(lia)) as (f & Hf & Hfr).
  destruct (pte s start) as [e|] eqn:Hpte; unfold frame in Hf; rewrite Hpte in Hf; [|done].
  injection Hf as <-.
  destruct (set_page_permission_spec s O start e is_os w x) as [D1 D2 D3 D4 D5];
    [done|unfold in_u; lia|done|done|].
  set (s1 := set_page_permission start is_os w x s) in *. clearbody s1.
  assert (mapped_below s1 hi) as Hm1.
  { intros v Hv. rewrite D3 by (unfold in_u; lia). by apply Hm. }
  destruct (IH (start + PAGE_SIZE) end_ s1 O) as [[R1 R2 R3 R4 R5] R6];
    [done|unfold PAGE_SIZE; lia|done|done|unfold PAGE_SIZE in *; lia|].
  split; [split|unfold PAGE_SIZE in *; lia].
  - done.
  - destruct D2 as (? & ? & ?), R2 as (? & ? & ?). split_and!; congruence.
  - intros u Hu. by rewrite R3, D3.
  - intros u Hu Hnt. rewrite touched_cons in Hnt by done. rewrite R4, D4; naive_solver.
  - intros u Hu [E|Ht]%touched_cons; [|by apply R5|done].
    rewrite R4, (leaf_perm_page s1 u start); [done|done|done|].
    intros (k & ? & _ & E'). cbn [fst snd] in E'. rewrite page_of_add in E'.
    replace (start + PAGE_SIZE) with (start + 1 * PAGE_SIZE) in E' by lia.
    rewrite page_of_add in E'. lia.
Qed.

Lemma SET_PERMISSIONS_spec hi sec is_os w x s O :
  hi <= 2 ^ 48 -> tables_ok s O -> 0 <= sec.1 -> sec.2 <= hi -> mapped_below s hi ->
  swept s (SET_PERMISSIONS sec is_os w x s).1 O sec (MkPerm is_os w x) /\
  sec.2 <= (SET_PERMISSIONS sec is_os w x s).2 < Z.max (sec.1 + 1) (sec.2 + PAGE_SIZE).
Proof.
  intros. destruct sec as [start end_]. apply (permission_loop_spec hi); try done.
  unfold rounds. cbn [fst snd] in *.
  pose proof (Z.div_mod (end_ - start) PAGE_SIZE ltac:(done)) as E.
  pose proof (Z.mod_pos_bound (end_ - start) PAGE_SIZE ltac:(done)).
  destruct (decide (end_ <= start)).
  - assert (0 <= Z.of_nat (Z.to_nat ((end_ - start) / PAGE_SIZE + 1)) * PAGE_SIZE)
      by (apply Z.mul_nonneg_nonneg; unfold PAGE_SIZE; lia). lia.
  - assert (0 <= (end_ - start) / PAGE_SIZE) by (apply Z.div_pos; unfold PAGE_SIZE; lia).
    rewrite Z2Nat.id by lia. unfold PAGE_SIZE in *. lia.
Qed.

(** A list of sections, processed in order. *)
Definition set_all (l : list (Z * Z * perm)) (s : paging P) : paging P :=
  foldl (fun s x => (SET_PERMISSIONS x.1 (p_user x.2) (p_write x.2) (p_exec x.2) s).1) s l.

Record all_swept s s' O (l : list (Z * Z * perm)) : Prop := {
  as_ok : tables_ok s' O;
  as_regs : pt4 s' = pt4 s /\ IF s' = IF s /\ supply s' = supply s;
  as_frame : forall w, in_u 48 w -> frame s' w = frame s w;
  as_perm : forall w pm, in_u 48 w ->
    (forall x, x ∈ l -> touched x.1 w -> x.2 = pm) ->
    (exists x, x ∈ l /\ touched x.1 w) \/ leaf_perm s w = Some pm ->
    leaf_perm s' w = Some pm
}.

Lemma set_all_spec hi : hi <= 2 ^ 48 -> forall l s O,
  tables_ok s O -> mapped_below s hi ->
  Forall (fun x => 0 <= x.1.1 /\ x.1.2 <= hi) l -> all_swept s (set_all l s) O l.
Proof.
  intros Hhi. induction l as [|[sec pm1] l IH]; intros s O Hok Hm Hl.
  { split; [done..|]. intros w pm _ _ [(x & []%not_elem_of_nil & _)|]; done. }
  apply Forall_cons in Hl as [[Hs He] Hl]. cbn [fst snd] in *.
  destruct (SET_PERMISSIONS_spec hi sec (p_user pm1) (p_write pm1) (p_exec pm1) s O)
    as [[D1 D2 D3 D4 D5] _]; [done..|].
  unfold set_all. cbn [foldl fst snd].
  set (s1 := (SET_PERMISSIONS _ _ _ _ s).1) in *. clearbody s1.
  assert (mapped_below s1 hi) as Hm1.
  { intros v Hv. rewrite D3 by (unfold in_u; lia). by apply Hm. }
  destruct (IH s1 O D1 Hm1 Hl) as [A1 A2 A3 A4]. fold (set_all l s1). split.
  - done.
  - destruct D2 as (? & ? & ?), A2 as (? & ? & ?). split_and!; congruence.
  - intros w Hw. by rewrite A3, D3.
  - intros w pm Hw Hall Hex. apply A4; [done| |].
    { intros x Hx. apply Hall. by apply elem_of_cons; right. }
    destruct (decide (leaf_perm s1 w = Some pm)) as [|Hne]; [by right|left].
    (* otherwise the page is not visited by the first section *)
    assert (~ touched sec w) as Hnt.
    { intros Ht. apply Hne. rewrite D5 by done.
      pose proof (Hall (sec, pm1) ltac:(left) Ht) as E. cbn [snd] in E. subst pm. by destruct pm1. }
    destruct Hex as [(x & [->|Hx]%elem_of_cons & Ht)|E]; [done|by exists x|].
    rewrite D4 in Hne by done. done.
Qed.

(** *** The whole of vmm_set_page_permissions *)
(** The sections after the boot code, with their permissions, in code order. *)
Definition section_perms (l : sections) : list (Z * Z * perm) :=
  [ (KERNEL_TEXT l, MkPerm false false true);
    (KERNEL_RODATA l, MkPerm false false false);
    (KERNEL_DATA l, MkPerm false true false);
    (KERNEL_BSS l, MkPerm false true false);
    (OS_TEXT l, MkPerm true false true);
    (OS_RODATA l, MkPerm true false false);
    (OS_DATA l, MkPerm true true false);
    (OS_BSS l, MkPerm true true false) ].

(** The sections as the linker script lays them out, below 2 MiB. *)
Record layout_ok (l : sections) : Prop := {
  ly_boot : 0 <= (BOOT l).1 <= (BOOT l).2;
  ly_align : Forall (fun x : Z * Z * perm => 0 <= x.1.1 /\ x.1.1 mod PAGE_SIZE = 0) (section_perms l);
  ly_order : (BOOT l).2 <= (KERNEL_TEXT l).1 /\
    (KERNEL_TEXT l).1 <= (KERNEL_TEXT l).2 <= (KERNEL_RODATA l).1 /\
    (KERNEL_RODATA l).1 <= (KERNEL_RODATA l).2 <= (KERNEL_DATA l).1 /\
    (KERNEL_DATA l).1 <= (KERNEL_DATA l).2 <= (OS_TEXT l).1 /\
    (OS_TEXT l).1 <= (OS_TEXT l).2 <= (OS_RODATA l).1 /\
    (OS_RODATA l).1 <= (OS_RODATA l).2 <= (OS_DATA l).1 /\
    (OS_DATA l).1 <= (OS_DATA l).2 <= (KERNEL_BSS l).1 /\
    (KERNEL_BSS l).1 <= (KERNEL_BSS l).2 <= (OS_BSS l).1 /\
    (OS_BSS l).1 <= (OS_BSS l).2;
  ly_end : (BOOT l).2 + PAGE_SIZE <= 0x200000 /\ (OS_BSS l).2 <= 0x200000
}.

Lemma vmm_set_page_permissions_eq l s :
  vmm_set_page_permissions l s =
  let sb := SET_PERMISSIONS (BOOT l) false true true s in
  set_all (section_perms l) (SET_PERMISSIONS (0, sb.2) false true true sb.1).1.
Proof.
  unfold vmm_set_page_permissions, set_all, section_perms.
  cbn [foldl fst snd p_user p_write p_exec].
  repeat match goal with
  | |- context [let '(_, _) := ?x in _] => destruct x; cbn [fst snd]
  end. done.
Qed.

(** Sections that follow each other share no page. *)
Lemma touched_disjoint a b w :
  a.2 <= b.1 -> b.1 mod PAGE_SIZE = 0 -> touched a w -> touched b w -> False.
Proof.
  intros Hab Hal (k & ? & Hk & E) (k' & ? & _ & E'). rewrite E in E'. clear E w.
  unfold page_of in E'. rewrite !Z.shiftr_div_pow2 in E' by lia.
  change (2 ^ 12) with PAGE_SIZE in E'. rewrite (Z.div_add b.1) in E' by done.
  apply Z.mod_divide in Hal as [c Hc]; [|done]. rewrite Hc, Z.div_mul in E' by done.
  assert ((a.1 + k * PAGE_SIZE) / PAGE_SIZE < c) by (apply Z.div_lt_upper_bound; unfold PAGE_SIZE in *; lia).
  lia.
Qed.

(** [a] comes before [b] or after it. *)
Definition apart (a b : Z * Z) : Prop := a.2 <= b.1 \/ b.2 <= a.1.

Lemma section_perms_apart l : layout_ok l ->
  ForallOrdPairs (fun x y : Z * Z * perm => apart x.1 y.1) (section_perms l).
Proof.
  intros [_ _ Ho _]. unfold section_perms.
  repeat (constructor; [repeat (constructor; [unfold apart; cbn [fst snd]; lia|]); constructor|]).
  constructor.
Qed.

Lemma section_perms_unique l w x y : layout_ok l ->
  x ∈ section_perms l -> y ∈ section_perms l -> touched x.1 w -> touched y.1 w -> x = y.
Proof.
  intros Hl Hx Hy Tx Ty. pose proof (section_perms_apart l Hl) as Hp.
  destruct Hl as [_ Ha _ _]. rewrite Forall_forall in Ha.
  destruct (Ha x Hx) as [_ Ax], (Ha y Hy) as [_ Ay].
  destruct (ForallOrdPairs_In Hp x y) as [|[[H|H]|[H|H]]];
    [by apply list_elem_of_In|by apply list_elem_of_In|done|..];
    exfalso; eauto using touched_disjoint.
Qed.

Lemma vmm_set_page_permissions_spec s O l :
  tables_ok s O -> mapped_below s 0x200000 -> layout_ok l ->
  tables_ok (vmm_set_page_permissions l s) O /\
  IF (vmm_set_page_permissions l s) = IF s /\
  (forall w, in_u 48 w -> frame (vmm_set_page_permissions l s) w = frame s w) /\
  (forall x w, x ∈ section_perms l -> in_u 48 w -> touched x.1 w ->
     leaf_perm (vmm_set_page_permissions l s) w = Some x.2).
Proof.
  intros Hok Hm Hl. pose proof Hl as [Hb Ha Ho He]. rewrite vmm_set_page_permissions_eq. cbv zeta.
  destruct (SET_PERMISSIONS_spec 0x200000 (BOOT l) false true true s O)
    as [[D1 D2 D3 _ _] D6]; [lia|done|lia|unfold PAGE_SIZE in *; lia|done|].
  set (sb := SET_PERMISSIONS (BOOT l) false true true s) in *. clearbody sb.
  assert (mapped_below sb.1 0x200000) as Hm1
    by (intros v Hv; rewrite D3 by (unfold in_u; lia); by apply Hm).
  destruct (SET_PERMISSIONS_spec 0x200000 (0, sb.2) false true true sb.1 O)
    as [[E1 E2 E3 _ _] _]; [lia|done|simpl; lia|simpl; unfold PAGE_SIZE in *; lia|done|].
  set (s2 := (SET_PERMISSIONS (0, sb.2) false true true sb.1).1) in *. clearbody s2.
  assert (mapped_below s2 0x200000) as Hm2
    by (intros v Hv; rewrite E3 by (unfold in_u; lia); by apply Hm1).
  destruct (set_all_spec 0x200000 ltac:(lia) (section_perms l) s2 O) as [A1 A2 A3 A4]; [done|done| |].
  { rewrite Forall_forall in Ha |- *. intros x Hx. split; [by apply Ha|].
    unfold section_perms in Hx. rewrite !elem_of_cons, elem_of_nil in Hx.
    destruct_or! Hx; subst x; cbn [fst snd]; (done || lia). }
  split_and!; [done|destruct D2 as (_ & ? & _), E2 as (_ & ? & _), A2 as (_ & ? & _); congruence| |].
  - intros w Hw. by rewrite A3, E3, D3.
  - intros x w Hx Hw Ht. apply A4; [done| |by left; exists x].
    intros y Hy Ty. by rewrite (section_perms_unique l w y x).
Qed.
End Spec.

(** ** Properties
    Stated for the real supply, the bitmap of PMM.c. *)
Import PmmSupply.

(** A kernel image: tables in the kernel's [.bss], free pages above it. *)
Definition boot_state : paging PMM.pmm := setup_paging 0x24000 (PMM.pmm_init 0x48000).

Lemma boot_pmm_wf : PMM.wf (PMM.pmm_init 0x48000).
Proof. apply PMM.pmm_init_wf; [unfold PMM.MEM_START; lia|reflexivity]. Qed.

Lemma boot_state_ok : tables_ok boot_state (boot_owner 0x24000).
Proof.
  apply setup_paging_ok; [lia|reflexivity|apply boot_pmm_wf|].
  intros t Ht (k & Hk & E). apply PMM.elem_of_free_set in Hk as [? _].
  unfold PMM.page_addr, PMM.PAGE_SIZE in E.
  change (PMM.RESERVED_START (PMM.pmm_init 0x48000)) with 0x48000 in E. lia.
Qed.

Lemma boot_state_avail n : Z.of_nat n <= 32000 -> ps_avail (supply boot_state) n.
Proof.
  intros Hn. change (n <= size (high_free (PMM.pmm_init 0x48000)))%nat.
  transitivity (size (list_to_set (seqZ 512 32000) : gset Z)).
  { rewrite size_list_to_set by apply NoDup_seqZ. rewrite length_seqZ. lia. }
  apply subseteq_size. intros k Hk%elem_of_list_to_set%elem_of_seqZ.
  unfold high_free. apply elem_of_filter. split; [vm_compute (PMM.start_word _ _); lia|].
  apply PMM.elem_of_free_set. split; [unfold PMM.NPAGES, PMM.PAGES; lia|].
  unfold PMM.page_free, PMM.pmm_init, nthZ. cbn [PMM.bitmap].
  destruct (PMM.page_split k) as [Ek ?]; [lia|].
  rewrite lookup_replicate_2 by (unfold PMM.PAGES; lia). simpl.
  change (2 ^ 64 - 1) with (Z.ones 64). apply Z.ones_spec_low. lia.
Qed.

Lemma boot_state_mapped : mapped_below boot_state 0x200000.
Proof.
  intros v Hv. unfold boot_state. rewrite setup_paging_frame; [|lia|reflexivity|unfold in_u; lia].
  rewrite decide_True by lia. eexists. split; [done|]. unfold page_of.
  rewrite Z.shiftr_div_pow2 by lia. change (2 ^ 12) with 4096.
  pose proof (Z.mul_div_le v 4096 ltac:(lia)). pose proof (Z.div_pos v 4096 ltac:(lia) ltac:(lia)).
  unfold in_u. lia.
Qed.



(** mapping a physical range (the loop of [ensure_pages_mapped] with a
    non-NULL [physical]): [n] unmapped consecutive pages end up translated to [n]
    consecutive frames, in order, and no other page is affected. *)
Theorem ensure_pages_mapped_physical (s : paging PMM.pmm) (O : gmap Z (nat * Z))
    (n : nat) (phys vstart fl : Z)
    (Hok : tables_ok s O) (Hfl : flags_ok fl) (Hal : phys mod 4096 = 0)
    (Hp : 0 < phys) (Hpe : phys + Z.of_nat n * 4096 <= 2 ^ 52)
    (Hv : 0 <= vstart) (Hve : vstart + Z.of_nat n * 4096 <= 2 ^ 48)
    (Hnone : forall j, 0 <= j < Z.of_nat n -> frame s (vstart + j * PAGE_SIZE) = None)
    (Hav : ps_avail (supply s) (4 * n)) :
  let s' := map_pages n 0 phys vstart fl s in
  (exists O', tables_ok s' O') /\ IF s' = IF s /\
  (forall j, 0 <= j < Z.of_nat n ->
     frame s' (vstart + j * PAGE_SIZE) = Some (phys + j * PAGE_SIZE)) /\
  (forall w, in_u 48 w ->
     (forall j, 0 <= j < Z.of_nat n -> page_of w ≠ page_of vstart + j) ->
     frame s' w = frame s w).
Proof.
  destruct (map_pages_spec fl Hfl n 0 phys vstart s O 0) as ([R1 [_ R2] _ _ R5] & A1 & _);
    [done..|lia|done|lia|done|lia|done|by rewrite Nat.add_0_r|].
  cbv zeta. split_and!; [done|done| |].
  - intros j Hj. rewrite A1 by lia. by rewrite Z.sub_0_r.
  - intros w Hw Hne. apply R5; [done|]. intros j Hj. rewrite page_of_add. apply Hne. lia.
Qed.

Lemma boot_unmapped v : 0x200000 <= v < 2 ^ 48 -> frame boot_state v = None.
Proof.
  intros Hv. unfold boot_state. rewrite setup_paging_frame; [|lia|reflexivity|unfold in_u; lia].
  by rewrite decide_False by lia.
Qed.

Lemma ensure_pages_mapped_physical_witness :
  frame (map_pages 3 0 0xfd000000 0x210000 3 boot_state) 0x212000 = Some 0xfd002000.
Proof.
  destruct (ensure_pages_mapped_physical boot_state (boot_owner 0x24000) 3 0xfd000000 0x210000 3)
    as (_ & _ & H & _);
    [apply boot_state_ok|by split|reflexivity|lia..| |by apply boot_state_avail|].
  - intros j Hj. apply boot_unmapped. unfold PAGE_SIZE. lia.
  - exact (H 2 ltac:(lia)).
Defined.

(** mapping fresh memory (the loop of [ensure_pages_mapped] with a NULL
    [physical]): [n] unmapped consecutive pages get [n] pairwise distinct frames,
    all of them free before and allocated after. *)
Theorem ensure_pages_mapped_fresh (s : paging PMM.pmm) (O : gmap Z (nat * Z))
    (n : nat) (vstart fl : Z)
    (Hok : tables_ok s O) (Hfl : flags_ok fl)
    (Hv : 0 <= vstart) (Hve : vstart + Z.of_nat n * 4096 <= 2 ^ 48) (Hn : Z.of_nat n <= 2 ^ 40)
    (Hnone : forall j, 0 <= j < Z.of_nat n -> frame s (vstart + j * PAGE_SIZE) = None)
    (Hav : ps_avail (supply s) (4 * n)) :
  let s' := map_pages n 0 0 vstart fl s in
  (exists O', tables_ok s' O') /\
  (forall j, 0 <= j < Z.of_nat n ->
     exists a, frame s' (vstart + j * PAGE_SIZE) = Some a /\
       ps_free (supply s) a /\ ~ ps_free (supply s') a) /\
  (forall j k, 0 <= j < Z.of_nat n -> 0 <= k < Z.of_nat n ->
     frame s' (vstart + j * PAGE_SIZE) = frame s' (vstart + k * PAGE_SIZE) -> j = k).
Proof.
  destruct (map_pages_spec fl Hfl n 0 0 vstart s O 0) as ([R1 _ _ _ _] & _ & A2 & A3);
    [done..|lia|lia|done|lia|done|by rewrite Nat.add_0_r|].
  cbv zeta. split_and!; [done|by apply A2|by apply A3].
Qed.

Lemma ensure_pages_mapped_fresh_witness :
  frame (map_pages 2 0 0 0x210000 3 boot_state) 0x210000 ≠
  frame (map_pages 2 0 0 0x210000 3 boot_state) 0x211000.
Proof.
  destruct (ensure_pages_mapped_fresh boot_state (boot_owner 0x24000) 2 0x210000 3)
    as (_ & _ & H);
    [apply boot_state_ok|by split|lia..| |by apply boot_state_avail|].
  - intros j Hj. apply boot_unmapped. unfold PAGE_SIZE. lia.
  - intros E. pose proof (H 0 1 ltac:(lia) ltac:(lia) E). lia.
Defined.

(** C17: section permissions.  After [vmm_set_page_permissions] every page of a
    kernel or OS section has exactly the permissions of its section (text is
    executable and read-only, read-only data neither writable nor executable, data
    and bss writable and not executable, user access for the OS sections only), so
    no such page is both writable and executable; no translation changes. *)
Theorem section_permissions (s : paging PMM.pmm) (O : gmap Z (nat * Z)) (l : sections)
    (Hok : tables_ok s O) (Hm : mapped_below s 0x200000) (Hl : layout_ok l) :
  let s' := vmm_set_page_permissions l s in
  (forall x w, x ∈ section_perms l -> in_u 48 w -> touched x.1 w ->
     leaf_perm s' w = Some x.2 /\ p_write x.2 && p_exec x.2 = false) /\
  (forall w, in_u 48 w -> frame s' w = frame s w) /\
  IF s' = IF s /\ tables_ok s' O.
Proof.
  destruct (vmm_set_page_permissions_spec s O l Hok Hm Hl) as (A1 & A2 & A3 & A4).
  cbv zeta. split_and!; [|done..]. intros x w Hx Hw Ht. split; [by apply A4|].
  unfold section_perms in Hx. rewrite !elem_of_cons, elem_of_nil in Hx.
  by destruct_or! Hx; subst x.
Qed.

Definition sample_sections : sections := {|
  BOOT := (0x7c00, 0x8200); KERNEL_TEXT := (0x9000, 0x10000);
  KERNEL_RODATA := (0x10000, 0x12000); KERNEL_DATA := (0x12000, 0x13000);
  OS_TEXT := (0x13000, 0x20000); OS_RODATA := (0x20000, 0x22000);
  OS_DATA := (0x22000, 0x23000); KERNEL_BSS := (0x23000, 0x40000);
  OS_BSS := (0x40000, 0x48000) |}.

Lemma section_permissions_witness :
  leaf_perm (vmm_set_page_permissions sample_sections boot_state) 0xa000
    = Some (MkPerm false false true).
Proof.
  destruct (section_permissions boot_state (boot_owner 0x24000) sample_sections) as (H & _).
  - apply boot_state_ok.
  - apply boot_state_mapped.
  - split; try (cbn; unfold PAGE_SIZE; lia). repeat constructor; done.
  - apply (H (KERNEL_TEXT sample_sections, MkPerm false false true)).
    + by left.
    + unfold in_u. lia.
    + exists 1. split_and!; [lia|reflexivity|reflexivity].
Defined.

(** C26: a kernel mapping takes ring 3 access away.  [vmm_map_memory] rewrites the
    flags of the shared upper-level entries, so after mapping one page without the
    user bit no page below the same P4 entry (512 GiB of addresses, all of the
    kernel's and the OS's among them) is accessible from ring 3. *)
Theorem kernel_mapping_revokes_user (s : paging PMM.pmm) (O : gmap Z (nat * Z)) (phys v fl : Z)
    (Hok : tables_ok s O) (Hv : in_u 48 v) (Hfl : flags_ok fl)
    (Hk : Z.testbit fl 2 = false)
    (Hal : phys mod 4096 = 0) (Hr : in_u 52 phys) (Hav : ps_avail (supply s) 4) :
  forall w, didx 0 w = didx 0 v -> user_accessible (vmm_map_memory phys v fl s) w = false.
Proof.
  intros w Hw.
  destruct (vmm_map_memory_spec s O phys v fl 0) as [O' [_ _ _ _ _ _ M7]]; [done..|].
  assert (walk_user 1 (vmm_map_memory phys v fl s) w = false) as H1.
  { cbn [walk_user walk]. rewrite Hw, M7 by lia. done. }
  unfold user_accessible. set (s' := vmm_map_memory phys v fl s) in *. clearbody s'.
  change (walk_user 4 s' w) with
    ((walk_user 1 s' w && match walk 1 s' w with None => false | Some t => Z.testbit (rd s' (t + 8 * didx 1 w)) 2 end
      && match walk 2 s' w with None => false | Some t => Z.testbit (rd s' (t + 8 * didx 2 w)) 2 end)
      && match walk 3 s' w with None => false | Some t => Z.testbit (rd s' (t + 8 * didx 3 w)) 2 end).
  by rewrite H1.
Qed.

Lemma kernel_mapping_revokes_user_witness :
  user_accessible (vmm_map_memory 0 0x210000 7 boot_state) 0x210000 = true /\
  user_accessible (vmm_map_memory 0 0x211000 3 (vmm_map_memory 0 0x210000 7 boot_state)) 0x210000
    = false.
Proof.
  split; [vm_compute; reflexivity|].
  destruct (vmm_map_memory_spec boot_state (boot_owner 0x24000) 0 0x210000 7 4)
    as [O' [M1 _ M3 _ _ _ _]];
    [apply boot_state_ok|unfold in_u; lia|by split|reflexivity|unfold in_u; lia
    |by apply boot_state_avail|].
  apply (kernel_mapping_revokes_user _ O'); try done; unfold in_u; lia.
Defined.

(** the TLB entry that is invalidated.  After mapping a given frame the
    [invlpg] operand is the physical address of the frame, not the virtual
    address whose translation changed. *)
Theorem map_memory_flushes_physical (s : paging PMM.pmm) (phys v fl : Z) (Hp : phys ≠ 0) :
  flushed (vmm_map_memory phys v fl s) = flushed s ++ [phys].
Proof.
  assert (forall t i r, flushed (ensure_entry t i fl r) = flushed (r : paging PMM.pmm)) as He.
  { intros t i r. unfold ensure_entry, allocate_page_table.
    destruct (present _); cbn [negb]; [done|]. by destruct (ps_table (supply r)). }
  unfold vmm_map_memory. set (s3 := ensure_entry _ _ fl (ensure_entry _ _ fl (ensure_entry _ _ _ _))).
  assert (flushed s3 = flushed s) as H3 by (unfold s3; by rewrite !He). clearbody s3.
  unfold map_page. destruct (Z.eqb_spec phys 0) as [|_]; [done|].
  destruct (present _); cbn [negb]; destruct (are_interrupts_enabled s);
    cbn [enable_interrupts set_IF flush_tlb flushed wr set_mem]; by rewrite H3.
Qed.

Lemma map_memory_flushes_physical_witness :
  flushed (vmm_map_memory 0xfd000000 0x210000 3 boot_state) = [0xfd000000].
Proof. apply (map_memory_flushes_physical boot_state). discriminate. Defined.

End PagePerm.
