(* ===== verification/DList.v ===== *)
(** Doubly linked lists in a heap of structures.

    Three structures of the sources are nodes of such lists: [free_block]
    (VMM.c), [liballoc_major] and [liballoc_minor] (liballoc_1_1.c).  A heap is a
    map from addresses to structures; [DNode] gives the view of a structure as a
    payload with its two links, and [chain h p l n] says that [h] holds the nodes
    [l], linked in this order between the predecessor [p] and the successor [n].
    The lemmas say how storing into one link or payload changes a chain. *)
From S2P Require Import Prelude.

Class DNode (T V : Type) := {
  dn_mk : V -> Z -> Z -> T;
  dn_set_prev : Z -> T -> T;
  dn_set_next : Z -> T -> T;
  dn_set_prev_mk : forall v p n p', dn_set_prev p' (dn_mk v p n) = dn_mk v p' n;
  dn_set_next_mk : forall v p n n', dn_set_next n' (dn_mk v p n) = dn_mk v p n'
}.

Section Chain.
Context {T V : Type} `{!DNode T V}.
Implicit Types (h : gmap Z T) (l : list (Z * V)).

(** The address of the first node, or [n]. *)
Definition first_ptr l (n : Z) : Z := match l with [] => n | (a, _) :: _ => a end.
(** The address of the last node, or [p]. *)
Definition last_ptr (p : Z) l : Z := match last l with None => p | Some (a, _) => a end.

Fixpoint chain h (p : Z) l (n : Z) : Prop :=
  match l with
  | [] => True
  | (a, v) :: l' => a ≠ 0 /\ h !! a = Some (dn_mk v p (first_ptr l' n)) /\ chain h a l' n
  end.

Lemma last_ptr_cons p a v l : last_ptr p ((a, v) :: l) = last_ptr a l.
Proof. unfold last_ptr. rewrite last_cons. by destruct (last l) as [[??]|]. Qed.

Lemma last_ptr_snoc p l a v : last_ptr p (l ++ [(a, v)]) = a.
Proof. unfold last_ptr. by rewrite last_snoc. Qed.

Lemma first_ptr_app l k n : first_ptr (l ++ k) n = first_ptr l (first_ptr k n).
Proof. by destruct l as [|[??]]. Qed.

Lemma chain_app h p l k n :
  chain h p (l ++ k) n <-> chain h p l (first_ptr k n) /\ chain h (last_ptr p l) k n.
Proof.
  revert p. induction l as [|[a v] l IH]; intros p; simpl.
  - unfold last_ptr. simpl. tauto.
  - rewrite IH, first_ptr_app, last_ptr_cons. tauto.
Qed.

(** Only the nodes themselves matter. *)
Lemma chain_frame h h' p l n :
  (forall a, a ∈ l.*1 -> h' !! a = h !! a) -> chain h p l n -> chain h' p l n.
Proof.
  revert p. induction l as [|[a v] l IH]; intros p Hf; simpl; [done|].
  intros (? & ? & ?). split_and!; [done| |].
  - rewrite Hf; [done|]. set_solver.
  - apply IH; [|done]. intros b Hb. apply Hf. set_solver.
Qed.

Lemma chain_insert_out h p l n a x : a ∉ l.*1 -> chain h p l n -> chain (<[a := x]> h) p l n.
Proof.
  intros Ha. apply chain_frame. intros b Hb. apply lookup_insert_ne. by intros ->.
Qed.

Lemma chain_delete_out h p l n a : a ∉ l.*1 -> chain h p l n -> chain (delete a h) p l n.
Proof.
  intros Ha. apply chain_frame. intros b Hb. apply lookup_delete_ne. by intros ->.
Qed.

Lemma chain_alter_out h p l n a f : a ∉ l.*1 -> chain h p l n -> chain (alter f a h) p l n.
Proof.
  intros Ha. apply chain_frame. intros b Hb. apply lookup_alter_ne. by intros ->.
Qed.

(** Nodes are non-NULL and present. *)
Lemma chain_lookup h p l n a : chain h p l n -> a ∈ l.*1 -> a ≠ 0 /\ is_Some (h !! a).
Proof.
  revert p. induction l as [|[b v] l IH]; intros p; simpl; [by intros _ ?%not_elem_of_nil|].
  intros (? & E & Hc) [->|Hin]%elem_of_cons; [by eauto|by eapply IH].
Qed.

Lemma chain_null h p l n : chain h p l n -> 0 ∉ l.*1.
Proof. intros Hc Hin. by destruct (chain_lookup _ _ _ _ _ Hc Hin). Qed.

(** A list is no longer than the heap it lives in. *)
Lemma chain_length h p l n : NoDup l.*1 -> chain h p l n -> (length l <= size h)%nat.
Proof.
  intros Hd Hc. rewrite <- size_dom, <- (length_fmap fst l), <- (size_list_to_set l.*1 Hd : size (list_to_set l.*1 : gset Z) = _).
  apply subseteq_size. intros a Ha%elem_of_list_to_set.
  apply elem_of_dom. by eapply chain_lookup.
Qed.

(** A node in the middle. *)
Lemma chain_mid h p l1 a v l2 n :
  chain h p (l1 ++ (a, v) :: l2) n ->
  a ≠ 0 /\ h !! a = Some (dn_mk v (last_ptr p l1) (first_ptr l2 n)) /\
  chain h p l1 a /\ chain h a l2 n.
Proof. rewrite chain_app. simpl. tauto. Qed.

Lemma chain_mid_intro h p l1 a v l2 n :
  a ≠ 0 -> h !! a = Some (dn_mk v (last_ptr p l1) (first_ptr l2 n)) ->
  chain h p l1 a -> chain h a l2 n -> chain h p (l1 ++ (a, v) :: l2) n.
Proof. rewrite chain_app. simpl. tauto. Qed.

(** [b->next = n'] on the last node of a segment. *)
Lemma chain_set_next h p l n n' :
  NoDup l.*1 -> chain h p l n ->
  chain (if decide (last_ptr p l ∈ l.*1) then alter (dn_set_next n') (last_ptr p l) h else h)
    p l n'.
Proof.
  destruct l as [|[b w] l _] using rev_ind; [by rewrite decide_False by set_solver|].
  rewrite last_ptr_snoc, decide_True by (rewrite fmap_app; set_solver).
  rewrite fmap_app. intros (Hd & Hn & _)%NoDup_app (? & E & Hc & _)%chain_mid.
  apply chain_mid_intro; [done| | |done].
  - rewrite lookup_alter_eq, E. simpl. by rewrite dn_set_next_mk.
  - apply chain_alter_out; [|done]. intros Hin. apply (Hn b Hin). simpl. set_solver.
Qed.

(** [b->prev = p'] on the first node of a segment. *)
Lemma chain_set_prev h p l n p' :
  NoDup l.*1 -> chain h p l n ->
  chain (if decide (first_ptr l 0 ∈ l.*1) then alter (dn_set_prev p') (first_ptr l 0) h else h)
    p' l n.
Proof.
  destruct l as [|[b w] l]; [by rewrite decide_False by set_solver|].
  cbn [first_ptr]. rewrite decide_True by (simpl; set_solver).
  intros [Hn Hd]%NoDup_cons (? & E & Hc). split_and!; [done| |].
  - rewrite lookup_alter_eq, E. simpl. by rewrite dn_set_prev_mk.
  - by apply chain_alter_out.
Qed.

(** Storing into the payload of a node. *)
Lemma chain_set_payload h p l1 a v v' l2 n f :
  NoDup (l1 ++ (a, v) :: l2).*1 ->
  (forall q m, f (dn_mk v q m) = dn_mk v' q m) ->
  chain h p (l1 ++ (a, v) :: l2) n -> chain (alter f a h) p (l1 ++ (a, v') :: l2) n.
Proof.
  rewrite fmap_app. simpl. intros (_ & Hn & Hd)%NoDup_app Hf (? & E & H1 & H2)%chain_mid.
  apply NoDup_cons in Hd as [Hd _]. apply chain_mid_intro; [done| | |].
  - by rewrite lookup_alter_eq, E, <- Hf.
  - apply chain_alter_out; [|done]. intros Hin. apply (Hn a Hin). set_solver.
  - by apply chain_alter_out.
Qed.

Lemma last_ptr_elem p l : l ≠ [] -> last_ptr p l ∈ l.*1.
Proof.
  destruct l as [|[b w] l _] using rev_ind; [done|]. intros _.
  rewrite last_ptr_snoc, fmap_app. set_solver.
Qed.

Lemma first_ptr_elem l n : l ≠ [] -> first_ptr l n ∈ l.*1.
Proof. destruct l as [|[b w] l]; [done|]. simpl. set_solver. Qed.

(** *** Unlinking a node, as all the sources do it:
    [if (a->prev) a->prev->next = a->next; if (a->next) a->next->prev = a->prev]. *)
Definition unlink_next (prev next : Z) h : gmap Z T :=
  if prev =? 0 then h else alter (dn_set_next next) prev h.
Definition unlink_prev (prev next : Z) h : gmap Z T :=
  if next =? 0 then h else alter (dn_set_prev prev) next h.

Lemma chain_unlink h l1 a v l2 :
  NoDup (l1 ++ (a, v) :: l2).*1 -> chain h 0 (l1 ++ (a, v) :: l2) 0 ->
  let prev := last_ptr 0 l1 in let next := first_ptr l2 0 in
  chain (unlink_prev prev next (unlink_next prev next h)) 0 (l1 ++ l2) 0.
Proof.
  rewrite fmap_app. simpl. intros Hnd (Ha & E & H1 & H2)%chain_mid.
  apply NoDup_app in Hnd as (N1 & N12 & N2). apply NoDup_cons in N2 as [Na N2].
  assert (forall b, b ∈ l1.*1 -> b ∉ l2.*1) as Hdis by (intros b Hb Hb2; apply (N12 b Hb); set_solver).
  assert (forall b, b ∈ l1.*1 \/ b ∈ l2.*1 -> b ≠ 0) as Hnz.
  { intros b [Hb|Hb]; [by eapply chain_lookup in H1 as [? _]|by eapply chain_lookup in H2 as [? _]]. }
  assert (chain (unlink_next (last_ptr 0 l1) (first_ptr l2 0) h) 0 l1 (first_ptr l2 0) /\
    chain (unlink_next (last_ptr 0 l1) (first_ptr l2 0) h) a l2 0) as [G1 G2].
  { unfold unlink_next. destruct l1 as [|x l1'] eqn:El; [by simpl|]. rewrite <- El in *.
    pose proof (last_ptr_elem 0 l1 ltac:(by subst)) as Hel.
    destruct (Z.eqb_spec (last_ptr 0 l1) 0) as [E0|_]; [by apply Hnz in E0; auto|].
    split.
    - pose proof (chain_set_next h 0 l1 a (first_ptr l2 0) N1 H1) as Hc.
      by rewrite decide_True in Hc.
    - apply chain_alter_out; [by apply Hdis|done]. }
  rewrite chain_app. unfold unlink_prev. destruct l2 as [|y l2'] eqn:El; [by simpl|].
  rewrite <- El in *. pose proof (first_ptr_elem l2 0 ltac:(by subst)) as Hel.
  destruct (Z.eqb_spec (first_ptr l2 0) 0) as [E0|_]; [by apply Hnz in E0; auto|]. split.
  - apply chain_alter_out; [|done]. intros Hin. by apply (Hdis _ Hin).
  - pose proof (chain_set_prev _ a l2 0 (last_ptr 0 l1) N2 G2) as Hc. by rewrite decide_True in Hc.
Qed.

Lemma is_Some_alter h f a b : is_Some (alter f a h !! b) <-> is_Some (h !! b).
Proof.
  destruct (decide (a = b)) as [->|]; [|by rewrite lookup_alter_ne].
  rewrite lookup_alter_eq. apply fmap_is_Some.
Qed.

Lemma is_Some_unlink_next h p n b : is_Some (unlink_next p n h !! b) <-> is_Some (h !! b).
Proof. unfold unlink_next. destruct (_ =? _); [done|apply is_Some_alter]. Qed.

(** The neighbours are nodes. *)
Lemma chain_last_some h p l n : chain h p l n -> last_ptr 0 l ≠ 0 -> is_Some (h !! last_ptr 0 l).
Proof.
  intros Hc Hz. destruct (decide (l = [])) as [->|Hl]; [done|].
  by eapply chain_lookup, last_ptr_elem.
Qed.

Lemma chain_first_some h p l n : chain h p l n -> first_ptr l 0 ≠ 0 -> is_Some (h !! first_ptr l 0).
Proof.
  intros Hc Hz. destruct (decide (l = [])) as [->|Hl]; [done|].
  by eapply chain_lookup, first_ptr_elem.
Qed.

Lemma nodup_mid l1 a v l2 :
  NoDup (l1 ++ (a, v) :: l2).*1 ->
  NoDup (l1 ++ l2).*1 /\ forall b, b ∈ (l1 ++ l2).*1 -> b ≠ a /\ b ∈ (l1 ++ (a, v) :: l2).*1.
Proof.
  rewrite !fmap_app. simpl. intros (? & N & [N2 ?]%NoDup_cons)%NoDup_app. split.
  - apply NoDup_app. split_and!; [done| |done]. intros b Hb1 Hb2. apply (N b Hb1). set_solver.
  - intros b Hb. split; [|set_solver]. intros ->. apply elem_of_app in Hb as [Hb|Hb]; [|done].
    apply (N a Hb). set_solver.
Qed.

(** Unlinking leaves the node itself alone. *)
Lemma unlink_self h l1 a v l2 :
  NoDup (l1 ++ (a, v) :: l2).*1 -> a ≠ 0 ->
  let prev := last_ptr 0 l1 in let next := first_ptr l2 0 in
  unlink_next prev next h !! a = h !! a /\
  unlink_prev prev next (unlink_next prev next h) !! a = h !! a.
Proof.
  rewrite fmap_app. simpl. intros (_ & N12 & [Na _]%NoDup_cons)%NoDup_app Ha.
  assert (unlink_next (last_ptr 0 l1) (first_ptr l2 0) h !! a = h !! a) as E.
  { unfold unlink_next. destruct (Z.eqb_spec (last_ptr 0 l1) 0) as [|Hz]; [done|].
    apply lookup_alter_ne. intros E. destruct (decide (l1 = [])) as [->|Hl]; [done|].
    apply (N12 a); [rewrite <- E; by apply last_ptr_elem|set_solver]. }
  split; [done|]. unfold unlink_prev. destruct (Z.eqb_spec (first_ptr l2 0) 0) as [|Hz]; [done|].
  rewrite lookup_alter_ne; [done|]. intros E'. destruct (decide (l2 = [])) as [->|Hl]; [done|].
  apply Na. rewrite <- E'. by apply first_ptr_elem.
Qed.

(** *** Linking a new node between two neighbours. *)
Definition link_next (a prev : Z) h : gmap Z T :=
  if prev =? 0 then h else alter (dn_set_next a) prev h.
Definition link_prev (a next : Z) h : gmap Z T :=
  if next =? 0 then h else alter (dn_set_prev a) next h.

Lemma chain_link h l1 a v l2 :
  a ≠ 0 -> NoDup (l1 ++ (a, v) :: l2).*1 -> chain h 0 (l1 ++ l2) 0 ->
  let prev := last_ptr 0 l1 in let next := first_ptr l2 0 in
  chain (link_prev a next (link_next a prev (<[a := dn_mk v prev next]> h)))
    0 (l1 ++ (a, v) :: l2) 0.
Proof.
  rewrite fmap_app. simpl. intros Ha Hnd [H1 H2]%chain_app.
  apply NoDup_app in Hnd as (N1 & N12 & N2). apply NoDup_cons in N2 as [Na N2].
  assert (a ∉ l1.*1) as Na1 by (intros Hb; apply (N12 a Hb); set_solver).
  assert (forall b, b ∈ l1.*1 -> b ∉ l2.*1) as Hdis by (intros b Hb Hb2; apply (N12 b Hb); set_solver).
  assert (forall b, b ∈ l1.*1 \/ b ∈ l2.*1 -> b ≠ 0) as Hnz.
  { intros b [Hb|Hb]; [by eapply chain_lookup in H1 as [? _]|by eapply chain_lookup in H2 as [? _]]. }
  set (h1 := <[a := dn_mk v (last_ptr 0 l1) (first_ptr l2 0)]> h).
  assert (chain (link_next a (last_ptr 0 l1) h1) 0 l1 a /\
    chain (link_next a (last_ptr 0 l1) h1) (last_ptr 0 l1) l2 0 /\
    link_next a (last_ptr 0 l1) h1 !! a = h1 !! a) as (G1 & G2 & G3).
  { unfold link_next, h1. destruct l1 as [|x l1'] eqn:El.
    { simpl. split_and!; [done| |done]. by apply chain_insert_out. }
    rewrite <- El in *. pose proof (last_ptr_elem 0 l1 ltac:(by subst)) as Hel.
    destruct (Z.eqb_spec (last_ptr 0 l1) 0) as [E0|_]; [by apply Hnz in E0; auto|].
    split_and!.
    - pose proof (chain_set_next (<[a := dn_mk v (last_ptr 0 l1) (first_ptr l2 0)]> h)
        0 l1 (first_ptr l2 0) a N1) as Hc.
      rewrite decide_True in Hc by done. apply Hc. by apply chain_insert_out.
    - apply chain_alter_out; [by apply Hdis|]. by apply chain_insert_out.
    - apply lookup_alter_ne. intros E. rewrite E in Hel. done. }
  assert (h1 !! a = Some (dn_mk v (last_ptr 0 l1) (first_ptr l2 0))) as Hh1
    by apply lookup_insert_eq. clearbody h1. rewrite <- G3 in Hh1.
  unfold link_prev. destruct l2 as [|y l2'] eqn:El.
  { simpl. by apply chain_mid_intro. }
  rewrite <- El in *. pose proof (first_ptr_elem l2 0 ltac:(by subst)) as Hel.
  destruct (Z.eqb_spec (first_ptr l2 0) 0) as [E0|_]; [by apply Hnz in E0; auto|].
  apply chain_mid_intro; [done| | |].
  - by rewrite lookup_alter_ne by (intros E; by rewrite E in Hel).
  - apply chain_alter_out; [|done]. intros Hin. by apply (Hdis _ Hin).
  - pose proof (chain_set_prev _ (last_ptr 0 l1) l2 0 a N2 G2) as Hc. by rewrite decide_True in Hc.
Qed.

End Chain.
