(* ===== verification/Spans.v ===== *)
(** Free address space as an ordered list of spans: the abstract specification of
    the address space manager.

    A span [(s, n)] is [n] pages from address [s].  [sep lo l hi] says that the
    spans of [l] are non-empty, page aligned, in order, inside [lo+1, hi), and
    separated by gaps: no two of them could be merged.  Such a list is the only one
    that describes its set of addresses ([sep_canonical]), so an operation on the
    list is specified by what it does to the set. *)
From S2P Require Import Prelude.

Abbreviation span := (Z * Z)%type.
Definition PSZ : Z := 4096.

Definition span_end (x : span) : Z := x.1 + x.2 * PSZ.
Definition covers (x : span) (p : Z) : Prop := x.1 <= p < span_end x.
Definition in_spans (l : list span) (p : Z) : Prop := exists x, x ∈ l /\ covers x p.

Fixpoint sep (lo : Z) (l : list span) (hi : Z) : Prop :=
  match l with
  | [] => True
  | x :: r => lo < x.1 /\ 0 < x.2 /\ x.1 mod PSZ = 0 /\ span_end x <= hi /\ sep (span_end x) r hi
  end.

(** Where the free space before the rest of a list ends. *)
Definition last_end (lo : Z) (l : list span) : Z :=
  match last l with Some x => span_end x | None => lo end.

(** The reference allocator: the first span with enough pages, cut from below. *)
Fixpoint first_fit (pages : Z) (l : list span) : option (Z * list span) :=
  match l with
  | [] => None
  | (s, n) :: r =>
      if n <? pages
      then match first_fit pages r with Some (a, r') => Some (a, (s, n) :: r') | None => None end
      else Some (s, if n - pages =? 0 then r else (s + pages * PSZ, n - pages) :: r)
  end.

Definition total_pages (l : list span) : Z := zsum l.*2.

Lemma total_app l k : total_pages (l ++ k) = total_pages l + total_pages k.
Proof. unfold total_pages. by rewrite fmap_app, zsum_app. Qed.
Lemma total_cons x l : total_pages (x :: l) = x.2 + total_pages l.
Proof. done. Qed.
Lemma total_nil : total_pages [] = 0.
Proof. done. Qed.

(** *** Sets of addresses *)
Lemma in_spans_nil p : in_spans [] p <-> False.
Proof. split; [|done]. intros (x & Hx & _). by apply not_elem_of_nil in Hx. Qed.

Lemma in_spans_cons x l p : in_spans (x :: l) p <-> covers x p \/ in_spans l p.
Proof.
  split.
  - intros (y & [->|Hy]%elem_of_cons & Hc); [by left|right; by exists y].
  - intros [Hc|(y & Hy & Hc)]; [exists x|exists y]; split; auto; set_solver.
Qed.

Lemma in_spans_app l k p : in_spans (l ++ k) p <-> in_spans l p \/ in_spans k p.
Proof.
  induction l as [|x l IH]; simpl; [rewrite in_spans_nil; tauto|].
  rewrite !in_spans_cons, IH. tauto.
Qed.

(** *** Separation *)
Lemma last_end_cons lo x l : last_end lo (x :: l) = last_end (span_end x) l.
Proof. unfold last_end. rewrite last_cons. by destruct (last l). Qed.

Lemma last_end_snoc lo l x : last_end lo (l ++ [x]) = span_end x.
Proof. unfold last_end. by rewrite last_snoc. Qed.

Lemma sep_app lo l k hi : sep lo (l ++ k) hi <-> sep lo l hi /\ sep (last_end lo l) k hi.
Proof.
  revert lo. induction l as [|x l IH]; intros lo; simpl.
  - unfold last_end. simpl. tauto.
  - rewrite IH, last_end_cons. tauto.
Qed.

Lemma sep_weaken lo lo' l hi : sep lo l hi -> lo' <= lo -> sep lo' l hi.
Proof. destruct l as [|x l]; simpl; [done|]. intros (? & ? & ? & ? & ?) ?. split_and!; auto; lia. Qed.

Lemma sep_bounds lo l hi x :
  sep lo l hi -> x ∈ l -> lo < x.1 /\ 0 < x.2 /\ x.1 mod PSZ = 0 /\ span_end x <= hi.
Proof.
  revert lo. induction l as [|y l IH]; intros lo; simpl; [by intros _ ?%not_elem_of_nil|].
  intros (? & ? & ? & ? & Hs) [->|Hin]%elem_of_cons; [done|].
  destruct (IH _ Hs Hin) as (? & ?). unfold span_end, PSZ in *. split; [lia|done].
Qed.

Lemma sep_lower lo l hi p : sep lo l hi -> in_spans l p -> lo < p < hi.
Proof.
  intros Hs (x & Hx & Hc). destruct (sep_bounds _ _ _ _ Hs Hx) as (? & ? & _ & ?).
  unfold covers in Hc. lia.
Qed.

Lemma sep_gap lo l hi : sep lo l hi -> lo <= last_end lo l.
Proof.
  destruct l as [|x l _] using rev_ind; [done|]. intros Hs. rewrite last_end_snoc.
  destruct (sep_bounds _ _ _ x Hs) as (? & ? & _); [set_solver|]. unfold span_end, PSZ. lia.
Qed.

(** A point of the second part lies above the first part. *)
Lemma sep_app_lt lo l k hi p q :
  sep lo (l ++ k) hi -> in_spans l p -> in_spans k q -> p < q.
Proof.
  intros [Hl Hk]%sep_app Hp Hq. pose proof (sep_lower _ _ _ _ Hk Hq).
  cut (p < last_end lo l); [lia|]. clear - Hl Hp. revert lo Hl Hp.
  induction l as [|x l IH]; intros lo Hl; rewrite ?in_spans_nil, ?in_spans_cons; [done|].
  rewrite last_end_cons. simpl in Hl. destruct Hl as (? & ? & ? & ? & Hl). intros [Hc|Hp].
  - pose proof (sep_gap _ _ _ Hl). unfold covers in Hc. lia.
  - by apply IH.
Qed.

Lemma first_covered x l lo hi : sep lo (x :: l) hi -> covers x x.1.
Proof. simpl. intros (? & ? & _). unfold covers, span_end, PSZ. lia. Qed.

(** The list is determined by its set. *)
Lemma sep_canonical lo l k hi :
  sep lo l hi -> sep lo k hi -> (forall p, in_spans l p <-> in_spans k p) -> l = k.
Proof.
  revert lo k. induction l as [|[s n] l IH]; intros lo [|[t m] k] Hl Hk Heq; [done| | |].
  - destruct (Heq t) as [_ H]. destruct H as (? & ?%not_elem_of_nil & _); [|done].
    apply in_spans_cons. left. by eapply first_covered.
  - destruct (Heq s) as [H _]. destruct H as (? & ?%not_elem_of_nil & _); [|done].
    apply in_spans_cons. left. by eapply first_covered.
  - pose proof (first_covered _ _ _ _ Hl) as Cl. pose proof (first_covered _ _ _ _ Hk) as Ck.
    simpl in Hl, Hk. destruct Hl as (? & Hn & ? & ? & Hl), Hk as (? & Hm & ? & ? & Hk).
    assert (forall p, in_spans ((s, n) :: l) p -> s <= p) as Ll.
    { intros p [Hc|Hp]%in_spans_cons; [unfold covers in Hc; simpl in Hc; lia|].
      pose proof (sep_lower _ _ _ _ Hl Hp). unfold span_end, PSZ in *. simpl in *. lia. }
    assert (forall p, in_spans ((t, m) :: k) p -> t <= p) as Lk.
    { intros p [Hc|Hp]%in_spans_cons; [unfold covers in Hc; simpl in Hc; lia|].
      pose proof (sep_lower _ _ _ _ Hk Hp). unfold span_end, PSZ in *. simpl in *. lia. }
    assert (s = t) as <-.
    { apply Z.le_antisymm; [apply Ll, Heq|apply Lk, Heq]; apply in_spans_cons; by left. }
    assert (forall a b la lb, sep (span_end (s, a)) la hi -> 0 < a -> 0 < b ->
      (forall p, in_spans ((s, a) :: la) p <-> in_spans ((s, b) :: lb) p) -> ~ a < b) as Hlt.
    { intros a b la lb Ha ?? Hab Hlt. destruct (Hab (span_end (s, a))) as [_ Hx].
      destruct (proj1 (in_spans_cons _ _ _) (Hx ltac:(apply in_spans_cons; left;
        unfold covers, span_end, PSZ in *; simpl in *; lia))) as [Hc|Hc].
      - unfold covers in Hc. lia.
      - pose proof (sep_lower _ _ _ _ Ha Hc). lia. }
    assert (n = m) as <-.
    { pose proof (Hlt n m l k Hl Hn Hm Heq). pose proof (Hlt m n k l Hk Hm Hn (fun p => iff_sym (Heq p))).
      lia. }
    f_equal. apply (IH _ _ Hl Hk). intros p.
    specialize (Heq p). rewrite !in_spans_cons in Heq. split; intros Hp.
    + pose proof (sep_lower _ _ _ _ Hl Hp). unfold covers in Heq. destruct Heq as [Heq _].
      destruct Heq; [by right|lia|done].
    + pose proof (sep_lower _ _ _ _ Hk Hp). unfold covers in Heq. destruct Heq as [_ Heq].
      destruct Heq; [by right|lia|done].
Qed.

(** *** First fit *)
Definition cut (pages : Z) (x : span) : list span :=
  if x.2 - pages =? 0 then [] else [(x.1 + pages * PSZ, x.2 - pages)].

Lemma first_fit_split pages l :
  match first_fit pages l with
  | None => Forall (fun x : span => x.2 < pages) l
  | Some (s, r) => exists l1 n l2, l = l1 ++ (s, n) :: l2 /\
      Forall (fun x : span => x.2 < pages) l1 /\ pages <= n /\ r = l1 ++ cut pages (s, n) ++ l2
  end.
Proof.
  induction l as [|[s n] l IH]; simpl; [done|]. destruct (Z.ltb_spec n pages).
  - destruct (first_fit pages l) as [[a r]|].
    + destruct IH as (l1 & m & l2 & -> & Hf & ? & ->). exists ((s, n) :: l1), m, l2.
      by split_and!; [|constructor| |].
    + by constructor.
  - exists [], n, l. split_and!; [done..|]. unfold cut. simpl. by destruct (n - pages =? 0).
Qed.

Lemma cut_covers pages s n p :
  0 <= pages <= n -> 
  covers (s, n) p <-> covers (s, pages) p \/ in_spans (cut pages (s, n)) p.
Proof.
  intros Hp. unfold cut. cbn [fst snd]. destruct (Z.eqb_spec (n - pages) 0) as [E|E].
  - replace pages with n by lia. rewrite in_spans_nil. tauto.
  - rewrite in_spans_cons, in_spans_nil. unfold covers, span_end, PSZ. simpl. lia.
Qed.

Lemma cut_sep lo pages s n l hi :
  0 <= pages <= n -> sep lo ((s, n) :: l) hi -> sep lo (cut pages (s, n) ++ l) hi.
Proof.
  intros Hp. cbn [sep]. unfold cut, span_end. cbn [fst snd].
  intros (? & ? & Hal & ? & Hl). destruct (Z.eqb_spec (n - pages) 0); cbn [app sep fst snd].
  - eapply sep_weaken; [done|]. unfold PSZ. lia.
  - unfold span_end. cbn [fst snd].
    replace (s + pages * PSZ + (n - pages) * PSZ) with (s + n * PSZ) by lia.
    split_and!; [unfold PSZ in *; lia|lia| |done|done].
    by rewrite Z.mod_add by (unfold PSZ; lia).
Qed.

Record fit_spec (lo hi pages s : Z) (l r : list span) : Prop := {
  fit_sep : sep lo r hi;
  fit_inside : lo < s /\ s + pages * PSZ <= hi /\ s mod PSZ = 0;
  fit_set : forall p, in_spans l p <-> in_spans r p \/ covers (s, pages) p;
  fit_disjoint : forall p, covers (s, pages) p -> ~ in_spans r p;
  fit_total : total_pages l = total_pages r + pages
}.

Lemma first_fit_spec lo hi pages l s r :
  sep lo l hi -> 0 <= pages -> first_fit pages l = Some (s, r) -> fit_spec lo hi pages s l r.
Proof.
  intros Hl Hp E. pose proof (first_fit_split pages l) as H. rewrite E in H.
  destruct H as (l1 & n & l2 & -> & _ & Hn & ->).
  pose proof (sep_bounds _ _ _ (s, n) Hl ltac:(set_solver)) as (? & ? & ? & ?).
  unfold span_end in *. cbn [fst snd] in *.
  pose proof Hl as [Hl1 Hl2]%sep_app. split.
  - apply sep_app. split; [done|]. by apply cut_sep.
  - unfold PSZ in *. split_and!; [lia..|done].
  - intros p. rewrite !in_spans_app, in_spans_cons, (cut_covers pages) by lia. tauto.
  - intros p Hc. rewrite !in_spans_app. intros [Hp1|[Hp1|Hp1]].
    + assert (p < p); [|lia]. apply (sep_app_lt _ _ _ _ _ _ Hl Hp1). apply in_spans_cons. left.
      unfold covers, span_end, PSZ in *. simpl in *. lia.
    + unfold cut in Hp1. cbn [fst snd] in Hp1. destruct (_ =? _); [by apply in_spans_nil in Hp1|].
      apply in_spans_cons in Hp1 as [Hp1|Hp1%in_spans_nil]; [|done].
      unfold covers, span_end, PSZ in *. simpl in *. lia.
    + destruct Hl2 as (_ & _ & _ & _ & Hl2). pose proof (sep_lower _ _ _ _ Hl2 Hp1).
      unfold covers, span_end, PSZ in *. simpl in *. lia.
  - rewrite !total_app, total_cons. unfold cut. cbn [fst snd].
    destruct (Z.eqb_spec (n - pages) 0).
    all: unfold total_pages; cbn [fmap list_fmap snd]; unfold zsum; cbn [foldr]; lia.
Qed.

(** *** Giving a span back *)
Record released (lo hi s pages : Z) (l r : list span) : Prop := {
  rel_sep : sep lo r hi;
  rel_set : forall p, in_spans r p <-> in_spans l p \/ covers (s, pages) p;
  rel_total : total_pages r = total_pages l + pages
}.

(** A span that may be given back: inside the heap, and not free. *)
Record releasable (lo hi s pages : Z) (l : list span) : Prop := {
  rb_pages : 0 < pages;
  rb_aligned : s mod PSZ = 0;
  rb_inside : lo < s /\ s + pages * PSZ <= hi;
  rb_allocated : forall p, covers (s, pages) p -> ~ in_spans l p
}.

(** The bound below a list matters for its first span only. *)
Lemma sep_relo lo lo' l hi :
  sep lo l hi -> (forall x, head l = Some x -> lo' < x.1) -> sep lo' l hi.
Proof.
  destruct l as [|x l]; simpl; [done|]. intros (? & ? & ? & ? & ?) Hx.
  split_and!; [by apply Hx|done..].
Qed.

(** The place of a releasable span in the list. *)
Lemma sep_split lo hi s pages l :
  sep lo l hi -> releasable lo hi s pages l ->
  exists l1 l2, l = l1 ++ l2 /\ Forall (fun x => span_end x <= s) l1 /\
    Forall (fun x : span => s + pages * PSZ <= x.1) l2.
Proof.
  intros Hl [Hp _ _ Hd]. revert lo Hl Hd. induction l as [|[t n] l IH]; intros lo Hl Hd.
  { exists [], []. done. }
  destruct (decide (span_end (t, n) <= s)) as [He|He].
  - destruct (IH (span_end (t, n))) as (l1 & l2 & -> & H1 & H2).
    + by destruct Hl as (_ & _ & _ & _ & Hl).
    + intros p Hc Hin. apply (Hd p Hc), in_spans_cons. by right.
    + exists ((t, n) :: l1), l2. split_and!; [done|by constructor|done].
  - exists [], ((t, n) :: l). split_and!; [done..|].
    assert (s + pages * PSZ <= t) as Ht.
    { destruct (decide (s + pages * PSZ <= t)) as [|Ht]; [done|]. exfalso.
      destruct Hl as (_ & Hn & _). cbn [fst snd] in Hn. unfold span_end in He. cbn [fst snd] in He.
      apply (Hd (Z.max s t)); [unfold covers, span_end, PSZ in *; simpl; lia|].
      apply in_spans_cons. left. unfold covers, span_end, PSZ in *. simpl. lia. }
    constructor; [done|]. apply Forall_forall. intros x Hx.
    destruct Hl as (_ & Hn & _ & _ & Hl). destruct (sep_bounds _ _ _ _ Hl Hx) as (Hb & _).
    unfold span_end, PSZ in *. simpl in *. lia.
Qed.

Section Release.
Context (lo hi s pages : Z) (l1 l2 : list span).
Hypothesis Hsep : sep lo (l1 ++ l2) hi.
Hypothesis Hrel : releasable lo hi s pages (l1 ++ l2).
Hypothesis H1 : Forall (fun x => span_end x <= s) l1.
Hypothesis H2 : Forall (fun x : span => s + pages * PSZ <= x.1) l2.

Lemma above_l2 e : e < s + pages * PSZ -> sep e l2 hi.
Proof.
  intros He. pose proof Hsep as [_ Hl2]%sep_app. eapply sep_relo; [done|]. intros x Hx.
  rewrite Forall_forall in H2. apply head_Some_elem_of, H2 in Hx. lia.
Qed.

Lemma gap_l2 e :
  e <= s + pages * PSZ -> (forall x, head l2 = Some x -> s + pages * PSZ ≠ x.1) -> sep e l2 hi.
Proof.
  intros He Hne. pose proof Hsep as [_ Hl2]%sep_app. eapply sep_relo; [done|]. intros x Hx.
  specialize (Hne x Hx). rewrite Forall_forall in H2. apply head_Some_elem_of, H2 in Hx. lia.
Qed.

(** Neither neighbour touches the span. *)
Lemma release_insert :
  (forall x, last l1 = Some x -> span_end x ≠ s) ->
  (forall x, head l2 = Some x -> s + pages * PSZ ≠ x.1) ->
  released lo hi s pages (l1 ++ l2) (l1 ++ (s, pages) :: l2).
Proof.
  intros N1 N2. pose proof Hsep as [Hl1 _]%sep_app. destruct Hrel as [Hp Ha Hi _]. split.
  - apply sep_app. split; [done|]. cbn [sep fst snd]. split_and!; [|done|done|apply Hi|].
    + unfold last_end. destruct (last l1) as [x|] eqn:E; [|lia].
      specialize (N1 x eq_refl). rewrite Forall_forall in H1.
      apply last_Some_elem_of, H1 in E. lia.
    + apply gap_l2; [unfold span_end; simpl; lia|done].
  - intros p. rewrite !in_spans_app, in_spans_cons. tauto.
  - rewrite !total_app, total_cons. cbn [snd]. lia.
Qed.

(** Only the right neighbour does. *)
Lemma release_right t n k2 :
  l2 = (t, n) :: k2 -> s + pages * PSZ = t ->
  (forall x, last l1 = Some x -> span_end x ≠ s) ->
  released lo hi s pages (l1 ++ l2) (l1 ++ (s, n + pages) :: k2).
Proof.
  intros E <- N1. pose proof Hsep as [Hl1 Hl2]%sep_app. destruct Hrel as [Hp Ha Hi _].
  rewrite E in *. destruct Hl2 as (? & ? & ? & He & Hk). cbn [fst snd] in *. split.
  - apply sep_app. split; [done|]. cbn [sep fst snd].
    replace (span_end (s, n + pages)) with (span_end (s + pages * PSZ, n))
      by (unfold span_end, PSZ; simpl; lia).
    split_and!; [|lia|done|done|done].
    unfold last_end. destruct (last l1) as [x|] eqn:E1; [|lia].
    specialize (N1 x eq_refl). rewrite Forall_forall in H1. apply last_Some_elem_of, H1 in E1. lia.
  - intros p. rewrite !in_spans_app, !in_spans_cons.
    unfold covers, span_end, PSZ in *. simpl in *.
    assert (s <= p < s + (n + pages) * 4096 <->
      s + pages * 4096 <= p < s + pages * 4096 + n * 4096 \/ s <= p < s + pages * 4096) by lia.
    tauto.
  - rewrite !total_app, !total_cons. cbn [snd]. lia.
Qed.

(** Only the left neighbour does. *)
Lemma release_left t n k1 :
  l1 = k1 ++ [(t, n)] -> span_end (t, n) = s ->
  (forall x, head l2 = Some x -> s + pages * PSZ ≠ x.1) ->
  released lo hi s pages (l1 ++ l2) (k1 ++ (t, n + pages) :: l2).
Proof.
  intros E Es N2. pose proof Hsep as [Hl1 Hl2]%sep_app. destruct Hrel as [Hp Ha Hi _].
  rewrite E in Hl1. apply sep_app in Hl1 as [Hk1 Ht]. destruct Ht as (L1 & L2 & L3 & _).
  cbn [fst snd] in L1, L2, L3. assert (span_end (t, n + pages) = s + pages * PSZ) as Ee
    by (rewrite <- Es; unfold span_end, PSZ; simpl; lia). split.
  - apply sep_app. split; [done|]. cbn [sep fst snd]. rewrite Ee.
    split_and!; [done|lia|done|apply Hi|]. apply gap_l2; [lia|done].
  - intros p. rewrite E, !in_spans_app, !in_spans_cons, in_spans_nil.
    unfold covers, span_end, PSZ in *. simpl in *.
    assert (t <= p < t + (n + pages) * 4096 <->
      t <= p < t + n * 4096 \/ s <= p < s + pages * 4096) by lia.
    tauto.
  - rewrite E, !total_app, !total_cons, total_nil. cbn [snd]. lia.
Qed.

(** Both do: three spans become one. *)
Lemma release_both t n k1 t' n' k2 :
  l1 = k1 ++ [(t, n)] -> l2 = (t', n') :: k2 -> span_end (t, n) = s -> s + pages * PSZ = t' ->
  released lo hi s pages (l1 ++ l2) (k1 ++ (t, n + pages + n') :: k2).
Proof.
  intros E E2 Es <-. pose proof Hsep as [Hl1 Hl2]%sep_app. destruct Hrel as [Hp Ha Hi _].
  rewrite E in Hl1. apply sep_app in Hl1 as [Hk1 Ht]. destruct Ht as (? & ? & ? & _).
  rewrite E2 in Hl2. destruct Hl2 as (_ & ? & _ & Hhi & Hk2).
  cbn [fst snd] in *. assert (span_end (t, n + pages + n') =
    span_end (s + pages * PSZ, n')) as Ee
    by (rewrite <- Es; unfold span_end, PSZ; simpl; lia). split.
  - apply sep_app. split; [done|]. cbn [sep fst snd]. rewrite Ee. by split_and!; [|lia| | |].
  - intros p. rewrite E, E2, !in_spans_app, !in_spans_cons, in_spans_nil.
    unfold covers, span_end, PSZ in *. simpl in *.
    assert (t <= p < t + (n + pages + n') * 4096 <->
      t <= p < t + n * 4096 \/ s <= p < s + pages * 4096 \/
      s + pages * 4096 <= p < s + pages * 4096 + n' * 4096) by lia.
    tauto.
  - rewrite E, E2, !total_app, !total_cons, total_nil. cbn [snd]. lia.
Qed.
End Release.

(** Allocating and giving back is the identity on lists. *)
Lemma fit_release lo hi pages s l r r' :
  sep lo l hi -> fit_spec lo hi pages s l r -> released lo hi s pages r r' -> r' = l.
Proof.
  intros Hl [_ _ Hs _ _] [Hr' Hs' _]. apply (sep_canonical lo _ _ hi); [done..|].
  intros p. by rewrite Hs', Hs.
Qed.
