(* ===== verification/KMonad.v ===== *)
(** Effects of kernel code.

    Operations that thread the kernel's global state through calls, and can go
    wrong by following a bad pointer, are written in the monad [M K]: a function of
    the state that gives a result and a new state, or [None] when the C code would
    read or write through a pointer that holds no object of the expected type (or
    would loop forever; loops over linked structures carry fuel).

    [wp m k Q] is total correctness: [m] started in [k] returns, and [Q] holds of
    what it returns.  [Has S K] says that the state [K] has a part [S]: components
    are written over any state that has their part, so that they can call each
    other.  A call of [log] leaves an [event] in the trace of its component. *)
From S2P Require Export Prelude.
From stdpp Require Export strings.
#[global] Open Scope Z_scope.

Definition M (K A : Type) : Type := K -> option (A * K).

Definition ret {K A} (a : A) : M K A := fun k => Some (a, k).
Definition bind {K A B} (m : M K A) (f : A -> M K B) : M K B := fun k =>
  match m k with Some (a, k') => f a k' | None => None end.

(** Undefined behaviour of the C program. *)
Definition fault {K A} : M K A := fun _ => None.
Definition gets {K A} (f : K -> A) : M K A := fun k => Some (f k, k).
Definition modify {K} (f : K -> K) : M K unit := fun k => Some (tt, f k).
Definition when {K} (b : bool) (m : M K unit) : M K unit := if b then m else ret tt.

(** Notation: [let! x := m in f] binds a result, [m ;;; f] sequences statements. *)
Declare Scope monad_scope.
Notation "'let!' x := m 'in' f" := (bind m (fun x => f))
  (at level 200, x name, m at level 100, f at level 200, right associativity) : monad_scope.
Notation "'let!' ' x := m 'in' f" := (bind m (fun x => f))
  (at level 200, x pattern, m at level 100, f at level 200, right associativity) : monad_scope.
Notation "m ;;; f" := (bind m (fun _ => f))
  (at level 100, f at level 200, right associativity) : monad_scope.
#[global] Open Scope monad_scope.

(** *** Total correctness *)
Definition wp {K A} (m : M K A) (k : K) (Q : A -> K -> Prop) : Prop :=
  match m k with Some (a, k') => Q a k' | None => False end.

Section Wp.
Context {K : Type}.

Lemma wp_ret {A} (a : A) (k : K) Q : Q a k -> wp (ret a) k Q.
Proof. done. Qed.

Lemma wp_bind {A B} (m : M K A) (f : A -> M K B) k Q :
  wp m k (fun a k' => wp (f a) k' Q) -> wp (bind m f) k Q.
Proof. unfold wp, bind. by destruct (m k) as [[??]|]. Qed.

Lemma wp_mono {A} (m : M K A) k (Q R : A -> K -> Prop) :
  wp m k Q -> (forall a k', Q a k' -> R a k') -> wp m k R.
Proof. unfold wp. destruct (m k) as [[??]|]; auto. Qed.

Lemma wp_gets {A} (f : K -> A) k Q : Q (f k) k -> wp (gets f) k Q.
Proof. done. Qed.

Lemma wp_modify (f : K -> K) k Q : Q tt (f k) -> wp (modify f) k Q.
Proof. done. Qed.

Lemma wp_when (b : bool) (m : M K unit) k Q :
  (b = true -> wp m k Q) -> (b = false -> Q tt k) -> wp (when b m) k Q.
Proof. destruct b; intros H1 H2; [by apply H1|by apply H2]. Qed.

Lemma wp_run {A} (m : M K A) k Q : wp m k Q -> exists a k', m k = Some (a, k') /\ Q a k'.
Proof. unfold wp. destruct (m k) as [[a k']|]; [|done]. eauto. Qed.

Lemma wp_intro {A} (m : M K A) k a k' (Q : A -> K -> Prop) :
  m k = Some (a, k') -> Q a k' -> wp m k Q.
Proof. unfold wp. by intros ->. Qed.
End Wp.

(** *** Counting loops: [for (i = lo; i < lo + n; i++) body(i)] *)
Fixpoint for_ {K} (n : nat) (i : Z) (body : Z -> M K unit) : M K unit :=
  match n with
  | O => ret tt
  | S n => bind (body i) (fun _ => for_ n (i + 1) body)
  end.
Definition for_to {K} (n : Z) (body : Z -> M K unit) : M K unit := for_ (Z.to_nat n) 0 body.

(** The loop rule: [I j] holds before the iteration [j]. *)
Lemma wp_for {K} (I : Z -> K -> Prop) n i (body : Z -> M K unit) k :
  (forall j k, i <= j < i + Z.of_nat n -> I j k -> wp (body j) k (fun _ k' => I (j + 1) k')) ->
  I i k -> wp (for_ n i body) k (fun _ k' => I (i + Z.of_nat n) k').
Proof.
  revert i k. induction n as [|n IH]; intros i k Hb Hi; cbn [for_].
  - apply wp_ret. by rewrite Z.add_0_r.
  - apply wp_bind. eapply wp_mono; [apply Hb; [lia|done]|]. intros [] k' Hi'. cbv beta.
    replace (i + Z.of_nat (S n)) with (i + 1 + Z.of_nat n) by lia.
    apply IH; [|exact Hi']. intros j k1 Hj. apply Hb. lia.
Qed.
Lemma wp_for_to {K} (I : Z -> K -> Prop) n (body : Z -> M K unit) k (Q : unit -> K -> Prop) :
  0 <= n ->
  (forall j k, 0 <= j < n -> I j k -> wp (body j) k (fun _ k' => I (j + 1) k')) ->
  I 0 k -> (forall k', I n k' -> Q tt k') -> wp (for_to n body) k Q.
Proof.
  intros Hn Hb Hi HQ. eapply wp_mono.
  - apply (wp_for I (Z.to_nat n) 0 body k); [|done]. intros j k1 Hj. apply Hb. lia.
  - intros [] k' Hk. apply HQ. by rewrite Z2Nat.id in Hk by lia.
Qed.

(** One step of symbolic execution. *)
Ltac wp1 :=
  lazymatch goal with
  | |- wp (bind _ _) _ _ => apply wp_bind
  | |- wp (ret _) _ _ => apply wp_ret
  | |- wp (gets _) _ _ => apply wp_gets
  | |- wp (modify _) _ _ => apply wp_modify
  | |- wp (if ?b then _ else _) _ _ => let E := fresh "E" in destruct b eqn:E
  | |- wp (let '(_, _) := ?p in _) _ _ => let E := fresh "E" in destruct p eqn:E
  end; cbv beta.

(** *** Parts of the state *)
Class Has (S K : Type) := {
  the : K -> S;
  put : S -> K -> K;
  the_put : forall s k, the (put s k) = s;
  put_put : forall s s' k, put s (put s' k) = put s k;
  put_the : forall k, put (the k) k = k
}.
#[export] Instance has_self (S : Type) : Has S S.
Proof. by refine {| the := fun s => s; put := fun s _ => s |}. Defined.

#[export] Hint Rewrite @the_put @put_put @put_the : state.

Section Part.
Context {S K : Type} `{!Has S K}.
Definition sgets {A} (f : S -> A) : M K A := gets (fun k => f (the k)).
Definition smod (f : S -> S) : M K unit := modify (fun k => put (f (the k)) k).

Lemma wp_sgets {A} (f : S -> A) k Q : Q (f (the k)) k -> wp (sgets f) k Q.
Proof. done. Qed.
Lemma wp_smod (f : S -> S) k Q : Q tt (put (f (the k)) k) -> wp (smod f) k Q.
Proof. done. Qed.
End Part.

(** *** Traces
    The format string of a [log] call as the C source spells it, and its arguments. *)
Record event := Log { fmt : string; args : list Z }.
#[export] Instance event_eq_dec : EqDecision event.
Proof. solve_decision. Defined.
