(* ===== verification/VmmSpace.v ===== *)
(** Address space manager (the free list of VMM.c): [vmm_mmap], [vmm_free_pages].

    The heap part of the virtual address space is managed by a doubly linked list
    of [free_block]s in order of address ([blockchain]), the nodes of which live on
    the kernel heap.  [kmalloc] and [kfree] are liballoc's; liballoc in turn gets its
    memory from [vmm_mmap], so the two are written over a common state with each
    other's operations as arguments.  Here the allocator is an interface
    ([BlockAlloc], with its contract [BlockAllocOk]). *)
From S2P Require Import Prelude PMM Paging KMonad DList Spans.
Import Paging.

Module VmmSpace.

(** ** State *)
Definition HEAP_START : Z := 0x200000.
Definition MAX_HEAP_SIZE : Z := 256 * 126.

Record free_block := MkBlock { start : Z; size : Z; prev : Z; next : Z }.
Definition sizeof_free_block : Z := 32.

Definition set_start (x : Z) (b : free_block) : free_block :=
  MkBlock x (size b) (prev b) (next b).
Definition set_size (x : Z) (b : free_block) : free_block :=
  MkBlock (start b) x (prev b) (next b).
Definition set_prev (x : Z) (b : free_block) : free_block :=
  MkBlock (start b) (size b) x (next b).
Definition set_next (x : Z) (b : free_block) : free_block :=
  MkBlock (start b) (size b) (prev b) x.

#[export] Instance block_node : DNode free_block (Z * Z).
Proof.
  by refine {| dn_mk := fun v p n => MkBlock v.1 v.2 p n;
    dn_set_prev := set_prev; dn_set_next := set_next |}.
Defined.

(** The globals of VMM.c, the memory of the [free_block]s, and the log. *)
Record vmm (P : Type) := MkVmm {
  pg : paging P;
  blocks : gmap Z free_block;
  blockchain : Z;
  first_alloc : bool;
  allocating_base : bool;
  pages_allocated_for_blockchain : Z;
  vlog : list event
}.
#[global] Arguments MkVmm {P}.
#[global] Arguments pg {P}.
#[global] Arguments blocks {P}.
#[global] Arguments blockchain {P}.
#[global] Arguments first_alloc {P}.
#[global] Arguments allocating_base {P}.
#[global] Arguments pages_allocated_for_blockchain {P}.
#[global] Arguments vlog {P}.

(** The values the globals are initialised with. *)
Definition vmm_start {P} (s : paging P) : vmm P := MkVmm s ∅ 0 true false 0 [].

Section Ops.
Context {P : Type} `{!PageSupply P}.

Definition set_pg (s : paging P) (v : vmm P) : vmm P :=
  MkVmm s (blocks v) (blockchain v) (first_alloc v) (allocating_base v)
    (pages_allocated_for_blockchain v) (vlog v).
Definition set_blocks (h : gmap Z free_block) (v : vmm P) : vmm P :=
  MkVmm (pg v) h (blockchain v) (first_alloc v) (allocating_base v)
    (pages_allocated_for_blockchain v) (vlog v).
Definition set_blockchain (b : Z) (v : vmm P) : vmm P :=
  MkVmm (pg v) (blocks v) b (first_alloc v) (allocating_base v)
    (pages_allocated_for_blockchain v) (vlog v).
Definition set_flags (fa ab : bool) (v : vmm P) : vmm P :=
  MkVmm (pg v) (blocks v) (blockchain v) fa ab (pages_allocated_for_blockchain v) (vlog v).
Definition set_base_pages (n : Z) (v : vmm P) : vmm P :=
  MkVmm (pg v) (blocks v) (blockchain v) (first_alloc v) (allocating_base v) n (vlog v).
Definition add_log (e : event) (v : vmm P) : vmm P :=
  MkVmm (pg v) (blocks v) (blockchain v) (first_alloc v) (allocating_base v)
    (pages_allocated_for_blockchain v) (vlog v ++ [e]).

Context {K : Type} `{!Has (vmm P) K}.
Implicit Type (k : K).

Definition vm (k : K) : vmm P := the k.
Definition vlog1 (f : string) (a : list Z) : M K unit := smod (add_log (Log f a)).

(** Access to a [free_block] through a pointer. *)
Definition load (b : Z) : M K free_block := fun k =>
  if b =? 0 then None else
  match blocks (vm k) !! b with Some x => Some (x, k) | None => None end.
Definition update (b : Z) (f : free_block -> free_block) : M K unit := fun k =>
  if b =? 0 then None else
  match blocks (vm k) !! b with
  | Some _ => Some (tt, put (set_blocks (alter f b (blocks (vm k))) (vm k)) k)
  | None => None
  end.
(** Assignment of a whole structure. *)
Definition store (b : Z) (x : free_block) : M K unit := fun k =>
  if b =? 0 then None
  else Some (tt, put (set_blocks (<[b := x]> (blocks (vm k))) (vm k)) k).

(** The allocator the list's nodes come from. *)
Class BlockAlloc := {
  kmalloc : Z -> M K Z;
  kfree : Z -> M K unit
}.
Context `{!BlockAlloc}.

(** Loops over the list visit each block at most once. *)
Definition list_fuel (k : K) : nat := S (base.size (blocks (vm k))).

(** ** Operations *)

(** The value of [physical] after [n] rounds of the mapping loop. *)
Fixpoint physical_after (n : nat) (physical : Z) : Z :=
  match n with
  | O => physical
  | S n' => physical_after n'
      (if negb (physical =? 0) then u64 (physical + PAGE_SIZE) else physical)
  end.

Definition ensure_pages_mapped (physical vstart pages flags : Z) : M K unit :=
  smod (fun v => set_pg (map_pages (Z.to_nat pages) 0 physical vstart flags (pg v)) v) ;;;
  if physical_after (Z.to_nat pages) physical =? 0
  then vlog1 "[VMM] Mapped fresh pages to %p (%lu pages) (flags: %x)\n" [vstart; pages; flags]
  else vlog1 "[VMM] Mapped %p to %p (%lu pages) (flags: %x)\n" [physical; vstart; pages; flags].

(** [while (block->prev) block = block->prev;] *)
Fixpoint rewind (fuel : nat) (block : Z) : M K Z :=
  match fuel with
  | O => fault
  | S fuel =>
      let! b := load block in
      if truth (prev b) then rewind fuel (prev b) else ret block
  end.

(** The second loop of [print_blockchain], with the running total. *)
Fixpoint print_blocks (fuel : nat) (block total : Z) : M K Z :=
  match fuel with
  | O => fault
  | S fuel =>
      if block =? 0 then ret total else
      let! b := load block in
      vlog1 "[%p, %p) (%lu pages)\n"
        [start b; u64 (start b + u64 (size b * PAGE_SIZE)); size b] ;;;
      print_blocks fuel (next b) (u64 (total + size b))
  end.

Definition print_blockchain : M K unit :=
  let! fuel := gets list_fuel in
  let! block := sgets blockchain in
  let! block := rewind fuel block in
  smod (set_blockchain block) ;;;
  vlog1 "Blockchain:\n" [] ;;;
  let! total := print_blocks fuel block 0 in
  vlog1 "Total: %lu pages\n" [total].

(** [while (block && block->size < pages) block = block->next;] *)
Fixpoint find_fit (fuel : nat) (block pages : Z) : M K Z :=
  match fuel with
  | O => fault
  | S fuel =>
      if block =? 0 then ret 0 else
      let! b := load block in
      if size b <? pages then find_fit fuel (next b) pages else ret block
  end.

(** The part of [vmm_mmap] that deletes an empty block. *)
Definition delete_block (block : Z) : M K unit :=
  let! b := load block in
  when (truth (prev b)) (update (prev b) (set_next (next b))) ;;;
  let! b := load block in
  when (truth (next b)) (update (next b) (set_prev (prev b))) ;;;
  let! base := sgets blockchain in
  let! b := load block in
  when (block =? base) (smod (set_blockchain (next b))) ;;;
  kfree block.

(** The part of [vmm_mmap] that finds the list empty: [Some r] is an early return. *)
Definition mmap_no_list (pages : Z) : M K (option Z) :=
  let! fa := sgets first_alloc in
  if fa then
    let! ab := sgets allocating_base in
    if negb ab then
      smod (fun v => set_flags (first_alloc v) true v) ;;;
      let! b := kmalloc sizeof_free_block in
      smod (set_blockchain b) ;;;
      let! n := sgets pages_allocated_for_blockchain in
      store b (MkBlock (u64 (HEAP_START + u64 (n * PAGE_SIZE))) (u64 (MAX_HEAP_SIZE - n)) 0 0) ;;;
      ret None
    else
      smod (set_flags false false) ;;;
      smod (set_base_pages pages) ;;;
      ensure_pages_mapped 0 HEAP_START pages DIRECTORY_DEFAULTS ;;;
      ret (Some HEAP_START)
  else
    vlog1 "[VMM] No free space left\n" [] ;;;
    ret (Some 0).

(** The part of [vmm_mmap] that takes [pages] pages from the first block that has
    them. *)
Definition mmap_from_list (physical pages : Z) (is_kernel : bool) : M K Z :=
  let! fuel := gets list_fuel in
  let! block := sgets blockchain in
  let! block := find_fit fuel block pages in
  if block =? 0 then
    vlog1 "[VMM] Not enough space to allocate %lu pages\n" [pages] ;;;
    ret 0
  else
    let! b := load block in
    if size b <? pages then
      vlog1 "[VMM] Not enough space to allocate %lu pages\n" [pages] ;;;
      ret 0
    else
      let span_start := start b in
      let flags := DIRECTORY_DEFAULTS ||| (if is_kernel then 0 else USER_ACCESS_BIT) in
      ensure_pages_mapped physical span_start pages flags ;;;
      update block (fun b => set_start (u64 (start b + u64 (pages * PAGE_SIZE))) b) ;;;
      update block (fun b => set_size (u64 (size b - pages)) b) ;;;
      let! b := load block in
      when (negb (truth (size b))) (delete_block block) ;;;
      vlog1 "[VMM] Allocated %lu pages at %p\n" [pages; span_start] ;;;
      ret span_start.

Definition vmm_mmap (physical pages : Z) (is_kernel : bool) : M K Z :=
  let! base := sgets blockchain in
  let! early := (if base =? 0 then mmap_no_list pages else ret None) in
  match early with
  | Some r => ret r
  | None => mmap_from_list physical pages is_kernel
  end.

(** [while (left->next && left->next->start < start) left = left->next;] *)
Fixpoint find_left (fuel : nat) (left start_ : Z) : M K Z :=
  match fuel with
  | O => fault
  | S fuel =>
      let! l := load left in
      if truth (next l) then
        let! n := load (next l) in
        if start n <? start_ then find_left fuel (next l) start_ else ret left
      else ret left
  end.

(** The two neighbours of [start] in the list. *)
Definition neighbours (start_ : Z) : M K (Z * Z) :=
  let! fuel := gets list_fuel in
  let! base := sgets blockchain in
  let! b := load base in
  if start_ <? start b then ret (0, base)
  else
    let! left := find_left fuel base start_ in
    let! l := load left in
    ret (left, next l).

(** [p && start == p->start + p->size * PAGE_SIZE] *)
Definition ends_at (p start_ : Z) : M K bool :=
  if p =? 0 then ret false
  else let! b := load p in ret (start_ =? u64 (start b + u64 (size b * PAGE_SIZE))).
(** [p && end == p->start] *)
Definition starts_at (p end_ : Z) : M K bool :=
  if p =? 0 then ret false else let! b := load p in ret (end_ =? start b).

Definition extend_left (left right pages : Z) : M K unit :=
  update left (fun b => set_size (u64 (size b + pages)) b) ;;;
  let! l := load left in
  let! merge := starts_at right (u64 (start l + u64 (size l * PAGE_SIZE))) in
  when merge (
    let! r := load right in
    update left (fun b => set_size (u64 (size b + size r)) b) ;;;
    update left (set_next (next r)) ;;;
    let! r := load right in
    when (truth (next r)) (update (next r) (set_prev left)) ;;;
    kfree right).

Definition extend_right (right pages : Z) : M K unit :=
  update right (fun b => set_size (u64 (size b + pages)) b) ;;;
  update right (fun b => set_start (u64 (start b - u64 (pages * PAGE_SIZE))) b).

Definition insert_block (left right start_ pages : Z) : M K unit :=
  let! new := kmalloc sizeof_free_block in
  store new (MkBlock start_ pages left right) ;;;
  when (truth left) (update left (set_next new)) ;;;
  when (truth right) (update right (set_prev new)).

Definition vmm_free_pages (start_ pages : Z) : M K unit :=
  let! base := sgets blockchain in
  (if base =? 0 then
    let! b := kmalloc sizeof_free_block in
    smod (set_blockchain b) ;;;
    store b (MkBlock start_ pages 0 0)
  else
    let! '(left_, right_) := neighbours start_ in
    let! adjl := ends_at left_ start_ in
    if adjl then extend_left left_ right_ pages
    else
      let! adjr := starts_at right_ (u64 (start_ + u64 (pages * PAGE_SIZE))) in
      if adjr then extend_right right_ pages
      else insert_block left_ right_ start_ pages) ;;;
  vlog1 "[VMM] Freed %lu pages at %p\n" [pages; start_] ;;;
  print_blockchain.

End Ops.
#[global] Arguments BlockAlloc : clear implicits.

(** ** The contract of the allocator
    [live] is the set of addresses it has handed out.  [malloc_quiet]: the next
    request can be served without asking [vmm_mmap] for memory; [free_quiet]: freeing
    the address does not give memory back through [vmm_free_pages].  In those cases
    the address space manager's state is not touched. *)
Class BlockAllocOk (P K : Type) `{!Has (vmm P) K} `{!BlockAlloc K} := {
  live : K -> gset Z;
  malloc_quiet : K -> Prop;
  free_quiet : K -> Z -> Prop;
  live_put : forall (v : vmm P) k, live (put v k) = live k;
  malloc_quiet_put : forall (v : vmm P) k, malloc_quiet (put v k) <-> malloc_quiet k;
  free_quiet_put : forall (v : vmm P) k a, free_quiet (put v k) a <-> free_quiet k a;
  kmalloc_ok : forall k, malloc_quiet k -> exists a k',
    kmalloc sizeof_free_block k = Some (a, k') /\ a ≠ 0 /\ a ∉ live k /\
    live k' = {[a]} ∪ live k /\ the k' = (the k : vmm P);
  kfree_ok : forall k a, a ∈ live k -> free_quiet k a -> exists k',
    kfree a k = Some (tt, k') /\ live k' = live k ∖ {[a]} /\ the k' = (the k : vmm P)
}.

Definition HEAP_END : Z := HEAP_START + MAX_HEAP_SIZE * PAGE_SIZE.

Section Facts.
Context {P K : Type} `{!PageSupply P} `{!Has (vmm P) K} `{!BlockAlloc K} `{!BlockAllocOk P K}.
Implicit Types (k : K) (l : list (Z * (Z * Z))).

Lemma vm_put (v : vmm P) k : vm (put v k) = v.
Proof. apply the_put. Qed.

(** *** Symbolic execution *)
Lemma wp_load b x k Q : b ≠ 0 -> blocks (vm k) !! b = Some x -> Q x k -> wp (load b) k Q.
Proof.
  intros Hb Hx HQ. unfold wp, load. destruct (Z.eqb_spec b 0); [done|]. by rewrite Hx.
Qed.

Lemma wp_update b f k Q :
  b ≠ 0 -> is_Some (blocks (vm k) !! b) ->
  Q tt (put (set_blocks (alter f b (blocks (vm k))) (vm k)) k) -> wp (update b f) k Q.
Proof.
  intros Hb [x Hx] HQ. unfold wp, update. destruct (Z.eqb_spec b 0); [done|]. by rewrite Hx.
Qed.

Lemma wp_store b x k Q :
  b ≠ 0 -> Q tt (put (set_blocks (<[b := x]> (blocks (vm k))) (vm k)) k) -> wp (store b x) k Q.
Proof. intros Hb HQ. unfold wp, store. by destruct (Z.eqb_spec b 0). Qed.

Lemma wp_vgets {A} (f : vmm P -> A) k Q : Q (f (vm k)) k -> wp (sgets f) k Q.
Proof. done. Qed.
Lemma wp_vmod (f : vmm P -> vmm P) k Q : Q tt (put (f (vm k)) k) -> wp (smod f) k Q.
Proof. done. Qed.

(** [if (p) p->f = x], the guarded store of all the list operations. *)
Lemma wp_guarded (b : Z) f k Q :
  (b ≠ 0 -> is_Some (blocks (vm k) !! b)) ->
  Q tt (put (set_blocks (if b =? 0 then blocks (vm k) else alter f b (blocks (vm k))) (vm k)) k) ->
  wp (when (truth b) (update b f)) k Q.
Proof.
  intros Hb HQ. unfold truth. destruct (Z.eqb_spec b 0) as [->|E]; cbn [negb when].
  - apply wp_ret. revert HQ. unfold vm. destruct (the k) eqn:Ek; cbn. unfold set_blocks; cbn.
    by rewrite <- Ek, put_the.
  - apply wp_update; auto.
Qed.

Lemma wp_vlog f a k Q : Q tt (put (add_log (Log f a) (vm k)) k) -> wp (vlog1 f a) k Q.
Proof. done. Qed.

Lemma wp_kmalloc k Q :
  malloc_quiet k ->
  (forall a k', a ≠ 0 -> a ∉ live k -> live k' = {[a]} ∪ live k -> vm k' = vm k -> Q a k') ->
  wp (kmalloc sizeof_free_block) k Q.
Proof.
  intros Hq HQ. destruct (kmalloc_ok k Hq) as (a & k' & E & ? & ? & ? & ?).
  eapply wp_intro; [done|]. by apply HQ.
Qed.

Lemma wp_kfree a k Q :
  a ∈ live k -> free_quiet k a ->
  (forall k', live k' = live k ∖ {[a]} -> vm k' = vm k -> Q tt k') -> wp (kfree a) k Q.
Proof.
  intros Ha Hq HQ. destruct (kfree_ok k a Ha Hq) as (k' & E & ? & ?).
  eapply wp_intro; [done|]. by apply HQ.
Qed.

(** Normal form of the state after some steps. *)
Ltac vms := rewrite ?vm_put, ?put_put;
  cbn [pg blocks blockchain first_alloc allocating_base pages_allocated_for_blockchain vlog
    set_pg set_blocks set_blockchain set_flags set_base_pages add_log
    start size prev next dn_mk block_node fst snd].

(** *** The loops *)
Lemma find_fit_some pages fuel l1 a s n l2 p k :
  chain (blocks (vm k)) p (l1 ++ (a, (s, n)) :: l2) 0 ->
  Forall (fun x => x.2.2 < pages) l1 -> pages <= n -> (length l1 < fuel)%nat ->
  find_fit fuel (first_ptr (l1 ++ (a, (s, n)) :: l2) 0) pages k = Some (a, k).
Proof.
  revert fuel p. induction l1 as [|[b [t m]] l1 IH]; intros [|fuel] p Hc Hf Hn Hfu;
    simpl in Hfu; try lia; cbn [app first_ptr find_fit].
  - destruct Hc as (Ha & E & _). destruct (Z.eqb_spec a 0); [done|].
    unfold bind, load. destruct (Z.eqb_spec a 0); [done|]. rewrite E. cbn.
    by destruct (Z.ltb_spec n pages); [lia|].
  - apply Forall_cons in Hf as [Hm Hf]. cbn in Hm. destruct Hc as (Ha & E & Hc).
    destruct (Z.eqb_spec b 0); [done|]. unfold bind, load. destruct (Z.eqb_spec b 0); [done|].
    rewrite E. cbn [dn_mk block_node size next fst snd].
    destruct (Z.ltb_spec m pages); [|lia]. apply (IH _ b); (done || lia).
Qed.

Lemma find_fit_none pages fuel l p k :
  chain (blocks (vm k)) p l 0 -> Forall (fun x => x.2.2 < pages) l -> (length l < fuel)%nat ->
  find_fit fuel (first_ptr l 0) pages k = Some (0, k).
Proof.
  revert fuel p. induction l as [|[b [t m]] l1 IH]; intros [|fuel] p Hc Hf Hfu;
    simpl in Hfu; try lia; cbn [first_ptr find_fit]; [done|].
  apply Forall_cons in Hf as [Hm Hf]. cbn in Hm. destruct Hc as (Ha & E & Hc).
  destruct (Z.eqb_spec b 0); [done|]. unfold bind, load. destruct (Z.eqb_spec b 0); [done|].
  rewrite E. cbn [dn_mk block_node size next fst snd].
  destruct (Z.ltb_spec m pages); [|lia]. apply (IH _ b); (done || lia).
Qed.

Lemma find_left_spec s fuel l1 a v l2 p k :
  chain (blocks (vm k)) p ((a, v) :: l1 ++ l2) 0 ->
  Forall (fun x => x.2.1 < s) l1 -> (forall x, head l2 = Some x -> s <= x.2.1) ->
  (length l1 < fuel)%nat ->
  find_left fuel a s k = Some (last_ptr a l1, k).
Proof.
  revert fuel p a v. induction l1 as [|[b [t m]] l1 IH]; intros [|fuel] p a v Hc Hf Hl2 Hfu;
    simpl in Hfu; try lia; cbn [app first_ptr find_left];
    destruct Hc as (Ha & E & Hc); unfold bind, load; (destruct (Z.eqb_spec a 0); [done|]);
    rewrite E; cbn [dn_mk block_node next].
  - destruct l2 as [|[b [t m]] l2]; cbn [app first_ptr]; [done|].
    cbn [app] in Hc. destruct Hc as (Hb & Eb & _). unfold truth.
    destruct (Z.eqb_spec b 0); [done|]. cbn [negb]. rewrite Eb. cbn [dn_mk block_node start fst].
    specialize (Hl2 _ eq_refl). cbn in Hl2. by destruct (Z.ltb_spec t s); [lia|].
  - cbn [app first_ptr]. apply Forall_cons in Hf as [Hm Hf]. cbn in Hm.
    pose proof Hc as (Hb & Eb & _). unfold truth. destruct (Z.eqb_spec b 0); [done|].
    cbn [negb]. rewrite Eb. cbn [dn_mk block_node start fst].
    destruct (Z.ltb_spec t s); [|lia]. rewrite last_ptr_cons.
    apply (IH _ a b (t, m)); (done || lia).
Qed.

Lemma rewind_spec fuel l1 a v l2 k :
  chain (blocks (vm k)) 0 (l1 ++ (a, v) :: l2) 0 -> (length l1 < fuel)%nat ->
  rewind fuel a k = Some (first_ptr (l1 ++ [(a, v)]) 0, k).
Proof.
  revert fuel a v l2. induction l1 as [|[b w] l1 IH] using rev_ind; intros [|fuel] a v l2 Hc Hfu;
    try (rewrite ?length_app in Hfu; simpl in Hfu; lia); cbn [rewind];
    pose proof Hc as (Ha & E & H1 & _)%chain_mid; unfold bind, load;
    (destruct (Z.eqb_spec a 0); [done|]); rewrite E; cbn [dn_mk block_node prev]; [done|].
  rewrite last_ptr_snoc. rewrite <- app_assoc in Hc. cbn [app] in Hc.
  pose proof Hc as (Hb & _)%chain_mid. unfold truth. destruct (Z.eqb_spec b 0); [done|]. cbn [negb].
  rewrite length_app in Hfu. simpl in Hfu. rewrite (IH _ b w _ Hc) by lia.
  by rewrite !first_ptr_app.
Qed.

(** *** Printing *)
Definition add_logs (es : list event) (v : vmm P) : vmm P :=
  MkVmm (pg v) (blocks v) (blockchain v) (first_alloc v) (allocating_base v)
    (pages_allocated_for_blockchain v) (vlog v ++ es).

Definition block_event (x : Z * Z) : event :=
  Log "[%p, %p) (%lu pages)\n" [x.1; u64 (x.1 + u64 (x.2 * PAGE_SIZE)); x.2].
Definition list_events (l : list (Z * Z)) : list event :=
  [Log "Blockchain:\n" []] ++ map block_event l ++
  [Log "Total: %lu pages\n" [foldl (fun t x => u64 (t + x.2)) 0 l]].

Lemma add_logs_nil (v : vmm P) : add_logs [] v = v.
Proof. destruct v. unfold add_logs. simpl. by rewrite app_nil_r. Qed.
Lemma add_logs_cons e es (v : vmm P) : add_logs es (add_log e v) = add_logs (e :: es) v.
Proof. destruct v. unfold add_logs, add_log. simpl. by rewrite <- app_assoc. Qed.
Lemma add_logs_snoc e es (v : vmm P) : add_log e (add_logs es v) = add_logs (es ++ [e]) v.
Proof. destruct v. unfold add_logs, add_log. simpl. by rewrite <- app_assoc. Qed.

Lemma print_blocks_spec fuel l p tot k :
  chain (blocks (vm k)) p l 0 -> (length l < fuel)%nat ->
  print_blocks fuel (first_ptr l 0) tot k =
    Some (foldl (fun t x => u64 (t + x.2)) tot l.*2,
      put (add_logs (map block_event l.*2) (vm k)) k).
Proof.
  revert fuel p tot k. induction l as [|[a [s n]] l IH]; intros [|fuel] p tot k Hc Hfu;
    simpl in Hfu; try lia; cbn [first_ptr print_blocks].
  { cbn. rewrite add_logs_nil. unfold vm. by rewrite put_the. }
  destruct Hc as (Ha & E & Hc). destruct (Z.eqb_spec a 0); [done|].
  unfold bind, load. destruct (Z.eqb_spec a 0); [done|]. rewrite E.
  cbn [dn_mk block_node start size next fst snd]. unfold vlog1, smod, modify.
  rewrite (IH fuel a); [|by rewrite vm_put|lia].
  by rewrite vm_put, put_put, add_logs_cons.
Qed.

Lemma print_blockchain_spec l k :
  NoDup l.*1 -> chain (blocks (vm k)) 0 l 0 -> blockchain (vm k) ∈ l.*1 ->
  print_blockchain k =
    Some (tt, put (add_logs (list_events l.*2) (set_blockchain (first_ptr l 0) (vm k))) k).
Proof.
  intros Hd Hc Hin. pose proof (chain_length _ _ _ _ Hd Hc) as Hlen.
  assert (exists l1 v l2, l = l1 ++ (blockchain (vm k), v) :: l2) as (l1 & v & l2 & El).
  { apply list_elem_of_fmap in Hin as ([a v] & Ea & Hin). cbn in Ea.
    apply list_elem_of_split in Hin as (l1 & l2 & ->). exists l1, v, l2. by rewrite Ea. }
  unfold print_blockchain, bind, gets, sgets, gets. fold (vm k).
  rewrite (rewind_spec _ l1 _ v l2);
    [|by rewrite <- El|unfold list_fuel; rewrite El, length_app in Hlen; simpl in Hlen; lia].
  assert (first_ptr (l1 ++ [(blockchain (vm k), v)]) 0 = first_ptr l 0) as ->
    by (rewrite El, !first_ptr_app; done).
  unfold smod, modify, vlog1, smod, modify. fold (vm k).
  rewrite (print_blocks_spec _ l 0); [|by unfold vm; rewrite !the_put|unfold list_fuel; lia].
  unfold vm. rewrite !the_put, !put_put, add_logs_cons, add_logs_snoc. done.
Qed.

(** *** Removing an empty block *)
Lemma delete_block_spec l1 a v l2 k :
  let l := l1 ++ (a, v) :: l2 in
  NoDup l.*1 -> chain (blocks (vm k)) 0 l 0 -> blockchain (vm k) = first_ptr l 0 ->
  a ∈ live k -> free_quiet k a ->
  wp (delete_block a) k (fun _ k' =>
    live k' = live k ∖ {[a]} /\ exists h,
    chain h 0 (l1 ++ l2) 0 /\
    vm k' = set_blocks h (set_blockchain (first_ptr (l1 ++ l2) 0) (vm k))).
Proof.
  intros l Hd Hc Hb Hl Hq. pose proof (chain_unlink _ _ _ _ _ Hd Hc) as Hun. cbn in Hun.
  pose proof Hc as (Ha & E & H1 & H2)%chain_mid.
  destruct (unlink_self (blocks (vm k)) _ _ _ _ Hd Ha) as [U1 U2].
  unfold delete_block. wp1. eapply wp_load; [done..|]. wp1. vms.
  apply wp_guarded; [by apply (chain_last_some _ 0 _ a)|].
  change (if _ =? 0 then _ else _) with
    (unlink_next (last_ptr 0 l1) (first_ptr l2 0) (blocks (vm k))).
  wp1. eapply wp_load; [done|by vms; rewrite U1|]. wp1. vms. apply wp_guarded.
  { intros Hz. vms. apply is_Some_unlink_next. by apply (chain_first_some _ a _ 0). }
  vms. change (if _ =? 0 then _ else _) with
    (unlink_prev (last_ptr 0 l1) (first_ptr l2 0)
      (unlink_next (last_ptr 0 l1) (first_ptr l2 0) (blocks (vm k)))).
  set (h' := unlink_prev _ _ _) in *. clearbody h'.
  wp1. apply wp_vgets. vms. wp1. eapply wp_load; [done|by vms; rewrite U2|]. wp1. vms.
  assert (forall b, b = first_ptr (l1 ++ l2) 0 -> wp (kfree a)
    (put (set_blocks h' (set_blockchain b (vm k))) k) (fun _ k' =>
      live k' = live k ∖ {[a]} /\ exists h, chain h 0 (l1 ++ l2) 0 /\
      vm k' = set_blocks h (set_blockchain (first_ptr (l1 ++ l2) 0) (vm k)))) as Hfree.
  { intros b ->. apply wp_kfree; [by rewrite live_put|by apply free_quiet_put|].
    intros k' El Ev. rewrite live_put in El. split; [done|]. exists h'. split; [done|].
    by rewrite Ev, vm_put. }
  apply wp_when; rewrite Hb; intros Eb.
  - apply wp_vmod. vms. apply Hfree. apply Z.eqb_eq in Eb.
    destruct l1 as [|[c w] l1]; [done|]. cbn in Eb. subst c. exfalso.
    unfold l in Hd. cbn in Hd. rewrite fmap_app in Hd. apply NoDup_cons in Hd as [Hd _]. set_solver.
  - replace (set_blocks h' _) with (set_blocks h' (set_blockchain (blockchain (vm k)) (vm k)))
      by done. apply Hfree. rewrite Hb. apply Z.eqb_neq in Eb.
    by destruct l1 as [|[c w] l1].
Qed.

(** ** The invariant
    The blocks form a doubly linked list from [blockchain] on, live on the heap, and
    hold a separated list of spans of the heap's address range. *)
Record space_inv k l : Prop := {
  si_nodup : NoDup l.*1;
  si_chain : chain (blocks (vm k)) 0 l 0;
  si_base : blockchain (vm k) = first_ptr l 0;
  si_live : forall a, a ∈ l.*1 -> a ∈ live k;
  si_started : first_alloc (vm k) = false;
  si_sep : sep (HEAP_START - 1) l.*2 HEAP_END
}.

(** Spans of the heap are far from wrapping around. *)
Lemma span_small s n :
  HEAP_START - 1 < s -> 0 < n -> span_end (s, n) <= HEAP_END ->
  0 < s /\ s + n * PAGE_SIZE < 2 ^ 40 /\ n < 2 ^ 28.
Proof.
  unfold span_end, HEAP_END, HEAP_START, MAX_HEAP_SIZE, PAGE_SIZE, PSZ. simpl. lia.
Qed.

Lemma fuel_enough k l : NoDup l.*1 -> chain (blocks (vm k)) 0 l 0 -> (length l < list_fuel k)%nat.
Proof. intros Hd Hc. pose proof (chain_length _ _ _ _ Hd Hc). unfold list_fuel. lia. Qed.

Definition mmap_flags (is_kernel : bool) : Z :=
  DIRECTORY_DEFAULTS ||| (if is_kernel then 0 else USER_ACCESS_BIT).

Lemma first_fit_nodes pages l :
  match first_fit pages l.*2 with
  | None => Forall (fun x => x.2.2 < pages) l
  | Some (s, r) => exists l1 a n l2, l = l1 ++ (a, (s, n)) :: l2 /\
      Forall (fun x => x.2.2 < pages) l1 /\ pages <= n /\ r = l1.*2 ++ cut pages (s, n) ++ l2.*2
  end.
Proof.
  pose proof (first_fit_split pages l.*2) as H. destruct (first_fit pages l.*2) as [[s r]|].
  - destruct H as (p1 & n & p2 & E & Hf & ? & ->).
    apply fmap_app_inv in E as (l1 & l2' & -> & E2 & ->). symmetry in E2.
    apply fmap_cons_inv in E2 as ([a v] & l2 & Ev & -> & ->). cbn in Ev. subst v.
    exists l1, a, n, l2. split_and!; [done| |done|done]. by apply Forall_fmap in Hf.
  - by apply Forall_fmap in H.
Qed.

(** What an allocation does to the state. *)
Record mmapped k k' l (phys pages s : Z) (is_kernel : bool) (l' : list (Z * (Z * Z))) : Prop := {
  mm_inv : space_inv k' l';
  mm_nodes : forall a, a ∈ l'.*1 -> a ∈ l.*1;
  mm_live : forall a, a ∈ live k' -> a ∈ live k;
  mm_pg : pg (vm k') = map_pages (Z.to_nat pages) 0 phys s (mmap_flags is_kernel) (pg (vm k));
  mm_log : exists e, vlog (vm k') =
    vlog (vm k) ++ [e; Log "[VMM] Allocated %lu pages at %p\n" [pages; s]];
  mm_frame : (forall a, (a, (s, pages)) ∉ l) -> exists v, k' = put v k
}.

Lemma wp_ensure phys s pages fl k Q :
  (forall e, Q tt (put (add_log e
    (set_pg (map_pages (Z.to_nat pages) 0 phys s fl (pg (vm k))) (vm k))) k)) ->
  wp (ensure_pages_mapped phys s pages fl) k Q.
Proof.
  intros HQ. unfold ensure_pages_mapped. wp1. apply wp_vmod.
  destruct (_ =? 0); apply wp_vlog; vms; apply HQ.
Qed.

Lemma mmap_from_list_none phys pages is_kernel k l :
  space_inv k l -> first_fit pages l.*2 = None ->
  mmap_from_list phys pages is_kernel k = Some (0,
    put (add_log (Log "[VMM] Not enough space to allocate %lu pages\n" [pages]) (vm k)) k).
Proof.
  intros [Hd Hc Hb _ _ _] E. pose proof (first_fit_nodes pages l) as H. rewrite E in H.
  unfold mmap_from_list, bind, gets, sgets, gets. fold (vm k). rewrite Hb.
  by rewrite (find_fit_none pages _ l 0) by (done || by apply fuel_enough).
Qed.

(** Cutting [pages] pages off a block. *)
Definition shrink (pages a : Z) (h : gmap Z free_block) : gmap Z free_block :=
  alter (fun b => set_size (u64 (size b - pages)) b) a
    (alter (fun b => set_start (u64 (start b + u64 (pages * PAGE_SIZE))) b) a h).

Lemma shrink_chain pages h l1 a s n l2 :
  NoDup (l1 ++ (a, (s, n)) :: l2).*1 -> chain h 0 (l1 ++ (a, (s, n)) :: l2) 0 ->
  0 <= pages <= n -> 0 < s -> s + n * PAGE_SIZE < 2 ^ 40 -> n < 2 ^ 28 ->
  chain (shrink pages a h) 0 (l1 ++ (a, (s + pages * PAGE_SIZE, n - pages)) :: l2) 0.
Proof.
  intros Hd Hc Hp ???. apply (chain_set_payload _ _ _ _ (s + pages * PAGE_SIZE, n)).
  - by rewrite fmap_app in *.
  - intros q m. unfold set_size. cbn. rewrite wrap_small; [done|]. unfold in_u. lia.
  - apply (chain_set_payload _ _ _ _ (s, n)); [done| |done]. intros q m. unfold set_start. cbn.
    unfold PAGE_SIZE in *.
    by rewrite !wrap_small by (unfold in_u; rewrite ?wrap_small; unfold in_u; lia).
Qed.

(** The state when the span has been mapped. *)
Definition mapped_vmm (phys pages s : Z) (is_kernel : bool) (e : event) (v : vmm P) : vmm P :=
  add_log e (set_pg (map_pages (Z.to_nat pages) 0 phys s (mmap_flags is_kernel) (pg v)) v).

Lemma mmap_finish phys pages s is_kernel e h k k3 l l' :
  vm k3 = set_blocks h (set_blockchain (first_ptr l' 0)
    (mapped_vmm phys pages s is_kernel e (vm k))) ->
  first_alloc (vm k) = false -> chain h 0 l' 0 -> NoDup l'.*1 ->
  sep (HEAP_START - 1) l'.*2 HEAP_END ->
  (forall b, b ∈ l'.*1 -> b ∈ live k3 /\ b ∈ l.*1) -> (forall b, b ∈ live k3 -> b ∈ live k) ->
  ((forall a, (a, (s, pages)) ∉ l) -> exists v, k3 = put v k) ->
  wp (vlog1 "[VMM] Allocated %lu pages at %p\n" [pages; s] ;;; ret s) k3 (fun x k' =>
    x = s /\ exists l'', l''.*2 = l'.*2 /\ mmapped k k' l phys pages s is_kernel l'').
Proof.
  intros E3 Hfa Hc3 Hd3 Hsep Hin3 Hlive Hfr. wp1. apply wp_vlog. rewrite E3. apply wp_ret.
  split; [done|]. exists l'. split; [done|]. split.
  - split; [done|by vms|by vms| |by vms|done].
    intros b Hb3. rewrite live_put. by apply Hin3.
  - intros b Hb3. by apply Hin3.
  - intros b. rewrite live_put. apply Hlive.
  - by vms.
  - exists e. vms. unfold mapped_vmm. vms. by rewrite <- app_assoc.
  - intros Hn. destruct (Hfr Hn) as [v ->]. eexists. rewrite put_put. done.
Qed.

(** A request of exactly the size of a free block makes its node go. *)
Definition frees_quietly k l (pages : Z) : Prop :=
  forall a s, (a, (s, pages)) ∈ l -> free_quiet k a.

Lemma mmap_from_list_some phys pages is_kernel k l s r :
  space_inv k l -> frees_quietly k l pages -> 0 <= pages ->
  first_fit pages l.*2 = Some (s, r) ->
  wp (mmap_from_list phys pages is_kernel) k (fun x k' =>
    x = s /\ exists l', l'.*2 = r /\ mmapped k k' l phys pages s is_kernel l').
Proof.
  intros [Hd Hc Hb Hl Hs Hsep] Hq Hp Eff. pose proof (first_fit_nodes pages l) as H.
  pose proof (first_fit_spec _ _ _ _ _ _ Hsep Hp Eff) as [Hsep' _ _ _ _].
  rewrite Eff in H. destruct H as (l1 & a & n & l2 & -> & Hf & Hn & ->). clear Eff.
  pose proof (chain_mid _ _ _ _ _ _ _ Hc) as (Ha & E & _ & _).
  pose proof (sep_bounds _ _ _ (s, n) Hsep ltac:(rewrite fmap_app; set_solver)) as (Hs0 & Hn0 & _ & He).
  cbn [fst snd] in Hs0, Hn0. destruct (span_small s n Hs0 Hn0 He) as (? & ? & ?).
  assert (chain (shrink pages a (blocks (vm k))) 0
    (l1 ++ (a, (s + pages * PAGE_SIZE, n - pages)) :: l2) 0) as Hc2 by (apply shrink_chain; done).
  pose proof (chain_mid _ _ _ _ _ _ _ Hc2) as (_ & E2 & _ & _).
  set (v' := (s + pages * PAGE_SIZE, n - pages)) in *.
  assert (NoDup (l1 ++ (a, v') :: l2).*1) as Hd2 by (by rewrite fmap_app in * ).
  unfold mmap_from_list. wp1. apply wp_gets. wp1. apply wp_vgets. wp1. rewrite Hb.
  eapply wp_intro; [apply (find_fit_some pages _ l1 a s n l2 0); [done..|]|].
  { pose proof (fuel_enough _ _ Hd Hc) as Hfu. rewrite length_app in Hfu. lia. }
  destruct (Z.eqb_spec a 0); [done|]. wp1. eapply wp_load; [done..|]. vms.
  destruct (Z.ltb_spec n pages); [lia|]. wp1. apply wp_ensure. intros e.
  wp1. apply wp_update; [done|by vms; rewrite E|]. vms.
  wp1. apply wp_update; [done|by vms; apply is_Some_alter; rewrite E|]. vms.
  wp1. eapply wp_load; [done|by vms; apply E2|]. vms. wp1.
  change (set_blocks (alter _ _ _) _) with
    (set_blocks (shrink pages a (blocks (vm k))) (mapped_vmm phys pages s is_kernel e (vm k))).
  unfold v' at 1, truth. cbn [snd]. unfold cut in *. cbn [fst snd] in *.
  destruct (Z.eqb_spec (n - pages) 0) as [Ez|Ez]; cbn [negb when].
  - destruct (nodup_mid _ _ _ _ Hd) as [Hd' Hsub].
    eapply wp_mono; [apply (delete_block_spec l1 a v' l2)|]; [done|by vms|vms|..].
    + unfold mapped_vmm. vms. rewrite Hb. by rewrite !first_ptr_app.
    + rewrite live_put. apply Hl. rewrite fmap_app. set_solver.
    + apply free_quiet_put, (Hq a s). replace pages with n by lia. set_solver.
    + intros [] k3 (El & h & Hch & Ev). rewrite live_put in El. rewrite vm_put in Ev.
      cbn [app] in *. rewrite <- (fmap_app snd) in Hsep' |- *.
      apply (mmap_finish _ _ _ _ e h); [done..| |set_solver|].
      * intros b [Hne Hin]%Hsub. split; [|done]. rewrite El. specialize (Hl b Hin). set_solver.
      * intros Hn'. destruct (Hn' a). replace pages with n by lia. set_solver.
  - apply wp_ret. cbn [app] in *. change (_ :: l2.*2) with ((a, v') :: l2).*2 in Hsep' |- *.
    rewrite <- (fmap_app snd) in Hsep' |- *.
    apply (mmap_finish _ _ _ _ e (shrink pages a (blocks (vm k)))); [|done..| | |].
    + rewrite vm_put. replace (first_ptr _ 0) with (blockchain (vm k)); [done|].
      rewrite Hb. by rewrite !first_ptr_app.
    + intros b Hb3. rewrite live_put. rewrite fmap_app in *. split; [by apply Hl|done].
    + intros b. by rewrite live_put.
    + eauto.
Qed.

(** *** Giving pages back *)
Lemma neighbours_spec s l1 l2 k :
  NoDup (l1 ++ l2).*1 -> chain (blocks (vm k)) 0 (l1 ++ l2) 0 ->
  blockchain (vm k) = first_ptr (l1 ++ l2) 0 -> l1 ++ l2 ≠ [] ->
  Forall (fun x => x.2.1 < s) l1 -> Forall (fun x => s < x.2.1) l2 ->
  neighbours s k = Some ((last_ptr 0 l1, first_ptr l2 0), k).
Proof.
  intros Hd Hc Hb Hne F1 F2. unfold neighbours, bind, gets, sgets, gets. fold (vm k). rewrite Hb.
  pose proof (fuel_enough _ _ Hd Hc) as Hfu. rewrite length_app in Hfu.
  destruct l1 as [|[a v] l1]; cbn [app first_ptr] in *.
  - destruct l2 as [|[b w] l2]; [done|]. destruct Hc as (Hz & E & _). cbn [first_ptr].
    unfold load. destruct (Z.eqb_spec b 0); [done|]. rewrite E. vms.
    apply Forall_cons in F2 as [F2 _]. cbn in F2. by destruct (Z.ltb_spec s w.1); [|lia].
  - pose proof Hc as (Hz & E & _). unfold load at 1. destruct (Z.eqb_spec a 0); [done|].
    rewrite E. vms. apply Forall_cons in F1 as [Fa F1]. cbn in Fa.
    destruct (Z.ltb_spec s v.1); [lia|].
    rewrite (find_left_spec s _ l1 a v l2 0); [|done|done| |simpl in Hfu; lia].
    + rewrite last_ptr_cons. change ((a, v) :: l1 ++ l2) with (((a, v) :: l1) ++ l2) in Hc.
      destruct (exists_last (l := (a, v) :: l1) ltac:(done)) as (k1 & [c w] & Ek).
      rewrite <- (last_ptr_cons 0 a v l1), Ek, last_ptr_snoc in *.
      rewrite <- app_assoc in Hc. pose proof Hc as (Hz' & E' & _)%chain_mid.
      unfold load. destruct (Z.eqb_spec c 0); [done|]. by rewrite E'.
    + intros x Hx. apply head_Some_elem_of in Hx. rewrite Forall_forall in F2.
      specialize (F2 x Hx). lia.
Qed.

(** The list before its head pointer is corrected and printed. *)
Record freed k k' l (s pages : Z) l' : Prop := {
  fr_state : exists h b, vm k' = set_blocks h (set_blockchain b (vm k)) /\
    chain h 0 l' 0 /\ b ∈ l'.*1;
  fr_nodup : NoDup l'.*1;
  fr_live : forall a, a ∈ l'.*1 -> a ∈ live k';
  fr_released : released (HEAP_START - 1) HEAP_END s pages l.*2 l'.*2
}.

Section Free.
Context (k : K) (l1 l2 : list (Z * (Z * Z))) (s pages : Z).
Hypothesis Hinv : space_inv k (l1 ++ l2).
Hypothesis Hne : l1 ++ l2 ≠ [].
Hypothesis Hrel : releasable (HEAP_START - 1) HEAP_END s pages (l1.*2 ++ l2.*2).
Hypothesis F1 : Forall (fun x => span_end x.2 <= s) l1.
Hypothesis F2 : Forall (fun x => s + pages * PSZ <= x.2.1) l2.

Lemma free_bounds : 0 < pages /\ 0 < s /\ s + pages * PAGE_SIZE < 2 ^ 40 /\ pages < 2 ^ 28.
Proof.
  destruct Hrel as [? _ [? ?] _]. destruct (span_small s pages); [done..|]. lia.
Qed.

Lemma u64_pages : u64 (pages * PAGE_SIZE) = pages * PAGE_SIZE.
Proof. apply wrap_small. pose proof free_bounds. unfold in_u, PAGE_SIZE in *. lia. Qed.

Lemma u64_here x : x = s -> u64 x = s.
Proof. intros ->. apply wrap_small. pose proof free_bounds. unfold in_u, PAGE_SIZE in *. lia. Qed.

Lemma right_size a t n r2 : l2 = (a, (t, n)) :: r2 ->
  0 < n /\ 0 < t /\ t + n * PAGE_SIZE < 2 ^ 40 /\ n < 2 ^ 28.
Proof.
  intros E. destruct Hinv as [_ _ _ _ _ Hs]. rewrite fmap_app, E in Hs.
  destruct (sep_bounds _ _ _ (t, n) Hs ltac:(set_solver)) as (? & ? & _ & ?).
  destruct (span_small t n); [done..|]. cbn in *. lia.
Qed.

Lemma left_size a t n r1 : l1 = r1 ++ [(a, (t, n))] ->
  0 < n /\ 0 < t /\ t + n * PAGE_SIZE < 2 ^ 40 /\ n < 2 ^ 28.
Proof.
  intros E. destruct Hinv as [_ _ _ _ _ Hs]. rewrite E, !fmap_app in Hs.
  destruct (sep_bounds _ _ _ (t, n) Hs ltac:(set_solver)) as (? & ? & _ & ?).
  destruct (span_small t n); [done..|]. cbn in *. lia.
Qed.

Lemma sep12 : sep (HEAP_START - 1) (l1.*2 ++ l2.*2) HEAP_END.
Proof. rewrite <- fmap_app. apply Hinv. Qed.
Lemma below1 : Forall (fun x => span_end x <= s) l1.*2.
Proof. by apply Forall_fmap. Qed.
Lemma above2 : Forall (fun x : span => s + pages * PSZ <= x.1) l2.*2.
Proof. by apply Forall_fmap. Qed.

Lemma extend_right_spec a t n r2 :
  l2 = (a, (t, n)) :: r2 -> s + pages * PAGE_SIZE = t ->
  (forall x, last l1.*2 = Some x -> span_end x ≠ s) ->
  wp (extend_right a pages) k (fun _ k' => exists l', freed k k' (l1 ++ l2) s pages l').
Proof.
  intros E Et Hl. destruct (right_size _ _ _ _ E) as (? & ? & ? & ?).
  destruct free_bounds as (? & ? & ? & ?).
  pose proof Hinv as [Hd Hc Hb Hlv _ Hsep].
  rewrite E in Hc, Hd, Hb, Hlv. pose proof Hc as (Hz & Ea & _)%chain_mid.
  unfold extend_right. wp1. apply wp_update; [done|by rewrite Ea|]. vms.
  apply wp_update; [done|by vms; apply is_Some_alter; rewrite Ea|]. vms.
  exists (l1 ++ (a, (s, n + pages)) :: r2). split.
  - eexists _, (first_ptr (l1 ++ l2) 0). split_and!.
    + rewrite vm_put, E, <- Hb. reflexivity.
    + apply (chain_set_payload _ _ _ _ (t, n + pages)); [by rewrite fmap_app in * | |].
      * intros q m. unfold set_start. cbn -[PAGE_SIZE wrap]. rewrite u64_pages.
        by rewrite u64_here by lia.
      * apply (chain_set_payload _ _ _ _ (t, n)); [done| |done].
        intros q m. unfold set_size. cbn -[wrap]. by rewrite wrap_small by (unfold in_u; lia).
    + rewrite E, !first_ptr_app, fmap_app. destruct l1 as [|[c w] r1]; cbn; set_solver.
  - by rewrite fmap_app in *.
  - intros b Hb'. rewrite live_put. apply Hlv. by rewrite fmap_app in *.
  - rewrite !fmap_app. cbn [fmap list_fmap snd].
    apply (release_right _ _ _ _ _ _ sep12 Hrel below1 above2 t); [by rewrite E|done|done].
Qed.

Lemma insert_block_spec :
  (forall x, last l1.*2 = Some x -> span_end x ≠ s) ->
  (forall x, head l2.*2 = Some x -> s + pages * PSZ ≠ x.1) -> malloc_quiet k ->
  wp (insert_block (last_ptr 0 l1) (first_ptr l2 0) s pages) k (fun _ k' =>
    exists l', freed k k' (l1 ++ l2) s pages l').
Proof.
  intros N1 N2 Hq. pose proof Hinv as [Hd Hc Hb Hlv _ _].
  unfold insert_block. wp1. apply wp_kmalloc; [done|]. intros a k' Ha Hnew Hlive Ev.
  assert (NoDup (l1 ++ (a, (s, pages)) :: l2).*1) as Hd'.
  { assert (a ∉ (l1 ++ l2).*1) as Hna by (intros Hin; apply Hnew; by apply Hlv).
    rewrite fmap_app in *. apply NoDup_app in Hd as (? & N & ?). apply NoDup_app. cbn.
    split_and!; [done| |apply NoDup_cons; split; [set_solver|done]].
    intros b Hb1 [->|Hb2]%elem_of_cons; [set_solver|by apply (N b Hb1)]. }
  pose proof (chain_link _ _ _ (s, pages) _ Ha Hd' Hc) as Hc'. cbn in Hc'.
  assert (forall b, b ∈ (l1 ++ l2).*1 -> a ≠ b) as Hab
    by (intros b Hb' ->; apply Hnew; by apply Hlv).
  pose proof Hc as [Hc1 Hc2]%chain_app.
  wp1. apply wp_store; [done|]. rewrite Ev. wp1. apply wp_guarded.
  { intros Hz. vms. rewrite lookup_insert_ne; [by apply (chain_last_some _ 0 _ (first_ptr l2 0))|].
    apply Hab. rewrite fmap_app, elem_of_app. left. apply last_ptr_elem. by intros ->. }
  vms. apply wp_guarded.
  { intros Hz. vms. assert (is_Some (<[a := MkBlock s pages (last_ptr 0 l1) (first_ptr l2 0)]>
      (blocks (vm k)) !! first_ptr l2 0)).
    { rewrite lookup_insert_ne; [by apply (chain_first_some _ (last_ptr 0 l1) _ 0)|].
      apply Hab. rewrite fmap_app, elem_of_app. right. apply first_ptr_elem. by intros ->. }
    destruct (_ =? 0); [done|by apply is_Some_alter]. }
  vms. exists (l1 ++ (a, (s, pages)) :: l2). split.
  - eexists _, (blockchain (vm k)). split_and!; [rewrite vm_put; reflexivity|exact Hc'|].
    rewrite Hb, fmap_app. pose proof (first_ptr_elem (l1 ++ l2) 0 Hne) as Hin.
    rewrite fmap_app in Hin. set_solver.
  - done.
  - intros b. rewrite live_put, Hlive. intros Hb'. destruct (decide (b = a)) as [->|Hba]; [set_solver|].
    apply elem_of_union_r, Hlv. rewrite fmap_app in *. set_solver.
  - rewrite !fmap_app. by apply release_insert; [apply sep12| |apply below1|apply above2|..].
Qed.

(** The left block extended, before an attempt to merge it with the right one. *)
Definition grow (pages a : Z) (h : gmap Z free_block) : gmap Z free_block :=
  alter (fun b => set_size (u64 (size b + pages)) b) a h.

Lemma grow_chain h r1 a t n r2 x :
  NoDup (r1 ++ (a, (t, n)) :: r2).*1 -> chain h 0 (r1 ++ (a, (t, n)) :: r2) 0 ->
  in_u 64 (n + x) -> chain (grow x a h) 0 (r1 ++ (a, (t, n + x)) :: r2) 0.
Proof.
  intros Hd Hc Hx. apply (chain_set_payload _ _ _ _ (t, n)); [done| |done].
  intros q m. unfold set_size. cbn -[wrap]. by rewrite wrap_small.
Qed.

(** Absorbing the right block: [left->size += right->size; left->next = right->next; ...] *)
Lemma merge_right_spec k' h r1 a t n b t' n' r2 :
  let l := r1 ++ (a, (t, n)) :: (b, (t', n')) :: r2 in
  NoDup l.*1 -> chain h 0 l 0 -> vm k' = set_blocks h (vm k) -> in_u 64 (n + n') ->
  b ∈ live k' -> free_quiet k' b ->
  wp (let! r := load b in
      update a (fun b => set_size (u64 (size b + size r)) b) ;;;
      update a (set_next (next r)) ;;;
      let! r := load b in
      when (truth (next r)) (update (next r) (set_prev a)) ;;;
      kfree b) k' (fun _ k'' => live k'' = live k' ∖ {[b]} /\ exists h',
    vm k'' = set_blocks h' (vm k) /\ chain h' 0 (r1 ++ (a, (t, n + n')) :: r2) 0).
Proof.
  intros l Hd Hc Ev Hx Hlb Hqb. pose proof (grow_chain _ _ _ _ _ _ _ Hd Hc Hx) as Hc2.
  assert (NoDup ((r1 ++ [(a, (t, n + n'))]) ++ (b, (t', n')) :: r2).*1) as Hd2
    by (rewrite <- app_assoc; unfold l in Hd; by rewrite fmap_app in * ).
  pose proof Hc as (Ha & Ea & _ & Hcr)%chain_mid. destruct Hcr as (Hb & Eb & _).
  assert (a ≠ b) as Hab.
  { intros ->. unfold l in Hd. rewrite fmap_app in Hd.
    apply NoDup_app in Hd as (_ & _ & [Hn _]%NoDup_cons). cbn in Hn. set_solver. }
  change (r1 ++ (a, (t, n + n')) :: (b, (t', n')) :: r2) with
    (r1 ++ [(a, (t, n + n'))] ++ (b, (t', n')) :: r2) in Hc2. rewrite app_assoc in Hc2.
  pose proof (chain_unlink _ _ _ _ _ Hd2 Hc2) as Hun.
  destruct (unlink_self (grow n' a h) _ _ _ _ Hd2 Hb) as [U1 _].
  pose proof Hc2 as (_ & _ & _ & Hr2)%chain_mid.
  rewrite last_ptr_snoc in Hun, U1. cbv zeta in Hun, U1.
  set (h3 := unlink_next a (first_ptr r2 0) (grow n' a h)) in *.
  assert (h3 = alter (set_next (first_ptr r2 0)) a (grow n' a h)) as E3
    by (unfold h3, unlink_next; destruct (Z.eqb_spec a 0); done).
  assert (h3 !! b = h !! b) as Eb3 by (rewrite U1; unfold grow; by apply lookup_alter_ne).
  wp1. eapply wp_load; [done|by rewrite Ev; vms; apply Eb|]. vms.
  wp1. apply wp_update; [done|by rewrite Ev; vms; rewrite Ea|]. rewrite Ev. vms. fold (grow n' a h).
  wp1. apply wp_update; [done|by vms; apply is_Some_alter; rewrite Ea|]. vms. rewrite <- E3.
  wp1. eapply wp_load; [done|by vms; rewrite Eb3; apply Eb|]. vms.
  wp1. apply wp_guarded.
  { intros Hz. vms. rewrite E3. apply is_Some_alter. by apply (chain_first_some _ b _ 0). }
  vms. apply wp_kfree; [by rewrite live_put|by apply free_quiet_put|].
  intros k'' El Ev''. rewrite live_put in El. split; [done|]. eexists.
  rewrite Ev'', vm_put. split; [reflexivity|]. unfold unlink_prev in Hun.
  by rewrite <- app_assoc in Hun.
Qed.

Lemma extend_left_spec a t n r1 :
  l1 = r1 ++ [(a, (t, n))] -> span_end (t, n) = s ->
  (forall b, b ∈ (l1 ++ l2).*1 -> free_quiet k b) ->
  wp (extend_left a (first_ptr l2 0) pages) k (fun _ k' =>
    exists l', freed k k' (l1 ++ l2) s pages l').
Proof.
  intros E Es Hq. destruct (left_size _ _ _ _ E) as (? & ? & ? & ?).
  destruct free_bounds as (? & ? & ? & ?). pose proof Hinv as [Hd Hc Hb Hlv _ _].
  rewrite E, <- app_assoc in Hc, Hd, Hb, Hlv. cbn [app] in *.
  pose proof (grow_chain _ _ _ _ _ _ pages Hd Hc ltac:(unfold in_u; lia)) as Hc1.
  pose proof Hc as (Hz & Ea & _)%chain_mid. pose proof Hc1 as (_ & Ea1 & _ & Hr1)%chain_mid.
  assert (u64 (t + u64 ((n + pages) * PAGE_SIZE)) = s + pages * PSZ) as Ee.
  { unfold span_end, PSZ, PAGE_SIZE in *. cbn [fst snd] in *.
    rewrite (wrap_small 64 ((n + pages) * _)), wrap_small by (unfold in_u; lia). lia. }
  unfold extend_left. wp1. apply wp_update; [done|by rewrite Ea|].
  fold (grow pages a (blocks (vm k))).
  wp1. eapply wp_load; [done|by vms; apply Ea1|]. vms. rewrite Ee. wp1.
  assert ((forall x, head l2.*2 = Some x -> s + pages * PSZ ≠ x.1) ->
    exists l', freed k (put (set_blocks (grow pages a (blocks (vm k))) (vm k)) k)
      (l1 ++ l2) s pages l') as Hnomerge.
  { intros N2. exists (r1 ++ (a, (t, n + pages)) :: l2). split.
    - eexists _, (blockchain (vm k)). split_and!; [rewrite vm_put; reflexivity|done|].
      rewrite Hb. clear. rewrite fmap_app. destruct r1 as [|[??]?]; cbn; set_solver.
    - by rewrite fmap_app in *.
    - intros b Hb'. rewrite live_put. apply Hlv. by rewrite fmap_app in *.
    - rewrite !fmap_app. cbn [fmap list_fmap snd].
      apply (release_left _ _ _ _ _ _ sep12 Hrel above2); [by rewrite E, fmap_app|done|done]. }
  assert (l2 = [] \/ exists b t' n' r2, l2 = (b, (t', n')) :: r2) as [E2|(b & t' & n' & r2 & E2)].
  { clear. destruct l2 as [|[b [t' n']] r2]; [by left|right; eauto]. }
  { replace (first_ptr l2 0) with 0 by (by rewrite E2). apply wp_ret, wp_ret, Hnomerge. by rewrite E2. }
  rewrite E2 in Hr1. pose proof Hr1 as (Hbz & Eb & _). unfold starts_at.
  replace (first_ptr l2 0) with b by (by rewrite E2).
  destruct (Z.eqb_spec b 0); [done|]. wp1. eapply wp_load; [done|by vms; apply Eb|]. wp1. vms.
  apply wp_when; [intros Em%Z.eqb_eq|intros Em%Z.eqb_neq; apply Hnomerge; rewrite E2; by intros x [= <-]].
  destruct (right_size _ _ _ _ E2) as (? & ? & ? & ?).
  rewrite E2 in Hc1, Hd, Hlv. assert (b ∈ (r1 ++ (a, (t, n)) :: (b, (t', n')) :: r2).*1) as Hbin
    by (rewrite fmap_app; set_solver).
  eapply wp_mono; [apply (merge_right_spec _ (grow pages a (blocks (vm k))) r1 a t (n + pages) b t' n' r2)|];
    [by rewrite fmap_app in *|done|by rewrite vm_put|unfold in_u; lia|by rewrite live_put; apply Hlv| |].
  { apply free_quiet_put, Hq. by rewrite E, E2, <- app_assoc. }
  intros [] k2 (El & h' & Ev & Hc2). rewrite live_put in El.
  exists (r1 ++ (a, (t, n + pages + n')) :: r2).
  change (r1 ++ (a, (t, n)) :: (b, (t', n')) :: r2) with
    (r1 ++ [(a, (t, n))] ++ (b, (t', n')) :: r2) in Hd, Hlv. rewrite app_assoc in Hd, Hlv.
  destruct (nodup_mid _ _ _ _ Hd) as [Hd' Hsub].
  assert ((r1 ++ (a, (t, n + pages + n')) :: r2).*1 = ((r1 ++ [(a, (t, n))]) ++ r2).*1) as Ef
    by (rewrite !fmap_app, <- app_assoc; done).
  split.
  - exists h', (blockchain (vm k)). split_and!; [by rewrite Ev|done|].
    rewrite Hb. clear. rewrite fmap_app. destruct r1 as [|[??]?]; cbn; set_solver.
  - by rewrite Ef.
  - rewrite Ef. intros c [Hne' Hin]%Hsub. rewrite El. specialize (Hlv c Hin). clear - Hlv Hne'. set_solver.
  - rewrite !fmap_app. cbn [fmap list_fmap snd].
    apply (release_both _ _ _ _ _ _ sep12 Hrel t n _ t' n');
      [by rewrite E, fmap_app|by rewrite E2|done|done].
Qed.


(** The two adjacency tests. *)
Lemma ends_at_spec : wp (ends_at (last_ptr 0 l1) s) k (fun b k' => k' = k /\
  if b then exists a t n r1, l1 = r1 ++ [(a, (t, n))] /\ span_end (t, n) = s
  else forall x, last l1.*2 = Some x -> span_end x ≠ s).
Proof.
  unfold ends_at. assert (l1 = [] \/ exists r1 a t n, l1 = r1 ++ [(a, (t, n))])
    as [E|(r1 & a & t & n & E)].
  { clear. destruct l1 as [|[a [t n]] r1 _] using rev_ind; [by left|right; eauto]. }
  { rewrite E. by apply wp_ret. }
  destruct (left_size _ _ _ _ E) as (? & ? & ? & ?). pose proof Hinv as [_ Hc _ _ _ _].
  rewrite E, <- app_assoc in Hc. apply chain_mid in Hc as (Hz & Ea & _).
  rewrite E, last_ptr_snoc. destruct (Z.eqb_spec a 0); [done|]. wp1. eapply wp_load; [done..|].
  apply wp_ret. split; [done|]. vms.
  assert (u64 (t + u64 (n * PAGE_SIZE)) = span_end (t, n)) as ->.
  { unfold PAGE_SIZE, span_end, PSZ in *. cbn [fst snd].
    rewrite (wrap_small 64 (n * _)), wrap_small by (unfold in_u; lia). done. }
  destruct (Z.eqb_spec s (span_end (t, n))); [by exists a, t, n, r1|].
  rewrite fmap_app. cbn [fmap list_fmap snd]. rewrite last_snoc. by intros x [= <-].
Qed.

Lemma starts_at_spec :
  wp (starts_at (first_ptr l2 0) (u64 (s + u64 (pages * PAGE_SIZE)))) k (fun b k' => k' = k /\
    if b then exists a t n r2, l2 = (a, (t, n)) :: r2 /\ s + pages * PAGE_SIZE = t
    else forall x, head l2.*2 = Some x -> s + pages * PSZ ≠ x.1).
Proof.
  destruct free_bounds as (? & ? & ? & ?). rewrite u64_pages, wrap_small
    by (unfold in_u, PAGE_SIZE in *; lia). unfold starts_at.
  assert (l2 = [] \/ exists b t' n' r2, l2 = (b, (t', n')) :: r2) as [E|(a & t & n & r2 & E)].
  { clear. destruct l2 as [|[b [t' n']] r2]; [by left|right; eauto]. }
  { rewrite E. by apply wp_ret. }
  pose proof Hinv as [_ Hc _ _ _ _]. rewrite E in Hc. apply chain_mid in Hc as (Hz & Ea & _).
  rewrite E. cbn [first_ptr]. destruct (Z.eqb_spec a 0); [done|]. wp1. eapply wp_load; [done..|].
  apply wp_ret. split; [done|]. vms.
  destruct (Z.eqb_spec (s + pages * PAGE_SIZE) t); [by exists a, t, n, r2|]. by intros x [= <-].
Qed.
End Free.

(** ** The operations as a whole *)
Lemma free_body_spec k l s pages :
  space_inv k l -> l ≠ [] -> releasable (HEAP_START - 1) HEAP_END s pages l.*2 ->
  malloc_quiet k -> (forall a, a ∈ l.*1 -> free_quiet k a) ->
  wp (let! '(left_, right_) := neighbours s in
      let! adjl := ends_at left_ s in
      if adjl then extend_left left_ right_ pages
      else
        let! adjr := starts_at right_ (u64 (s + u64 (pages * PAGE_SIZE))) in
        if adjr then extend_right right_ pages
        else insert_block left_ right_ s pages) k (fun _ k' =>
    exists l', freed k k' l s pages l').
Proof.
  intros Hinv Hne Hrel Hm Hf. pose proof Hinv as [Hd Hc Hb _ _ Hsep].
  destruct (sep_split _ _ _ _ _ Hsep Hrel) as (p1 & p2 & Ep & F1 & F2).
  apply fmap_app_inv in Ep as (l1 & l2 & -> & -> & ->).
  apply (Forall_fmap snd) in F1, F2. rewrite fmap_app in Hrel.
  pose proof (free_bounds _ _ _ _ Hrel) as (? & ? & ? & ?).
  assert (Forall (fun x => x.2.1 < s) l1 /\ Forall (fun x => s < x.2.1) l2) as [G1 G2].
  { rewrite !Forall_forall in *. split; intros [a [t n]] Hx; cbn.
    - pose proof (sep_bounds _ _ _ (t, n) Hsep ltac:(rewrite fmap_app; set_solver)) as (_ & ? & _).
      specialize (F1 _ Hx). unfold span_end, PSZ in F1. cbn in *. lia.
    - specialize (F2 _ Hx). unfold PSZ, PAGE_SIZE in *. cbn in *. lia. }
  wp1. eapply wp_intro; [by apply neighbours_spec|]. cbn beta iota. wp1.
  eapply wp_mono; [by eapply ends_at_spec|]. intros [] k' [-> Hadj].
  - destruct Hadj as (a & t & n & r1 & E & Es). replace (last_ptr 0 l1) with a
      by (by rewrite E, last_ptr_snoc). by eapply extend_left_spec.
  - wp1. eapply wp_mono; [by eapply starts_at_spec|]. intros [] k' [-> Hadj'].
    + destruct Hadj' as (a & t & n & r2 & E & Es). replace (first_ptr l2 0) with a by (by rewrite E).
      by eapply extend_right_spec.
    + by apply insert_block_spec.
Qed.

Lemma vmm_free_pages_spec k l s pages :
  space_inv k l -> releasable (HEAP_START - 1) HEAP_END s pages l.*2 ->
  malloc_quiet k -> (forall a, a ∈ l.*1 -> free_quiet k a) ->
  wp (vmm_free_pages s pages) k (fun _ k' => exists l',
    space_inv k' l' /\ released (HEAP_START - 1) HEAP_END s pages l.*2 l'.*2 /\
    pg (vm k') = pg (vm k) /\
    vlog (vm k') = vlog (vm k) ++
      Log "[VMM] Freed %lu pages at %p\n" [pages; s] :: list_events l'.*2).
Proof.
  intros Hinv Hrel Hm Hf. unfold vmm_free_pages. wp1. apply wp_vgets. wp1.
  assert (forall k' l', freed k k' l s pages l' ->
    wp (vlog1 "[VMM] Freed %lu pages at %p\n" [pages; s] ;;; print_blockchain) k' (fun _ k' =>
      exists l', space_inv k' l' /\ released (HEAP_START - 1) HEAP_END s pages l.*2 l'.*2 /\
      pg (vm k') = pg (vm k) /\ vlog (vm k') = vlog (vm k) ++
        Log "[VMM] Freed %lu pages at %p\n" [pages; s] :: list_events l'.*2)) as Hend.
  { intros k' l' [(h & b & Ev & Hc & Hb) Hd Hl Hr]. wp1. apply wp_vlog. rewrite Ev.
    eapply wp_intro; [apply (print_blockchain_spec l'); [done|by vms|by vms]|].
    exists l'. unfold add_logs. vms. split_and!; [|done|done|by rewrite <- app_assoc].
    split; [done|by vms|by vms|by intros a Ha; rewrite !live_put; auto|by vms; apply Hinv|apply Hr]. }
  pose proof Hinv as [Hd Hc Hb Hl _ Hsep]. rewrite Hb.
  destruct (decide (l = [])) as [->|Hne].
  - cbn [first_ptr Z.eqb]. wp1. apply wp_kmalloc; [done|]. intros a k' Ha Hnew Hlive Ev.
    wp1. apply wp_vmod. apply wp_store; [done|]. rewrite Ev. vms.
    apply (Hend _ [(a, (s, pages))]). split.
    + eexists _, a. split_and!; [by vms|cbn; split_and!; [done| |done]|cbn; set_solver].
      apply lookup_insert_eq.
    + apply NoDup_singleton.
    + intros b. rewrite !live_put, Hlive. cbn. set_solver.
    + apply (release_insert _ _ s pages [] []); [done|done|constructor..|done|done].
  - destruct (Z.eqb_spec (first_ptr l 0) 0) as [E0|_].
    { exfalso. apply (chain_null _ _ _ _ Hc). rewrite <- E0. by apply first_ptr_elem. }
    eapply wp_mono; [by eapply free_body_spec|]. intros [] k' [l' Hfr]. by eapply Hend.
Qed.

Lemma vmm_mmap_none phys pages is_kernel k l :
  space_inv k l -> first_fit pages l.*2 = None ->
  exists e, vmm_mmap phys pages is_kernel k = Some (0, put (add_log e (vm k)) k).
Proof.
  intros Hinv E. pose proof Hinv as [_ Hc Hb _ Hs _].
  unfold vmm_mmap, bind at 1, sgets at 1, gets at 1. fold (vm k). rewrite Hb.
  destruct (Z.eqb_spec (first_ptr l 0) 0) as [E0|_].
  - unfold mmap_no_list, bind, sgets, gets. fold (vm k). rewrite Hs. by eexists.
  - unfold bind, ret. rewrite (mmap_from_list_none _ _ _ _ _ Hinv E). by eexists.
Qed.

Lemma vmm_mmap_some phys pages is_kernel k l s r :
  space_inv k l -> frees_quietly k l pages -> 0 <= pages ->
  first_fit pages l.*2 = Some (s, r) ->
  wp (vmm_mmap phys pages is_kernel) k (fun x k' =>
    x = s /\ exists l', l'.*2 = r /\ mmapped k k' l phys pages s is_kernel l').
Proof.
  intros Hinv Hq Hp E. unfold vmm_mmap. wp1. apply wp_vgets. wp1.
  pose proof Hinv as [_ Hc Hb _ _ _]. rewrite Hb.
  destruct (Z.eqb_spec (first_ptr l 0) 0) as [E0|_].
  - exfalso. apply (chain_null _ _ _ _ Hc). rewrite <- E0. apply first_ptr_elem. by intros ->.
  - apply wp_ret. by apply mmap_from_list_some.
Qed.

End Facts.

End VmmSpace.
