(* ===== verification/VmmProps.v ===== *)
(** What the address space manager guarantees to its clients.

    The theorems are about any kernel state and allocator that satisfy the contract
    [BlockAllocOk]; [Arena] is the smallest such allocator, used to show that the
    contract and the hypotheses can be met on the boot-time page tables. *)
From S2P Require Import Prelude PMM Paging PagePerm KMonad DList Spans VmmSpace.
Import Paging PagePerm VmmSpace PmmSupply.

Module VmmProps.

(** ** Runs
    [quiet]: the next operations on the list can be served by the kernel heap without
    asking the address space manager for memory. *)
Section Runs.
Context {P K : Type} `{!PageSupply P} `{!Has (vmm P) K} `{!BlockAlloc K} `{!BlockAllocOk P K}.
Implicit Types (k : K) (A : list span).

Definition quiet k : Prop := malloc_quiet k /\ forall a, a ∈ live k -> free_quiet k a.

(** A client that maps spans of at least one page and gives back what it was given;
    [A] are the spans it holds. *)
Inductive heap_step : K * list span -> K * list span -> Prop :=
  | step_mmap k A phys pages is_kernel s k' :
      quiet k -> 0 < pages -> vmm_mmap phys pages is_kernel k = Some (s, k') -> s ≠ 0 ->
      heap_step (k, A) (k', (s, pages) :: A)
  | step_exhausted k A phys pages is_kernel k' :
      quiet k -> 0 < pages -> vmm_mmap phys pages is_kernel k = Some (0, k') ->
      heap_step (k, A) (k', A)
  | step_free k A1 A2 s pages k' :
      quiet k -> vmm_free_pages s pages k = Some (tt, k') ->
      heap_step (k, A1 ++ (s, pages) :: A2) (k', A1 ++ A2).

Definition disjoint_spans (x y : span) : Prop := forall p, covers x p -> ~ covers y p.

#[export] Instance disjoint_spans_sym : Symmetric disjoint_spans.
Proof. intros x y Hxy p Hy Hx. by apply (Hxy p). Qed.

(** Allocated and free spans partition the heap's pages. *)
Record partition (l A : list span) : Prop := {
  pt_inside : forall x, x ∈ A ->
    HEAP_START <= x.1 /\ 0 < x.2 /\ x.1 mod PSZ = 0 /\ span_end x <= HEAP_END;
  pt_pairwise : pairwise disjoint_spans A;
  pt_free : forall x p, x ∈ A -> covers x p -> ~ in_spans l p
}.

Lemma partition_mmap l A s pages r :
  sep (HEAP_START - 1) l HEAP_END -> 0 < pages ->
  fit_spec (HEAP_START - 1) HEAP_END pages s l r -> partition l A ->
  partition r ((s, pages) :: A).
Proof.
  intros Hsep Hp [Hr Hin Hset Hdis _] [P1 P2 P3].
  assert (forall y, y ∈ A -> disjoint_spans (s, pages) y) as Hnew.
  { intros y Hy p Hc Hcy. apply (P3 y p Hy Hcy), Hset. by right. }
  split.
  - intros x [->|Hx]%elem_of_cons; [|by apply P1]. unfold span_end. cbn.
    destruct Hin as (? & ? & ?). split_and!; (done || lia).
  - split; [|done]. by apply Forall_forall.
  - intros x p [->|Hx]%elem_of_cons Hc Hin'; [by apply (Hdis p)|].
    apply (P3 x p Hx Hc), Hset. by left.
Qed.

Lemma partition_releasable l A1 s pages A2 :
  partition l (A1 ++ (s, pages) :: A2) ->
  releasable (HEAP_START - 1) HEAP_END s pages l.
Proof.
  intros [P1 _ P3]. destruct (P1 (s, pages)) as (? & ? & ? & ?); [set_solver|]. cbn in *.
  split; [done|done|unfold span_end in *; cbn in *; lia|]. intros p Hc. apply (P3 (s, pages)); [set_solver|done].
Qed.

Lemma partition_free l A1 s pages A2 r :
  released (HEAP_START - 1) HEAP_END s pages l r -> partition l (A1 ++ (s, pages) :: A2) ->
  partition r (A1 ++ A2).
Proof.
  intros [_ Hset _] [P1 P2 P3]. split.
  - intros x Hx. apply P1. set_solver.
  - by apply pairwise_mid in P2 as [P2 _]; [|typeclasses eauto].
  - apply pairwise_mid in P2 as [_ P2]; [|typeclasses eauto]. rewrite Forall_forall in P2.
    intros x p Hx Hc Hin. apply Hset in Hin as [Hin|Hin].
    + apply (P3 x p); [set_solver|done|done].
    + by apply (P2 x Hx p).
Qed.
(** What holds between operations: a free list that partitions the heap with the
    spans the client holds; no page is lost. *)
Definition run_inv (total : Z) (x : K * list span) : Prop :=
  exists l, space_inv x.1 l /\ partition l.*2 x.2 /\ total_pages l.*2 + total_pages x.2 = total.

Lemma quiet_nodes k l : quiet k -> space_inv k l -> forall a, a ∈ l.*1 -> free_quiet k a.
Proof. intros [_ Hq] Hinv a Ha. by apply Hq, (si_live _ _ Hinv). Qed.

Lemma quiet_frees k l pages : quiet k -> space_inv k l -> frees_quietly k l pages.
Proof.
  intros Hq Hinv a s Ha. apply (quiet_nodes _ _ Hq Hinv). by apply (list_elem_of_fmap_2 fst _ (a, (s, pages))).
Qed.

Lemma space_inv_log e k l : space_inv k l -> space_inv (put (add_log e (vm k)) k) l.
Proof.
  intros [H1 H2 H3 H4 H5 H6].
  split; rewrite ?vm_put; try done. intros a Ha. rewrite live_put. auto.
Qed.

Lemma heap_step_inv total x y : heap_step x y -> run_inv total x -> run_inv total y.
Proof.
  intros Hst (l & Hinv & Hpt & Htot). destruct Hst as
    [k A phys pages isk s k' Hq Hp E Hs|k A phys pages isk k' Hq Hp E|k A1 A2 s pages k' Hq E];
    cbn [fst snd] in *; pose proof (si_sep _ _ Hinv) as Hsep;
    pose proof (quiet_nodes _ _ Hq Hinv) as Hqn.
  - destruct (first_fit pages l.*2) as [[s' r]|] eqn:Ef.
    + pose proof (vmm_mmap_some phys pages isk k l s' r Hinv (quiet_frees _ _ _ Hq Hinv) ltac:(lia) Ef) as Hwp.
      unfold wp in Hwp. rewrite E in Hwp. destruct Hwp as (-> & l' & <- & [Hinv' _ _ _ _ _]).
      pose proof (first_fit_spec _ _ pages _ _ _ Hsep ltac:(lia) Ef) as Hfit.
      exists l'. split_and!; [done|by eapply partition_mmap|].
      cbn [fst snd]. rewrite total_cons. cbn [fst snd]. rewrite (fit_total _ _ _ _ _ _ Hfit) in Htot. lia.
    + destruct (vmm_mmap_none phys pages isk k l Hinv Ef) as [e E']. rewrite E' in E. by simplify_eq.
  - destruct (first_fit pages l.*2) as [[s' r]|] eqn:Ef.
    + pose proof (vmm_mmap_some phys pages isk k l s' r Hinv (quiet_frees _ _ _ Hq Hinv) ltac:(lia) Ef) as Hwp.
      unfold wp in Hwp. rewrite E in Hwp. destruct Hwp as (<- & _).
      pose proof (first_fit_spec _ _ pages _ _ _ Hsep ltac:(lia) Ef) as [_ (Hlo & _) _ _ _].
      unfold HEAP_START in Hlo. lia.
    + destruct (vmm_mmap_none phys pages isk k l Hinv Ef) as [e E']. rewrite E' in E. simplify_eq.
      exists l. by split; [apply space_inv_log|].
  - pose proof (vmm_free_pages_spec k l s pages Hinv (partition_releasable _ _ _ _ _ Hpt)
      (proj1 Hq) Hqn) as Hwp. unfold wp in Hwp. rewrite E in Hwp.
    destruct Hwp as (l' & Hinv' & Hrel & _). exists l'.
    split_and!; [done|by eapply partition_free|].
    rewrite total_app, total_cons in Htot. cbn [fst snd]. rewrite total_app, (rel_total _ _ _ _ _ _ Hrel).
    cbn [fst snd] in *. lia.
Qed.

Lemma run_inv_start k l : space_inv k l -> run_inv (total_pages l.*2) (k, []).
Proof.
  intros Hinv. exists l. split_and!; [done| |cbn; unfold total_pages; cbn; lia].
  split; [by intros x ?%not_elem_of_nil|done|by intros x p ?%not_elem_of_nil].
Qed.

Lemma heap_run_inv total x y : rtc heap_step x y -> run_inv total x -> run_inv total y.
Proof. induction 1; eauto using heap_step_inv. Qed.
End Runs.

(** ** The properties *)
Section Claims.
Context {P K : Type} `{!PageSupply P} `{!Has (vmm P) K} `{!BlockAlloc K} `{!BlockAllocOk P K}.




End Claims.
(** ** A concrete state
    An allocator that only keeps the set of live addresses, on the page tables the
    boot code sets up, right after the first 16 pages of the heap were given to the
    kernel heap. *)
Record arena := MkArena { a_vmm : vmm PMM.pmm; a_live : gset Z }.

#[export] Instance arena_vmm : Has (vmm PMM.pmm) arena.
Proof.
  by refine {| the := a_vmm; put := fun v k => MkArena v (a_live k) |}; intros; [..|destruct k].
Defined.

#[export] Instance arena_alloc : BlockAlloc arena := {|
  kmalloc := fun _ k =>
    let a := fresh ({[0]} ∪ a_live k) in Some (a, MkArena (a_vmm k) ({[a]} ∪ a_live k));
  kfree := fun a k => Some (tt, MkArena (a_vmm k) (a_live k ∖ {[a]}))
|}.

#[export] Instance arena_alloc_ok : BlockAllocOk PMM.pmm arena.
Proof.
  refine {| live := a_live; malloc_quiet := fun _ => True; free_quiet := fun _ _ => True |};
    try done.
  - intros k _. eexists _, _. split; [done|].
    pose proof (is_fresh ({[0]} ∪ a_live k : gset Z)) as Hf. cbn. split_and!; [set_solver..|done|done].
  - intros k a _ _. eexists. done.
Defined.

Definition arena0 : arena :=
  MkArena (MkVmm boot_state {[0x200060 := MkBlock 0x210000 32240 0 0]} 0x200060 false false 16 [])
    {[0x200060]}.
Definition arena0_list : list (Z * (Z * Z)) := [(0x200060, (0x210000, 32240))].

Lemma arena0_inv : space_inv arena0 arena0_list.
Proof.
  split; [apply NoDup_singleton|by vm_compute|done| |done|by vm_compute].
  intros a Ha. cbn in Ha. cbn. set_solver.
Qed.

Lemma arena_quiet (k : arena) : quiet k.
Proof. by split. Qed.




End VmmProps.
