(* ===== verification/Liballoc.v ===== *)
(** The kernel heap (ports/liballoc/liballoc_1_1.c): [kmalloc], [kfree], [kcalloc],
    [krealloc].

    Memory comes from the system in major blocks of whole pages; a major starts with
    a [liballoc_major] header and holds minor blocks, each with a [liballoc_minor]
    header before the memory that is handed out.  Both kinds of headers are nodes of
    doubly linked lists.  The headers are kept in maps from addresses to structures,
    the memory handed out in a map from addresses to bytes (unwritten memory reads
    as 0).  The page hooks [liballoc_alloc] and [liballoc_free] are an interface,
    [PageHooks]: in the kernel they are the address space manager's operations. *)
From S2P Require Import Prelude KMonad DList.

Module Liballoc.

(** ** Constants; a [struct liballoc_major] and a [struct liballoc_minor] take 40 bytes. *)
Definition ALIGNMENT : Z := 16.
Definition ALIGN_INFO : Z := 16.
Definition LIBALLOC_MAGIC : Z := 0xc001c0de.
Definition LIBALLOC_DEAD : Z := 0xdeaddead.
Definition l_pageSize : Z := 4096.
Definition l_pageCount : Z := 16.
Definition sizeof_major : Z := 40.
Definition sizeof_minor : Z := 40.

(** ** State *)
Record liballoc_major := MkMajor {
  j_prev : Z; j_next : Z; j_pages : Z; j_size : Z; j_usage : Z; j_first : Z
}.
Record liballoc_minor := MkMinor {
  m_prev : Z; m_next : Z; m_block : Z; m_magic : Z; m_size : Z; m_req_size : Z
}.

Record heap := MkHeap {
  majors : gmap Z liballoc_major;
  minors : gmap Z liballoc_minor;
  bytes : gmap Z Z;
  l_memRoot : Z;
  l_bestBet : Z;
  l_allocated : Z;
  l_inuse : Z;
  l_warningCount : Z;
  l_errorCount : Z;
  l_possibleOverruns : Z
}.

(** The values the globals are initialised with. *)
Definition heap_start : heap := MkHeap ∅ ∅ ∅ 0 0 0 0 0 0 0.

Definition set_j_prev x (j : liballoc_major) :=
  MkMajor x (j_next j) (j_pages j) (j_size j) (j_usage j) (j_first j).
Definition set_j_next x (j : liballoc_major) :=
  MkMajor (j_prev j) x (j_pages j) (j_size j) (j_usage j) (j_first j).
Definition set_j_usage x (j : liballoc_major) :=
  MkMajor (j_prev j) (j_next j) (j_pages j) (j_size j) x (j_first j).
Definition set_j_first x (j : liballoc_major) :=
  MkMajor (j_prev j) (j_next j) (j_pages j) (j_size j) (j_usage j) x.
Definition set_m_prev x (m : liballoc_minor) :=
  MkMinor x (m_next m) (m_block m) (m_magic m) (m_size m) (m_req_size m).
Definition set_m_next x (m : liballoc_minor) :=
  MkMinor (m_prev m) x (m_block m) (m_magic m) (m_size m) (m_req_size m).
Definition set_m_magic x (m : liballoc_minor) :=
  MkMinor (m_prev m) (m_next m) (m_block m) x (m_size m) (m_req_size m).
Definition set_m_req_size x (m : liballoc_minor) :=
  MkMinor (m_prev m) (m_next m) (m_block m) (m_magic m) (m_size m) x.

#[export] Instance major_node : DNode liballoc_major (Z * Z * Z * Z).
Proof.
  by refine {| dn_mk := fun '(pages, size, usage, first) p n => MkMajor p n pages size usage first;
    dn_set_prev := set_j_prev; dn_set_next := set_j_next |}; intros [[[??]?]?].
Defined.
#[export] Instance minor_node : DNode liballoc_minor (Z * Z * Z * Z).
Proof.
  by refine {| dn_mk := fun '(block, magic, size, req) p n => MkMinor p n block magic size req;
    dn_set_prev := set_m_prev; dn_set_next := set_m_next |}; intros [[[??]?]?].
Defined.

Definition set_majors x (h : heap) := MkHeap x (minors h) (bytes h) (l_memRoot h) (l_bestBet h)
  (l_allocated h) (l_inuse h) (l_warningCount h) (l_errorCount h) (l_possibleOverruns h).
Definition set_minors x (h : heap) := MkHeap (majors h) x (bytes h) (l_memRoot h) (l_bestBet h)
  (l_allocated h) (l_inuse h) (l_warningCount h) (l_errorCount h) (l_possibleOverruns h).
Definition set_bytes x (h : heap) := MkHeap (majors h) (minors h) x (l_memRoot h) (l_bestBet h)
  (l_allocated h) (l_inuse h) (l_warningCount h) (l_errorCount h) (l_possibleOverruns h).
Definition set_memRoot x (h : heap) := MkHeap (majors h) (minors h) (bytes h) x (l_bestBet h)
  (l_allocated h) (l_inuse h) (l_warningCount h) (l_errorCount h) (l_possibleOverruns h).
Definition set_bestBet x (h : heap) := MkHeap (majors h) (minors h) (bytes h) (l_memRoot h) x
  (l_allocated h) (l_inuse h) (l_warningCount h) (l_errorCount h) (l_possibleOverruns h).
(** The running totals ([unsigned long long]) and the counters ([long long]). *)
Definition add_allocated x (h : heap) := MkHeap (majors h) (minors h) (bytes h) (l_memRoot h)
  (l_bestBet h) (u64 (l_allocated h + x)) (l_inuse h) (l_warningCount h) (l_errorCount h)
  (l_possibleOverruns h).
Definition add_inuse x (h : heap) := MkHeap (majors h) (minors h) (bytes h) (l_memRoot h)
  (l_bestBet h) (l_allocated h) (u64 (l_inuse h + x)) (l_warningCount h) (l_errorCount h)
  (l_possibleOverruns h).
Definition warn (h : heap) := MkHeap (majors h) (minors h) (bytes h) (l_memRoot h) (l_bestBet h)
  (l_allocated h) (l_inuse h) (s64 (l_warningCount h + 1)) (l_errorCount h) (l_possibleOverruns h).
Definition count_error (overrun : Z) (h : heap) := MkHeap (majors h) (minors h) (bytes h)
  (l_memRoot h) (l_bestBet h) (l_allocated h) (l_inuse h) (l_warningCount h)
  (s64 (l_errorCount h + 1)) (s64 (l_possibleOverruns h + overrun)).

Section Ops.
Context {K : Type} `{!Has heap K}.
Implicit Type (k : K).

Definition hp (k : K) : heap := the k.

(** Access through pointers. *)
Definition loadj (a : Z) : M K liballoc_major := fun k =>
  if a =? 0 then None else
  match majors (hp k) !! a with Some x => Some (x, k) | None => None end.
Definition updj (a : Z) (f : liballoc_major -> liballoc_major) : M K unit := fun k =>
  if a =? 0 then None else
  match majors (hp k) !! a with
  | Some _ => Some (tt, put (set_majors (alter f a (majors (hp k))) (hp k)) k)
  | None => None
  end.
Definition storej (a : Z) (x : liballoc_major) : M K unit := fun k =>
  if a =? 0 then None else Some (tt, put (set_majors (<[a := x]> (majors (hp k))) (hp k)) k).
Definition loadm (a : Z) : M K liballoc_minor := fun k =>
  if a =? 0 then None else
  match minors (hp k) !! a with Some x => Some (x, k) | None => None end.
Definition updm (a : Z) (f : liballoc_minor -> liballoc_minor) : M K unit := fun k =>
  if a =? 0 then None else
  match minors (hp k) !! a with
  | Some _ => Some (tt, put (set_minors (alter f a (minors (hp k))) (hp k)) k)
  | None => None
  end.
Definition storem (a : Z) (x : liballoc_minor) : M K unit := fun k =>
  if a =? 0 then None else Some (tt, put (set_minors (<[a := x]> (minors (hp k))) (hp k)) k).

Definition rdb (h : heap) (a : Z) : Z := default 0 (bytes h !! a).
Definition wrb (a v : Z) (h : heap) : heap := set_bytes (<[a := v]> (bytes h)) h.

(** The page hooks. *)
Class PageHooks := {
  liballoc_alloc : Z -> M K Z;
  liballoc_free : Z -> Z -> M K unit
}.
Context `{!PageHooks}.

(** ** Operations *)

(** The macro [ALIGN(ptr)]: the new value of [ptr]; the distance moved is stored in
    the byte [ALIGN_INFO] before it. *)
Definition ALIGN (ptr : Z) : M K Z :=
  let ptr := u64 (ptr + ALIGN_INFO) in
  let diff := ptr &&& (ALIGNMENT - 1) in
  let '(ptr, diff) :=
    if truth diff then (u64 (ptr + (ALIGNMENT - diff)), ALIGNMENT - diff) else (ptr, diff) in
  smod (wrb (u64 (ptr - ALIGN_INFO)) (u8 (diff + ALIGN_INFO))) ;;;
  ret ptr.

(** The macro [UNALIGN(ptr)]; the byte is a signed [char]. *)
Definition UNALIGN (ptr : Z) : M K Z :=
  let! c := sgets (fun h => rdb h (u64 (ptr - ALIGN_INFO))) in
  let diff := u64 (s8 c) in
  ret (if diff <? ALIGNMENT + ALIGN_INFO then u64 (ptr - diff) else ptr).

Fixpoint memset_loop (n : nat) (i ptr c : Z) (h : heap) : heap :=
  match n with
  | O => h
  | S n' => memset_loop n' (i + 1) ptr c (wrb (u64 (ptr + i)) c h)
  end.
Definition liballoc_memset (s c n : Z) : M K Z :=
  smod (memset_loop (Z.to_nat n) 0 s (u8 c)) ;;; ret s.

(** One [*ldest++ = *lsrc++] of [unsigned int]s. *)
Definition copy_word (ldest lsrc : Z) (h : heap) : heap :=
  let b0 := rdb h lsrc in let b1 := rdb h (u64 (lsrc + 1)) in
  let b2 := rdb h (u64 (lsrc + 2)) in let b3 := rdb h (u64 (lsrc + 3)) in
  wrb (u64 (ldest + 3)) b3 (wrb (u64 (ldest + 2)) b2 (wrb (u64 (ldest + 1)) b1 (wrb ldest b0 h))).
Fixpoint copy_words (n : nat) (ldest lsrc : Z) (h : heap) : heap :=
  match n with
  | O => h
  | S n' => copy_words n' (u64 (ldest + 4)) (u64 (lsrc + 4)) (copy_word ldest lsrc h)
  end.
Fixpoint copy_bytes (n : nat) (cdest csrc : Z) (h : heap) : heap :=
  match n with
  | O => h
  | S n' => copy_bytes n' (u64 (cdest + 1)) (u64 (csrc + 1)) (wrb cdest (rdb h csrc) h)
  end.
Definition liballoc_memcpy (s1 s2 n : Z) : M K Z :=
  smod (fun h =>
    let w := n / 4 in
    copy_bytes (Z.to_nat (n mod 4)) (u64 (s1 + 4 * w)) (u64 (s2 + 4 * w))
      (copy_words (Z.to_nat w) s1 s2 h)) ;;;
  ret s1.

(** The number of pages for a block of [size] bytes, in [unsigned int] arithmetic. *)
Definition pages_for (size : Z) : Z :=
  let st := u32 (size + sizeof_major) in
  let st := u32 (st + sizeof_minor) in
  let st := if st mod l_pageSize =? 0 then st / l_pageSize else u32 (st / l_pageSize + 1) in
  if st <? l_pageCount then l_pageCount else st.

Definition allocate_new_page (size : Z) : M K Z :=
  let st := pages_for (u32 size) in
  let! maj := liballoc_alloc st in
  if maj =? 0 then
    smod warn ;;; ret 0
  else
    storej maj (MkMajor 0 0 st (u32 (st * l_pageSize)) sizeof_major 0) ;;;
    smod (add_allocated (u32 (st * l_pageSize))) ;;;
    ret maj.

(** What the four placements have in common: the accounting, and the pointer that is
    returned for the minor [min] of the major [maj]. *)
Definition hand_out (maj min size : Z) : M K Z :=
  updj maj (fun j => set_j_usage (u32 (j_usage j + u64 (size + sizeof_minor))) j) ;;;
  smod (add_inuse size) ;;;
  ALIGN (u64 (min + sizeof_minor)).

(** CASE 2: a brand new block. *)
Definition place_first (maj size req_size : Z) : M K Z :=
  let first := u64 (maj + sizeof_major) in
  updj maj (set_j_first first) ;;;
  storem first (MkMinor 0 0 maj LIBALLOC_MAGIC (u32 size) (u32 req_size)) ;;;
  hand_out maj first size.

(** CASE 3: space at the start of the block. *)
Definition place_front (maj size req_size : Z) : M K Z :=
  let! j := loadj maj in
  let first := u64 (maj + sizeof_major) in
  updm (j_first j) (set_m_prev first) ;;;
  updj maj (set_j_first first) ;;;
  storem first (MkMinor 0 (j_first j) maj LIBALLOC_MAGIC (u32 size) (u32 req_size)) ;;;
  hand_out maj first size.

(** CASE 4.1: space after the last minor. *)
Definition place_last (maj min size req_size : Z) : M K Z :=
  let! m := loadm min in
  let new_min := u64 (u64 (min + sizeof_minor) + m_size m) in
  updm min (set_m_next new_min) ;;;
  storem new_min (MkMinor min 0 maj LIBALLOC_MAGIC (u32 size) (u32 req_size)) ;;;
  hand_out maj new_min size.

(** CASE 4.2: space between two minors. *)
Definition place_between (maj min size req_size : Z) : M K Z :=
  let! m := loadm min in
  let new_min := u64 (u64 (min + sizeof_minor) + m_size m) in
  storem new_min (MkMinor min (m_next m) maj LIBALLOC_MAGIC (u32 size) (u32 req_size)) ;;;
  updm (m_next m) (set_m_prev new_min) ;;;
  updm min (set_m_next new_min) ;;;
  hand_out maj new_min size.

(** CASE 4: the loop over the minors of a block. *)
Fixpoint search_minors (fuel : nat) (maj min size req_size : Z) : M K (option Z) :=
  match fuel with
  | O => fault
  | S fuel =>
      if min =? 0 then ret None else
      let! m := loadm min in
      let! j := loadj maj in
      if m_next m =? 0 then
        let diff := u64 (u64 (maj + j_size j) - min - sizeof_minor - m_size m) in
        if u64 (size + sizeof_minor) <=? diff
        then let! p := place_last maj min size req_size in ret (Some p)
        else ret None
      else
        let diff := u64 (m_next m - min - sizeof_minor - m_size m) in
        if u64 (size + sizeof_minor) <=? diff
        then let! p := place_between maj min size req_size in ret (Some p)
        else search_minors fuel maj (m_next m) size req_size
  end.

(** CASES 2 to 4 on one major block. *)
Definition search_major (maj size req_size : Z) : M K (option Z) :=
  let! j := loadj maj in
  if j_first j =? 0 then
    let! p := place_first maj size req_size in ret (Some p)
  else
    let diff := u64 (j_first j - maj - sizeof_major) in
    if u64 (size + sizeof_minor) <=? diff
    then let! p := place_front maj size req_size in ret (Some p)
    else
      let! fuel := sgets (fun h => S (base.size (minors h))) in
      search_minors fuel maj (j_first j) size req_size.

(** How an iteration of the outer loop goes on: [continue] or the next iteration at
    a block, [break], or down to the next case at a block. *)
Inductive control := Continue (maj : Z) (startedBet : bool) | Break | Fall (maj : Z).

(** CASES 1 and 5: a new block linked after [maj]. *)
Definition append_major (maj size : Z) : M K Z :=
  let! n := allocate_new_page size in
  updj maj (set_j_next n) ;;;
  if n =? 0 then ret 0
  else updj n (set_j_prev maj) ;;; ret n.

Definition case1 (maj diff size : Z) (startedBet : bool) : M K control :=
  if diff <? u64 (size + sizeof_minor) then
    let! j := loadj maj in
    if truth (j_next j) then ret (Continue (j_next j) startedBet)
    else if startedBet then let! root := sgets l_memRoot in ret (Continue root false)
    else
      let! n := append_major maj size in
      if n =? 0 then ret Break else ret (Fall n)
  else ret (Fall maj).

Definition case5 (maj size : Z) (startedBet : bool) : M K control :=
  let! j := loadj maj in
  if j_next j =? 0 then
    if startedBet then let! root := sgets l_memRoot in ret (Continue root false)
    else
      let! n := append_major maj size in
      if n =? 0 then ret Break else ret (Continue n startedBet)
  else ret (Continue (j_next j) startedBet).

Fixpoint malloc_loop (fuel : nat) (maj : Z) (startedBet : bool) (bestSize size req_size : Z)
  : M K Z :=
  match fuel with
  | O => fault
  | S fuel =>
      if maj =? 0 then ret 0 else
      let! j := loadj maj in
      let diff := u32 (j_size j - j_usage j) in
      when (bestSize <? diff) (smod (set_bestBet maj)) ;;;
      let bestSize := if bestSize <? diff then diff else bestSize in
      let! c := case1 maj diff size startedBet in
      match c with
      | Continue maj sb => malloc_loop fuel maj sb bestSize size req_size
      | Break => ret 0
      | Fall maj =>
          let! r := search_major maj size req_size in
          match r with
          | Some p => ret p
          | None =>
              let! c := case5 maj size startedBet in
              match c with
              | Continue maj sb => malloc_loop fuel maj sb bestSize size req_size
              | _ => ret 0
              end
          end
      end
  end.

(** Every block is visited at most twice, and one new block at most once. *)
Definition malloc_fuel (k : K) : nat := 2 * base.size (majors (hp k)) + 4.

(** [kmalloc] once [size] is not 0. *)
Definition malloc_sized (size req_size : Z) : M K Z :=
  let! root := sgets l_memRoot in
  let! root := (if root =? 0
    then let! r := allocate_new_page size in smod (set_memRoot r) ;;; ret r
    else ret root) in
  if root =? 0 then ret 0 else
  let! best := sgets l_bestBet in
  let! fuel := gets malloc_fuel in
  if best =? 0 then malloc_loop fuel root false 0 size req_size
  else
    let! b := loadj best in
    let bestSize := u32 (j_size b - j_usage b) in
    if u64 (size + sizeof_minor) <? bestSize
    then malloc_loop fuel best true bestSize size req_size
    else malloc_loop fuel root false bestSize size req_size.

Definition kmalloc (req_size : Z) : M K Z :=
  let size := u64 (req_size + (ALIGNMENT + ALIGN_INFO)) in
  if size =? 0 then
    smod warn ;;;
    malloc_sized (u64 (1 + (ALIGNMENT + ALIGN_INFO))) 1
  else malloc_sized size req_size.

(** A magic number of which the low bytes are right. *)
Definition overrun (magic : Z) : bool :=
  (magic &&& 0xFFFFFF =? LIBALLOC_MAGIC &&& 0xFFFFFF) ||
  (magic &&& 0xFFFF =? LIBALLOC_MAGIC &&& 0xFFFF) ||
  (magic &&& 0xFF =? LIBALLOC_MAGIC &&& 0xFF).
Definition bad_magic (magic : Z) : M K unit :=
  smod (count_error (if overrun magic then 1 else 0)).

(** The end of [kfree]: the block [maj] has lost a minor. *)
Definition release_major (maj : Z) : M K unit :=
  let! j := loadj maj in
  if j_first j =? 0 then
    let! root := sgets l_memRoot in
    when (root =? maj) (smod (set_memRoot (j_next j))) ;;;
    let! best := sgets l_bestBet in
    when (best =? maj) (smod (set_bestBet 0)) ;;;
    when (truth (j_prev j)) (updj (j_prev j) (set_j_next (j_next j))) ;;;
    let! j := loadj maj in
    when (truth (j_next j)) (updj (j_next j) (set_j_prev (j_prev j))) ;;;
    let! j := loadj maj in
    smod (add_allocated (- j_size j)) ;;;
    liballoc_free maj (j_pages j)
  else
    let! best := sgets l_bestBet in
    when (truth best) (
      let! b := loadj best in
      let bestSize := s32 (j_size b - j_usage b) in
      let majSize := s32 (j_size j - j_usage j) in
      when (bestSize <? majSize) (smod (set_bestBet maj))).

(** The part of [kfree] that takes the minor [min], with header [m], out of its block. *)
Definition unlink_minor (min : Z) (m : liballoc_minor) : M K unit :=
  let maj := m_block m in
  smod (add_inuse (- m_size m)) ;;;
  updj maj (fun j => set_j_usage (u32 (j_usage j - u64 (m_size m + sizeof_minor))) j) ;;;
  updm min (set_m_magic LIBALLOC_DEAD) ;;;
  when (truth (m_next m)) (updm (m_next m) (set_m_prev (m_prev m))) ;;;
  let! m := loadm min in
  when (truth (m_prev m)) (updm (m_prev m) (set_m_next (m_next m))) ;;;
  let! m := loadm min in
  when (m_prev m =? 0) (updj maj (set_j_first (m_next m))).

Definition kfree (ptr : Z) : M K unit :=
  if ptr =? 0 then smod warn else
  let! ptr := UNALIGN ptr in
  let min := u64 (ptr - sizeof_minor) in
  let! m := loadm min in
  if negb (m_magic m =? LIBALLOC_MAGIC) then bad_magic (m_magic m)
  else
    unlink_minor min m ;;;
    release_major (m_block m).

Definition kcalloc (nobj size : Z) : M K Z :=
  let real_size := u64 (nobj * size) in
  let! p := kmalloc real_size in
  if p =? 0 then ret 0
  else liballoc_memset p 0 real_size ;;; ret p.

Definition krealloc (p size : Z) : M K Z :=
  if size =? 0 then kfree p ;;; ret 0
  else if p =? 0 then kmalloc size
  else
    let! ptr := UNALIGN p in
    let min := u64 (ptr - sizeof_minor) in
    let! m := loadm min in
    if negb (m_magic m =? LIBALLOC_MAGIC) then bad_magic (m_magic m) ;;; ret 0
    else
      let real_size := m_req_size m in
      if size <=? real_size then
        updm min (set_m_req_size (u32 size)) ;;; ret p
      else
        let! ptr := kmalloc size in
        if ptr =? 0 then ret 0
        else
          liballoc_memcpy ptr p real_size ;;;
          kfree p ;;;
          ret ptr.

End Ops.
#[global] Arguments PageHooks : clear implicits.

End Liballoc.
