(* ===== verification/LiballocInv.v ===== *)
(** The kernel heap's invariant and how the steps of [kmalloc] and [kfree] keep it.

    The abstract state of the heap is a list of major blocks, each with the list of
    the minor blocks in it ([amaj]); [heap_ok h L] says that the headers in memory
    describe [L]: both levels are doubly linked lists, minors lie in order inside
    their major without overlapping, the usage counters add up, and the alignment
    byte before every pointer handed out leads back to its header. *)
From S2P Require Import Prelude KMonad DList Liballoc.
Import Liballoc.

Module LiballocInv.

(** ** Abstract state: a minor is its address, size and requested size. *)
Abbreviation amin := (Z * (Z * Z))%type.
Record amaj := AMaj { am_addr : Z; am_pages : Z; am_mins : list amin }.

Definition am_end (x : amaj) : Z := am_addr x + am_pages x * 4096.
Definition min_end (m : amin) : Z := m.1 + 40 + m.2.1.
Lemma min_end_mk a s r : min_end (a, (s, r)) = a + 40 + s.
Proof. done. Qed.
Definition used (ms : list amin) : Z := zsum ((fun m => m.2.1 + 40) <$> ms).

Definition min_node (blk : Z) (m : amin) : Z * (Z * Z * Z * Z) :=
  (m.1, (blk, LIBALLOC_MAGIC, m.2.1, m.2.2)).
Definition min_nodes (blk : Z) (ms : list amin) : list (Z * (Z * Z * Z * Z)) :=
  min_node blk <$> ms.
Definition maj_node (x : amaj) : Z * (Z * Z * Z * Z) :=
  (am_addr x, (am_pages x, am_pages x * 4096, 40 + used (am_mins x), first_ptr (am_mins x) 0)).

(** Minors in order inside [lo, hi), each with room for its request and its alignment. *)
Fixpoint layout (lo : Z) (ms : list amin) (hi : Z) : Prop :=
  match ms with
  | [] => lo <= hi
  | m :: r => lo <= m.1 /\ 0 <= m.2.2 /\ m.2.2 + 32 <= m.2.1 /\ layout (min_end m) r hi
  end.

Definition apart (x y : amaj) : Prop := am_end x <= am_addr y \/ am_end y <= am_addr x.
#[export] Instance apart_sym : Symmetric apart.
Proof. unfold apart. intros x y. tauto. Qed.

(** The pointer [ALIGN] makes of the address [b]. *)
Definition aligned (b : Z) : Z :=
  let d := (b + 16) mod 16 in if d =? 0 then b + 16 else b + 32 - d.

Record major_ok (x : amaj) : Prop := {
  mo_addr : 0 < am_addr x;
  mo_pages : 0 < am_pages x < 2 ^ 20;
  mo_end : am_end x <= 2 ^ 47;
  mo_layout : layout (am_addr x + 40) (am_mins x) (am_end x)
}.

Record heap_ok (h : heap) (L : list amaj) : Prop := {
  hk_majors : chain (majors h) 0 (maj_node <$> L) 0;
  hk_minors : forall x, x ∈ L -> chain (minors h) 0 (min_nodes (am_addr x) (am_mins x)) 0;
  hk_ok : forall x, x ∈ L -> major_ok x;
  hk_apart : pairwise apart L;
  hk_root : l_memRoot h = first_ptr (maj_node <$> L) 0;
  hk_best : l_bestBet h = 0 \/ exists x, x ∈ L /\ l_bestBet h = am_addr x;
  hk_bytes : forall x m, x ∈ L -> m ∈ am_mins x ->
    rdb h (aligned (m.1 + 40) - 16) = aligned (m.1 + 40) - (m.1 + 40)
}.

(** ** Layout *)
Lemma aligned_spec b : b + 16 <= aligned b <= b + 31 /\ aligned b mod 16 = 0.
Proof.
  unfold aligned. pose proof (Z.mod_pos_bound (b + 16) 16 ltac:(lia)).
  destruct (Z.eqb_spec ((b + 16) mod 16) 0) as [E|E]; [split; [lia|done]|]. split; [lia|].
  pose proof (Z.div_mod (b + 16) 16 ltac:(lia)) as Hd.
  replace (b + 32 - (b + 16) mod 16) with (((b + 16) / 16 + 1) * 16) by lia.
  apply Z.mod_mul. lia.
Qed.

Lemma used_app a b : used (a ++ b) = used a + used b.
Proof. unfold used. by rewrite fmap_app, zsum_app. Qed.
Lemma used_cons m b : used (m :: b) = m.2.1 + 40 + used b.
Proof. done. Qed.

Lemma layout_used lo ms hi : layout lo ms hi -> 0 <= used ms.
Proof.
  revert lo. induction ms as [|m r IH]; intros lo; simpl; [unfold used; simpl; lia|].
  rewrite used_cons. intros (? & ? & ? & Hr). specialize (IH _ Hr). lia.
Qed.

Lemma layout_bounds lo ms hi : layout lo ms hi ->
  lo + used ms <= hi /\ forall m, m ∈ ms -> lo <= m.1 /\ min_end m <= hi /\ 0 <= m.2.2 /\ m.2.2 + 32 <= m.2.1.
Proof.
  revert lo. induction ms as [|m r IH]; intros lo; simpl.
  { unfold used. simpl. split; [lia|]. by intros m ?%not_elem_of_nil. }
  intros (H1 & H2 & H3 & Hr). destruct (IH _ Hr) as [H4 H5]. rewrite used_cons.
  unfold min_end in *. split; [lia|].
  intros m' [->|Hm]%elem_of_cons.
  - pose proof (layout_used _ _ _ Hr). split_and!; lia.
  - destruct (H5 m' Hm) as (? & ? & ?). split_and!; lia.
Qed.

Lemma layout_app lo a b hi :
  layout lo (a ++ b) hi <->
  layout lo a (match last a with Some m => min_end m | None => lo end) /\
  layout (match last a with Some m => min_end m | None => lo end) b hi.
Proof.
  revert lo. induction a as [|m a IH]; intros lo; simpl; [intuition lia|].
  rewrite IH. rewrite last_cons. destruct (last a) as [m'|]; tauto.
Qed.

(** Two minors of a block do not overlap. *)
Lemma layout_apart lo ms hi m m' :
  layout lo ms hi -> m ∈ ms -> m' ∈ ms -> m = m' \/ min_end m <= m'.1 \/ min_end m' <= m.1.
Proof.
  revert lo. induction ms as [|m0 r IH]; intros lo; simpl; [by intros _ ?%not_elem_of_nil|].
  intros (H1 & H2 & H3 & Hr) [->|Hm]%elem_of_cons [->|Hm']%elem_of_cons; [by left| | |by eapply IH].
  - destruct (layout_bounds _ _ _ Hr) as [_ Hb]. destruct (Hb _ Hm'). auto.
  - destruct (layout_bounds _ _ _ Hr) as [_ Hb]. destruct (Hb _ Hm). auto.
Qed.

Lemma layout_nodup lo ms hi : layout lo ms hi -> NoDup ms.*1.
Proof.
  revert lo. induction ms as [|m r IH]; intros lo; simpl; [constructor|].
  intros (H1 & H2 & H3 & Hr). apply NoDup_cons. split; [|by eapply IH].
  intros (m' & E & Hm')%list_elem_of_fmap. destruct (layout_bounds _ _ _ Hr) as [_ Hb].
  destruct (Hb _ Hm'). unfold min_end in *. lia.
Qed.

Lemma min_nodes_fst blk ms : (min_nodes blk ms).*1 = ms.*1.
Proof. unfold min_nodes. rewrite <- list_fmap_compose. done. Qed.
Lemma min_nodes_app blk a b : min_nodes blk (a ++ b) = min_nodes blk a ++ min_nodes blk b.
Proof. apply fmap_app. Qed.
Lemma min_nodes_cons blk m b :
  min_nodes blk (m :: b) = (m.1, (min_node blk m).2) :: min_nodes blk b.
Proof. done. Qed.
Lemma min_nodes_first blk ms n : first_ptr (min_nodes blk ms) n = first_ptr ms n.
Proof. by destruct ms as [|[??]]. Qed.
Lemma min_nodes_last blk ms p : last_ptr p (min_nodes blk ms) = last_ptr p ms.
Proof. unfold last_ptr, min_nodes. rewrite fmap_last. by destruct (last ms) as [[??]|]. Qed.

Section Heap.
Context (h : heap) (L : list amaj).
Hypothesis Hok : heap_ok h L.

Lemma major_bounds x : x ∈ L -> 0 < am_addr x /\ am_addr x + 4096 <= am_end x /\ am_end x <= 2 ^ 47.
Proof. intros Hx. destruct (hk_ok _ _ Hok x Hx) as [? ? ? _]. unfold am_end in *. lia. Qed.

Lemma minor_bounds x m : x ∈ L -> m ∈ am_mins x ->
  am_addr x + 40 <= m.1 /\ min_end m <= am_end x /\ 0 <= m.2.2 /\ m.2.2 + 32 <= m.2.1.
Proof.
  intros Hx Hm. destruct (hk_ok _ _ Hok x Hx) as [_ _ _ Hl].
  by destruct (layout_bounds _ _ _ Hl) as [_ Hb]; apply Hb.
Qed.

(** Blocks are told apart by any address in them. *)
Lemma major_unique x y a :
  x ∈ L -> y ∈ L -> am_addr x <= a < am_end x -> am_addr y <= a < am_end y -> x = y.
Proof.
  intros Hx Hy Ha Hb. destruct (pairwise_elem apart L x y) as [|Hap]; [apply Hok|done..|].
  unfold apart in Hap. lia.
Qed.

Lemma minor_apart x y m m' :
  x ∈ L -> y ∈ L -> m ∈ am_mins x -> m' ∈ am_mins y ->
  (x = y /\ m = m') \/ min_end m <= m'.1 \/ min_end m' <= m.1.
Proof.
  intros Hx Hy Hm Hm'. destruct (minor_bounds x m Hx Hm) as (? & ? & ?).
  destruct (minor_bounds y m' Hy Hm') as (? & ? & ?).
  destruct (pairwise_elem apart L x y) as [->|Hap]; [apply Hok|done..| |].
  - destruct (hk_ok _ _ Hok y Hy) as [_ _ _ Hl].
    destruct (layout_apart _ _ _ _ _ Hl Hm Hm') as [->|?]; auto.
  - right. unfold apart in Hap. unfold min_end in *. lia.
Qed.

Lemma major_nodup : NoDup (maj_node <$> L).*1.
Proof.
  rewrite <- list_fmap_compose. destruct Hok as [_ _ Hb Hp _ _ _]. clear Hok.
  induction L as [|x r IH]; [constructor|]. destruct Hp as [Hx Hp]. apply NoDup_cons. split.
  - intros (y & E & Hy)%list_elem_of_fmap. cbn in E. rewrite Forall_forall in Hx.
    specialize (Hx y Hy). destruct (Hb x ltac:(set_solver)) as [? ? _ _].
    destruct (Hb y ltac:(set_solver)) as [? ? _ _]. unfold apart, am_end in *. lia.
  - apply IH; [set_solver|done].
Qed.
End Heap.

(** ** Placing a minor
    The effect of the four placements: the new header is linked between its
    neighbours, the block's counters are updated, the alignment byte is written. *)
Definition with_mins (x : amaj) (ms : list amin) : amaj := AMaj (am_addr x) (am_pages x) ms.

Record placed_in (h h' : heap) (x : amaj) (a : list amin) (m : amin) (b : list amin) : Prop := {
  pi_majors : exists f, majors h' = alter f (am_addr x) (majors h) /\
    forall q n, f (dn_mk (maj_node x).2 q n) = dn_mk (maj_node (with_mins x (a ++ m :: b))).2 q n;
  pi_minors : minors h' = link_prev m.1 (first_ptr b 0) (link_next m.1 (last_ptr 0 a)
    (<[m.1 := dn_mk (min_node (am_addr x) m).2 (last_ptr 0 a) (first_ptr b 0)]> (minors h)));
  pi_bytes : bytes h' = <[aligned (m.1 + 40) - 16 := aligned (m.1 + 40) - (m.1 + 40)]> (bytes h);
  pi_root : l_memRoot h' = l_memRoot h;
  pi_best : l_bestBet h' = l_bestBet h
}.

Lemma link_frame {T V} `{!DNode T V} (hp : gmap Z T) a p n b :
  b ≠ a -> b ≠ p -> b ≠ n -> forall v, link_prev a n (link_next a p (<[a := v]> hp)) !! b = hp !! b.
Proof.
  intros ??? v. unfold link_prev, link_next. destruct (n =? 0), (p =? 0);
    rewrite ?lookup_alter_ne by done; by rewrite lookup_insert_ne by done.
Qed.

Lemma last_ptr_in (a : list amin) : a ≠ [] -> exists m, m ∈ a /\ last_ptr 0 a = m.1.
Proof.
  destruct a as [|m a _] using rev_ind; [done|]. exists m. split; [set_solver|].
  destruct m. by rewrite last_ptr_snoc.
Qed.
Lemma first_ptr_in (a : list amin) : a ≠ [] -> exists m, m ∈ a /\ first_ptr a 0 = m.1.
Proof. destruct a as [|m a]; [done|]. exists m. split; [set_solver|]. by destruct m. Qed.

(** Minors of different blocks have different addresses. *)
Lemma mins_disjoint h L1 x L2 y m1 m2 :
  heap_ok h (L1 ++ x :: L2) -> y ∈ L1 ++ L2 -> m1 ∈ am_mins y -> m2 ∈ am_mins x -> m1.1 ≠ m2.1.
Proof.
  intros Hok Hy Hm1 Hm2 E. assert (y ∈ L1 ++ x :: L2) as Hy' by set_solver.
  assert (x ∈ L1 ++ x :: L2) as Hx by set_solver.
  destruct (minor_bounds _ _ Hok x m2 Hx Hm2) as (? & ? & ? & ?).
  destruct (minor_bounds _ _ Hok y m1 Hy' Hm1) as (? & ? & ? & ?). unfold min_end in *.
  assert (x = y) as Exy by (apply (major_unique _ _ Hok x y m2.1); [done|done|lia|lia]).
  pose proof (hk_apart _ _ Hok) as Hp. apply pairwise_mid in Hp as [_ Hp]; [|apply _].
  rewrite Forall_forall in Hp. specialize (Hp y Hy). rewrite Exy in Hp.
  pose proof (major_bounds _ _ Hok y Hy'). unfold apart in Hp. lia.
Qed.

Section Place.
Context (h h' : heap) (L1 L2 : list amaj) (x : amaj) (a b : list amin) (m : amin).
Hypothesis Hok : heap_ok h (L1 ++ x :: L2).
Hypothesis Hms : am_mins x = a ++ b.
Hypothesis Hlay : layout (am_addr x + 40) (a ++ m :: b) (am_end x).
Hypothesis Hpl : placed_in h h' x a m b.

Let x' := with_mins x (a ++ m :: b).

Lemma in_x : x ∈ L1 ++ x :: L2.
Proof. set_solver. Qed.

Lemma new_bounds : am_addr x + 40 <= m.1 /\ min_end m <= am_end x /\ 0 <= m.2.2 /\ m.2.2 + 32 <= m.2.1.
Proof. destruct (layout_bounds _ _ _ Hlay) as [_ Hb]. apply Hb. set_solver. Qed.

(** The new minor is apart from all the others. *)
Lemma new_apart y m' : y ∈ L1 ++ x :: L2 -> m' ∈ am_mins y ->
  min_end m <= m'.1 \/ min_end m' <= m.1.
Proof.
  intros Hy Hm'. destruct new_bounds as (? & ? & ? & ?).
  destruct (pairwise_elem apart _ x y (hk_apart _ _ Hok) in_x Hy) as [<-|Hap].
  - rewrite Hms in Hm'. destruct (layout_apart _ _ _ m m' Hlay) as [E|]; [set_solver..| |done].
    subst m'. exfalso. pose proof (layout_nodup _ _ _ Hlay) as Hd. rewrite fmap_app in Hd.
    apply NoDup_app in Hd as (_ & N1 & [N2 _]%NoDup_cons).
    apply elem_of_app in Hm' as [Hm'|Hm'].
    + apply (N1 m.1); [by apply list_elem_of_fmap_2|set_solver].
    + apply N2. by apply list_elem_of_fmap_2.
  - destruct (minor_bounds _ _ Hok y m' Hy Hm') as (? & ? & ? & ?). unfold apart, min_end in *. lia.
Qed.

Lemma minor_addr_ne y m' : y ∈ L1 ++ x :: L2 -> m' ∈ am_mins y -> m'.1 ≠ m.1.
Proof.
  intros Hy Hm'. destruct new_bounds as (? & ? & ? & ?).
  destruct (minor_bounds _ _ Hok y m' Hy Hm') as (? & ? & ? & ?).
  destruct (new_apart y m' Hy Hm'); unfold min_end in *; lia.
Qed.

Lemma place_minors_other y : y ∈ L1 ++ L2 ->
  chain (minors h') 0 (min_nodes (am_addr y) (am_mins y)) 0.
Proof.
  intros Hy. assert (y ∈ L1 ++ x :: L2) as Hy' by set_solver.
  apply (chain_frame (minors h)); [|by apply Hok]. rewrite min_nodes_fst.
  intros c (m' & -> & Hm')%list_elem_of_fmap. rewrite (pi_minors _ _ _ _ _ _ Hpl).
  assert (forall m2, m2 ∈ am_mins x -> m'.1 ≠ m2.1) as Hne by (intros; by eapply mins_disjoint).
  destruct (minor_bounds _ _ Hok y m' Hy' Hm') as (? & ? & ? & ?).
  pose proof (major_bounds _ _ Hok y Hy').
  apply link_frame; [by apply (minor_addr_ne y)| |].
  - destruct (decide (a = [])) as [->|Ha]; [cbn; lia|].
    destruct (last_ptr_in a Ha) as (m2 & Hm2 & ->). apply Hne. rewrite Hms. set_solver.
  - destruct (decide (b = [])) as [->|Hb]; [cbn; lia|].
    destruct (first_ptr_in b Hb) as (m2 & Hm2 & ->). apply Hne. rewrite Hms. set_solver.
Qed.

Lemma place_minors_self : chain (minors h') 0 (min_nodes (am_addr x) (a ++ m :: b)) 0.
Proof.
  rewrite (pi_minors _ _ _ _ _ _ Hpl). destruct new_bounds as (? & _).
  pose proof (major_bounds _ _ Hok x in_x).
  pose proof (chain_link (minors h) (min_nodes (am_addr x) a) m.1 (min_node (am_addr x) m).2
    (min_nodes (am_addr x) b)) as Hlink. cbv zeta in Hlink.
  rewrite min_nodes_last, min_nodes_first in Hlink.
  rewrite min_nodes_app. cbn [min_nodes fmap list_fmap]. apply Hlink.
  - lia.
  - pose proof (layout_nodup _ _ _ Hlay) as Hd. rewrite fmap_app in Hd. rewrite fmap_app. cbn [fmap list_fmap].
    by rewrite !min_nodes_fst.
  - rewrite <- min_nodes_app, <- Hms. by apply Hok, in_x.
Qed.

Lemma place_majors : chain (majors h') 0 (maj_node <$> L1 ++ x' :: L2) 0.
Proof.
  destruct (pi_majors _ _ _ _ _ _ Hpl) as (f & -> & Hf).
  pose proof (major_nodup _ _ Hok) as Hd. pose proof (hk_majors _ _ Hok) as Hc.
  rewrite fmap_app in Hc, Hd |- *. cbn [fmap list_fmap] in Hc, Hd |- *.
  apply (chain_set_payload _ _ _ _ (maj_node x).2); [done|exact Hf|done].
Qed.

Lemma place_bytes y m' : y ∈ L1 ++ x' :: L2 -> m' ∈ am_mins y ->
  rdb h' (aligned (m'.1 + 40) - 16) = aligned (m'.1 + 40) - (m'.1 + 40).
Proof.
  intros Hy Hm'. unfold rdb. rewrite (pi_bytes _ _ _ _ _ _ Hpl).
  destruct (decide (m' = m)) as [->|Hne]; [by rewrite lookup_insert_eq|].
  assert (exists y0, y0 ∈ L1 ++ x :: L2 /\ m' ∈ am_mins y0) as (y0 & Hy0 & Hm0).
  { apply elem_of_app in Hy as [Hy|[->|Hy]%elem_of_cons]; [exists y; set_solver| |exists y; set_solver].
    exists x. split; [apply in_x|]. rewrite Hms. cbn in Hm'. set_solver. }
  destruct (minor_bounds _ _ Hok y0 m' Hy0 Hm0) as (? & ? & ? & ?).
  destruct new_bounds as (? & ? & ? & ?).
  pose proof (aligned_spec (m'.1 + 40)) as [? _]. pose proof (aligned_spec (m.1 + 40)) as [? _].
  rewrite lookup_insert_ne; [by apply (hk_bytes _ _ Hok y0)|].
  destruct (new_apart y0 m' Hy0 Hm0); unfold min_end in *; lia.
Qed.

Lemma place_ok : heap_ok h' (L1 ++ x' :: L2).
Proof.
  pose proof Hok as [H1 H2 H3 H4 H5 H6 H7]. split.
  - apply place_majors.
  - intros y Hy. apply elem_of_app in Hy as [Hy|[->|Hy]%elem_of_cons];
      [by apply place_minors_other; set_solver|apply place_minors_self
      |by apply place_minors_other; set_solver].
  - intros y Hy. apply elem_of_app in Hy as [Hy|[->|Hy]%elem_of_cons]; [apply H3; set_solver| |apply H3; set_solver].
    destruct (H3 x in_x) as [? ? ? _]. by split.
  - apply pairwise_mid in H4 as [Hp Hf]; [|apply _]. by apply pairwise_mid; [apply _|].
  - rewrite (pi_root _ _ _ _ _ _ Hpl), H5. rewrite !fmap_app. by destruct L1.
  - rewrite (pi_best _ _ _ _ _ _ Hpl). destruct H6 as [?|(y & Hy & E)]; [by left|right].
    apply elem_of_app in Hy as [Hy|[->|Hy]%elem_of_cons]; [exists y; set_solver| |exists y; set_solver].
    exists x'. split; [set_solver|done].
  - apply place_bytes.
Qed.
End Place.
(** ** Removing a minor *)
Record removed_from (h h' : heap) (x : amaj) (a : list amin) (m : amin) (b : list amin) : Prop := {
  rf_majors : exists f, majors h' = alter f (am_addr x) (majors h) /\
    forall q n, f (dn_mk (maj_node x).2 q n) = dn_mk (maj_node (with_mins x (a ++ b))).2 q n;
  rf_minors : minors h' = unlink_prev (last_ptr 0 a) (first_ptr b 0)
    (unlink_next (last_ptr 0 a) (first_ptr b 0)
      (alter (set_m_magic LIBALLOC_DEAD) m.1 (minors h)));
  rf_bytes : bytes h' = bytes h;
  rf_root : l_memRoot h' = l_memRoot h;
  rf_best : l_bestBet h' = l_bestBet h
}.

Lemma unlink_frame {T V} `{!DNode T V} (hp : gmap Z T) p n b :
  b ≠ p -> b ≠ n -> unlink_prev p n (unlink_next p n hp) !! b = hp !! b.
Proof.
  intros ??. unfold unlink_prev, unlink_next. destruct (n =? 0), (p =? 0);
    by rewrite ?lookup_alter_ne by done.
Qed.

Section Remove.
Context (h h' : heap) (L1 L2 : list amaj) (x : amaj) (a b : list amin) (m : amin).
Hypothesis Hok : heap_ok h (L1 ++ x :: L2).
Hypothesis Hms : am_mins x = a ++ m :: b.
Hypothesis Hrf : removed_from h h' x a m b.

Lemma remove_minors_other y : y ∈ L1 ++ L2 ->
  chain (minors h') 0 (min_nodes (am_addr y) (am_mins y)) 0.
Proof.
  intros Hy. assert (y ∈ L1 ++ x :: L2) as Hy' by set_solver.
  apply (chain_frame (minors h)); [|by apply Hok]. rewrite min_nodes_fst.
  intros c (m' & -> & Hm')%list_elem_of_fmap. rewrite (rf_minors _ _ _ _ _ _ Hrf).
  assert (forall m2, m2 ∈ am_mins x -> m'.1 ≠ m2.1) as Hne by (intros; by eapply mins_disjoint).
  destruct (minor_bounds _ _ Hok y m' Hy' Hm') as (? & ? & ? & ?).
  pose proof (major_bounds _ _ Hok y Hy'). rewrite Hms in Hne. rewrite unlink_frame.
  - apply lookup_alter_ne. intros E. by apply (Hne m); [set_solver|].
  - destruct (decide (a = [])) as [->|Ha]; [cbn; lia|].
    destruct (last_ptr_in a Ha) as (m2 & Hm2 & ->). apply Hne. set_solver.
  - destruct (decide (b = [])) as [->|Hb]; [cbn; lia|].
    destruct (first_ptr_in b Hb) as (m2 & Hm2 & ->). apply Hne. set_solver.
Qed.

Lemma remove_minors_self : chain (minors h') 0 (min_nodes (am_addr x) (a ++ b)) 0.
Proof.
  rewrite (rf_minors _ _ _ _ _ _ Hrf).
  pose proof (hk_minors _ _ Hok x ltac:(set_solver)) as Hc.
  destruct (hk_ok _ _ Hok x ltac:(set_solver)) as [_ _ _ Hl]. apply layout_nodup in Hl.
  rewrite Hms in Hc, Hl. rewrite min_nodes_app, min_nodes_cons in Hc.
  assert (NoDup (min_nodes (am_addr x) a ++ (m.1, (min_node (am_addr x) m).2) :: min_nodes (am_addr x) b).*1) as Hd.
  { rewrite fmap_app. cbn [fmap list_fmap fst]. rewrite !min_nodes_fst. by rewrite fmap_app in Hl. }
  pose proof (chain_set_payload _ _ _ _ _ (am_addr x, LIBALLOC_DEAD, m.2.1, m.2.2) _ _
    (set_m_magic LIBALLOC_DEAD) Hd ltac:(done) Hc) as Hc'.
  assert (NoDup (min_nodes (am_addr x) a ++ (m.1, (am_addr x, LIBALLOC_DEAD, m.2.1, m.2.2)) ::
    min_nodes (am_addr x) b).*1) as Hd' by (by rewrite fmap_app in * ).
  pose proof (chain_unlink _ _ _ _ _ Hd' Hc') as Hu. cbv zeta in Hu.
  rewrite min_nodes_last, min_nodes_first in Hu. by rewrite min_nodes_app.
Qed.

Lemma layout_remove lo hi : layout lo (a ++ m :: b) hi -> layout lo (a ++ b) hi.
Proof.
  clear. rewrite !layout_app. intros [H1 H2]. split; [done|]. destruct H2 as (? & ? & ? & H2).
  destruct b as [|m' b']; simpl in *; unfold min_end in *; [lia|].
  destruct H2 as (? & ? & ? & ?). split_and!; (done || lia).
Qed.

Lemma remove_ok : heap_ok h' (L1 ++ with_mins x (a ++ b) :: L2).
Proof.
  pose proof Hok as [H1 H2 H3 H4 H5 H6 H7]. pose proof (major_nodup _ _ Hok) as Hd. split.
  - destruct (rf_majors _ _ _ _ _ _ Hrf) as (f & -> & Hf).
    rewrite fmap_app in H1, Hd |- *. cbn [fmap list_fmap] in H1, Hd |- *.
    apply (chain_set_payload _ _ _ _ (maj_node x).2); [done|exact Hf|done].
  - intros y Hy. apply elem_of_app in Hy as [Hy|[->|Hy]%elem_of_cons];
      [by apply remove_minors_other; set_solver|apply remove_minors_self
      |by apply remove_minors_other; set_solver].
  - intros y Hy. apply elem_of_app in Hy as [Hy|[->|Hy]%elem_of_cons]; [apply H3; set_solver| |apply H3; set_solver].
    destruct (H3 x ltac:(set_solver)) as [? ? ? Hl]. split; [done..|]. rewrite Hms in Hl.
    by apply layout_remove in Hl.
  - apply pairwise_mid in H4 as [Hp Hf]; [|apply _]. by apply pairwise_mid; [apply _|].
  - rewrite (rf_root _ _ _ _ _ _ Hrf), H5. rewrite !fmap_app. by destruct L1.
  - rewrite (rf_best _ _ _ _ _ _ Hrf). destruct H6 as [?|(y & Hy & E)]; [by left|right].
    apply elem_of_app in Hy as [Hy|[->|Hy]%elem_of_cons]; [exists y; set_solver| |exists y; set_solver].
    exists (with_mins x (a ++ b)). split; [set_solver|done].
  - intros y m' Hy Hm'. unfold rdb. rewrite (rf_bytes _ _ _ _ _ _ Hrf).
    assert (exists y0, y0 ∈ L1 ++ x :: L2 /\ m' ∈ am_mins y0) as (y0 & Hy0 & Hm0).
    { apply elem_of_app in Hy as [Hy|[->|Hy]%elem_of_cons]; [exists y; set_solver| |exists y; set_solver].
      exists x. split; [set_solver|]. rewrite Hms. cbn in Hm'. set_solver. }
    by apply (H7 y0).
Qed.
End Remove.

(** Removing an empty block. *)
Record dropped (h h' : heap) (L1 : list amaj) (x : amaj) (L2 : list amaj) : Prop := {
  dr_majors : let p := last_ptr 0 (maj_node <$> L1) in let n := first_ptr (maj_node <$> L2) 0 in
    majors h' = unlink_prev p n (unlink_next p n (majors h));
  dr_minors : minors h' = minors h;
  dr_bytes : bytes h' = bytes h;
  dr_root : l_memRoot h' =
    if l_memRoot h =? am_addr x then first_ptr (maj_node <$> L2) 0 else l_memRoot h;
  dr_best : l_bestBet h' = if l_bestBet h =? am_addr x then 0 else l_bestBet h
}.

Lemma drop_ok h h' L1 x L2 :
  heap_ok h (L1 ++ x :: L2) -> dropped h h' L1 x L2 -> heap_ok h' (L1 ++ L2).
Proof.
  intros Hok [E1 E2 E3 E4 E5]. pose proof (major_nodup _ _ Hok) as Hd.
  pose proof Hok as [H1 H2 H3 H4 H5 H6 H7]. split.
  - rewrite E1. rewrite fmap_app in H1, Hd |- *. cbn [fmap list_fmap] in H1, Hd.
    by apply (chain_unlink _ _ (am_addr x) (maj_node x).2).
  - intros y Hy. rewrite E2. apply H2. set_solver.
  - intros y Hy. apply H3. set_solver.
  - by apply pairwise_mid in H4 as [Hp _]; [|apply _].
  - rewrite E4, H5. destruct L1 as [|x1 L1].
    + cbn [app fmap list_fmap first_ptr]. unfold maj_node at 1. by rewrite Z.eqb_refl.
    + change (first_ptr (maj_node <$> (x1 :: L1) ++ x :: L2) 0) with (am_addr x1).
      destruct (Z.eqb_spec (am_addr x1) (am_addr x)) as [E|]; [|done]. exfalso.
      cbn in Hd. apply NoDup_cons in Hd as [Hd _]. apply Hd. rewrite E.
      rewrite fmap_app, fmap_app. cbn. set_solver.
  - rewrite E5. destruct (Z.eqb_spec (l_bestBet h) (am_addr x)); [by left|].
    destruct H6 as [?|(y & Hy & E)]; [by left|right]. exists y. split; [|done].
    apply elem_of_app in Hy as [Hy|[->|Hy]%elem_of_cons]; [set_solver| |set_solver]. done.
  - intros y m Hy Hm. unfold rdb. rewrite E3. apply (H7 y); [set_solver|done].
Qed.

(** ** Symbolic execution *)
Section Steps.
Context {K : Type} `{!Has heap K}.
Implicit Types (k : K).

Lemma hp_put (h : heap) k : hp (put h k) = h.
Proof. apply the_put. Qed.

Lemma wp_loadj a x k Q : a ≠ 0 -> majors (hp k) !! a = Some x -> Q x k -> wp (loadj a) k Q.
Proof. intros Ha Hx HQ. unfold wp, loadj. destruct (Z.eqb_spec a 0); [done|]. by rewrite Hx. Qed.
Lemma wp_updj a f k Q : a ≠ 0 -> is_Some (majors (hp k) !! a) ->
  Q tt (put (set_majors (alter f a (majors (hp k))) (hp k)) k) -> wp (updj a f) k Q.
Proof.
  intros Ha [x Hx] HQ. unfold wp, updj. destruct (Z.eqb_spec a 0); [done|]. by rewrite Hx.
Qed.
Lemma wp_storej a x k Q : a ≠ 0 ->
  Q tt (put (set_majors (<[a := x]> (majors (hp k))) (hp k)) k) -> wp (storej a x) k Q.
Proof. intros Ha HQ. unfold wp, storej. by destruct (Z.eqb_spec a 0). Qed.
Lemma wp_loadm a x k Q : a ≠ 0 -> minors (hp k) !! a = Some x -> Q x k -> wp (loadm a) k Q.
Proof. intros Ha Hx HQ. unfold wp, loadm. destruct (Z.eqb_spec a 0); [done|]. by rewrite Hx. Qed.
Lemma wp_updm a f k Q : a ≠ 0 -> is_Some (minors (hp k) !! a) ->
  Q tt (put (set_minors (alter f a (minors (hp k))) (hp k)) k) -> wp (updm a f) k Q.
Proof.
  intros Ha [x Hx] HQ. unfold wp, updm. destruct (Z.eqb_spec a 0); [done|]. by rewrite Hx.
Qed.
Lemma wp_storem a x k Q : a ≠ 0 ->
  Q tt (put (set_minors (<[a := x]> (minors (hp k))) (hp k)) k) -> wp (storem a x) k Q.
Proof. intros Ha HQ. unfold wp, storem. by destruct (Z.eqb_spec a 0). Qed.
Lemma wp_hgets {A} (f : heap -> A) k Q : Q (f (hp k)) k -> wp (sgets f) k Q.
Proof. done. Qed.
Lemma wp_hmod (f : heap -> heap) k Q : Q tt (put (f (hp k)) k) -> wp (smod f) k Q.
Proof. done. Qed.

Ltac hps := rewrite ?hp_put, ?put_put;
  cbn [majors minors bytes l_memRoot l_bestBet set_majors set_minors set_bytes set_memRoot
    set_bestBet add_inuse add_allocated warn wrb j_prev j_next j_pages j_size j_usage j_first
    m_prev m_next m_block m_magic m_size m_req_size].

(** *** Alignment *)
Lemma aligned_code b : 0 <= b < 2 ^ 48 ->
  let p := u64 (b + ALIGN_INFO) in let d := p &&& (ALIGNMENT - 1) in
  (if truth d then (u64 (p + (ALIGNMENT - d)), ALIGNMENT - d) else (p, d)) =
  (aligned b, aligned b - b - 16).
Proof.
  intros Hb. unfold ALIGN_INFO, ALIGNMENT. cbv zeta. rewrite (wrap_small 64 (b + 16))
    by (unfold in_u; lia).
  change (16 - 1) with (Z.ones 4). rewrite Z.land_ones by lia. change (2 ^ 4) with 16.
  unfold aligned, truth. pose proof (Z.mod_pos_bound (b + 16) 16 ltac:(lia)).
  destruct (Z.eqb_spec ((b + 16) mod 16) 0) as [E|E]; cbn [negb].
  - rewrite E. f_equal. lia.
  - rewrite wrap_small by (unfold in_u; lia). f_equal; lia.
Qed.

Lemma ALIGN_run b k : 0 <= b < 2 ^ 48 ->
  ALIGN b k = Some (aligned b, put (wrb (aligned b - 16) (aligned b - b) (hp k)) k).
Proof.
  intros Hb. unfold ALIGN. rewrite aligned_code by done. cbv zeta beta iota.
  pose proof (aligned_spec b) as [? _]. unfold ALIGN_INFO.
  unfold bind, smod, modify, ret. do 4 f_equal. f_equal.
  - apply wrap_small. unfold in_u. lia.
  - rewrite wrap_small by (unfold in_u; lia). lia.
Qed.

Lemma UNALIGN_run b k : 0 <= b < 2 ^ 48 ->
  rdb (hp k) (aligned b - 16) = aligned b - b -> UNALIGN (aligned b) k = Some (b, k).
Proof.
  intros Hb E. pose proof (aligned_spec b) as [? _]. unfold UNALIGN, bind, sgets, gets, ret.
  fold (hp k). unfold ALIGN_INFO, ALIGNMENT. rewrite (wrap_small 64 (aligned b - 16)) by (unfold in_u; lia). rewrite E.
  rewrite (swrap_small 8), (wrap_small 64) by (unfold in_s, in_u; lia).
  destruct (Z.ltb_spec (aligned b - b) (16 + 16)); [|lia].
  rewrite wrap_small by (unfold in_u; lia). do 2 f_equal. lia.
Qed.

(** *** The placements *)
Section Placing.
Context (k : K) (L1 L2 : list amaj) (x : amaj) (size req : Z).
Hypothesis Hok : heap_ok (hp k) (L1 ++ x :: L2).
Hypothesis Hreq : 0 <= req.
Hypothesis Hsize : size = req + 32.

Definition placed (a : list amin) (m : Z) (b : list amin) (p : Z) (k' : K) : Prop :=
  p = aligned (m + 40) /\ exists h', k' = put h' k /\ placed_in (hp k) h' x a (m, (size, req)) b.

Lemma x_header :
  am_addr x ≠ 0 /\ exists q n, majors (hp k) !! am_addr x = Some (dn_mk (maj_node x).2 q n).
Proof.
  pose proof (hk_majors _ _ Hok) as Hc. rewrite fmap_app in Hc. cbn [fmap list_fmap] in Hc.
  apply (chain_mid _ _ _ (am_addr x) (maj_node x).2) in Hc as (? & E & _). eauto.
Qed.

Lemma x_links : majors (hp k) !! am_addr x = Some (dn_mk (maj_node x).2
  (last_ptr 0 (maj_node <$> L1)) (first_ptr (maj_node <$> L2) 0)).
Proof.
  pose proof (hk_majors _ _ Hok) as Hc. rewrite fmap_app in Hc. cbn [fmap list_fmap] in Hc.
  by apply (chain_mid _ _ _ (am_addr x) (maj_node x).2) in Hc as (_ & E & _).
Qed.

(** The counters stay within 32 bits. *)
Lemma usage_fits a m b :
  layout (am_addr x + 40) (a ++ (m, (size, req)) :: b) (am_end x) -> am_mins x = a ++ b ->
  u32 (40 + used (am_mins x) + u64 (size + 40)) = 40 + used (a ++ (m, (size, req)) :: b) /\
  u32 size = size /\ u32 req = req /\ 0 < m < 2 ^ 47 /\ u64 (m + 40) = m + 40.
Proof.
  intros Hl Hms. destruct (hk_ok _ _ Hok x ltac:(set_solver)) as [H1 H2 H3 _].
  destruct (layout_bounds _ _ _ Hl) as [Hu Hb].
  destruct (Hb (m, (size, req)) ltac:(set_solver)) as (B1 & B2 & _).
  pose proof (layout_used _ _ _ Hl) as Hup. apply layout_app in Hl as [Hl1 (_ & _ & _ & Hl2)].
  pose proof (layout_used _ _ _ Hl1). pose proof (layout_used _ _ _ Hl2).
  rewrite Hms. unfold min_end, am_end in *. rewrite !used_app, !used_cons in *. cbn [fst snd] in *.
  rewrite (wrap_small 64 (size + 40)), !wrap_small by (unfold in_u; lia). lia.
Qed.
Lemma hand_out_run m k1 :
  am_addr x ≠ 0 -> is_Some (majors (hp k1) !! am_addr x) -> 0 < m < 2 ^ 47 ->
  hand_out (am_addr x) m size k1 = Some (aligned (m + 40),
    put (wrb (aligned (m + 40) - 16) (aligned (m + 40) - (m + 40)) (add_inuse size (set_majors
      (alter (fun j => set_j_usage (u32 (j_usage j + u64 (size + 40))) j) (am_addr x)
        (majors (hp k1))) (hp k1)))) k1).
Proof.
  intros Hx [j Hj] Hm. unfold hand_out, bind, updj. destruct (Z.eqb_spec (am_addr x) 0); [done|].
  rewrite Hj. unfold smod, modify. fold (hp k1). unfold sizeof_minor.
  rewrite (wrap_small 64 (m + 40)) by (unfold in_u; lia). rewrite ALIGN_run by lia.
  by rewrite put_put, !the_put, hp_put, put_put.
Qed.

Lemma place_first_spec :
  am_mins x = [] -> layout (am_addr x + 40) [(am_addr x + 40, (size, req))] (am_end x) ->
  wp (place_first (am_addr x) size req) k (placed [] (am_addr x + 40) []).
Proof.
  intros Hms Hl. destruct (usage_fits [] (am_addr x + 40) [] Hl Hms) as (U1 & U2 & U3 & U4 & U5).
  destruct x_header as (Hz & q & n & Ex). pose proof (major_bounds _ _ Hok x ltac:(set_solver)).
  unfold place_first, sizeof_major. rewrite (wrap_small 64 (am_addr x + 40)) by (unfold in_u; lia).
  wp1. apply wp_updj; [done|by rewrite Ex|]. wp1. apply wp_storem; [lia|]. hps.
  eapply wp_intro; [apply hand_out_run; [done|by hps; apply is_Some_alter; rewrite Ex|done]|].
  split; [done|]. hps. eexists. split; [done|]. split.
  - eexists. split; [hps; by rewrite alter_alter_eq|]. intros q' n'. unfold maj_node.
    cbn -[used wrap]. unfold set_j_usage, set_j_first. cbn -[used wrap]. by rewrite U1.
  - hps. by rewrite U2, U3.
  - done.
  - done.
  - done.
Qed.

Lemma place_front_spec m1 b :
  am_mins x = m1 :: b -> layout (am_addr x + 40) ((am_addr x + 40, (size, req)) :: m1 :: b) (am_end x) ->
  wp (place_front (am_addr x) size req) k (placed [] (am_addr x + 40) (m1 :: b)).
Proof.
  intros Hms Hl. destruct (usage_fits [] (am_addr x + 40) (m1 :: b) Hl Hms) as (U1 & U2 & U3 & U4 & U5).
  destruct x_header as (Hz & q & n & Ex). pose proof (major_bounds _ _ Hok x ltac:(set_solver)).
  pose proof (hk_minors _ _ Hok x ltac:(set_solver)) as Hc. rewrite Hms in Hc.
  destruct Hc as (Hz1 & E1 & _). cbn [fst] in Hz1, E1.
  assert (am_addr x + 40 ≠ m1.1) as Hne.
  { pose proof (layout_nodup _ _ _ Hl) as [Hd _]%NoDup_cons. cbn in Hd. set_solver. }
  assert (j_first (dn_mk (maj_node x).2 q n) = m1.1) as Ef
    by (unfold maj_node; cbn; rewrite Hms; by destruct m1).
  unfold place_front, sizeof_major. wp1. eapply wp_loadj; [done..|].
  rewrite Ef, (wrap_small 64 (am_addr x + 40)) by (unfold in_u; lia). clear Ef.
  wp1. apply wp_updm; [done|by rewrite E1|]. hps.
  wp1. apply wp_updj; [done|by hps; rewrite Ex|]. hps.
  wp1. apply wp_storem; [lia|]. hps.
  eapply wp_intro; [apply hand_out_run; [done|by hps; apply is_Some_alter; rewrite Ex|done]|].
  split; [done|]. hps. eexists. split; [done|]. split.
  - eexists. split; [hps; by rewrite alter_alter_eq|]. intros q' n'. unfold maj_node.
    cbn -[used wrap]. unfold set_j_usage, set_j_first. cbn -[used wrap]. by rewrite U1.
  - hps. rewrite U2, U3. unfold link_next, link_prev. cbn [last_ptr last first_ptr fst].
    destruct m1 as [a1 v1]. cbn in *. destruct (Z.eqb_spec a1 0); [done|].
    by rewrite alter_insert_ne by done.
  - done.
  - done.
  - done.
Qed.

Lemma place_last_spec a m1 :
  am_mins x = a ++ [m1] ->
  layout (am_addr x + 40) ((a ++ [m1]) ++ [(min_end m1, (size, req))]) (am_end x) ->
  wp (place_last (am_addr x) m1.1 size req) k (placed (a ++ [m1]) (min_end m1) []).
Proof.
  intros Hms Hl. destruct (usage_fits (a ++ [m1]) (min_end m1) [] Hl ltac:(by rewrite app_nil_r))
    as (U1 & U2 & U3 & U4 & U5).
  destruct x_header as (Hz & q & n & Ex). pose proof (major_bounds _ _ Hok x ltac:(set_solver)).
  pose proof (hk_minors _ _ Hok x ltac:(set_solver)) as Hc. rewrite Hms, min_nodes_app in Hc.
  apply (chain_mid _ _ _ m1.1) in Hc as (Hz1 & E1 & _). rewrite min_nodes_last in E1.
  destruct (minor_bounds _ _ Hok x m1) as (B1 & B2 & B3 & B4); [set_solver|rewrite Hms; set_solver|].
  unfold place_last, sizeof_minor. wp1. eapply wp_loadm; [done..|].
  set (mm := dn_mk _ _ _). assert (m_size mm = m1.2.1) as -> by done. clear mm.
  rewrite (wrap_small 64 (m1.1 + 40)), wrap_small by (unfold in_u, min_end in *; lia).
  fold (min_end m1).
  wp1. apply wp_updm; [done|by rewrite E1|]. hps.
  wp1. apply wp_storem; [lia|]. hps.
  eapply wp_intro; [apply hand_out_run; [done|by hps; rewrite Ex|done]|].
  split; [done|]. hps. eexists. split; [done|]. split.
  - eexists. split; [hps; reflexivity|]. intros q' n'. unfold maj_node.
    cbn -[used wrap]. unfold set_j_usage. cbn -[used wrap]. rewrite U1.
    rewrite Hms. cbn [am_mins with_mins]. by rewrite <- app_assoc, !first_ptr_app.
  - hps. rewrite U2, U3. unfold link_next, link_prev. cbn [first_ptr fst]. destruct m1 as [a1 v1].
    rewrite last_ptr_snoc. cbn [fst] in *. destruct (Z.eqb_spec a1 0); [done|].
    by rewrite alter_insert_ne by (unfold min_end in *; cbn in *; lia).
  - done.
  - done.
  - done.
Qed.

Lemma place_between_spec a m1 m2 b :
  am_mins x = (a ++ [m1]) ++ m2 :: b ->
  layout (am_addr x + 40) ((a ++ [m1]) ++ (min_end m1, (size, req)) :: m2 :: b) (am_end x) ->
  wp (place_between (am_addr x) m1.1 size req) k (placed (a ++ [m1]) (min_end m1) (m2 :: b)).
Proof.
  intros Hms Hl. destruct (usage_fits _ (min_end m1) _ Hl Hms) as (U1 & U2 & U3 & U4 & U5).
  destruct x_header as (Hz & q & n & Ex). pose proof (major_bounds _ _ Hok x ltac:(set_solver)).
  pose proof (hk_minors _ _ Hok x ltac:(set_solver)) as Hc.
  rewrite Hms, !min_nodes_app, <- app_assoc in Hc.
  apply (chain_mid _ _ _ m1.1) in Hc as (Hz1 & E1 & _ & Hc). rewrite min_nodes_last in E1.
  destruct Hc as (Hz2 & E2 & _). cbn [fst] in Hz2, E2.
  destruct (minor_bounds _ _ Hok x m1) as (B1 & B2 & B3 & B4); [set_solver|rewrite Hms; set_solver|].
  destruct (minor_bounds _ _ Hok x m2) as (C1 & C2 & C3 & C4); [set_solver|rewrite Hms; set_solver|].
  apply layout_app in Hl as [_ Hl]. rewrite last_snoc in Hl. destruct Hl as (_ & _ & _ & Hm2 & _).
  unfold min_end in Hm2 at 1. cbn [fst snd] in Hm2.
  unfold place_between, sizeof_minor. wp1. eapply wp_loadm; [done..|].
  set (mm := dn_mk _ _ _). assert (m_size mm = m1.2.1) as -> by done.
  assert (m_next mm = m2.1) as -> by (by destruct m2). clear mm.
  rewrite (wrap_small 64 (m1.1 + 40)), wrap_small by (unfold in_u, min_end in *; lia).
  fold (min_end m1).
  wp1. apply wp_storem; [lia|]. hps.
  wp1. apply wp_updm; [done|by hps; rewrite lookup_insert_ne by (unfold min_end in *; lia); rewrite E2|]. hps.
  wp1. apply wp_updm; [done|hps; apply is_Some_alter;
    by rewrite lookup_insert_ne by (unfold min_end in *; lia); rewrite E1|]. hps.
  eapply wp_intro; [apply hand_out_run; [done|by hps; rewrite Ex|done]|].
  split; [done|]. hps. eexists. split; [done|]. split.
  - eexists. split; [hps; reflexivity|]. intros q' n'. unfold maj_node.
    cbn -[used wrap]. unfold set_j_usage. cbn -[used wrap]. rewrite U1.
    rewrite Hms. cbn [am_mins with_mins]. by rewrite <- !app_assoc, !first_ptr_app.
  - hps. rewrite U2, U3. unfold link_next, link_prev. destruct m1 as [a1 v1], m2 as [a2 v2].
    rewrite last_ptr_snoc. cbn [first_ptr fst] in *. destruct (Z.eqb_spec a1 0), (Z.eqb_spec a2 0); [done..|].
    apply alter_alter_ne. unfold min_end in *. cbn in *. lia.
  - done.
  - done.
  - done.
Qed.
(** *** The search inside a block *)
Definition found (r : option Z) (k' : K) : Prop :=
  match r with
  | None => k' = k
  | Some p => exists a m b, am_mins x = a ++ b /\
      layout (am_addr x + 40) (a ++ (m, (size, req)) :: b) (am_end x) /\ placed a m b p k'
  end.

Lemma size_small : am_pages x * 4096 < 2 ^ 32 /\ am_addr x <= am_end x <= 2 ^ 47 /\ 0 < am_addr x.
Proof. destruct (hk_ok _ _ Hok x ltac:(set_solver)) as [? ? ? _]. unfold am_end in *. lia. Qed.

Lemma search_minors_spec fuel a m1 b :
  size < 2 ^ 47 -> am_mins x = a ++ m1 :: b -> (length b < fuel)%nat ->
  wp (search_minors fuel (am_addr x) m1.1 size req) k found.
Proof.
  intros Hsz. revert a m1 b. induction fuel as [|fuel IH]; intros a m1 b Hms Hfu; [lia|].
  destruct size_small as (S1 & S2 & S3). destruct x_header as (Hz & q & n & Ex).
  pose proof (hk_minors _ _ Hok x ltac:(set_solver)) as Hc. rewrite Hms, min_nodes_app, min_nodes_cons in Hc.
  apply chain_mid in Hc as (Hz1 & E1 & _). rewrite min_nodes_last, min_nodes_first in E1.
  destruct (minor_bounds _ _ Hok x m1) as (B1 & B2 & B3 & B4); [set_solver|rewrite Hms; set_solver|].
  destruct (hk_ok _ _ Hok x ltac:(set_solver)) as [_ _ _ Hl]. rewrite Hms in Hl.
  change (a ++ m1 :: b) with (a ++ [m1] ++ b) in Hl. rewrite app_assoc in Hl.
  apply layout_app in Hl as [Hl1 Hl2]. rewrite last_snoc in Hl1, Hl2.
  cbn [search_minors]. destruct (Z.eqb_spec m1.1 0); [done|]. wp1. eapply wp_loadm; [done..|].
  wp1. eapply wp_loadj; [done..|]. unfold sizeof_minor.
  set (mm := dn_mk _ _ _). assert (m_size mm = m1.2.1) as -> by done.
  assert (m_next mm = first_ptr b 0) as -> by done. clear mm.
  set (jj := dn_mk _ _ _). assert (j_size jj = am_pages x * 4096) as -> by done. clear jj.
  fold (am_end x). rewrite (wrap_small 64 (am_end x)) by (unfold in_u; lia).
  rewrite (wrap_small 64 (size + 40)) by (unfold in_u; lia).
  destruct b as [|m2 b].
  - cbn [first_ptr Z.eqb].
    replace (am_end x - m1.1 - 40 - m1.2.1) with (am_end x - min_end m1) by (unfold min_end; lia).
    rewrite wrap_small by (unfold in_u, min_end in *; lia).
    destruct (Z.leb_spec (size + 40) (am_end x - min_end m1)) as [Hle|]; [|by apply wp_ret].
    assert (layout (am_addr x + 40) ((a ++ [m1]) ++ [(min_end m1, (size, req))]) (am_end x)) as Hl.
    { apply layout_app. rewrite last_snoc. split; [done|]. cbn [layout fst snd]. rewrite min_end_mk. lia. }
    wp1. eapply wp_mono; [by apply (place_last_spec a m1)|]. intros p k' Hp. apply wp_ret.
    exists (a ++ [m1]), (min_end m1), []. by rewrite app_nil_r.
  - cbn [first_ptr]. destruct m2 as [a2 v2] eqn:Em2. rewrite <- Em2 in *.
    replace a2 with m2.1 by (by rewrite Em2).
    destruct (minor_bounds _ _ Hok x m2) as (C1 & C2 & C3 & C4); [set_solver|rewrite Hms; set_solver|].
    destruct Hl2 as (D1 & D2 & D3 & D4). destruct (Z.eqb_spec m2.1 0); [lia|].
    replace (m2.1 - m1.1 - 40 - m1.2.1) with (m2.1 - min_end m1) by (unfold min_end; lia).
    rewrite wrap_small by (unfold in_u, min_end in *; lia).
    destruct (Z.leb_spec (size + 40) (m2.1 - min_end m1)) as [Hle|].
    + assert (layout (am_addr x + 40) ((a ++ [m1]) ++ (min_end m1, (size, req)) :: m2 :: b) (am_end x)) as Hl.
      { apply layout_app. rewrite last_snoc. split; [done|]. cbn [layout fst snd].
        rewrite min_end_mk. split_and!; (done || lia). }
      assert (am_mins x = (a ++ [m1]) ++ m2 :: b) as Hms' by (by rewrite Hms, <- app_assoc).
      wp1. eapply wp_mono; [by apply (place_between_spec a m1 m2 b)|]. intros p k' Hp. apply wp_ret.
      by exists (a ++ [m1]), (min_end m1), (m2 :: b).
    + apply (IH (a ++ [m1]) m2 b); [by rewrite Hms, <- app_assoc|simpl in Hfu; lia].
Qed.

Lemma mins_length : (length (am_mins x) <= base.size (minors (hp k)))%nat.
Proof.
  pose proof (hk_minors _ _ Hok x ltac:(set_solver)) as Hc.
  destruct (hk_ok _ _ Hok x ltac:(set_solver)) as [_ _ _ Hl].
  assert (NoDup (min_nodes (am_addr x) (am_mins x)).*1) as Hd
    by (rewrite min_nodes_fst; by eapply layout_nodup).
  pose proof (chain_length _ _ _ _ Hd Hc) as Hlen. unfold min_nodes in Hlen.
  by rewrite length_fmap in Hlen.
Qed.

Lemma search_major_spec :
  size + 40 <= am_pages x * 4096 - (40 + used (am_mins x)) ->
  wp (search_major (am_addr x) size req) k (fun r k' =>
    found r k' /\ (am_mins x = [] -> r ≠ None)).
Proof.
  intros Hroom. destruct size_small as (S1 & S2 & S3). destruct x_header as (Hz & q & n & Ex).
  destruct (hk_ok _ _ Hok x ltac:(set_solver)) as [_ _ _ Hl].
  destruct (layout_bounds _ _ _ Hl) as [Hu Hb]. unfold am_end in Hu.
  unfold search_major. wp1. eapply wp_loadj; [done..|].
  set (jj := dn_mk _ _ _). assert (j_first jj = first_ptr (am_mins x) 0) as -> by done. clear jj.
  destruct (am_mins x) as [|m1 b] eqn:Hms.
  - cbn [first_ptr Z.eqb].
    assert (layout (am_addr x + 40) [(am_addr x + 40, (size, req))] (am_end x)) as Hl'.
    { cbn [layout fst snd]. unfold min_end, am_end. cbn [fst snd]. unfold used in Hroom. simpl in Hroom. lia. }
    wp1. eapply wp_mono; [by apply place_first_spec|]. intros p k' Hp. apply wp_ret.
    split; [|done]. unfold found. rewrite Hms. by exists [], (am_addr x + 40), [].
  - destruct (minor_bounds _ _ Hok x m1) as (B1 & B2 & B3 & B4); [set_solver|rewrite Hms; set_solver|].
    pose proof (layout_used _ _ _ Hl) as Hup.
    replace (first_ptr (m1 :: b) 0) with m1.1 by (by destruct m1).
    destruct (Z.eqb_spec m1.1 0); [lia|]. unfold sizeof_minor, sizeof_major.
    rewrite (wrap_small 64 (size + 40)), wrap_small by (unfold in_u, am_end, min_end in *; lia).
    destruct (Z.leb_spec (size + 40) (m1.1 - am_addr x - 40)) as [Hle|].
    + assert (layout (am_addr x + 40) ((am_addr x + 40, (size, req)) :: m1 :: b) (am_end x)) as Hl'.
      { destruct Hl as (D1 & D2 & D3 & D4). cbn [layout fst snd]. rewrite min_end_mk.
        split_and!; (done || lia). }
      wp1. eapply wp_mono; [by apply (place_front_spec m1 b)|]. intros p k' Hp. apply wp_ret.
      split; [|done]. unfold found. rewrite Hms. by exists [], (am_addr x + 40), (m1 :: b).
    + wp1. apply wp_hgets. eapply wp_mono; [apply (search_minors_spec _ [] m1 b); [lia|done|]|].
      * pose proof mins_length as Hlen. rewrite Hms in Hlen. simpl in Hlen. lia.
      * intros r k' Hr. by split.
Qed.
End Placing.
End Steps.
End LiballocInv.


