(* ===== verification/LiballocSpec.v ===== *)
(** What the kernel heap does: [kmalloc], [kfree], [kcalloc] and [krealloc] against the
    abstract state of LiballocInv, over any page hooks that keep their contract. *)
From S2P Require Import Prelude KMonad DList Liballoc LiballocInv.
Import Liballoc LiballocInv.

Module LiballocSpec.

(** ** The contract of the page hooks
    [held k a n]: the [n] pages from [a] on are handed out and not given back.
    [alloc_quiet] and [release_quiet]: the hook serves the call without calling the heap
    back. *)
Definition clear_of (a st b n : Z) : Prop := a + st * 4096 <= b \/ b + n * 4096 <= a.

Class PageHooksOk (K : Type) `{!Has heap K} `{!PageHooks K} := {
  held : K -> Z -> Z -> Prop;
  alloc_quiet : K -> Z -> Prop;
  release_quiet : K -> Z -> Z -> Prop;
  held_put : forall (h : heap) k a n, held (put h k) a n <-> held k a n;
  alloc_quiet_put : forall (h : heap) k st, alloc_quiet (put h k) st <-> alloc_quiet k st;
  release_quiet_put : forall (h : heap) k a st,
    release_quiet (put h k) a st <-> release_quiet k a st;
  liballoc_alloc_ok : forall k st, alloc_quiet k st -> 0 < st < 2 ^ 20 ->
    exists a k', liballoc_alloc st k = Some (a, k') /\ hp k' = hp k /\
      (forall b n, held k b n -> held k' b n) /\
      (a = 0 \/ (0 < a /\ a + st * 4096 <= 2 ^ 47 /\ held k' a st /\
        forall b n, held k b n -> clear_of a st b n));
  liballoc_free_ok : forall k a st, held k a st -> release_quiet k a st ->
    exists k', liballoc_free a st k = Some (tt, k') /\ hp k' = hp k /\
      forall b n, held k b n -> clear_of a st b n -> held k' b n
}.

(** ** Blocks *)
Lemma pages_for_spec size : 0 < size < 2 ^ 31 ->
  size + 80 <= pages_for size * 4096 /\ 0 < pages_for size < 2 ^ 20.
Proof.
  intros Hs. unfold pages_for, sizeof_major, sizeof_minor, l_pageSize, l_pageCount.
  rewrite (wrap_small 32 (size + 40)), (wrap_small 32 (size + 40 + 40)) by (unfold in_u; lia).
  set (st := size + 40 + 40). assert (0 < st < 2 ^ 31 + 80) as Hst by (unfold st; lia).
  pose proof (Z.div_mod st 4096 ltac:(lia)) as Hd. pose proof (Z.mod_pos_bound st 4096 ltac:(lia)).
  assert (0 <= st / 4096 < 2 ^ 19 + 1) as Hq by (split; [apply Z.div_pos|apply Z.div_lt_upper_bound]; lia).
  destruct (Z.eqb_spec (st mod 4096) 0) as [E|E].
  - destruct (Z.ltb_spec (st / 4096) 16); unfold st in *; lia.
  - rewrite wrap_small by (unfold in_u; lia).
    destruct (Z.ltb_spec (st / 4096 + 1) 16); unfold st in *; lia.
Qed.

Section Spec.
Context {K : Type} `{!Has heap K} `{!PageHooks K} `{!PageHooksOk K}.
Implicit Types (k : K) (L : list amaj).

(** The heap describes [L], whose blocks were handed out by the hooks. *)
Record inv k L : Prop := {
  inv_heap : heap_ok (hp k) L;
  inv_held : forall x, x ∈ L -> held k (am_addr x) (am_pages x)
}.

(** The effect of a request outside of the heap.  [fetched]: none, or the effect of one
    successful call of the hook, and the new block is the last; [refused]: the effect of a
    call that failed. *)
Definition spans (L : list amaj) : list (Z * Z) := (fun x => (am_addr x, am_pages x)) <$> L.
Definition asked (st : Z) k a k' : Prop :=
  exists h0 k1 h, liballoc_alloc st (put h0 k) = Some (a, k1) /\ k' = put h k1.
Definition fetched (st : Z) L L' k k' : Prop :=
  (spans L' = spans L /\ exists h, k' = put h k) \/
  (exists a, a ≠ 0 /\ spans L' = spans L ++ [(a, st)] /\ asked st k a k').

Lemma asked_put st k a k' h : asked st k a k' -> asked st k a (put h k').
Proof. intros (h0 & k1 & h1 & E & ->). exists h0, k1, h. by rewrite put_put. Qed.
Lemma fetched_put st L L' k k' h : fetched st L L' k k' -> fetched st L L' k (put h k').
Proof.
  intros [(Hs & h' & ->)|(a & Ha & Hs & Hk)]; [left|right].
  - split; [done|]. exists h. by rewrite put_put.
  - exists a. split_and!; [done..|]. by apply asked_put.
Qed.
Lemma spans_mins L1 x L2 ms : spans (L1 ++ with_mins x ms :: L2) = spans (L1 ++ x :: L2).
Proof. unfold spans. by rewrite !fmap_app. Qed.
Lemma asked_from st k h a k' : asked st (put h k) a k' -> asked st k a k'.
Proof. intros (h0 & k1 & h1 & E & ->). exists h0, k1, h1. by rewrite put_put in E. Qed.

Ltac hps := rewrite ?hp_put, ?put_put, ?held_put;
  cbn [majors minors bytes l_memRoot l_bestBet set_majors set_minors set_bytes set_memRoot
    set_bestBet add_inuse add_allocated warn wrb j_prev j_next j_pages j_size j_usage j_first
    m_prev m_next m_block m_magic m_size m_req_size].

(** A fresh block is apart from all others. *)
Definition fresh_for L (a st : Z) : Prop :=
  0 < a /\ a + st * 4096 <= 2 ^ 47 /\ forall x, x ∈ L -> apart (AMaj a st []) x.

Lemma fresh_major_inv k L a st : inv k L -> 0 < a -> a + st * 4096 <= 2 ^ 47 ->
  (forall b n, held k b n -> clear_of a st b n) -> fresh_for L a st.
Proof.
  intros [_ Hr] H1 H2 H3. split_and!; [done..|]. intros x Hx.
  destruct (H3 _ _ (Hr x Hx)); unfold apart, am_end; cbn in *; lia.
Qed.

Lemma allocate_new_page_spec size k :
  0 < size < 2 ^ 31 -> alloc_quiet k (pages_for size) ->
  wp (allocate_new_page size) k (fun r k' =>
    (forall b n, held k b n -> held k' b n) /\ asked (pages_for size) k r k' /\
    ((r = 0 /\ hp k' = warn (hp k)) \/
     (let st := pages_for size in 0 < r /\ r + st * 4096 <= 2 ^ 47 /\ held k' r st /\
      (forall b n, held k b n -> clear_of r st b n) /\
      hp k' = add_allocated (st * 4096)
       (set_majors (<[r := MkMajor 0 0 st (st * 4096) 40 0]> (majors (hp k))) (hp k))))).
Proof.
  intros Hs Hq. destruct (pages_for_spec size Hs) as [H1 H2].
  unfold allocate_new_page. rewrite (wrap_small 32 size) by (unfold in_u; lia). wp1.
  destruct (liballoc_alloc_ok k _ Hq H2) as (a & k' & E & Eh & Hm & Hcase).
  eapply wp_intro; [done|].
  assert (forall h, asked (pages_for size) k a (put h k')) as Hask.
  { intros h. exists (hp k), k', h. unfold hp. by rewrite put_the. }
  destruct (Z.eqb_spec a 0) as [->|Ha].
  - wp1. apply wp_hmod. apply wp_ret. split_and!; [intros; hps; auto|done|]. left. hps. by rewrite Eh.
  - destruct Hcase as [?|(A1 & A2 & A3 & A4)]; [done|]. unfold l_pageSize, sizeof_major.
    rewrite wrap_small by (unfold in_u; lia).
    wp1. apply wp_storej; [done|]. wp1. apply wp_hmod. apply wp_ret. hps.
    split_and!; [intros; hps; auto|done|]. right. hps. by rewrite Eh.
Qed.

(** A block appended to the list of blocks. *)
Lemma append_ok h h' L a st :
  heap_ok h L -> fresh_for L a st -> 0 < st < 2 ^ 20 ->
  majors h' = link_next a (last_ptr 0 (maj_node <$> L))
    (<[a := dn_mk (st, st * 4096, 40, 0) (last_ptr 0 (maj_node <$> L)) 0]> (majors h)) ->
  minors h' = minors h -> bytes h' = bytes h -> l_bestBet h' = l_bestBet h ->
  l_memRoot h' = (if decide (L = []) then a else l_memRoot h) ->
  heap_ok h' (L ++ [AMaj a st []]).
Proof.
  intros Hok (F1 & F2 & F3) Hst Ej Em Eb Ebb Er. pose proof (major_nodup _ _ Hok) as Hd.
  assert (a ∉ (maj_node <$> L).*1) as Hna.
  { rewrite <- list_fmap_compose. intros (x & -> & Hx)%list_elem_of_fmap. cbn in *.
    pose proof (F3 x Hx) as Hap. pose proof (major_bounds _ _ Hok x Hx).
    unfold apart, am_end in *. cbn in *. lia. }
  pose proof Hok as [H1 H2 H3 H4 H5 H6 H7]. split.
  - rewrite fmap_app. cbn [fmap list_fmap].
    pose proof (chain_link (majors h) (maj_node <$> L) a (st, st * 4096, 40, 0) []) as Hlink.
    cbv zeta in Hlink. rewrite app_nil_r in Hlink. rewrite Ej. apply Hlink; [lia| |done].
    rewrite fmap_app. apply NoDup_app. split_and!; [done| |apply NoDup_singleton]. set_solver.
  - intros x [Hx|Hx%list_elem_of_singleton]%elem_of_app; [rewrite Em; by apply H2|]. by rewrite Hx.
  - intros x [Hx|Hx%list_elem_of_singleton]%elem_of_app; [by apply H3|]. rewrite Hx.
    split; unfold am_end; cbn; lia.
  - apply pairwise_mid; [apply _|]. rewrite app_nil_r. split; [done|].
    apply Forall_forall. intros x Hx. by apply F3.
  - rewrite Er. case_decide as E; [by rewrite E|]. rewrite H5, fmap_app. by destruct L.
  - rewrite Ebb. destruct H6 as [?|(x & Hx & ?)]; [by left|right; exists x; set_solver].
  - unfold rdb. rewrite Eb. intros x m [Hx|Hx%list_elem_of_singleton]%elem_of_app Hm; [by apply (H7 x)|].
    rewrite Hx in Hm. by apply not_elem_of_nil in Hm.
Qed.

(** The search remembers blocks, and changes nothing else. *)
Lemma best_ok k L x : inv k L -> x ∈ L -> inv (put (set_bestBet (am_addr x) (hp k)) k) L.
Proof.
  intros [[H1 H2 H3 H4 H5 H6 H7] Hr] Hx. split; [|by intros y Hy; hps; auto].
  hps. split; cbn; try done. right. eauto.
Qed.

Lemma last_header k L1 x : heap_ok (hp k) (L1 ++ [x]) ->
  last_ptr 0 (maj_node <$> L1 ++ [x]) = am_addr x /\ am_addr x ≠ 0 /\
  is_Some (majors (hp k) !! am_addr x).
Proof.
  intros Hok. rewrite fmap_app. cbn [fmap list_fmap]. unfold maj_node at 2. rewrite last_ptr_snoc.
  destruct (x_header k L1 [] x Hok) as (? & q & n & E). rewrite E. eauto.
Qed.

Lemma same_majors_ok h h' L :
  heap_ok h L -> chain (majors h') 0 (maj_node <$> L) 0 -> minors h' = minors h ->
  bytes h' = bytes h -> l_memRoot h' = l_memRoot h -> l_bestBet h' = l_bestBet h -> heap_ok h' L.
Proof.
  intros [H1 H2 H3 H4 H5 H6 H7] Hc Em Eb Er Ebb.
  split; [done|by rewrite Em|done|done|by rewrite Er|by rewrite Ebb|].
  unfold rdb. by rewrite Eb.
Qed.

Lemma append_major_spec size k L1 x :
  0 < size < 2 ^ 31 -> alloc_quiet k (pages_for size) -> inv k (L1 ++ [x]) ->
  wp (append_major (am_addr x) size) k (fun n k' => bytes (hp k') = bytes (hp k) /\
    asked (pages_for size) k n k' /\
    ((n = 0 /\ inv k' (L1 ++ [x])) \/
     (n ≠ 0 /\ inv k' ((L1 ++ [x]) ++ [AMaj n (pages_for size) []])))).
Proof.
  intros Hs Hq Hinv. pose proof Hinv as [Hok Hreg]. destruct (last_header k L1 x Hok) as (El & Hz & Hx).
  destruct (pages_for_spec size Hs) as [_ Hst]. pose proof (major_nodup _ _ Hok) as Hd.
  unfold append_major. wp1. eapply wp_mono; [by apply allocate_new_page_spec|].
  intros n k1 (Hm & Hask & [(-> & E1)|(F0 & F1' & Fh & Fc & E1)]).
  - wp1. apply wp_updj; [done|by rewrite E1|]. cbn [Z.eqb]. apply wp_ret. hps. rewrite E1. hps.
    split; [done|]. split; [by apply asked_put|]. left. split; [done|].
    split; [|by intros y Hy; hps; auto]. hps.
    apply (same_majors_ok (hp k)); [done| |done..]. cbn.
    pose proof (chain_set_next _ _ _ _ 0 Hd (hk_majors _ _ Hok)) as Hc. rewrite El in Hc.
    rewrite decide_True in Hc; [done|]. rewrite <- El. apply last_ptr_elem. by destruct L1.
  - pose proof (fresh_major_inv _ _ _ _ Hinv F0 F1' Fc) as Hfr. pose proof Hfr as (F1 & F2 & F3).
    assert (n ≠ am_addr x) as Hne.
    { intros ->. pose proof (F3 x ltac:(set_solver)) as Hap.
      pose proof (major_bounds _ _ Hok x ltac:(set_solver)). unfold apart, am_end in *. cbn in *. lia. }
    wp1. apply wp_updj; [done|by rewrite E1; hps; rewrite lookup_insert_ne by done|]. rewrite E1. hps.
    destruct (Z.eqb_spec n 0); [lia|].
    wp1. apply wp_updj; [lia|by hps; rewrite lookup_alter_ne, lookup_insert_eq by done|].
    apply wp_ret. hps. split; [done|]. split; [by apply asked_put|]. right. split; [done|]. split.
    + hps. eapply append_ok; [done|done|done|..]; try done; hps.
      * rewrite El. unfold link_next. destruct (Z.eqb_spec (am_addr x) 0); [done|].
        rewrite alter_alter_ne, alter_insert_eq by done. done.
      * by rewrite decide_False by (by destruct L1).
    + intros y [Hy|Hy%list_elem_of_singleton]%elem_of_app; hps; [auto|by rewrite Hy].
Qed.
(** ** Allocation
    [target size L L1 x L2]: the block [x], with those before and after it, in which a
    request was placed: one of [L], or a new one after them.  [allocated]: a minor of
    [size] bytes has been placed in it at [m], and [p] is its pointer. *)
Definition target (size : Z) L L1 (x : amaj) L2 : Prop :=
  L = L1 ++ x :: L2 \/ (L1 = L /\ L2 = [] /\ exists n, x = AMaj n (pages_for size) []).

Definition allocated (size req p m : Z) L L' : Prop :=
  exists L1 x L2 a b, target size L L1 x L2 /\ am_mins x = a ++ b /\
    L' = L1 ++ with_mins x (a ++ (m, (size, req)) :: b) :: L2 /\ p = aligned (m + 40).

Definition malloc_post k (bs : gmap Z Z) L (size req p : Z) (k' : K) : Prop :=
  (p = 0 /\ inv k' L /\ bytes (hp k') = bs /\ asked (pages_for size) k 0 k') \/
  (exists m L', allocated size req p m L L' /\ inv k' L' /\
    bytes (hp k') = <[p - 16 := p - (m + 40)]> bs /\ fetched (pages_for size) L L' k k').

Section Loop.
Context (k0 : K) (L : list amaj) (size req : Z) (bs : gmap Z Z).
Hypothesis Hreq : 0 <= req.
Hypothesis Hsize : size = req + 32.
Hypothesis Hmax : size < 2 ^ 31.

Lemma found_post k L1 x L2 p k' :
  target size L L1 x L2 -> inv k (L1 ++ x :: L2) -> bytes (hp k) = bs ->
  fetched (pages_for size) L (L1 ++ x :: L2) k0 k ->
  found k x size req (Some p) k' -> malloc_post k0 bs L size req p k'.
Proof.
  intros Hg [Hok Hreg] Eb Hft (a & m & b & Hms & Hl & -> & h' & -> & Hpl). right.
  exists m, (L1 ++ with_mins x (a ++ (m, (size, req)) :: b) :: L2). split_and!.
  - by exists L1, x, L2, a, b.
  - split.
    + hps. by eapply place_ok.
    + intros y Hy. hps. apply elem_of_app in Hy as [Hy|[->|Hy]%elem_of_cons];
        [apply Hreg; set_solver| |apply Hreg; set_solver].
      apply (Hreg x). set_solver.
  - hps. by rewrite (pi_bytes _ _ _ _ _ _ Hpl), <- Eb.
  - apply fetched_put. unfold fetched. rewrite !spans_mins. exact Hft.
Qed.

(** The free bytes of a block, as the loop computes them. *)
Definition free_bytes (x : amaj) : Z := am_pages x * 4096 - (40 + used (am_mins x)).

Lemma free_bytes_code h Lx x q n : heap_ok h Lx -> x ∈ Lx ->
  let j := dn_mk (maj_node x).2 q n in
  u32 (j_size j - j_usage j) = free_bytes x /\ 0 <= free_bytes x < 2 ^ 32.
Proof.
  intros Hok Hx. cbv zeta. unfold maj_node. cbn -[used wrap].
  destruct (hk_ok _ _ Hok x Hx) as [H1 H2 H3 Hl]. destruct (layout_bounds _ _ _ Hl) as [Hu _].
  pose proof (layout_used _ _ _ Hl) as Hp.
  unfold free_bytes, am_end in *. rewrite wrap_small by (unfold in_u; lia). lia.
Qed.

(** A block just appended has room for what it was made for. *)
Lemma fresh_room n : size + 40 <= free_bytes (AMaj n (pages_for size) []).
Proof.
  destruct (pages_for_spec size ltac:(lia)) as [? _]. unfold free_bytes, used. cbn. lia.
Qed.

Lemma search_fresh k n :
  n ≠ 0 -> asked (pages_for size) k0 n k ->
  inv k (L ++ [AMaj n (pages_for size) []]) -> bytes (hp k) = bs ->
  wp (search_major n size req) k (fun r k' => exists p, r = Some p /\ malloc_post k0 bs L size req p k').
Proof.
  intros Hnz Hask Hinv Eb. pose proof Hinv as [Hok Hreg].
  eapply wp_mono; [apply (search_major_spec k L [] (AMaj n (pages_for size) []) size req Hok Hreq Hsize
    (fresh_room n))|].
  intros [p|] k' [Hf Hn]; [|by destruct (Hn eq_refl)]. exists p. split; [done|].
  eapply (found_post k); [|done|done| |done].
  - right. split_and!; [done|done|by exists n].
  - right. exists n. split_and!; [done| |done]. unfold spans. by rewrite fmap_app.
Qed.

(** *** The loop over the blocks *)
Definition wp_post (m : M K Z) k : Prop := wp m k (malloc_post k0 bs L size req).
Definition ready k : Prop :=
  inv k L /\ bytes (hp k) = bs /\ alloc_quiet k (pages_for size) /\ exists h, k = put h k0.

Lemma ready_best k x : ready k -> x ∈ L -> ready (put (set_bestBet (am_addr x) (hp k)) k).
Proof.
  intros (H1 & H2 & H3 & h & E) Hx. split_and!; [by apply best_ok|by hps|by apply alloc_quiet_put|].
  eexists. rewrite E, put_put. done.
Qed.

Lemma append_post k L1 x : L = L1 ++ [x] -> ready k ->
  wp (append_major (am_addr x) size) k (fun n k' => bytes (hp k') = bs /\
    asked (pages_for size) k0 n k' /\
    ((n = 0 /\ inv k' L) \/ (n ≠ 0 /\ inv k' (L ++ [AMaj n (pages_for size) []])))).
Proof.
  intros HL (H1 & H2 & H3 & h & Eh). rewrite HL in H1 |- *.
  eapply wp_mono; [apply append_major_spec; [lia|done|done]|].
  intros n k' (E & Hask & ?). rewrite E. split_and!; [done| |done]. rewrite Eh in Hask. by eapply asked_from.
Qed.

(** An iteration at a block that was just appended. *)
Lemma loop_fresh fuel sb best k n :
  n ≠ 0 -> asked (pages_for size) k0 n k ->
  inv k (L ++ [AMaj n (pages_for size) []]) -> bytes (hp k) = bs ->
  wp_post (malloc_loop (S fuel) n sb best size req) k.
Proof.
  intros Hn Hask Hinv Eb. unfold wp_post. cbn [malloc_loop]. destruct (Z.eqb_spec n 0); [done|].
  pose proof Hinv as [Hok _]. pose proof (x_links k L [] _ Hok) as Ex. cbn [am_addr] in Ex.
  wp1. eapply wp_loadj; [done..|]. set (x := AMaj n (pages_for size) []) in *.
  assert (x ∈ L ++ [x]) as Hx by set_solver.
  destruct (free_bytes_code _ _ _ (last_ptr 0 (maj_node <$> L)) 0 Hok Hx) as [Ef Hfb].
  cbn [first_ptr fmap list_fmap]. rewrite Ef. pose proof (fresh_room n) as Hroom. fold x in Hroom.
  set (k1 := if best <? free_bytes x then put (set_bestBet n (hp k)) k else k).
  assert (inv k1 (L ++ [x]) /\ bytes (hp k1) = bs /\ asked (pages_for size) k0 n k1) as (Hinv1 & Eb1 & Hask1).
  { unfold k1. destruct (best <? free_bytes x); [|done].
    split_and!; [by apply (best_ok k _ x)|by hps|by apply asked_put]. }
  wp1. assert (when (best <? free_bytes x) (smod (set_bestBet n)) k = Some (tt, k1)) as Ek
    by (unfold k1; by destruct (best <? free_bytes x)).
  eapply wp_intro; [exact Ek|]. unfold case1, sizeof_minor.
  rewrite (wrap_small 64 (size + 40)) by (unfold in_u; lia).
  destruct (Z.ltb_spec (free_bytes x) (size + 40)); [lia|]. wp1. apply wp_ret.
  wp1. eapply wp_mono; [by apply search_fresh|]. intros r k' (p & -> & Hp). by apply wp_ret.
Qed.

Lemma next_header L1 x y L2 k : heap_ok (hp k) (L1 ++ x :: y :: L2) ->
  am_addr y ≠ 0 /\ first_ptr (maj_node <$> y :: L2) 0 = am_addr y.
Proof.
  intros Hok. split; [|done]. change (L1 ++ x :: y :: L2) with (L1 ++ [x] ++ y :: L2) in Hok.
  rewrite app_assoc in Hok. by destruct (x_header k (L1 ++ [x]) L2 y Hok).
Qed.

(** An iteration at a block of the list: either it ends the search, or it goes on to
    the next block, to the first block, or to a new one. *)
Lemma loop_step fuel (sb : bool) best k L1 x L2 :
  L = L1 ++ x :: L2 -> ready k ->
  (forall k' best', ready k' ->
    match L2 with
    | y :: _ => wp_post (malloc_loop fuel (am_addr y) sb best' size req) k'
    | [] => if sb then wp_post (malloc_loop fuel (l_memRoot (hp k')) false best' size req) k'
            else (0 < fuel)%nat
    end) ->
  wp_post (malloc_loop (S fuel) (am_addr x) sb best size req) k.
Proof.
  intros HL Hr Hcont. unfold wp_post. cbn [malloc_loop].
  pose proof Hr as (Hinv & Eb & Hq & _). pose proof Hinv as [Hok _].
  assert (x ∈ L) as Hx by (rewrite HL; set_solver).
  destruct (x_header k L1 L2 x) as [Hz _]; [by rewrite <- HL|].
  pose proof (x_links k L1 L2 x ltac:(by rewrite <- HL)) as Ex.
  destruct (Z.eqb_spec (am_addr x) 0); [done|]. wp1. eapply wp_loadj; [done..|].
  destruct (free_bytes_code _ _ _ (last_ptr 0 (maj_node <$> L1)) (first_ptr (maj_node <$> L2) 0) Hok Hx)
    as [Ef Hfb]. rewrite Ef.
  set (k1 := if best <? free_bytes x then put (set_bestBet (am_addr x) (hp k)) k else k).
  assert (ready k1 /\ majors (hp k1) = majors (hp k)) as [Hr1 Ej].
  { unfold k1. destruct (best <? free_bytes x); [|done]. split; [by apply ready_best|by hps]. }
  wp1. assert (when (best <? free_bytes x) (smod (set_bestBet (am_addr x))) k = Some (tt, k1)) as Ek
    by (unfold k1; by destruct (best <? free_bytes x)).
  eapply wp_intro; [exact Ek|]. clear Ek. clearbody k1.
  set (best1 := if best <? free_bytes x then free_bytes x else best). clearbody best1.
  rewrite <- Ej in Ex. clear Ej. specialize (Hcont k1 best1 Hr1) as Hc1. clear Hcont.
  pose proof Hr1 as (Hinv1 & Eb1 & _ & Hsame). pose proof Hinv1 as [Hok1 _].
  wp1. unfold case1, sizeof_minor. rewrite (wrap_small 64 (size + 40)) by (unfold in_u; lia).
  destruct (Z.ltb_spec (free_bytes x) (size + 40)) as [Hlt|Hge].
  - wp1. eapply wp_loadj; [done..|]. set (jj := dn_mk _ _ _).
    assert (j_next jj = first_ptr (maj_node <$> L2) 0) as -> by done. clear jj.
    destruct L2 as [|y L2]; [|destruct (next_header L1 x y L2 k1) as [? Ey]; [by rewrite <- HL|]].
    + cbn [first_ptr fmap list_fmap truth Z.eqb negb]. destruct sb.
      * wp1. apply wp_hgets. by apply wp_ret.
      * wp1. eapply wp_mono; [by eapply append_post|].
        intros n' k' (Eb' & Hask & [[-> Hi]|[Hn Hi]]); [by apply wp_ret, wp_ret; left|].
        destruct (Z.eqb_spec n' 0); [done|]. apply wp_ret. wp1.
        eapply wp_mono; [by apply search_fresh|]. intros r k2 (p & -> & Hp). by apply wp_ret.
    + rewrite Ey. unfold truth. destruct (Z.eqb_spec (am_addr y) 0); [done|]. by apply wp_ret.
  - apply wp_ret. wp1. eapply wp_mono; [apply (search_major_spec k1 L1 L2); [by rewrite <- HL|done|done|done]|].
    intros [p|] k2 [Hf _].
    { apply wp_ret. eapply (found_post k1); [by left|by rewrite <- HL|done|left; by rewrite HL|done]. }
    cbn in Hf. rewrite Hf. clear k2 Hf. wp1. unfold case5. wp1. eapply wp_loadj; [done..|].
    set (jj := dn_mk _ _ _).
    assert (j_next jj = first_ptr (maj_node <$> L2) 0) as -> by done. clear jj.
    destruct L2 as [|y L2]; [|destruct (next_header L1 x y L2 k1) as [? Ey]; [by rewrite <- HL|]].
    + cbn [first_ptr fmap list_fmap Z.eqb]. destruct sb.
      * wp1. apply wp_hgets. by apply wp_ret.
      * wp1. eapply wp_mono; [by eapply append_post|].
        intros n' k' (Eb' & Hask & [[-> Hi]|[Hn Hi]]); [by apply wp_ret, wp_ret; left|].
        destruct (Z.eqb_spec n' 0); [done|]. apply wp_ret. destruct fuel; [lia|]. by apply loop_fresh.
    + rewrite Ey. destruct (Z.eqb_spec (am_addr y) 0); [done|]. by apply wp_ret.
Qed.

(** The search from a block on, when it will not start again from the first block. *)
Lemma loop_forward fuel best k L1 x L2 :
  L = L1 ++ x :: L2 -> ready k -> (length L2 + 1 < fuel)%nat ->
  wp_post (malloc_loop fuel (am_addr x) false best size req) k.
Proof.
  revert fuel best k L1 x. induction L2 as [|y L2 IH]; intros [|fuel] best k L1 x HL Hr Hfu;
    simpl in Hfu; try lia; eapply loop_step; [done|done| |done|done|].
  - intros k' best' _. cbn. lia.
  - intros k' best' Hr'. apply (IH fuel best' k' (L1 ++ [x])); [by rewrite <- app_assoc|done|lia].
Qed.

Lemma root_block k : ready k -> L ≠ [] -> exists x L2, L = x :: L2 /\ l_memRoot (hp k) = am_addr x.
Proof.
  intros ([Hok _] & _) HL. assert (exists x L2, L = x :: L2) as (x & L2 & E)
    by (clear - HL; destruct L; [done|eauto]).
  exists x, L2. split; [done|]. by rewrite (hk_root _ _ Hok), E.
Qed.

(** The search from the best bet on. *)
Lemma loop_best fuel best k L1 x L2 :
  L = L1 ++ x :: L2 -> ready k -> (length L2 + length L + 2 < fuel)%nat ->
  wp_post (malloc_loop fuel (am_addr x) true best size req) k.
Proof.
  revert fuel best k L1 x. induction L2 as [|y L2 IH]; intros [|fuel] best k L1 x HL Hr Hfu;
    simpl in Hfu; try lia; eapply loop_step; [done|done| |done|done|].
  - intros k' best' Hr'. destruct (root_block k' Hr') as (x0 & L0 & E & ->);
      [rewrite HL; by destruct L1|].
    apply (loop_forward fuel best' k' [] x0 L0); [done|done|]. rewrite E in Hfu. simpl in Hfu. lia.
  - intros k' best' Hr'. apply (IH fuel best' k' (L1 ++ [x])); [by rewrite <- app_assoc|done|lia].
Qed.
End Loop.
Lemma majors_length k L : heap_ok (hp k) L -> (length L <= base.size (majors (hp k)))%nat.
Proof.
  intros Hok. pose proof (chain_length _ _ _ _ (major_nodup _ _ Hok) (hk_majors _ _ Hok)) as H.
  by rewrite length_fmap in H.
Qed.

(** The first allocation gets its block first. *)
Lemma first_block_spec size k :
  0 < size < 2 ^ 31 -> inv k [] -> alloc_quiet k (pages_for size) ->
  wp (let! r := allocate_new_page size in smod (set_memRoot r) ;;; ret r) k (fun r k' =>
    bytes (hp k') = bytes (hp k) /\ asked (pages_for size) k r k' /\
    ((r = 0 /\ inv k' []) \/ (r ≠ 0 /\ inv k' [AMaj r (pages_for size) []]))).
Proof.
  intros Hs Hinv Hq. pose proof Hinv as [Hok Hreg]. destruct (pages_for_spec size Hs) as [_ Hst].
  wp1. eapply wp_mono; [by apply allocate_new_page_spec|].
  intros n k1 (Hm & Hask & [(-> & E1)|(F0 & F1 & Fh & Fc & E1)]); wp1; apply wp_hmod; apply wp_ret; hps; rewrite E1;
    (split; [done|]; split; [by apply asked_put|]).
  - left. split; [done|]. split; [|by intros y ?%not_elem_of_nil]. hps.
    destruct Hok as [H1 H2 H3 H4 H5 H6 H7]. by split.
  - right. pose proof (fresh_major_inv _ _ _ _ Hinv F0 F1 Fc) as Hfr. split; [lia|].
    split.
    + hps. by apply (append_ok (hp k) _ [] n).
    + intros y ->%list_elem_of_singleton. by hps.
Qed.

Lemma malloc_sized_spec k L size req :
  0 <= req -> size = req + 32 -> size < 2 ^ 31 -> inv k L -> alloc_quiet k (pages_for size) ->
  wp (malloc_sized size req) k (malloc_post k (bytes (hp k)) L size req).
Proof.
  intros Hr Hs Hm Hinv Hq. pose proof Hinv as [Hok Hreg]. unfold malloc_sized.
  wp1. apply wp_hgets. rewrite (hk_root _ _ Hok). wp1. destruct L as [|x0 L0].
  - cbn [fmap list_fmap first_ptr Z.eqb]. eapply wp_mono; [apply first_block_spec; [lia|done|done]|].
    intros n k1 (Eb & Hask & [[-> Hi]|[Hn Hi]]); [by apply wp_ret; left|].
    destruct (Z.eqb_spec n 0); [done|]. wp1. apply wp_hgets. wp1. apply wp_gets.
    destruct (malloc_fuel k1) as [|fuel] eqn:Efu; [unfold malloc_fuel in Efu; lia|].
    assert (forall sb best, wp (malloc_loop (S fuel) n sb best size req) k1
      (malloc_post k (bytes (hp k)) [] size req)) as Hloop by (intros; by apply loop_fresh).
    destruct (Z.eqb_spec (l_bestBet (hp k1)) 0) as [|Hb]; [apply Hloop|].
    destruct (hk_best _ _ (inv_heap _ _ Hi)) as [?|(y & ->%list_elem_of_singleton & Ey)]; [done|].
    rewrite Ey. wp1. eapply wp_loadj; [done|apply (x_links k1 [] []), Hi|].
    destruct (_ <? _); apply Hloop.
  - change (first_ptr (maj_node <$> x0 :: L0) 0) with (am_addr x0).
    destruct (x_header k [] L0 x0 Hok) as [Hz _].
    destruct (Z.eqb_spec (am_addr x0) 0); [done|]. apply wp_ret.
    destruct (Z.eqb_spec (am_addr x0) 0); [done|]. wp1. apply wp_hgets. wp1. apply wp_gets.
    pose proof (majors_length _ _ Hok) as Hlen. simpl in Hlen.
    assert (ready k (x0 :: L0) size (bytes (hp k)) k) as Hrd
      by (split_and!; [done..|exists (hp k); unfold hp; by rewrite put_the]).
    assert (forall best, wp (malloc_loop (malloc_fuel k) (am_addr x0) false best size req) k
      (malloc_post k (bytes (hp k)) (x0 :: L0) size req)) as Hfwd.
    { intros best. eapply loop_forward with (L1 := []); [done..|unfold malloc_fuel; lia]. }
    destruct (Z.eqb_spec (l_bestBet (hp k)) 0) as [|Hb]; [apply Hfwd|].
    destruct (hk_best _ _ Hok) as [?|(y & Hy & Ey)]; [done|]. rewrite Ey.
    apply list_elem_of_split in Hy as (L1 & L2 & EL). pose proof Hok as Hok'. rewrite EL in Hok'.
    wp1. eapply wp_loadj; [by rewrite Ey in Hb|by apply (x_links k L1 L2)|].
    destruct (_ <? _); [|apply Hfwd]. eapply loop_best; [done..|].
    assert (length (x0 :: L0) = length (L1 ++ y :: L2)) as El by (by rewrite EL).
    rewrite length_app in El. simpl in El. unfold malloc_fuel. simpl. lia.
Qed.

Lemma kmalloc_spec k L req :
  0 <= req < 2 ^ 31 - 32 -> inv k L -> alloc_quiet k (pages_for (req + 32)) ->
  wp (kmalloc req) k (malloc_post k (bytes (hp k)) L (req + 32) req).
Proof.
  intros Hr Hinv Hq. unfold kmalloc, ALIGNMENT, ALIGN_INFO.
  rewrite wrap_small by (unfold in_u; lia). change (req + (16 + 16)) with (req + 32).
  destruct (Z.eqb_spec (req + 32) 0); [lia|]. apply malloc_sized_spec; (done || lia).
Qed.
(** ** Deallocation *)
Lemma wp_guardm (b : Z) f k Q :
  (b ≠ 0 -> is_Some (minors (hp k) !! b)) ->
  Q tt (put (set_minors (if b =? 0 then minors (hp k) else alter f b (minors (hp k))) (hp k)) k) ->
  wp (when (truth b) (updm b f)) k Q.
Proof.
  intros Hb HQ. unfold truth. destruct (Z.eqb_spec b 0) as [->|E]; cbn [negb when].
  - apply wp_ret. revert HQ. unfold hp. destruct (the k) eqn:Ek; cbn. unfold set_minors; cbn.
    by rewrite <- Ek, put_the.
  - apply wp_updm; auto.
Qed.
Lemma wp_guardj (b : Z) f k Q :
  (b ≠ 0 -> is_Some (majors (hp k) !! b)) ->
  Q tt (put (set_majors (if b =? 0 then majors (hp k) else alter f b (majors (hp k))) (hp k)) k) ->
  wp (when (truth b) (updj b f)) k Q.
Proof.
  intros Hb HQ. unfold truth. destruct (Z.eqb_spec b 0) as [->|E]; cbn [negb when].
  - apply wp_ret. revert HQ. unfold hp. destruct (the k) eqn:Ek; cbn. unfold set_majors; cbn.
    by rewrite <- Ek, put_the.
  - apply wp_updj; auto.
Qed.

Lemma wp_when_mod (c : bool) f k Q :
  Q tt (put (if c then f (hp k) else hp k) k) -> wp (when c (smod f)) k Q.
Proof. intros HQ. destruct c; [done|]. apply wp_ret. unfold hp in HQ. by rewrite put_the in HQ. Qed.

(** What [kfree] leaves of the abstract state when the minor between [a] and [b] of
    the block [x] goes. *)
Definition freed (L1 : list amaj) (x : amaj) (a b : list amin) (L2 : list amaj) : list amaj :=
  match a ++ b with [] => L1 ++ L2 | ms => L1 ++ with_mins x ms :: L2 end.

(** The last minor of a block has gone: the block is unlinked and given back. *)
Lemma drop_major_spec k L1 x L2 q n :
  let j := dn_mk (maj_node x).2 q n in
  inv k (L1 ++ x :: L2) -> release_quiet k (am_addr x) (am_pages x) ->
  majors (hp k) !! am_addr x = Some j ->
  q = last_ptr 0 (maj_node <$> L1) -> n = first_ptr (maj_node <$> L2) 0 ->
  wp (let! root := sgets l_memRoot in
      when (root =? am_addr x) (smod (set_memRoot (j_next j))) ;;;
      let! best := sgets l_bestBet in
      when (best =? am_addr x) (smod (set_bestBet 0)) ;;;
      when (truth (j_prev j)) (updj (j_prev j) (set_j_next (j_next j))) ;;;
      let! j := loadj (am_addr x) in
      when (truth (j_next j)) (updj (j_next j) (set_j_prev (j_prev j))) ;;;
      let! j := loadj (am_addr x) in
      smod (add_allocated (- j_size j)) ;;;
      liballoc_free (am_addr x) (j_pages j)) k (fun _ k' => bytes (hp k') = bytes (hp k) /\
    minors (hp k') = minors (hp k) /\ inv k' (L1 ++ L2)).
Proof.
  intros j Hinv Hq Ex Eq En. pose proof Hinv as [Hok Hreg].
  destruct (x_header k L1 L2 x Hok) as [Hz _]. pose proof (major_nodup _ _ Hok) as Hd.
  pose proof (hk_majors _ _ Hok) as Hc. rewrite fmap_app in Hc, Hd. cbn [fmap list_fmap] in Hc, Hd.
  destruct (unlink_self (majors (hp k)) _ _ (maj_node x).2 _ Hd Hz) as [U1 U2].
  rewrite <- Eq, <- En in U1, U2.
  apply (chain_mid _ _ _ (am_addr x) (maj_node x).2) in Hc as (_ & _ & Hc1 & Hc2).
  assert (j_prev j = q /\ j_next j = n /\ j_size j = am_pages x * 4096 /\ j_pages j = am_pages x)
    as (Ep & Enx & Es & Epg) by done. rewrite Ep, Enx.
  wp1. apply wp_hgets. wp1. apply wp_when_mod.
  set (h1 := if _ =? _ then _ else _). wp1. apply wp_hgets. wp1. apply wp_when_mod. hps.
  set (h2 := if l_bestBet _ =? _ then _ else _).
  assert (majors h2 = majors (hp k) /\ minors h2 = minors (hp k) /\ bytes h2 = bytes (hp k) /\
    l_memRoot h2 = (if l_memRoot (hp k) =? am_addr x then n else l_memRoot (hp k)) /\
    l_bestBet h2 = (if l_bestBet (hp k) =? am_addr x then 0 else l_bestBet (hp k)))
    as (G1 & G2 & G3 & G4 & G5).
  { unfold h2, h1. destruct (l_memRoot (hp k) =? am_addr x); cbn;
      by destruct (l_bestBet (hp k) =? am_addr x). }
  clearbody h2. clear h1. wp1. apply wp_guardj.
  { intros Hqz. hps. rewrite G1, Eq. apply (chain_last_some _ 0 _ (am_addr x)); [done|by rewrite <- Eq]. }
  hps. rewrite G1. change (if q =? 0 then _ else _) with (unlink_next q n (majors (hp k))).
  wp1. eapply wp_loadj; [done|by hps; rewrite U1|]. rewrite Ep, Enx. wp1. apply wp_guardj.
  { intros Hnz. hps. apply is_Some_unlink_next. rewrite En.
    apply (chain_first_some _ (am_addr x) _ 0); [done|by rewrite <- En]. }
  hps. change (if n =? 0 then _ else _) with (unlink_prev q n (unlink_next q n (majors (hp k)))).
  wp1. eapply wp_loadj; [done|by hps; rewrite U2|]. rewrite Epg.
  wp1. apply wp_hmod. hps.
  edestruct (liballoc_free_ok) as (k' & Ef & Eh & Er); [| |eapply wp_intro; [exact Ef|]].
  - hps. apply Hreg. set_solver.
  - by apply release_quiet_put.
  - setoid_rewrite held_put in Er. rewrite hp_put in Eh. rewrite Eh. split_and!; [done|done|].
    split; [rewrite Eh; apply (drop_ok (hp k) _ L1 x L2); [done|]|].
    + split; cbn; by rewrite <- ?Eq, <- ?En.
    + intros y Hy. apply Er; [apply Hreg; set_solver|].
      pose proof (hk_apart _ _ Hok) as Hp. apply pairwise_mid in Hp as [_ Hp]; [|apply _].
      rewrite Forall_forall in Hp. specialize (Hp y Hy).
      unfold clear_of, apart, am_end in *. lia.
Qed.

Lemma release_major_spec k L1 x L2 :
  inv k (L1 ++ x :: L2) -> release_quiet k (am_addr x) (am_pages x) ->
  wp (release_major (am_addr x)) k (fun _ k' => bytes (hp k') = bytes (hp k) /\
    minors (hp k') = minors (hp k) /\
    inv k' (match am_mins x with [] => L1 ++ L2 | _ => L1 ++ x :: L2 end)).
Proof.
  intros Hinv Hq. pose proof Hinv as [Hok Hreg]. destruct (x_header k L1 L2 x Hok) as [Hz _].
  pose proof (x_links k L1 L2 x Hok) as Ex.
  unfold release_major. wp1. eapply wp_loadj; [done..|]. set (jj := dn_mk _ _ _).
  assert (j_first jj = first_ptr (am_mins x) 0) as -> by done. subst jj.
  destruct (am_mins x) as [|m ms] eqn:Hms.
  - cbn [first_ptr Z.eqb]. by apply drop_major_spec.
  - destruct (minor_bounds _ _ Hok x m) as (? & _); [set_solver|rewrite Hms; set_solver|].
    pose proof (major_bounds _ _ Hok x ltac:(set_solver)).
    replace (first_ptr (m :: ms) 0) with m.1 by (by destruct m).
    destruct (Z.eqb_spec m.1 0); [lia|]. wp1. apply wp_hgets.
    destruct (hk_best _ _ Hok) as [->|(y & Hy & ->)]; [by apply wp_ret|].
    apply list_elem_of_split in Hy as (M1 & M2 & EM).
    destruct (x_header k M1 M2 y) as [Hzy _]; [by rewrite <- EM|].
    unfold truth. destruct (Z.eqb_spec (am_addr y) 0); [done|]. cbn [negb when].
    wp1. eapply wp_loadj; [done|apply (x_links k M1 M2 y); by rewrite <- EM|].
    apply wp_when_mod. hps. destruct (_ <? _).
    + split_and!; [by hps|by hps|]. apply best_ok; [done|set_solver].
    + assert (put (hp k) k = k) as -> by apply put_the. done.
Qed.

Lemma unlink_comm (h : gmap Z liballoc_minor) p n :
  (p = 0 \/ p ≠ n) -> unlink_next p n (unlink_prev p n h) = unlink_prev p n (unlink_next p n h).
Proof.
  intros Hpn. unfold unlink_next, unlink_prev. destruct (Z.eqb_spec p 0), (Z.eqb_spec n 0); try done.
  apply alter_alter_ne. by destruct Hpn.
Qed.

(** A minor and its neighbours are different. *)
Lemma removed_ptrs h L1 x L2 a m b :
  heap_ok h (L1 ++ x :: L2) -> am_mins x = a ++ m :: b ->
  m.1 ≠ last_ptr 0 a /\ m.1 ≠ first_ptr b 0 /\ (last_ptr 0 a = 0 \/ last_ptr 0 a ≠ first_ptr b 0).
Proof.
  intros Hok Hms. assert (x ∈ L1 ++ x :: L2) as Hx by set_solver.
  assert (forall m', m' ∈ a ++ m :: b -> 0 < m'.1) as Hpos.
  { intros m' Hm'. rewrite <- Hms in Hm'. destruct (minor_bounds _ _ Hok x m' Hx Hm') as (? & _).
    pose proof (major_bounds _ _ Hok x Hx). lia. }
  destruct (hk_ok _ _ Hok x Hx) as [_ _ _ Hl]. apply layout_nodup in Hl.
  rewrite Hms, fmap_app in Hl. cbn [fmap list_fmap] in Hl.
  apply NoDup_app in Hl as (_ & N1 & [N2 _]%NoDup_cons).
  pose proof (Hpos m ltac:(set_solver)) as Hm0.
  assert (first_ptr b 0 = 0 \/ first_ptr b 0 ∈ b.*1) as Hb
    by (destruct (decide (b = [])) as [->|]; [by left|right; by apply first_ptr_elem]).
  assert (a = [] \/ last_ptr 0 a ∈ a.*1 /\ 0 < last_ptr 0 a) as [->|[Ha Ha0]].
  { destruct (decide (a = [])) as [|Ha]; [by left|right]. split; [by apply last_ptr_elem|].
    destruct (last_ptr_in a Ha) as (m' & Hm' & ->). apply Hpos. set_solver. }
  - split_and!; [cbn; lia| |by left]. destruct Hb as [->|Hb]; [lia|]. intros E. by rewrite <- E in Hb.
  - split_and!.
    + intros E. rewrite <- E in Ha. apply (N1 _ Ha). set_solver.
    + destruct Hb as [->|Hb]; [lia|]. intros E. by rewrite <- E in Hb.
    + right. intros E. destruct Hb as [Hb|Hb]; [lia|]. apply (N1 _ Ha). rewrite E. set_solver.
Qed.

(** The part of [kfree] that takes the minor out of its block. *)
Lemma unlink_minor_spec k L1 x L2 a m b :
  inv k (L1 ++ x :: L2) -> am_mins x = a ++ m :: b ->
  let hd := dn_mk (min_node (am_addr x) m).2 (last_ptr 0 a) (first_ptr b 0) in
  wp (unlink_minor m.1 hd) k (fun _ k' =>
    exists h', k' = put h' k /\ removed_from (hp k) h' x a m b).
Proof.
  intros Hinv Hms hd. pose proof Hinv as [Hok Hreg].
  destruct (x_header k L1 L2 x Hok) as (Hz & q & n & Ex).
  pose proof (hk_minors _ _ Hok x ltac:(set_solver)) as Hc.
  rewrite Hms, min_nodes_app, min_nodes_cons in Hc. pose proof Hc as Hcc.
  apply chain_mid in Hc as (Hmz & Em & Hc1 & Hc2). rewrite min_nodes_last, min_nodes_first in Em.
  destruct (hk_ok _ _ Hok x ltac:(set_solver)) as [B1 B2 B3 Hl].
  pose proof (layout_nodup _ _ _ Hl) as Hd. rewrite Hms in Hd.
  destruct (layout_bounds _ _ _ Hl) as [Hu _]. pose proof (layout_used _ _ _ (layout_remove a b m _ _ ltac:(rewrite <- Hms; exact Hl))) as Hup.
  destruct (minor_bounds _ _ Hok x m) as (C1 & C2 & C3 & C4); [set_solver|rewrite Hms; set_solver|].
  set (p := last_ptr 0 a) in *. set (nx := first_ptr b 0) in *.
  destruct (removed_ptrs _ _ _ _ _ _ _ Hok Hms) as (Hmp & Hmn & Hpn). fold p nx in Hmp, Hmn, Hpn.
  set (h1 := alter (set_m_magic LIBALLOC_DEAD) m.1 (minors (hp k))).
  assert (h1 !! m.1 = Some (set_m_magic LIBALLOC_DEAD hd)) as Em1
    by (unfold h1; by rewrite lookup_alter_eq, Em).
  assert (unlink_prev p nx h1 !! m.1 = h1 !! m.1) as U1
    by (unfold unlink_prev; destruct (nx =? 0); [done|by apply lookup_alter_ne]).
  assert (unlink_next p nx (unlink_prev p nx h1) !! m.1 = h1 !! m.1) as U2
    by (rewrite <- U1; unfold unlink_next; destruct (p =? 0); [done|by apply lookup_alter_ne]).
  assert (m_block hd = am_addr x /\ m_size hd = m.2.1 /\ m_next hd = nx /\ m_prev hd = p)
    as (K1 & K2 & K3 & K4) by done. unfold unlink_minor. cbv zeta. rewrite K1, K2, K3, K4. unfold sizeof_minor.
  assert (0 <= used b) by (rewrite Hms in Hl; apply layout_app in Hl as [_ (_ & _ & _ & Hl)];
    by eapply layout_used).
  rewrite Hms in Hu. rewrite !used_app, used_cons in Hu. rewrite used_app in Hup.
  rewrite (wrap_small 64 (m.2.1 + 40)) by (unfold in_u, min_end, am_end in *; lia).
  wp1. apply wp_hmod. wp1. apply wp_updj; [done|by hps; rewrite Ex|]. hps.
  wp1. apply wp_updm; [done|by hps; rewrite Em|]. hps. fold h1. wp1. apply wp_guardm.
  { intros Hnz. hps. apply is_Some_alter. unfold nx. rewrite <- (min_nodes_first (am_addr x)).
    apply (chain_first_some _ m.1 _ 0); [done|by rewrite min_nodes_first]. }
  hps. change (if nx =? 0 then _ else _) with (unlink_prev p nx h1).
  wp1. eapply wp_loadm; [done|by hps; rewrite U1|]. hps.
  change (m_prev (set_m_magic LIBALLOC_DEAD hd)) with p.
  change (m_next (set_m_magic LIBALLOC_DEAD hd)) with nx. wp1. apply wp_guardm.
  { intros Hpz. hps. unfold unlink_prev, h1.
    assert (is_Some (minors (hp k) !! p)) as Hp.
    { unfold p. rewrite <- (min_nodes_last (am_addr x)).
      apply (chain_last_some _ 0 _ m.1); [done|by rewrite min_nodes_last]. }
    destruct (nx =? 0); rewrite !is_Some_alter; done. }
  hps. change (if p =? 0 then _ else _) with (unlink_next p nx (unlink_prev p nx h1)).
  wp1. eapply wp_loadm; [done|by hps; rewrite U2|].
  change (m_prev (set_m_magic LIBALLOC_DEAD hd)) with p.
  change (m_next (set_m_magic LIBALLOC_DEAD hd)) with nx.
  assert (forall q' n', MkMajor q' n' (am_pages x) (am_pages x * 4096)
    (u32 (40 + used (am_mins x) - (m.2.1 + 40))) (first_ptr (a ++ b) 0) =
    dn_mk (maj_node (with_mins x (a ++ b))).2 q' n') as Hpay.
  { intros q' n'. unfold maj_node. cbn -[used wrap]. f_equal. rewrite Hms, !used_app, used_cons.
    rewrite wrap_small; [lia|]. unfold in_u, am_end in *. lia. }
  rewrite unlink_comm by done.
  destruct (Z.eqb_spec p 0) as [Ep|Ep]; cbn [when].
  - apply wp_updj; [done|by hps; rewrite is_Some_alter, Ex|]. hps. eexists. split; [done|].
    assert (a = []) as Ea.
    { destruct (decide (a = [])) as [|Ha]; [done|]. destruct (last_ptr_in a Ha) as (m' & Hm' & E').
      fold p in E'. destruct (minor_bounds _ _ Hok x m') as (? & _); [set_solver|rewrite Hms; set_solver|]. lia. }
    split; [|by hps|done..]. eexists. split; [hps; by rewrite alter_alter_eq|].
    intros q' n'. rewrite <- Hpay. unfold maj_node. cbn -[used wrap]. by rewrite Ea.
  - apply wp_ret. eexists. split; [done|]. split; [|by hps|done..]. eexists. split; [hps; reflexivity|].
    intros q' n'. rewrite <- Hpay. unfold maj_node. cbn -[used wrap]. unfold set_j_usage. cbn -[used wrap].
    f_equal. rewrite Hms. rewrite !first_ptr_app. destruct a as [|[??]]; [done|]. done.
Qed.

Lemma kfree_spec k L1 x L2 a m b :
  inv k (L1 ++ x :: L2) -> am_mins x = a ++ m :: b ->
  release_quiet k (am_addr x) (am_pages x) ->
  wp (kfree (aligned (m.1 + 40))) k (fun _ k' => inv k' (freed L1 x a b L2) /\
    bytes (hp k') = bytes (hp k) /\
    exists hd, minors (hp k') !! m.1 = Some hd /\ m_magic hd = LIBALLOC_DEAD).
Proof.
  intros Hinv Hms Hq. pose proof Hinv as [Hok Hreg].
  pose proof (hk_minors _ _ Hok x ltac:(set_solver)) as Hc.
  rewrite Hms, min_nodes_app, min_nodes_cons in Hc.
  apply chain_mid in Hc as (Hmz & Em & _). rewrite min_nodes_last, min_nodes_first in Em.
  assert (m ∈ am_mins x) as Hm by (rewrite Hms; set_solver).
  destruct (minor_bounds _ _ Hok x m) as (C1 & C2 & C3 & C4); [set_solver|done|].
  pose proof (major_bounds _ _ Hok x ltac:(set_solver)). pose proof (aligned_spec (m.1 + 40)) as [? _].
  unfold kfree. destruct (Z.eqb_spec (aligned (m.1 + 40)) 0); [lia|].
  wp1. eapply wp_intro; [apply UNALIGN_run; [unfold min_end in *; lia|apply (hk_bytes _ _ Hok x m); [set_solver|done]]|].
  unfold sizeof_minor. cbv zeta. replace (m.1 + 40 - 40) with m.1 by lia.
  rewrite (wrap_small 64 m.1) by (unfold in_u, min_end in *; lia).
  wp1. eapply wp_loadm; [done..|]. change (m_magic (dn_mk _ _ _)) with LIBALLOC_MAGIC.
  rewrite Z.eqb_refl. cbn [negb].
  wp1. eapply wp_mono; [by apply (unlink_minor_spec k L1 x L2 a m b)|]. intros [] k1 (h1 & -> & Hrf).
  change (m_block (dn_mk _ _ _)) with (am_addr (with_mins x (a ++ b))).
  assert (inv (put h1 k) (L1 ++ with_mins x (a ++ b) :: L2)) as Hinv1.
  { split; [hps; by eapply remove_ok|]. intros y Hy. hps.
    apply elem_of_app in Hy as [Hy|[->|Hy]%elem_of_cons]; [apply Hreg; set_solver| |apply Hreg; set_solver].
    apply (Hreg x). set_solver. }
  eapply wp_mono; [apply (release_major_spec _ L1 _ L2 Hinv1); by apply release_quiet_put|].
  hps. intros [] k2 (E1 & E2 & Hinv2). split_and!.
  - unfold freed. by destruct (a ++ b).
  - by rewrite E1, (rf_bytes _ _ _ _ _ _ Hrf).
  - rewrite E2, (rf_minors _ _ _ _ _ _ Hrf). eexists. rewrite unlink_frame.
    + rewrite lookup_alter_eq, Em. by split.
    + by eapply removed_ptrs.
    + by eapply removed_ptrs.
Qed.
End Spec.
End LiballocSpec.
