(* ===== verification/LiballocProps.v ===== *)
(** What the kernel heap guarantees to its clients: the properties of [kmalloc],
    [kfree], [kcalloc] and [krealloc], over any page hooks that keep their contract.
    [BumpHooks] is a small instance of the hooks on which they are tried out. *)
From S2P Require Import Prelude KMonad DList Liballoc LiballocInv LiballocSpec.
Import Liballoc LiballocInv LiballocSpec.

Module LiballocProps.

(** ** Bytes *)
Lemma rdb_wrb a v h c : rdb (wrb a v h) c = if decide (c = a) then v else rdb h c.
Proof.
  unfold rdb, wrb. cbn. case_decide as E; [by rewrite E, lookup_insert_eq|].
  by rewrite lookup_insert_ne.
Qed.

(** [h'] differs from [h] in bytes only. *)
Definition only_bytes (h h' : heap) : Prop := exists b, h' = set_bytes b h.
Lemma only_bytes_refl h : only_bytes h h.
Proof. exists (bytes h). by destruct h. Qed.
Lemma only_bytes_wrb a v h h' : only_bytes h h' -> only_bytes h (wrb a v h').
Proof. intros [b ->]. by eexists. Qed.

Lemma memset_loop_spec n i s c h :
  0 <= i -> 0 <= s -> s + i + Z.of_nat n < 2 ^ 64 ->
  only_bytes h (memset_loop n i s c h) /\
  forall a, rdb (memset_loop n i s c h) a =
    if decide (s + i <= a < s + i + Z.of_nat n) then c else rdb h a.
Proof.
  revert i h. induction n as [|n IH]; intros i h Hi Hs Hn; cbn [memset_loop].
  { split; [apply only_bytes_refl|]. intros a. by rewrite decide_False by lia. }
  rewrite wrap_small by (unfold in_u; lia).
  destruct (IH (i + 1) (wrb (s + i) c h) ltac:(lia) Hs ltac:(lia)) as [[b E] Hr].
  split; [rewrite E; by exists b|]. intros a. rewrite Hr, rdb_wrb.
  destruct (decide (a = s + i)) as [->|]; [by rewrite decide_False, decide_True by lia|].
  case_decide; [by rewrite decide_True by lia|by rewrite decide_False by lia].
Qed.

(** Copying between two ranges that do not overlap. *)
Lemma copy_bytes_spec n d s h :
  0 <= d -> 0 <= s -> d + Z.of_nat n < 2 ^ 64 -> s + Z.of_nat n < 2 ^ 64 ->
  (d + Z.of_nat n <= s \/ s + Z.of_nat n <= d) ->
  only_bytes h (copy_bytes n d s h) /\
  forall a, rdb (copy_bytes n d s h) a =
    if decide (d <= a < d + Z.of_nat n) then rdb h (s + (a - d)) else rdb h a.
Proof.
  revert d s h. induction n as [|n IH]; intros d s h Hd Hs Hdn Hsn Hap; cbn [copy_bytes].
  { split; [apply only_bytes_refl|]. intros a. by rewrite decide_False by lia. }
  rewrite !wrap_small by (unfold in_u; lia).
  destruct (IH (d + 1) (s + 1) (wrb d (rdb h s) h)) as [[b E] Hr]; [lia..|].
  split; [rewrite E; by exists b|]. intros a. rewrite Hr, !rdb_wrb.
  destruct (decide (a = d)) as [->|].
  - rewrite decide_False, decide_True by lia. f_equal. lia.
  - case_decide.
    + rewrite decide_False, decide_True by lia. f_equal. lia.
    + by rewrite decide_False by lia.
Qed.

Lemma copy_word_spec d s h :
  0 <= d -> 0 <= s -> d + 4 < 2 ^ 64 -> s + 4 < 2 ^ 64 -> (d + 4 <= s \/ s + 4 <= d) ->
  only_bytes h (copy_word d s h) /\
  forall a, rdb (copy_word d s h) a = if decide (d <= a < d + 4) then rdb h (s + (a - d)) else rdb h a.
Proof.
  intros. unfold copy_word. rewrite !wrap_small by (unfold in_u; lia).
  split; [repeat apply only_bytes_wrb; apply only_bytes_refl|]. intros a. rewrite !rdb_wrb.
  repeat case_decide; subst; try lia; try done; f_equal; lia.
Qed.

Lemma copy_words_spec n d s h :
  0 <= d -> 0 <= s -> d + 4 * Z.of_nat n < 2 ^ 64 -> s + 4 * Z.of_nat n < 2 ^ 64 ->
  (d + 4 * Z.of_nat n <= s \/ s + 4 * Z.of_nat n <= d) ->
  only_bytes h (copy_words n d s h) /\
  forall a, rdb (copy_words n d s h) a =
    if decide (d <= a < d + 4 * Z.of_nat n) then rdb h (s + (a - d)) else rdb h a.
Proof.
  revert d s h. induction n as [|n IH]; intros d s h Hd Hs Hdn Hsn Hap; cbn [copy_words].
  { split; [apply only_bytes_refl|]. intros a. by rewrite decide_False by lia. }
  rewrite !wrap_small by (unfold in_u; lia).
  destruct (copy_word_spec d s h) as [[b0 E0] Hw]; [lia..|].
  destruct (IH (d + 4) (s + 4) (copy_word d s h)) as [[b E] Hr]; [lia..|].
  split; [rewrite E, E0; by exists b|]. intros a. rewrite Hr, !Hw.
  case_decide.
  - rewrite decide_False, decide_True by lia. f_equal. lia.
  - case_decide; [by rewrite decide_True by lia|by rewrite decide_False by lia].
Qed.

Section Props.
Context {K : Type} `{!Has heap K} `{!PageHooks K} `{!PageHooksOk K}.
Implicit Types (k : K) (L : list amaj).

Lemma memcpy_run d s n k :
  0 <= d -> 0 <= s -> 0 <= n -> d + n < 2 ^ 64 -> s + n < 2 ^ 64 -> (d + n <= s \/ s + n <= d) ->
  exists h', liballoc_memcpy d s n k = Some (d, put h' k) /\ only_bytes (hp k) h' /\
    forall a, rdb h' a = if decide (d <= a < d + n) then rdb (hp k) (s + (a - d)) else rdb (hp k) a.
Proof.
  intros. pose proof (Z.div_mod n 4 ltac:(lia)) as Hn. pose proof (Z.mod_pos_bound n 4 ltac:(lia)).
  pose proof (Z.div_pos n 4 ltac:(lia) ltac:(lia)).
  unfold liballoc_memcpy, bind, smod, modify, ret. fold (hp k).
  eexists. split; [done|]. rewrite !wrap_small by (unfold in_u; lia).
  destruct (copy_words_spec (Z.to_nat (n / 4)) d s (hp k)) as [[b0 E0] Hw]; [lia..|].
  destruct (copy_bytes_spec (Z.to_nat (n mod 4)) (d + 4 * (n / 4)) (s + 4 * (n / 4))
    (copy_words (Z.to_nat (n / 4)) d s (hp k))) as [[b E] Hr]; [lia..|].
  split; [rewrite E, E0; by exists b|]. intros a. rewrite Hr, !Hw. rewrite !Z2Nat.id in * by lia.
  case_decide.
  - rewrite decide_False, decide_True by lia. f_equal. lia.
  - case_decide; [by rewrite decide_True by lia|by rewrite decide_False by lia].
Qed.

(** Writing into the memory of a minor, behind its pointer, keeps the invariant. *)
Lemma data_write_inv k L x m h' :
  inv k L -> x ∈ L -> m ∈ am_mins x -> only_bytes (hp k) h' ->
  (forall c, ~ (aligned (m.1 + 40) <= c < min_end m) -> rdb h' c = rdb (hp k) c) ->
  inv (put h' k) L.
Proof.
  intros [Hok Hreg] Hx Hm [b ->] Hout. split; [|by intros y Hy; rewrite held_put; auto].
  rewrite hp_put. pose proof Hok as [H1 H2 H3 H4 H5 H6 H7]. split; try done.
  intros y m' Hy Hm'. rewrite Hout; [by apply (H7 y)|].
  pose proof (aligned_spec (m.1 + 40)) as [? _]. pose proof (aligned_spec (m'.1 + 40)) as [? _].
  destruct (minor_bounds _ _ Hok y m' Hy Hm') as (? & ? & ? & ?).
  destruct (minor_apart _ _ Hok x y m m' Hx Hy Hm Hm') as [[_ <-]|[?|?]]; unfold min_end in *; lia.
Qed.

(** Where a request was placed. *)
Lemma allocated_in size req p m L L' :
  allocated size req p m L L' ->
  exists x, x ∈ L' /\ (m, (size, req)) ∈ am_mins x /\ p = aligned (m + 40) /\
    (forall y m', y ∈ L -> m' ∈ am_mins y ->
      exists y', y' ∈ L' /\ am_addr y' = am_addr y /\ am_pages y' = am_pages y /\ m' ∈ am_mins y').
Proof.
  intros (L1 & x & L2 & a & b & Ht & Hms & -> & ->).
  exists (with_mins x (a ++ (m, (size, req)) :: b)). split_and!; [set_solver|cbn; set_solver|done|].
  intros y m' Hy Hm'. destruct Ht as [->|(-> & -> & _)].
  - apply elem_of_app in Hy as [Hy|[->|Hy]%elem_of_cons]; [exists y; set_solver| |exists y; set_solver].
    exists (with_mins x (a ++ (m, (size, req)) :: b)). cbn. rewrite Hms in Hm'. set_solver.
  - exists y. set_solver.
Qed.

(** The memory of a new minor overlaps no other minor, and no block's header. *)
Lemma allocated_apart h size req p m L L' :
  heap_ok h L' -> allocated size req p m L L' ->
  m + 56 <= p /\ p + req <= m + 40 + size /\ p mod 16 = 0 /\
  (forall y m', y ∈ L -> m' ∈ am_mins y -> m + 40 + size <= m'.1 \/ min_end m' <= m) /\
  (forall y, y ∈ L -> p + req <= am_addr y \/ am_addr y + 40 <= p).
Proof.
  intros Hok Hal. destruct (allocated_in _ _ _ _ _ _ Hal) as (x' & Hx' & Hm & Ep & Hold).
  destruct (minor_bounds _ _ Hok x' _ Hx' Hm) as (B1 & B2 & B3 & B4). unfold min_end in *. cbn in *.
  pose proof (aligned_spec (m + 40)) as [A1 A2]. rewrite Ep. split_and!; [lia|lia|done| |].
  - intros y m' Hy Hm'. destruct (Hold y m' Hy Hm') as (y' & Hy' & _ & _ & Hm'').
    destruct (minor_apart _ _ Hok x' y' _ m' Hx' Hy' Hm Hm'') as [[_ E]|?]; [|done].
    exfalso. destruct Hal as (L1 & x & L2 & a & b & Ht & Hms & -> & _). subst m'.
    assert (y ∈ L1 ++ L2 \/ (y = x /\ (m, (size, req)) ∈ a ++ b)) as [Hyo|[-> Hab]].
    { destruct Ht as [->|(-> & -> & _)]; [|left; set_solver].
      apply elem_of_app in Hy as [Hy|[->|Hy]%elem_of_cons]; [left; set_solver| |left; set_solver].
      right. by rewrite <- Hms. }
    + apply (mins_disjoint _ _ _ _ y (m, (size, req)) (m, (size, req)) Hok Hyo Hm'); [cbn; set_solver|done].
    + destruct (hk_ok _ _ Hok (with_mins x (a ++ (m, (size, req)) :: b)) ltac:(set_solver)) as [_ _ _ Hl].
      apply layout_nodup in Hl. cbn in Hl. destruct (nodup_mid _ _ _ _ Hl) as [_ Hn].
      destruct (Hn m); [|done]. by apply (list_elem_of_fmap_2 fst _ (m, (size, req))).
  - intros y Hy. assert (exists y', y' ∈ L' /\ am_addr y' = am_addr y) as (y' & Hy' & <-).
    { destruct Hal as (L1 & x & L2 & a & b & Ht & Hms & -> & _). destruct Ht as [->|(-> & -> & _)].
      - apply elem_of_app in Hy as [Hy|[->|Hy]%elem_of_cons]; [exists y; set_solver| |exists y; set_solver].
        eexists. split; [apply elem_of_app; right; apply elem_of_cons; by left|done].
      - exists y. set_solver. }
    destruct (pairwise_elem apart _ x' y' (hk_apart _ _ Hok) Hx' Hy') as [<-|Hap]; [lia|].
    pose proof (major_bounds _ _ Hok x' Hx'). pose proof (major_bounds _ _ Hok y' Hy').
    unfold apart in Hap. lia.
Qed.



Lemma roundtrip_list size req p m L L' :
  allocated size req p m L L' -> (forall x, x ∈ L -> am_mins x ≠ []) ->
  exists L1 x' L2 a b, L' = L1 ++ x' :: L2 /\ am_mins x' = a ++ (m, (size, req)) :: b /\
    freed L1 x' a b L2 = L.
Proof.
  intros (L1 & x & L2 & a & b & Ht & Hms & -> & _) Hne.
  exists L1, (with_mins x (a ++ (m, (size, req)) :: b)), L2, a, b. split_and!; [done..|].
  unfold freed. rewrite <- Hms. destruct Ht as [->|(-> & -> & n & ->)]; [|by rewrite app_nil_r].
  specialize (Hne x ltac:(set_solver)). destruct x as [ad pg ms]. cbn in *. by destruct ms.
Qed.

(** [kfree] undoes [kmalloc].  When no block of the heap is empty, allocating and
    freeing the pointer at once brings the abstract heap back: the same blocks with the
    same minors at the same addresses, a block that was fetched for the request given
    back to the system. *)
Theorem kmalloc_kfree_roundtrip k k1 L (req p : Z) (Hinv : inv k L) (Hr : 0 <= req < 2 ^ 31 - 32)
    (Hne : forall x, x ∈ L -> am_mins x ≠ [])
    (Hq : alloc_quiet k (pages_for (req + 32))) (Hm : kmalloc req k = Some (p, k1)) (Hp : p ≠ 0)
    (Hq1 : forall a st, release_quiet k1 a st) :
  exists k2, kfree p k1 = Some (tt, k2) /\ inv k2 L.
Proof.
  pose proof (kmalloc_spec k L req Hr Hinv Hq) as Hwp. unfold wp in Hwp. rewrite Hm in Hwp.
  destruct Hwp as [[? _]|(m & L' & Hal & Hinv' & _)]; [done|].
  destruct (roundtrip_list _ _ _ _ _ _ Hal Hne) as (L1 & x' & L2 & a & b & -> & Hms & EL).
  destruct (wp_run _ _ _ (kfree_spec k1 L1 x' L2 a _ b Hinv' Hms (Hq1 _ _)))
    as ([] & k2 & E & Hinv2 & _).
  destruct Hal as (? & ? & ? & ? & ? & _ & _ & _ & ->). exists k2. rewrite EL in Hinv2. done.
Qed.

(** C16: a double free is detected.  After a pointer has been freed, freeing it again
    only counts an error: no list, byte or counter of the heap changes otherwise. *)
Theorem kfree_twice_detected k k1 L1 (x : amaj) L2 (a b : list amin) (m : amin)
    (Hinv : inv k (L1 ++ x :: L2)) (Hms : am_mins x = a ++ m :: b)
    (Hq : release_quiet k (am_addr x) (am_pages x))
    (Hf : kfree (aligned (m.1 + 40)) k = Some (tt, k1)) :
  kfree (aligned (m.1 + 40)) k1 = Some (tt, put (count_error 0 (hp k1)) k1).
Proof.
  pose proof (kfree_spec k L1 x L2 a m b Hinv Hms Hq) as Hwp. unfold wp in Hwp. rewrite Hf in Hwp.
  destruct Hwp as (_ & Eb & hd & Ehd & Emg). pose proof (inv_heap _ _ Hinv) as Hok.
  assert (m ∈ am_mins x) as Hm by (rewrite Hms; set_solver).
  destruct (minor_bounds _ _ Hok x m) as (C1 & C2 & C3 & C4); [set_solver|done|].
  pose proof (major_bounds _ _ Hok x ltac:(set_solver)). pose proof (aligned_spec (m.1 + 40)) as [? _].
  unfold kfree. destruct (Z.eqb_spec (aligned (m.1 + 40)) 0); [lia|]. unfold bind.
  rewrite UNALIGN_run; [|unfold min_end in *; lia|unfold rdb; rewrite Eb;
    apply (hk_bytes _ _ Hok x m); [set_solver|done]].
  unfold sizeof_minor. replace (m.1 + 40 - 40) with m.1 by lia.
  rewrite (wrap_small 64 m.1) by (unfold in_u, min_end in *; lia).
  unfold loadm. destruct (Z.eqb_spec m.1 0); [lia|]. rewrite Ehd, Emg. done.
Qed.
(** [kcalloc] hands out zeroed memory.  For a product of the arguments below 2 GiB it
    returns NULL or a fresh block of [nobj * size] bytes, as [kmalloc] does, all of which
    read as 0. *)
Theorem kcalloc_zeroed k L (nobj size : Z) (Hinv : inv k L) (Hn : 0 <= nobj) (Hs : 0 <= size)
    (Hr : nobj * size < 2 ^ 31 - 32) (Hq : alloc_quiet k (pages_for (nobj * size + 32))) :
  exists p k', kcalloc nobj size k = Some (p, k') /\
    ((p = 0 /\ inv k' L) \/
     (exists m L', inv k' L' /\ allocated (nobj * size + 32) (nobj * size) p m L L' /\
       forall i, p <= i < p + nobj * size -> rdb (hp k') i = 0)).
Proof.
  set (n := nobj * size) in *. assert (0 <= n) as Hn0 by (unfold n; nia).
  pose proof (kmalloc_spec k L n ltac:(lia) Hinv Hq) as Hwp.
  apply wp_run in Hwp as (p & k1 & E & Hpost). unfold kcalloc. fold n.
  rewrite (wrap_small 64 n) by (unfold in_u; lia). unfold bind at 1. rewrite E.
  destruct Hpost as [(-> & Hinv1 & _)|(m & L' & Hal & Hinv1 & Eb & _)]; [exists 0, k1; split; [done|by left]|].
  destruct (allocated_apart _ _ _ _ _ _ _ (inv_heap _ _ Hinv1) Hal) as (H1 & H2 & H3 & _ & _).
  destruct (allocated_in _ _ _ _ _ _ Hal) as (x & Hx & Hm & Ep & _).
  destruct (minor_bounds _ _ (inv_heap _ _ Hinv1) x _ Hx Hm) as (B1 & B2 & _).
  pose proof (major_bounds _ _ (inv_heap _ _ Hinv1) x Hx).
  rewrite min_end_mk in B2. cbn [fst] in B1. destruct (Z.eqb_spec p 0); [lia|].
  destruct (memset_loop_spec (Z.to_nat n) 0 p 0 (hp k1)) as [Hob Hset]; [lia..|].
  rewrite Z.add_0_r, Z2Nat.id in Hset by lia.
  unfold liballoc_memset, bind, smod, modify, ret. fold (hp k1). change (u8 0) with 0.
  eexists p, _. split; [done|]. right. exists m, L'. split_and!; [|done|].
  - apply (data_write_inv k1 L' x (m, (n + 32, n))); [done..|]. rewrite min_end_mk. cbn [fst].
    intros c Hc. rewrite Hset, decide_False; [done|]. rewrite <- Ep in Hc. lia.
  - intros i Hi. rewrite hp_put, Hset. by rewrite decide_True.
Qed.

(** *** Resizing *)
Lemma resize_ok h L1 x L2 a b m size :
  heap_ok h (L1 ++ x :: L2) -> am_mins x = a ++ m :: b -> 0 <= size <= m.2.2 ->
  heap_ok (set_minors (alter (set_m_req_size size) m.1 (minors h)) h)
    (L1 ++ with_mins x (a ++ (m.1, (m.2.1, size)) :: b) :: L2).
Proof.
  intros Hok Hms Hs. pose proof Hok as [H1 H2 H3 H4 H5 H6 H7].
  assert (x ∈ L1 ++ x :: L2) as Hx by set_solver. destruct m as [ma [ms mr]]. cbn [fst snd] in *.
  assert (used (a ++ (ma, (ms, mr)) :: b) = used (a ++ (ma, (ms, size)) :: b)) as Eu
    by (by rewrite !used_app, !used_cons).
  assert (maj_node (with_mins x (a ++ (ma, (ms, size)) :: b)) = maj_node x) as En.
  { unfold maj_node. cbn [am_addr am_pages am_mins with_mins].
    rewrite Hms, Eu. by rewrite !first_ptr_app. }
  split; cbn [majors minors bytes l_memRoot l_bestBet set_minors].
  - rewrite fmap_app in H1 |- *. cbn [fmap list_fmap] in H1 |- *. by rewrite En.
  - intros y Hy. apply elem_of_app in Hy as [Hy|[->|Hy]%elem_of_cons].
    2: { cbn [am_addr am_mins with_mins]. specialize (H2 x Hx).
      destruct (H3 x Hx) as [_ _ _ Hl]. apply layout_nodup in Hl.
      rewrite Hms, min_nodes_app, min_nodes_cons in H2. rewrite min_nodes_app, min_nodes_cons.
      eapply (chain_set_payload _ _ _ _ (min_node (am_addr x) (ma, (ms, mr))).2); [| |exact H2]; [|done].
      rewrite Hms, fmap_app in Hl. rewrite fmap_app. cbn [fmap list_fmap fst] in Hl |- *.
      by rewrite !min_nodes_fst. }
    all: apply chain_alter_out; [|apply H2; set_solver]; rewrite min_nodes_fst;
      intros (m' & E & Hm')%list_elem_of_fmap; cbn in E;
      apply (mins_disjoint _ _ _ _ y m' (ma, (ms, mr)) Hok); [set_solver|done|rewrite Hms; set_solver|done].
  - intros y Hy. apply elem_of_app in Hy as [Hy|[->|Hy]%elem_of_cons]; [apply H3; set_solver| |apply H3; set_solver].
    destruct (H3 x Hx) as [? ? ? Hl]. split; [done..|]. cbn [am_addr am_mins with_mins].
    rewrite Hms in Hl. apply layout_app in Hl as [Hl1 (G1 & G2 & G3 & G4)].
    apply layout_app. split; [done|]. cbn [fst snd] in *. cbn [layout fst snd] in *. split_and!; [done|lia|lia|done].
  - apply pairwise_mid in H4 as [Hp Hf]; [|apply _]. by apply pairwise_mid; [apply _|].
  - rewrite H5, !fmap_app. cbn [fmap list_fmap]. by rewrite En.
  - destruct H6 as [?|(y & Hy & E)]; [by left|right].
    apply elem_of_app in Hy as [Hy|[->|Hy]%elem_of_cons]; [exists y; set_solver| |exists y; set_solver].
    eexists. split; [apply elem_of_app; right; apply elem_of_cons; by left|done].
  - intros y m' Hy Hm'. apply elem_of_app in Hy as [Hy|[->|Hy]%elem_of_cons].
    2: { cbn in Hm'. apply elem_of_app in Hm' as [Hm'|[->|Hm']%elem_of_cons].
      2: { apply (H7 x (ma, (ms, mr))); [done|rewrite Hms; set_solver]. }
      all: apply (H7 x m'); [done|rewrite Hms; set_solver]. }
    all: apply (H7 y m'); [set_solver|done].
Qed.
(** A minor other than the one freed stays. *)
Lemma freed_keeps M1 xm M2 a b m L x' m' :
  L = M1 ++ xm :: M2 -> am_mins xm = a ++ m :: b -> x' ∈ L -> m' ∈ am_mins x' -> m' ≠ m ->
  exists x'', x'' ∈ freed M1 xm a b M2 /\ m' ∈ am_mins x''.
Proof.
  intros -> Hms Hx Hm Hne. unfold freed. apply elem_of_app in Hx as [Hx|[->|Hx]%elem_of_cons].
  - exists x'. split; [|done]. destruct (a ++ b); set_solver.
  - assert (m' ∈ a ++ b) as Hab by (rewrite Hms in Hm; set_solver).
    exists (with_mins xm (a ++ b)). destruct (a ++ b) as [|m0 l]; [by apply not_elem_of_nil in Hab|].
    split; [set_solver|done].
  - exists x'. split; [|done]. destruct (a ++ b); set_solver.
Qed.

(** The growing branch of [krealloc]: copy, then free. *)
Lemma realloc_move k1 L1 x L2 a b m L' size p' m' :
  let p := aligned (m.1 + 40) in
  inv k1 L' -> allocated (size + 32) size p' m' (L1 ++ x :: L2) L' -> am_mins x = a ++ m :: b ->
  m.2.2 < size -> release_quiet k1 (am_addr x) (am_pages x) ->
  wp (liballoc_memcpy p' p m.2.2 ;;; kfree p ;;; ret p') k1 (fun r k' => r = p' /\
    (forall i, 0 <= i < m.2.2 -> rdb (hp k') (p' + i) = rdb (hp k1) (p + i)) /\
    exists L'' x'', inv k' L'' /\ x'' ∈ L'' /\ (m', (size + 32, size)) ∈ am_mins x'').
Proof.
  intros p Hinv Hal Hms Hlt Hq. pose proof (inv_heap _ _ Hinv) as Hok.
  destruct (allocated_apart _ _ _ _ _ _ _ Hok Hal) as (A1 & A2 & A3 & A4 & A5).
  destruct (allocated_in _ _ _ _ _ _ Hal) as (xn & Hxn & Hmn & Ep & Hold).
  destruct (Hold x m) as (y & Hy & Ey1 & Ey2 & Hmy); [set_solver|rewrite Hms; set_solver|].
  specialize (A4 x m ltac:(set_solver) ltac:(rewrite Hms; set_solver)).
  destruct (minor_bounds _ _ Hok y m Hy Hmy) as (B1 & B2 & B3 & B4).
  destruct (minor_bounds _ _ Hok xn _ Hxn Hmn) as (C1 & C2 & C3 & C4). cbn [fst snd] in *.
  pose proof (major_bounds _ _ Hok y Hy). pose proof (major_bounds _ _ Hok xn Hxn).
  pose proof (aligned_spec (m.1 + 40)) as [D1 _]. fold p in D1. unfold min_end in *. cbn [fst snd] in *.
  destruct (memcpy_run p' p m.2.2 k1) as (h' & Ec & Hob & Hcp); [lia..|].
  wp1. eapply wp_intro; [exact Ec|]. assert (inv (put h' k1) L') as Hinv'.
  { apply (data_write_inv k1 L' xn (m', (size + 32, size))); [done..|]. rewrite min_end_mk. cbn [fst].
    intros c Hc. rewrite Hcp, decide_False; [done|]. lia. }
  apply list_elem_of_split in Hy as (M1 & M2 & EM). apply list_elem_of_split in Hmy as (a' & b' & Eab).
  rewrite EM in Hinv'. wp1.
  eapply wp_mono; [apply (kfree_spec _ M1 y M2 a' m b' Hinv' Eab); apply release_quiet_put; congruence|].
  intros [] k2 (Hinv2 & Eb & _). apply wp_ret. rewrite hp_put in Eb. split_and!; [done| |].
  - intros i Hi. unfold rdb at 1. rewrite Eb. fold (rdb h' (p' + i)). rewrite Hcp, decide_True by lia.
    f_equal. lia.
  - destruct (freed_keeps M1 y M2 a' b' m L' xn (m', (size + 32, size)) EM Eab Hxn Hmn)
      as (x'' & Hx'' & Hm''); [intros E; rewrite <- E in *; cbn in *; lia|].
    by exists (freed M1 y a' b' M2), x''.
Qed.

End Props.
(** ** A concrete heap
    Page hooks that hand out ever higher addresses. *)
Record bump := MkBump { b_heap : heap; b_next : Z; b_regions : gset (Z * Z) }.

#[export] Instance bump_heap : Has heap bump.
Proof.
  by refine {| the := b_heap; put := fun h k => MkBump h (b_next k) (b_regions k) |};
    intros; [..|destruct k].
Defined.

#[export] Instance bump_hooks : PageHooks bump := {|
  liballoc_alloc := fun st k =>
    let a := b_next k in
    if 2 ^ 47 <? a + st * 4096 then Some (0, k)
    else Some (a, MkBump (b_heap k) (a + st * 4096) ({[(a, st)]} ∪ b_regions k));
  liballoc_free := fun a st k =>
    Some (tt, MkBump (b_heap k) (b_next k) (b_regions k ∖ {[(a, st)]}))
|}.

#[export] Instance bump_hooks_ok : PageHooksOk bump.
Proof.
  refine {| held := fun k a n => (a, n) ∈ b_regions k /\ 0 < n;
    alloc_quiet := fun k _ => 0 < b_next k /\
      forall r, r ∈ b_regions k -> r.1 + r.2 * 4096 <= b_next k;
    release_quiet := fun _ _ _ => True |}; try done.
  - intros k st [Hp Hr] Hst. cbn -[Z.pow]. destruct (Z.ltb_spec (2 ^ 47) (b_next k + st * 4096)).
    + eexists _, _. split; [done|]. split_and!; [done..|by left].
    + eexists _, _. split; [done|]. cbn -[Z.pow]. split_and!; [done|set_solver|right].
      split_and!; [lia|lia|set_solver|lia|]. intros b n [Hin _]. right. by apply (Hr (b, n)).
  - intros k a st _ _. eexists. split; [done|]. cbn. split; [done|]. unfold clear_of.
    intros b n [Hin Hn] Hc. split; [|done]. apply elem_of_difference. split; [done|].
    intros [= -> ->]%elem_of_singleton. lia.
Defined.

Definition bump0 : bump := MkBump heap_start 0x200000 ∅.
(** After the first [kmalloc(100)]. *)
Definition bump1 : bump := match kmalloc 100 bump0 with Some (_, k) => k | None => bump0 end.
Definition bump1_blocks : list amaj := [AMaj 0x200000 16 [(0x200028, (132, 100))]].

Lemma bump0_inv : inv bump0 [].
Proof.
  split; [|by intros x ?%not_elem_of_nil].
  split; cbn; try done; try (by intros x ?%not_elem_of_nil); [by left|by intros x m ?%not_elem_of_nil].
Qed.

Lemma bump0_quiet st : alloc_quiet bump0 st.
Proof. split; [cbn; lia|]. intros r Hr. cbn in Hr. set_solver. Qed.

Lemma bump1_inv : inv bump1 bump1_blocks.
Proof.
  split; [split|].
  - vm_compute. split_and!; done.
  - intros x ->%list_elem_of_singleton. vm_compute. split_and!; done.
  - intros x ->%list_elem_of_singleton. split; [done|done|done|]. vm_compute. split_and!; done.
  - done.
  - by vm_compute.
  - right. eexists. split; [by apply list_elem_of_singleton|]. by vm_compute.
  - intros x m ->%list_elem_of_singleton Hm. cbn in Hm. apply list_elem_of_singleton in Hm as ->.
    by vm_compute.
  - intros x ->%list_elem_of_singleton. split; [|done]. apply elem_of_union_l. by apply elem_of_singleton.
Qed.

Lemma bump1_quiet st : alloc_quiet bump1 st.
Proof.
  split; [by vm_compute|]. intros r Hr. change (b_regions bump1) with ({[(0x200000, 16)]} ∪ ∅ : gset (Z * Z)) in Hr.
  assert (r = (0x200000, 16)) as -> by set_solver. by vm_compute.
Qed.



Lemma kmalloc_kfree_roundtrip_witness :
  exists k1 k2, kmalloc 50 bump1 = Some (0x200110, k1) /\ kfree 0x200110 k1 = Some (tt, k2) /\
    inv k2 bump1_blocks.
Proof.
  destruct (kmalloc 50 bump1) as [[p k1]|] eqn:E; [|by vm_compute in E].
  assert (p = 0x200110) as ->.
  { assert (fst <$> kmalloc 50 bump1 = Some 0x200110) as H by (by vm_compute).
    rewrite E in H. by injection H. }
  destruct (kmalloc_kfree_roundtrip bump1 k1 bump1_blocks 50 0x200110 bump1_inv ltac:(lia))
    as (k2 & E2 & H); [by intros x ->%list_elem_of_singleton|apply bump1_quiet|exact E|lia|done|].
  exists k1, k2. exact (conj eq_refl (conj E2 H)).
Defined.

Lemma kfree_twice_detected_witness :
  exists k1, kfree 0x200060 bump1 = Some (tt, k1) /\
    kfree 0x200060 k1 = Some (tt, put (count_error 0 (hp k1)) k1).
Proof.
  destruct (kfree 0x200060 bump1) as [[[] k1]|] eqn:E; [|by vm_compute in E].
  exists k1. split; [reflexivity|].
  exact (kfree_twice_detected bump1 k1 [] (AMaj 0x200000 16 [(0x200028, (132, 100))]) [] [] []
    (0x200028, (132, 100)) bump1_inv eq_refl I E).
Defined.

Lemma kcalloc_zeroed_witness :
  exists p k', kcalloc 3 8 bump0 = Some (p, k') /\ (p = 0 \/ rdb (hp k') (p + 23) = 0).
Proof.
  destruct (kcalloc_zeroed bump0 [] 3 8 bump0_inv ltac:(lia) ltac:(lia) ltac:(lia) (bump0_quiet _))
    as (p & k' & E & [[-> _]|(m & L' & _ & _ & H)]); exists p, k' || exists 0, k'.
  - split; [exact E|by left].
  - split; [exact E|right]. apply H. lia.
Defined.

End LiballocProps.

