(* ===== verification/KString.v ===== *)
(** The kernel's string library (src/kernel/src/lib/string, lib/math, lib/memory):
    [strlen], [strcpy], [strcmp], [itoa], [gcvt], [vsprintf], [ipow], [dpow], [kmemset].

    Strings live in a byte memory, a map from addresses to bytes; memory that was never
    written reads as 0.  Loops that run to the end of a string carry fuel and return
    [None] without it.  A [va_list] is the queue of the 64-bit words passed in general
    registers or on the stack and the queue of the doubles; taking an argument from an
    empty queue is undefined ([None]). *)
From S2P Require Import Prelude.
From stdpp Require Import strings.
From Stdlib Require Import Ascii SpecFloat.
#[global] Open Scope Z_scope.

Module KString.

Abbreviation mem := (gmap Z Z).
Definition rd (m : mem) (a : Z) : Z := default 0 (m !! a).
Definition wr (a v : Z) (m : mem) : mem := <[a := u8 v]> m.

Definition chr (c : Ascii.ascii) : Z := Z.of_N (Ascii.N_of_ascii c).

(** ** strlen.c, strcpy.c, strcmp.c *)
Fixpoint scan (fuel : nat) (m : mem) (s : Z) : option Z :=
  match fuel with
  | O => None
  | S fuel => if rd m s =? 0 then Some s else scan fuel m (u64 (s + 1))
  end.
Definition strlen (fuel : nat) (m : mem) (str : Z) : option Z :=
  s ← scan fuel m str; Some (u64 (s - str)).

Fixpoint strcpy (fuel : nat) (m : mem) (to from : Z) : option (mem * Z) :=
  match fuel with
  | O => None
  | S fuel =>
      if rd m from =? 0 then Some (wr to 0 m, to)
      else strcpy fuel (wr to (rd m from) m) (u64 (to + 1)) (u64 (from + 1))
  end.

(** The characters are signed and are promoted to [int]. *)
Fixpoint strcmp (fuel : nat) (m : mem) (str1 str2 : Z) : option Z :=
  match fuel with
  | O => None
  | S fuel =>
      let c1 := rd m str1 in let c2 := rd m str2 in
      if truth c1 && truth c2 && (c1 =? c2)
      then strcmp fuel m (u64 (str1 + 1)) (u64 (str2 + 1))
      else Some (s8 c1 - s8 c2)
  end.

(** ** kmemset.c *)
Fixpoint memset_loop (n : nat) (i pointer value : Z) (m : mem) : mem :=
  match n with
  | O => m
  | S n' => memset_loop n' (i + 1) pointer value (wr (u64 (pointer + i)) value m)
  end.
Definition kmemset (ptr value size : Z) (m : mem) : mem :=
  memset_loop (Z.to_nat size) 0 ptr (u8 value) m.

(** ** pow.c *)
Fixpoint ipow_loop (n : nat) (ret value : Z) : Z :=
  match n with O => ret | S n' => ipow_loop n' (s32 (ret * value)) value end.
Definition ipow (value power : Z) : Z :=
  if power <=? 0 then 1 else ipow_loop (Z.to_nat (power - 1)) value value.

(** Doubles: IEEE 754 binary64. *)
Definition double := spec_float.
Definition dmul : double -> double -> double := SFmul 53 1024.
Definition dsub : double -> double -> double := SFsub 53 1024.
Definition of_int (n : Z) : double := binary_normalize 53 1024 n 0 false.
Fixpoint dpow_loop (n : nat) (ret value : double) : double :=
  match n with O => ret | S n' => dpow_loop n' (dmul ret value) value end.
Definition dpow (value : double) (power : Z) : double :=
  if power <=? 0 then of_int 1 else dpow_loop (Z.to_nat (power - 1)) value value.

(** The conversion of a double to an integer type of [w] bits: towards zero, undefined
    out of range. *)
Definition to_int (w : Z) (x : double) : option Z :=
  match x with
  | S754_zero _ => Some 0
  | S754_finite s mant e =>
      let n := if 0 <=? e then Z.pos mant * 2 ^ e else Z.pos mant / 2 ^ (- e) in
      let n := if s then - n else n in
      if decide (in_s w n) then Some n else None
  | _ => None
  end.

(** ** itoa.c *)
Definition digit_char (digit : Z) : Z :=
  if digit <=? 9 then chr "0"%char + digit else chr "a"%char + (digit - 10).

(** A 64-bit number has at most 64 digits in any base. *)
Definition itoa_fuel : nat := 65.
Fixpoint itoa_rec (fuel : nat) (m : mem) (num buffer base : Z) : option (mem * Z) :=
  match fuel with
  | O => None
  | S fuel =>
      if 0 <? num then
        '(m, buffer) ← itoa_rec fuel m (num / base) buffer base;
        Some (wr buffer (digit_char (num mod base)) m, u64 (buffer + 1))
      else Some (m, buffer)
  end.

Definition itoa (m : mem) (num buffer base : Z) : option (mem * Z) :=
  let '(m, buffer, num) :=
    if (base =? 10) && (num <? 0)
    then (wr buffer (chr "-"%char) m, u64 (buffer + 1), s64 (num * -1)) else (m, buffer, num) in
  let '(m, buffer) :=
    if base =? 16
    then (wr (u64 (buffer + 1)) (chr "x"%char) (wr buffer (chr "0"%char) m), u64 (buffer + 2))
    else (m, buffer) in
  '(m, buffer) ← (if num =? 0 then Some (wr buffer (chr "0"%char) m, u64 (buffer + 1))
                  else itoa_rec itoa_fuel m (u64 num) buffer base);
  Some (wr buffer 0 m, buffer).

(** ** gcvt.c; [tmp] is the address of the local array. *)
Fixpoint put_zeros (n : nat) (m : mem) (buf : Z) : mem * Z :=
  match n with O => (m, buf) | S n' => put_zeros n' (wr buf (chr "0"%char) m) (u64 (buf + 1)) end.

Definition gcvt (fuel : nat) (m : mem) (value : double) (ndigits buf tmp : Z)
  : option (mem * Z) :=
  let '(m, buf, value) :=
    if SFltb value (of_int 0)
    then (wr buf (chr "-"%char) m, u64 (buf + 1), dmul value (of_int (-1))) else (m, buf, value) in
  dec ← to_int 32 value;
  '(m, buf) ← itoa m dec buf 10;
  let m := wr buf (chr "."%char) m in let buf := u64 (buf + 1) in
  let frac := dsub value (of_int dec) in
  scaled ← to_int 64 (dmul frac (dpow (of_int 10) ndigits));
  '(m, _) ← itoa m scaled tmp 10;
  len ← strlen fuel m tmp;
  let zeros := u32 (ndigits - len) in
  let '(m, buf) := put_zeros (Z.to_nat zeros) m buf in
  strcpy fuel m buf tmp.

(** ** vsprintf.c *)
Record va_list := VA { gp : list Z; fp : list double }.
Definition va_gp (ap : va_list) : option (Z * va_list) :=
  match gp ap with x :: r => Some (x, VA r (fp ap)) | [] => None end.
Definition va_fp (ap : va_list) : option (double * va_list) :=
  match fp ap with x :: r => Some (x, VA (gp ap) r) | [] => None end.

(** One conversion specification: [ch] follows the percent sign, [fmt] is behind it.
    The result is the memory, the buffer, the format and the arguments left. *)
Definition directive (fuel : nat) (tmp : Z) (m : mem) (buffer ch fmt : Z) (ap : va_list)
  : option (mem * Z * Z * va_list) :=
  if ch =? chr "%"%char then Some (wr buffer (chr "%"%char) m, u64 (buffer + 1), fmt, ap)
  else if ch =? chr "c"%char then
    '(x, ap) ← va_gp ap; Some (wr buffer (u8 x) m, u64 (buffer + 1), fmt, ap)
  else if ch =? chr "s"%char then
    '(x, ap) ← va_gp ap; '(m, buffer) ← strcpy fuel m buffer (u64 x); Some (m, buffer, fmt, ap)
  else if ch =? chr "l"%char then
    let ch := rd m fmt in let fmt := u64 (fmt + 1) in
    if (ch =? chr "u"%char) || (ch =? chr "d"%char) then
      '(x, ap) ← va_gp ap; '(m, buffer) ← itoa m (s64 x) buffer 10; Some (m, buffer, fmt, ap)
    else if ch =? chr "x"%char then
      '(x, ap) ← va_gp ap; '(m, buffer) ← itoa m (s64 x) buffer 16; Some (m, buffer, fmt, ap)
    else Some (m, buffer, fmt, ap)
  else if ch =? chr "u"%char then
    '(x, ap) ← va_gp ap; '(m, buffer) ← itoa m (u32 x) buffer 10; Some (m, buffer, fmt, ap)
  else if ch =? chr "d"%char then
    '(x, ap) ← va_gp ap; '(m, buffer) ← itoa m (s32 x) buffer 10; Some (m, buffer, fmt, ap)
  else if ch =? chr "p"%char then
    '(x, ap) ← va_gp ap; '(m, buffer) ← itoa m (s64 x) buffer 16; Some (m, buffer, fmt, ap)
  else if ch =? chr "x"%char then
    '(x, ap) ← va_gp ap; '(m, buffer) ← itoa m (u32 x) buffer 16; Some (m, buffer, fmt, ap)
  else if ch =? chr "f"%char then
    '(x, ap) ← va_fp ap; '(m, buffer) ← gcvt fuel m x 5 buffer tmp; Some (m, buffer, fmt, ap)
  else Some (m, buffer, fmt, ap).

Fixpoint vsprintf (fuel : nat) (tmp : Z) (m : mem) (buffer fmt : Z) (ap : va_list) : option mem :=
  match fuel with
  | O => None
  | S fuel' =>
      let ch := rd m fmt in let fmt := u64 (fmt + 1) in
      if ch =? 0 then Some (wr buffer 0 m)
      else if ch =? chr "%"%char then
        '(m, buffer, fmt, ap) ← directive fuel tmp m buffer (rd m fmt) (u64 (fmt + 1)) ap;
        vsprintf fuel' tmp m buffer fmt ap
      else vsprintf fuel' tmp (wr buffer ch m) (u64 (buffer + 1)) fmt ap
  end.

End KString.
