(* ===== verification/KStringProps.v ===== *)
(** The kernel's string library against its contract: what [itoa] prints, what the string
    functions compute, and that [vsprintf] prints the text of a pure formatting function. *)
From S2P Require Import Prelude KString.
From Stdlib Require Import Ascii.
#[global] Open Scope Z_scope.

Module KStringProps.
Import KString.

(** ** The contract *)

(** [emits m m' a l]: [m'] has the characters [l] at [a]; the rest of [m] is unchanged,
    except the byte behind them, where the routines leave a terminator. *)
Definition emits (m m' : mem) (a : Z) (l : list Z) : Prop :=
  (forall i c, l !! i = Some c -> rd m' (a + Z.of_nat i) = c) /\
  (forall b, b < a \/ a + Z.of_nat (length l) < b -> rd m' b = rd m b).

Definition byte_ok (c : Z) : Prop := 0 < c < 256.

(** A NUL-terminated string in memory. *)
Definition cstr (m : mem) (a : Z) (l : list Z) : Prop :=
  (forall i c, l !! i = Some c -> rd m (a + Z.of_nat i) = c) /\
  rd m (a + Z.of_nat (length l)) = 0 /\ Forall byte_ok l /\
  0 <= a /\ a + Z.of_nat (length l) < 2 ^ 64 - 1.

(** The digits of [n], most significant first, and the numbers they denote. *)
Fixpoint digits (fuel : nat) (base n : Z) : list Z :=
  match fuel with
  | O => []
  | S fuel => if 0 <? n then digits fuel base (n / base) ++ [digit_char (n mod base)] else []
  end.
Definition numeral (base n : Z) : list Z :=
  if n =? 0 then [chr "0"%char] else digits 64 base n.
(** What [itoa] prints. *)
Definition itoa_text (base num : Z) : list Z :=
  if base =? 10 then
    if num <? 0 then chr "-"%char :: numeral 10 (- num) else numeral 10 num
  else if base =? 16 then chr "0"%char :: chr "x"%char :: numeral 16 (u64 num)
  else numeral base (u64 num).

(** Reading a printed number back. *)
Definition char_digit (c : Z) : Z :=
  if c <=? chr "9"%char then c - chr "0"%char else c - chr "a"%char + 10.
Definition read_digits (base : Z) (l : list Z) : Z :=
  fold_left (fun acc c => acc * base + char_digit c) l 0.
Definition read_number (l : list Z) : Z :=
  match l with
  | c :: r =>
      if c =? chr "-"%char then - read_digits 10 r
      else match r with
           | x :: r' => if x =? chr "x"%char then read_digits 16 r' else read_digits 10 l
           | [] => read_digits 10 l
           end
  | [] => 0
  end.

(** ** Memory *)
Lemma rd_wr a b v m : rd (wr a v m) b = if decide (a = b) then u8 v else rd m b.
Proof.
  unfold rd, wr. case_decide as E; subst; [by rewrite lookup_insert_eq|].
  by rewrite lookup_insert_ne.
Qed.
Lemma rd_write_ne a b v m : a <> b -> rd (wr a v m) b = rd m b.
Proof. intros. rewrite rd_wr. by rewrite decide_False. Qed.
Lemma rd_write_eq a v m : rd (wr a v m) a = u8 v.
Proof. rewrite rd_wr. by rewrite decide_True. Qed.

Lemma u64_id x : 0 <= x < 2 ^ 64 -> u64 x = x.
Proof. apply wrap_small. Qed.
Lemma u8_id x : 0 <= x < 256 -> u8 x = x.
Proof. intros. apply wrap_small. unfold in_u. lia. Qed.

Lemma emits_nil m a : emits m m a [].
Proof. split; [by intros ? ? ?%list_lookup_Some_nil || (intros i c H; done)|done]. Qed.

Lemma emits_scribble m m1 m2 a l v :
  emits m m1 a l -> m2 = wr (a + Z.of_nat (length l)) v m1 -> emits m m2 a l.
Proof.
  intros [H1 H2] ->. split.
  - intros i c Hi. rewrite rd_write_ne; [by apply H1|]. apply lookup_lt_Some in Hi. lia.
  - intros b Hb. rewrite rd_write_ne by lia. by apply H2.
Qed.

Lemma emits_app m m1 m2 a l1 l2 :
  emits m m1 a l1 -> emits m1 m2 (a + Z.of_nat (length l1)) l2 -> emits m m2 a (l1 ++ l2).
Proof.
  intros [H1 H2] [H3 H4]. split.
  - intros i c Hi. apply lookup_app_Some in Hi as [Hi|[Hle Hi]].
    + pose proof (lookup_lt_Some _ _ _ Hi). rewrite H4 by lia. by apply H1.
    + replace (a + Z.of_nat i)
        with (a + Z.of_nat (length l1) + Z.of_nat (i - length l1)) by lia. by apply H3.
  - intros b. rewrite length_app. intros Hb. rewrite H4 by lia. apply H2. lia.
Qed.

Lemma emits_char m a c : 0 <= c < 256 -> emits m (wr a c m) a [c].
Proof.
  intros Hc. split.
  - intros [|i] c'; [|done]. intros [= <-]. rewrite Z.add_0_r, rd_write_eq. by apply u8_id.
  - intros b Hb. simpl in Hb. apply rd_write_ne. lia.
Qed.

Lemma emits_snoc m m1 a l c :
  emits m m1 a l -> 0 <= c < 256 ->
  emits m (wr (a + Z.of_nat (length l)) c m1) a (l ++ [c]).
Proof. intros. eapply emits_app; [done|]. by apply emits_char. Qed.

Lemma emits_cons m m1 a l c :
  0 <= c < 256 -> emits (wr a c m) m1 (a + 1) l -> emits m m1 a (c :: l).
Proof. intros ? ?. apply (emits_app m (wr a c m) m1 a [c] l); [by apply emits_char|done]. Qed.

(** ** Numerals *)
Lemma length_digits k base n : (length (digits k base n) <= k)%nat.
Proof.
  revert n. induction k as [|k IH]; intros n; simpl; [lia|]. zcase; simpl; [|lia].
  rewrite length_app. simpl. specialize (IH (n / base)). lia.
Qed.

Lemma length_digits_pow k base n j :
  2 <= base -> 0 <= n < base ^ Z.of_nat j -> (length (digits k base n) <= j)%nat.
Proof.
  intros Hb. revert n j. induction k as [|k IH]; intros n j Hn; simpl; [lia|].
  zcase; simpl; [|lia]. rewrite length_app. simpl. destruct j as [|j]; [simpl in Hn; lia|].
  assert (n / base < base ^ Z.of_nat j).
  { apply Z.div_lt_upper_bound; [lia|].
    rewrite <- Z.pow_succ_r by lia. rewrite <- Nat2Z.inj_succ. lia. }
  assert (0 <= n / base) by (apply Z.div_pos; lia).
  specialize (IH (n / base) j ltac:(lia)). lia.
Qed.

Lemma digit_char_ok d : 0 <= d < 36 -> byte_ok (digit_char d) /\ char_digit (digit_char d) = d.
Proof.
  unfold byte_ok, char_digit, digit_char, chr. simpl. intros. zcase; zcase; lia.
Qed.
Lemma digit_char_decimal d : 0 <= d < 10 -> 48 <= digit_char d <= 57.
Proof. unfold digit_char, chr. simpl. intros. zcase; lia. Qed.

Lemma mod_digit n base : 2 <= base <= 36 -> 0 <= n mod base < 36.
Proof. intros. pose proof (Z.mod_pos_bound n base ltac:(lia)). lia. Qed.

Lemma digits_ok k base n : 2 <= base <= 36 -> Forall byte_ok (digits k base n).
Proof.
  intros Hb. revert n. induction k as [|k IH]; intros n; simpl; [constructor|].
  zcase; [|constructor]. apply Forall_app. split; [done|]. constructor; [|constructor].
  by apply digit_char_ok, mod_digit.
Qed.
Lemma digits_decimal k n : Forall (fun c => 48 <= c <= 57) (digits k 10 n).
Proof.
  revert n. induction k as [|k IH]; intros n; simpl; [constructor|].
  zcase; [|constructor]. apply Forall_app. split; [done|]. constructor; [|constructor].
  apply digit_char_decimal, Z.mod_pos_bound. lia.
Qed.

Lemma div_half n base k :
  2 <= base -> 0 <= n < 2 ^ Z.of_nat (S k) -> 0 <= n / base < 2 ^ Z.of_nat k.
Proof.
  intros Hb Hn. split; [apply Z.div_pos; lia|]. apply Z.div_lt_upper_bound; [lia|].
  rewrite Nat2Z.inj_succ, Z.pow_succ_r in Hn by lia. nia.
Qed.

(** The digits denote the number. *)
Lemma read_digits_digits k base n :
  2 <= base <= 36 -> 0 <= n < 2 ^ Z.of_nat k -> read_digits base (digits k base n) = n.
Proof.
  intros Hb. unfold read_digits. revert n. induction k as [|k IH]; intros n Hn; simpl.
  { simpl in Hn. lia. }
  zcase; simpl; [|lia]. rewrite fold_left_app, IH by (apply div_half; lia). simpl.
  destruct (digit_char_ok (n mod base) ltac:(by apply mod_digit)) as [_ ->].
  pose proof (Z.div_mod n base). lia.
Qed.

Lemma digits_nonempty k base n : 0 < n -> (1 <= length (digits (S k) base n))%nat.
Proof.
  intros Hn. cbn [digits]. destruct (Z.ltb_spec 0 n); [|lia]. rewrite length_app. simpl. lia.
Qed.

Lemma numeral_spec base n :
  2 <= base <= 36 -> 0 <= n < 2 ^ 64 ->
  read_digits base (numeral base n) = n /\ Forall byte_ok (numeral base n) /\
  (1 <= length (numeral base n) <= 64)%nat.
Proof.
  intros Hb Hn. unfold numeral. zcase.
  - subst. split_and!; [done| |cbn; lia..]. constructor; [|constructor]. done.
  - split_and!; [by apply read_digits_digits|by apply digits_ok| |apply length_digits].
    apply digits_nonempty. lia.
Qed.

(** ** [itoa] *)
Lemma itoa_rec_S fuel m num buffer base :
  itoa_rec (S fuel) m num buffer base
  = if 0 <? num then
      '(m, buffer) ← itoa_rec fuel m (num / base) buffer base;
      Some (wr buffer (digit_char (num mod base)) m, u64 (buffer + 1))
    else Some (m, buffer).
Proof. done. Qed.

Lemma itoa_rec_emits k m n a base :
  2 <= base <= 36 -> 0 <= n < 2 ^ Z.of_nat k -> 0 <= a -> a + Z.of_nat k < 2 ^ 64 ->
  exists m', itoa_rec (S k) m n a base
             = Some (m', a + Z.of_nat (length (digits k base n))) /\
             emits m m' a (digits k base n).
Proof.
  intros Hb. revert m n.
  induction k as [|k IH]; intros m n Hn Ha Hk; rewrite itoa_rec_S; cbn [digits].
  { simpl in Hn. destruct (0 <? n) eqn:E; zb; [lia|].
    exists m. rewrite Z.add_0_r. split; [done|]. apply emits_nil. }
  destruct (0 <? n) eqn:E; zb.
  - destruct (IH m (n / base)) as (m' & -> & He); [apply div_half; lia|lia..|].
    cbn [mbind option_bind].
    pose proof (length_digits k base (n / base)). rewrite length_app. simpl.
    rewrite u64_id by lia. eexists. split; [do 2 f_equal; lia|].
    apply emits_snoc; [done|].
    destruct (digit_char_ok (n mod base) ltac:(by apply mod_digit)) as [[? ?] _]. lia.
  - exists m. rewrite Z.add_0_r. split; [done|]. apply emits_nil.
Qed.

Lemma numeral_emits m n a base :
  2 <= base <= 36 -> 0 <= n < 2 ^ 64 -> 0 <= a -> a + 64 < 2 ^ 64 ->
  exists m',
    (if n =? 0 then Some (wr a (chr "0"%char) m, u64 (a + 1)) else itoa_rec itoa_fuel m n a base)
    = Some (m', a + Z.of_nat (length (numeral base n))) /\ emits m m' a (numeral base n).
Proof.
  intros Hb Hn Ha Hk. unfold numeral. zcase.
  - eexists. rewrite u64_id by lia. split; [done|]. by apply emits_char.
  - by apply (itoa_rec_emits 64).
Qed.

Lemma u64_eqb0 x : in_s 64 x -> (x =? 0) = (u64 x =? 0).
Proof.
  unfold in_s. change (2 ^ (64 - 1)) with (2 ^ 63). intros Hx. apply eq_true_iff_eq.
  rewrite !Z.eqb_eq. split; [by intros ->|]. unfold wrap. intros E.
  destruct (decide (0 <= x)); [by rewrite Z.mod_small in E by lia|].
  rewrite <- (Z_mod_plus_full x 1), Z.mod_small in E by lia. lia.
Qed.
Lemma u64_s64_opp x : in_s 64 x -> x < 0 -> u64 (s64 (x * -1)) = - x.
Proof.
  unfold in_s. change (2 ^ (64 - 1)) with (2 ^ 63). intros. rewrite wrap_swrap by lia.
  rewrite u64_id; lia.
Qed.

(** The common tail of [itoa]: the numeral and the terminator. *)
Lemma itoa_tail m num a base :
  2 <= base <= 36 -> in_s 64 num -> 0 <= a -> a + 64 < 2 ^ 64 ->
  exists m',
    ('(m, buffer) ← (if num =? 0 then Some (wr a (chr "0"%char) m, u64 (a + 1))
                  else itoa_rec itoa_fuel m (u64 num) a base);
     Some (wr buffer 0 m, buffer)) = Some (m', a + Z.of_nat (length (numeral base (u64 num)))) /\
    emits m m' a (numeral base (u64 num)) /\
    rd m' (a + Z.of_nat (length (numeral base (u64 num)))) = 0.
Proof.
  intros Hb Hn Ha Hk. rewrite u64_eqb0 by done.
  destruct (numeral_emits m (u64 num) a base) as (m' & -> & He); [done| |done..|].
  { by apply (wrap_range 64). }
  cbn [mbind option_bind]. eexists. split; [done|]. split; [by eapply emits_scribble|].
  by rewrite rd_write_eq.
Qed.

Lemma itoa_emits m num a base :
  2 <= base <= 36 -> in_s 64 num -> 0 <= a -> a + 66 < 2 ^ 64 ->
  exists m', itoa m num a base = Some (m', a + Z.of_nat (length (itoa_text base num))) /\
    emits m m' a (itoa_text base num) /\ rd m' (a + Z.of_nat (length (itoa_text base num))) = 0.
Proof.
  intros Hb Hn Ha Hk. unfold itoa, itoa_text.
  destruct (base =? 10) eqn:E10; zb; [subst base; destruct (num <? 0) eqn:En; zb|].
  - cbn [andb]. change (10 =? 16) with false. cbv iota.
    destruct (itoa_tail (wr a (chr "-"%char) m) (s64 (num * -1)) (u64 (a + 1)) 10)
      as (m' & -> & He & Hz); [lia|by apply swrap_range|rewrite u64_id; lia..|].
    rewrite u64_s64_opp, u64_id in * by (done || lia). exists m'. cbn [length].
    replace (a + Z.of_nat (S (length (numeral 10 (- num)))))
      with (a + 1 + Z.of_nat (length (numeral 10 (- num)))) by lia.
    split_and!; [done| |done]. by apply emits_cons.
  - cbn [andb]. change (10 =? 16) with false. cbv iota.
    destruct (itoa_tail m num a 10) as (m' & -> & He & Hz); [lia|done|lia..|].
    unfold in_s in Hn. change (2 ^ (64 - 1)) with (2 ^ 63) in Hn.
    rewrite u64_id in * by lia. by exists m'.
  - cbn [andb]. cbv iota. destruct (base =? 16) eqn:E16; zb; [subst base|].
    + destruct (itoa_tail (wr (u64 (a + 1)) (chr "x"%char) (wr a (chr "0"%char) m)) num
                  (u64 (a + 2)) 16) as (m' & -> & He & Hz);
        [lia|done|rewrite u64_id; lia..|].
      rewrite !u64_id in * by lia. exists m'. cbn [length].
      replace (a + Z.of_nat (S (S (length (numeral 16 (u64 num))))))
        with (a + 2 + Z.of_nat (length (numeral 16 (u64 num)))) by lia.
      split_and!; [done| |done]. apply emits_cons; [done|]. apply emits_cons; [done|].
      by replace (a + 1 + 1) with (a + 2) by lia.
    + destruct (itoa_tail m num a base) as (m' & -> & He & Hz); [lia|done|lia..|]. by exists m'.
Qed.

Lemma itoa_text_ok base num :
  2 <= base <= 36 -> in_s 64 num ->
  Forall byte_ok (itoa_text base num) /\ (length (itoa_text base num) <= 66)%nat.
Proof.
  unfold in_s, itoa_text. change (2 ^ (64 - 1)) with (2 ^ 63). intros Hb Hn.
  assert (forall b n, 2 <= b <= 36 -> 0 <= n < 2 ^ 64 ->
    Forall byte_ok (numeral b n) /\ (length (numeral b n) <= 64)%nat) as H.
  { intros b n ? ?. destruct (numeral_spec b n) as (_ & ? & ?); [done..|]. split; [done|lia]. }
  pose proof (wrap_range 64 num ltac:(lia)) as Hu. unfold in_u in Hu.
  repeat case_match; zb; cbn [length]; rewrite ?Forall_cons;
    (edestruct H as [? ?]; [| |split; [split_and?; first [done|eassumption]|lia]]); lia.
Qed.

Lemma numeral_decimal n : Forall (fun c => 48 <= c <= 57) (numeral 10 n).
Proof.
  unfold numeral. case_match; [|apply digits_decimal]. constructor; [|constructor].
  change (chr "0"%char) with 48. lia.
Qed.

Lemma read_number_decimal l :
  Forall (fun c => 48 <= c <= 57) l -> read_number l = read_digits 10 l.
Proof.
  unfold read_number. change (chr "-"%char) with 45. change (chr "x"%char) with 120.
  intros Hf. destruct l as [|c [|x r]]; [done|..]; rewrite ?Forall_cons in Hf;
    repeat case_match; zb; lia || done.
Qed.

Lemma itoa_text_reads base num :
  base = 10 \/ base = 16 -> in_s 64 num ->
  read_number (itoa_text base num) = if base =? 10 then num else u64 num.
Proof.
  unfold in_s, itoa_text. change (2 ^ (64 - 1)) with (2 ^ 63).
  intros [-> | ->] Hn; cbn [Z.eqb Pos.eqb].
  - destruct (num <? 0) eqn:En; zb.
    + unfold read_number. change (chr "-"%char =? chr "-"%char) with true. cbv iota.
      destruct (numeral_spec 10 (- num)) as [-> _]; lia.
    + rewrite read_number_decimal by apply numeral_decimal.
      destruct (numeral_spec 10 num) as [-> _]; lia.
  - destruct (numeral_spec 16 (u64 num)) as [E _]; [lia|by apply (wrap_range 64)|].
    exact E.
Qed.

Lemma itoa_text_length base num :
  base = 10 \/ base = 16 -> in_s 64 num -> (length (itoa_text base num) <= 20)%nat.
Proof.
  assert (forall b j n, 2 <= b -> (1 <= j)%nat -> 0 <= n < b ^ Z.of_nat j ->
    (length (numeral b n) <= j)%nat) as H.
  { intros b j n ? ? ?. unfold numeral. case_match; [done|]. by apply length_digits_pow. }
  unfold in_s, itoa_text. change (2 ^ (64 - 1)) with (2 ^ 63).
  intros [-> | ->] Hn; cbn [Z.eqb Pos.eqb].
  - destruct (num <? 0) eqn:En; zb; cbn [length].
    + enough (length (numeral 10 (- num)) <= 19)%nat by lia. apply H; lia.
    + enough (length (numeral 10 num) <= 19)%nat by lia. apply H; lia.
  - cbn [length]. enough (length (numeral 16 (u64 num)) <= 16)%nat by lia.
    apply H; [lia..|]. by apply (wrap_range 64).
Qed.

Lemma emits_cstr m m' a l :
  emits m m' a l -> rd m' (a + Z.of_nat (length l)) = 0 -> Forall byte_ok l ->
  0 <= a -> a + Z.of_nat (length l) < 2 ^ 64 - 1 -> cstr m' a l.
Proof. intros [H1 _] ? ? ? ?. by repeat split. Qed.

(** C24: Round trip of [itoa] in the two bases the kernel uses: for every [long], [itoa]
    writes a NUL-terminated string of at most 20 characters at [buffer], returns the address
    of its terminator, changes no byte outside [buffer, buffer + 20], and the string reads
    back as the number (in base 16, as the number's unsigned bit pattern). *)
Theorem itoa_roundtrip (m : mem) (num buffer base : Z) :
  base = 10 \/ base = 16 -> in_s 64 num -> 0 <= buffer -> buffer + 66 < 2 ^ 64 ->
  exists m' text,
    itoa m num buffer base = Some (m', buffer + Z.of_nat (length text)) /\
    cstr m' buffer text /\ (length text <= 20)%nat /\
    read_number text = (if base =? 10 then num else u64 num) /\
    (forall a, a < buffer \/ buffer + 20 < a -> rd m' a = rd m a).
Proof.
  intros Hb Hn H0 H1. assert (2 <= base <= 36) by lia.
  destruct (itoa_emits m num buffer base) as (m' & E & He & Hz); [done..|].
  destruct (itoa_text_ok base num) as [Hok _]; [done..|].
  pose proof (itoa_text_length base num Hb Hn) as Hl.
  exists m', (itoa_text base num). split_and!; [done|by eapply emits_cstr; eauto; lia|done| |].
  - by apply itoa_text_reads.
  - intros a Ha. apply He. lia.
Qed.

Lemma itoa_roundtrip_witness :
  exists m' text,
    itoa ∅ (-9223372036854775808) 1000 10 = Some (m', 1000 + Z.of_nat (length text)) /\
    cstr m' 1000 text /\ (length text <= 20)%nat /\
    read_number text = -9223372036854775808 /\
    (forall a, a < 1000 \/ 1000 + 20 < a -> rd m' a = rd ∅ a).
Proof.
  apply (itoa_roundtrip ∅ (-9223372036854775808) 1000 10); [by left| |lia..].
  unfold in_s. lia.
Defined.

(** ** [strlen], [strcpy], [strcmp] *)
Lemma cstr_cons m a c l :
  cstr m a (c :: l) -> rd m a = c /\ byte_ok c /\ u64 (a + 1) = a + 1 /\ cstr m (a + 1) l.
Proof.
  intros (H1 & H2 & [H3 H4]%Forall_cons & H5 & H6). cbn [length] in *.
  split_and!; [|done|apply u64_id; lia|].
  - rewrite <- (H1 0%nat c) by done. f_equal. lia.
  - split_and!; [|rewrite <- H2; f_equal; lia|done|lia..].
    intros i d Hi. rewrite <- (H1 (S i) d) by done. f_equal. lia.
Qed.
Lemma cstr_nil m a : cstr m a [] -> rd m a = 0.
Proof. intros (_ & H & _). rewrite <- H. f_equal. simpl. lia. Qed.

Lemma scan_cstr fuel m a l :
  cstr m a l -> (length l < fuel)%nat -> scan fuel m a = Some (a + Z.of_nat (length l)).
Proof.
  revert a l. induction fuel as [|fuel IH]; intros a l Hc Hf; [lia|]. cbn [scan].
  destruct l as [|c l].
  - rewrite (cstr_nil m a Hc). cbn. by rewrite Z.add_0_r.
  - apply cstr_cons in Hc as (-> & Hc & E & Hl). unfold byte_ok in Hc.
    destruct (Z.eqb_spec c 0); [lia|]. rewrite E. cbn [length] in *.
    rewrite (IH _ l Hl) by lia. f_equal. lia.
Qed.

Lemma strlen_cstr fuel m a l :
  cstr m a l -> (length l < fuel)%nat -> strlen fuel m a = Some (Z.of_nat (length l)).
Proof.
  intros Hc Hf. unfold strlen. rewrite (scan_cstr _ _ _ l) by done. cbn.
  destruct Hc as (_ & _ & _ & ? & ?). rewrite u64_id by lia. f_equal. lia.
Qed.

(** A string is unaffected by writes outside it. *)
Lemma cstr_frame m m' a l :
  cstr m a l -> (forall b, a <= b <= a + Z.of_nat (length l) -> rd m' b = rd m b) -> cstr m' a l.
Proof.
  intros (H1 & H2 & H3 & H4 & H5) Hf. split_and!; [|rewrite Hf by lia; done|done..].
  intros i c Hi. pose proof (lookup_lt_Some _ _ _ Hi). rewrite Hf by lia. by apply H1.
Qed.

Lemma strcpy_emits fuel m to from l :
  cstr m from l -> (length l < fuel)%nat -> 0 <= to -> to + Z.of_nat (length l) < 2 ^ 64 - 1 ->
  to + Z.of_nat (length l) < from \/ from + Z.of_nat (length l) < to ->
  exists m', strcpy fuel m to from = Some (m', to + Z.of_nat (length l)) /\
             emits m m' to l /\ rd m' (to + Z.of_nat (length l)) = 0.
Proof.
  revert m to from l. induction fuel as [|fuel IH]; intros m to from l Hc Hf Ht Hw Hd; [lia|].
  cbn [strcpy]. destruct l as [|c l].
  - rewrite (cstr_nil m from Hc). cbn. exists (wr to 0 m). rewrite Z.add_0_r.
    split_and!; [done| |by rewrite rd_write_eq].
    eapply emits_scribble; [apply emits_nil|]. by rewrite Z.add_0_r.
  - apply cstr_cons in Hc as (-> & Hb & -> & Hl). unfold byte_ok in Hb.
    destruct (Z.eqb_spec c 0); [lia|]. cbn [length] in *. rewrite u64_id by lia.
    destruct (IH (wr to c m) (to + 1) (from + 1) l) as (m' & E & He & Hz); [|lia..|].
    { eapply cstr_frame; [done|]. intros b Hbb. apply rd_write_ne. lia. }
    exists m'. replace (to + Z.of_nat (S (length l))) with (to + 1 + Z.of_nat (length l)) by lia.
    split_and!; [done| |done]. by apply emits_cons; [lia|].
Qed.

Lemma s8_inj c d : 0 <= c < 256 -> 0 <= d < 256 -> s8 c - s8 d = 0 -> c = d.
Proof.
  intros Hc Hd. unfold swrap. change (2 ^ (8 - 1)) with 128. change (2 ^ 8) with 256.
  rewrite !(wrap_small 8) by (unfold in_u; lia). repeat case_match; zb; lia.
Qed.

Lemma strcmp_cstr fuel m a b la lb :
  cstr m a la -> cstr m b lb -> (length la < fuel)%nat ->
  exists r, strcmp fuel m a b = Some r /\ (r = 0 <-> la = lb).
Proof.
  revert a b la lb. induction fuel as [|fuel IH]; intros a b la lb Ha Hb Hf; [lia|].
  cbn [strcmp]. unfold truth. destruct la as [|c la], lb as [|d lb].
  - rewrite (cstr_nil m a Ha), (cstr_nil m b Hb). cbn. by eexists.
  - rewrite (cstr_nil m a Ha). apply cstr_cons in Hb as (-> & Hd & _). unfold byte_ok in Hd.
    cbn. eexists. split; [done|]. split; [|done]. intros E.
    apply (s8_inj 0 d) in E; lia.
  - rewrite (cstr_nil m b Hb). apply cstr_cons in Ha as (-> & Hd & _). unfold byte_ok in Hd.
    rewrite andb_false_r. cbn. eexists. split; [done|]. split; [|done]. intros E.
    apply (s8_inj c 0) in E; lia.
  - apply cstr_cons in Ha as (-> & Hc & -> & Ha). apply cstr_cons in Hb as (-> & Hd & -> & Hb).
    unfold byte_ok in *. destruct (Z.eqb_spec c 0), (Z.eqb_spec d 0); try lia. cbn [negb andb].
    destruct (Z.eqb_spec c d) as [->|].
    + cbn [length] in Hf. destruct (IH _ _ _ _ Ha Hb ltac:(lia)) as (r & -> & Hr).
      exists r. split; [done|]. rewrite Hr. split; [by intros ->|by intros [= ->]].
    + eexists. split; [done|]. split; [|by intros [= -> ->]]. intros E.
      apply s8_inj in E; lia.
Qed.

(** ** [vsprintf] against a pure formatting function *)

(** An argument: a machine word, or a pointer to a string. *)
Inductive arg := Num (x : Z) | Str (l : list Z).

(** The conversions without and with the [l] modifier: the text and the arguments left.
    [None] is a conversion the function does not describe: a missing or mistyped argument,
    or a floating-point one.  An unknown conversion prints nothing and takes no argument. *)
Definition num_conv (text : Z -> list Z) (args : list arg) : option (list Z * list arg) :=
  match args with Num x :: r => Some (text x, r) | _ => None end.
Definition conv (c : Z) (args : list arg) : option (list Z * list arg) :=
  if c =? chr "%"%char then Some ([chr "%"%char], args)
  else if c =? chr "c"%char then num_conv (fun x => [u8 x]) args
  else if c =? chr "s"%char then
    match args with Str l :: r => Some (l, r) | _ => None end
  else if c =? chr "u"%char then num_conv (fun x => itoa_text 10 (u32 x)) args
  else if c =? chr "d"%char then num_conv (fun x => itoa_text 10 (s32 x)) args
  else if c =? chr "p"%char then num_conv (fun x => itoa_text 16 (s64 x)) args
  else if c =? chr "x"%char then num_conv (fun x => itoa_text 16 (u32 x)) args
  else if c =? chr "f"%char then None
  else Some ([], args).
Definition long_conv (c : Z) (args : list arg) : option (list Z * list arg) :=
  if (c =? chr "u"%char) || (c =? chr "d"%char) then num_conv (fun x => itoa_text 10 (s64 x)) args
  else if c =? chr "x"%char then num_conv (fun x => itoa_text 16 (s64 x)) args
  else Some ([], args).

(** The text of a format string.  A format that ends inside a conversion is not one. *)
Fixpoint format (f : list Z) (args : list arg) : option (list Z) :=
  match f with
  | [] => Some []
  | ch :: f1 =>
      if ch =? chr "%"%char then
        match f1 with
        | [] => None
        | c :: f2 =>
            if c =? chr "l"%char then
              match f2 with
              | [] => None
              | d :: f3 =>
                  '(t, args) ← long_conv d args; out ← format f3 args; Some (t ++ out)
              end
            else '(t, args) ← conv c args; out ← format f2 args; Some (t ++ out)
        end
      else out ← format f1 args; Some (ch :: out)
  end.

(** The word [x] is the argument [a], which does not lie in [lo, hi]. *)
Definition passes (m : mem) (lo hi : Z) (x : Z) (a : arg) : Prop :=
  match a with
  | Num y => x = y
  | Str l => cstr m (u64 x) l /\ (hi < u64 x \/ u64 x + Z.of_nat (length l) < lo)
  end.
Definition arg_size (a : arg) : nat := match a with Num _ => 0%nat | Str l => length l end.

Lemma passes_mono m m' lo hi lo' hi' x a :
  passes m lo hi x a -> lo <= lo' -> hi' <= hi ->
  (forall b, b < lo \/ hi < b -> rd m' b = rd m b) -> passes m' lo' hi' x a.
Proof.
  intros Hp Hlo Hhi Hf. destruct a as [y|l]; [done|]. destruct Hp as [Hc Hd]. simpl.
  split; [|lia]. eapply cstr_frame; [done|]. intros b Hb. apply Hf. lia.
Qed.

Section Conversions.
Variables (fuel : nat) (tmp : Z) (fs : list double) (lo hi : Z).
Hypothesis Hlo : 0 <= lo.
Hypothesis Hhi : hi + 66 < 2 ^ 64.

(** What a conversion does: print [t] at [buffer], leave the arguments [args']. *)
Definition converts (m : mem) (buffer fmt : Z) (t : list Z) (args' : list arg)
    (r : option (mem * Z * Z * va_list)) : Prop :=
  exists m' xs', r = Some (m', buffer + Z.of_nat (length t), fmt, VA xs' fs) /\
    emits m m' buffer t /\ Forall2 (passes m lo hi) xs' args'.

Lemma converts_itoa m buffer fmt xs args base n (f : Z -> Z) :
  num_conv (fun x => itoa_text base (f x)) args = Some n ->
  2 <= base <= 36 -> (forall x, in_s 64 (f x)) ->
  Forall2 (passes m lo hi) xs args -> lo <= buffer <= hi ->
  converts m buffer fmt (n.1) (n.2)
    ('(x, ap) ← va_gp (VA xs fs); '(m, buffer) ← itoa m (f x) buffer base;
     Some (m, buffer, fmt, ap)).
Proof.
  intros Hn Hb Hr Hf Hl. destruct args as [|[x|l] args]; try done. injection Hn as <-.
  apply Forall2_cons_inv_r in Hf as (y & xs' & Hy & Hf & ->). simpl in Hy. subst y.
  cbn [va_gp gp fp mbind option_bind fst snd].
  destruct (itoa_emits m (f x) buffer base) as (m' & -> & He & _); [done..|lia|lia|].
  cbn [mbind option_bind]. by exists m', xs'.
Qed.

Lemma u32_in_s x : in_s 64 (u32 x).
Proof. pose proof (wrap_range 32 x ltac:(lia)). unfold in_u, in_s in *. lia. Qed.
Lemma s32_in_s x : in_s 64 (s32 x).
Proof. pose proof (swrap_range 32 x ltac:(lia)). unfold in_s in *. lia. Qed.
Lemma s64_in_s x : in_s 64 (s64 x).
Proof. by apply swrap_range. Qed.
Local Hint Resolve u32_in_s s32_in_s s64_in_s : core.

Lemma directive_conv m buffer c fmt xs args t args' :
  conv c args = Some (t, args') -> c <> chr "l"%char ->
  Forall2 (passes m lo hi) xs args -> Forall (fun a => arg_size a < fuel)%nat args ->
  lo <= buffer -> buffer + Z.of_nat (length t) <= hi ->
  converts m buffer fmt t args' (directive fuel tmp m buffer c fmt (VA xs fs)).
Proof.
  unfold conv, directive. intros Hc Hl Hf Hs Hb Hh.
  destruct (c =? chr "%"%char).
  { injection Hc as <- <-. exists (wr buffer (chr "%"%char) m), xs. rewrite u64_id by lia.
    split; [done|]. split; [by apply emits_char|done]. }
  destruct (c =? chr "c"%char).
  { destruct args as [|[x|l] args]; try done. injection Hc as <- <-.
    apply Forall2_cons_inv_r in Hf as (y & xs' & Hy & Hf & ->). simpl in Hy. subst y.
    exists (wr buffer (u8 x) m), xs'. cbn [length Z.of_nat] in *. split; [|split; [|done]].
    - cbn. rewrite u64_id by lia. done.
    - apply emits_char. pose proof (wrap_range 8 x ltac:(lia)). unfold in_u in *. lia. }
  destruct (c =? chr "s"%char).
  { destruct args as [|[x|l] args]; try done. injection Hc as <- <-.
    apply Forall2_cons_inv_r in Hf as (y & xs' & [Hy Hd] & Hf & ->).
    apply Forall_cons in Hs as [Hs _]. cbn [arg_size] in Hs.
    cbn [va_gp gp fp mbind option_bind].
    destruct (strcpy_emits fuel m buffer (u64 y) l) as (m' & -> & He & _); [done|done|lia..|].
    cbn [mbind option_bind]. by exists m', xs'. }
  destruct (Z.eqb_spec c (chr "l"%char)) as [|_]; [done|].
  assert (lo <= buffer <= hi) by lia.
  destruct (c =? chr "u"%char); [by eapply (converts_itoa m buffer fmt xs args 10 (t, args') u32); eauto; lia|].
  destruct (c =? chr "d"%char); [by eapply (converts_itoa m buffer fmt xs args 10 (t, args') s32); eauto; lia|].
  destruct (c =? chr "p"%char); [by eapply (converts_itoa m buffer fmt xs args 16 (t, args') s64); eauto; lia|].
  destruct (c =? chr "x"%char); [by eapply (converts_itoa m buffer fmt xs args 16 (t, args') u32); eauto; lia|].
  destruct (c =? chr "f"%char); [done|]. injection Hc as <- <-.
  exists m, xs. cbn [length]. rewrite Z.add_0_r. split; [done|]. split; [apply emits_nil|done].
Qed.

Lemma directive_long m buffer fmt d xs args t args' :
  long_conv d args = Some (t, args') -> rd m fmt = d ->
  Forall2 (passes m lo hi) xs args -> lo <= buffer -> buffer + Z.of_nat (length t) <= hi ->
  converts m buffer (u64 (fmt + 1)) t args'
    (directive fuel tmp m buffer (chr "l"%char) fmt (VA xs fs)).
Proof.
  unfold long_conv, directive. intros Hc -> Hf Hb Hh.
  change (chr "l"%char =? chr "%"%char) with false. change (chr "l"%char =? chr "c"%char) with false.
  change (chr "l"%char =? chr "s"%char) with false. change (chr "l"%char =? chr "l"%char) with true.
  cbv beta iota zeta. assert (lo <= buffer <= hi) by lia.
  destruct ((d =? chr "u"%char) || (d =? chr "d"%char));
    [by eapply (converts_itoa m buffer _ xs args 10 (t, args') s64); eauto; lia|].
  destruct (d =? chr "x"%char);
    [by eapply (converts_itoa m buffer _ xs args 16 (t, args') s64); eauto; lia|].
  injection Hc as <- <-. exists m, xs. cbn [length]. rewrite Z.add_0_r.
  split; [done|]. split; [apply emits_nil|done].
Qed.
End Conversions.

Lemma num_conv_suffix text args t args' :
  num_conv text args = Some (t, args') -> exists p, args = p ++ args'.
Proof. destruct args as [|[x|l] args]; try done. intros [= <- <-]. by exists [Num x]. Qed.
Lemma conv_suffix c args t args' : conv c args = Some (t, args') -> exists p, args = p ++ args'.
Proof.
  unfold conv. repeat (case_match; try done); try apply num_conv_suffix;
    intros [= <- <-]; first [by exists []|by eexists (_ :: [])].
Qed.
Lemma long_conv_suffix c args t args' :
  long_conv c args = Some (t, args') -> exists p, args = p ++ args'.
Proof.
  unfold long_conv. repeat (case_match; try done); try apply num_conv_suffix;
    intros [= <- <-]; by exists [].
Qed.

Lemma vsprintf_emits fuel tmp fs f m buffer fmt xs args out :
  cstr m fmt f -> format f args = Some out ->
  Forall2 (passes m buffer (buffer + Z.of_nat (length out))) xs args ->
  Forall (fun a => length f + arg_size a < fuel)%nat args -> (length f < fuel)%nat ->
  0 <= buffer -> buffer + Z.of_nat (length out) + 66 < 2 ^ 64 ->
  buffer + Z.of_nat (length out) < fmt \/ fmt + Z.of_nat (length f) < buffer ->
  exists m', vsprintf fuel tmp m buffer fmt (VA xs fs) = Some m' /\
             emits m m' buffer out /\ rd m' (buffer + Z.of_nat (length out)) = 0.
Proof.
  revert f m buffer fmt xs args out.
  induction fuel as [|fuel IH]; intros f m buffer fmt xs args out Hc Hfm Hp Hs Hl H0 Hw Hd; [lia|].
  (* the rest of the format, after [t] has been printed *)
  assert (forall m1 t f2 fmt2 xs2 args2 out2,
    out = t ++ out2 -> emits m m1 buffer t -> cstr m fmt2 f2 ->
    fmt <= fmt2 -> fmt2 + Z.of_nat (length f2) = fmt + Z.of_nat (length f) ->
    (length f2 < length f)%nat -> format f2 args2 = Some out2 ->
    Forall2 (passes m buffer (buffer + Z.of_nat (length out))) xs2 args2 ->
    (exists p, args = p ++ args2) ->
    exists m', vsprintf fuel tmp m1 (buffer + Z.of_nat (length t)) fmt2 (VA xs2 fs) = Some m' /\
      emits m m' buffer out /\ rd m' (buffer + Z.of_nat (length out)) = 0) as Hrest.
  { intros m1 t f2 fmt2 xs2 args2 out2 -> He Hc2 Hle Hend Hlt Hf2 Hp2 [p ->].
    rewrite length_app in *.
    destruct (IH f2 m1 (buffer + Z.of_nat (length t)) fmt2 xs2 args2 out2)
      as (m' & E & He2 & Hz); [|done| | |lia..|].
    - eapply cstr_frame; [done|]. intros b Hb. apply He. lia.
    - eapply Forall2_impl; [done|]. intros x a Ha.
      eapply passes_mono; [done|lia..|]. intros b Hb. apply He. lia.
    - apply Forall_app in Hs as [_ Hs]. eapply Forall_impl; [done|]. simpl. lia.
    - exists m'. split; [done|]. split; [by eapply emits_app|]. rewrite <- Hz. f_equal. lia. }
  cbn [vsprintf]. destruct f as [|ch f].
  { rewrite (cstr_nil m fmt Hc). cbn. injection Hfm as <-. exists (wr buffer 0 m).
    cbn [length Z.of_nat]. rewrite Z.add_0_r. split; [done|]. split; [|by rewrite rd_write_eq].
    eapply emits_scribble; [apply emits_nil|]. cbn. by rewrite Z.add_0_r. }
  apply cstr_cons in Hc as (-> & Hch & -> & Hc). unfold byte_ok in Hch. cbn [format] in Hfm.
  destruct (Z.eqb_spec ch 0) as [|_]; [lia|]. destruct (Z.eqb_spec ch (chr "%"%char)) as [->|_].
  - destruct f as [|c f]; [done|]. apply cstr_cons in Hc as (-> & Hcc & -> & Hc).
    cbn [length] in *. destruct (Z.eqb_spec c (chr "l"%char)) as [->|Hnl].
    + destruct f as [|d f]; [done|]. apply cstr_cons in Hc as (Hd1 & _ & Hd2 & Hc).
      cbn [length] in *. destruct (long_conv d args) as [[t args2]|] eqn:Ec; [|done].
      cbn in Hfm. destruct (format f args2) as [out2|] eqn:Ef; [|done]. injection Hfm as <-.
      rewrite length_app in Hw.
      destruct (directive_long (S fuel) tmp fs buffer (buffer + Z.of_nat (length (t ++ out2)))
                  H0 ltac:(rewrite length_app; lia)
                  m buffer (fmt + 1 + 1) d xs args t args2) as (m1 & xs2 & -> & He & Hp2);
        [done|done|done|lia|rewrite length_app; lia|].
      rewrite Hd2. cbn [mbind option_bind]. eapply Hrest; eauto; try lia. by eapply long_conv_suffix.
    + destruct (conv c args) as [[t args2]|] eqn:Ec; [|done].
      cbn in Hfm. destruct (format f args2) as [out2|] eqn:Ef; [|done]. injection Hfm as <-.
      rewrite length_app in Hw.
      destruct (directive_conv (S fuel) tmp fs buffer (buffer + Z.of_nat (length (t ++ out2)))
                  H0 ltac:(rewrite length_app; lia)
                  m buffer c (fmt + 1 + 1) xs args t args2) as (m1 & xs2 & -> & He & Hp2);
        [done|done|done| |lia|rewrite length_app; lia|].
      { eapply Forall_impl; [done|]. simpl. lia. }
      cbn [mbind option_bind]. eapply Hrest; eauto; try lia. by eapply conv_suffix.
  - destruct (format f args) as [out2|] eqn:Ef; [|done]. injection Hfm as <-.
    cbn [length] in *. rewrite u64_id by lia.
    apply (Hrest _ [ch] f (fmt + 1) xs args out2); eauto; cbn [length]; try lia; [|by exists []].
    apply emits_char. lia.
Qed.

(** C12: [vsprintf] implements the formatting function.  Let [fmt] point to the format string
    [f], let the argument registers hold [args] (numbers, or pointers to strings), and let
    [format f args = Some out].  If the destination [buffer .. buffer + length out] overlaps
    neither the format nor a string argument, then [vsprintf] terminates (for every fuel
    above the length of the format plus that of the longest string), writes exactly [out] and
    a terminator, and leaves every other byte of memory as it was. *)
Theorem vsprintf_refines_format (tmp : Z) (fs : list double) (f : list Z) (m : mem)
    (buffer fmt : Z) (xs : list Z) (args : list arg) (out : list Z) :
  cstr m fmt f -> format f args = Some out ->
  Forall2 (passes m buffer (buffer + Z.of_nat (length out))) xs args ->
  0 <= buffer -> buffer + Z.of_nat (length out) + 66 < 2 ^ 64 ->
  buffer + Z.of_nat (length out) < fmt \/ fmt + Z.of_nat (length f) < buffer ->
  forall fuel, (length f + sum_list (arg_size <$> args) < fuel)%nat ->
  exists m', vsprintf fuel tmp m buffer fmt (VA xs fs) = Some m' /\
    (forall i c, out !! i = Some c -> rd m' (buffer + Z.of_nat i) = c) /\
    rd m' (buffer + Z.of_nat (length out)) = 0 /\
    (forall a, a < buffer \/ buffer + Z.of_nat (length out) < a -> rd m' a = rd m a).
Proof.
  intros Hc Hf Hp H0 Hw Hd fuel Hfu.
  destruct (vsprintf_emits fuel tmp fs f m buffer fmt xs args out) as (m' & E & [He1 He2] & Hz);
    try done; [|lia|by exists m'].
  clear -Hfu. induction args as [|a args IH]; constructor; cbn in Hfu; [lia|]. apply IH. lia.
Qed.

(** *** A concrete memory for the witnesses *)
Definition bytes (s : string) : list Z := chr <$> String.list_ascii_of_string s.
Fixpoint put_string (l : list Z) (a : Z) (m : mem) : mem :=
  match l with [] => wr a 0 m | c :: l => wr a c (put_string l (a + 1) m) end.

Lemma put_string_spec l a m :
  Forall byte_ok l -> 0 <= a -> a + Z.of_nat (length l) < 2 ^ 64 - 1 ->
  cstr (put_string l a m) a l /\
  (forall b, b < a \/ a + Z.of_nat (length l) < b -> rd (put_string l a m) b = rd m b).
Proof.
  revert a. induction l as [|c l IH]; intros a Hb H0 H1; cbn [put_string length] in *.
  - split; [|intros b Hbb; apply rd_write_ne; lia]. split_and!; [done| |exact Hb|lia|cbn [length]; lia].
    simpl. by rewrite Z.add_0_r, rd_write_eq.
  - apply Forall_cons in Hb as [Hc Hb]. unfold byte_ok in Hc.
    destruct (IH (a + 1)) as [(I1 & I2 & I3 & I4 & I5) I6]; [done|lia..|]. split.
    + split_and!; [|cbn [length]; rewrite rd_write_ne by lia; rewrite <- I2; f_equal; lia
                   |by constructor|lia|cbn [length]; lia].
      intros [|i] d Hi.
      * injection Hi as <-. rewrite Z.add_0_r, rd_write_eq. apply u8_id. lia.
      * rewrite rd_write_ne by lia. rewrite <- (I1 i d Hi). f_equal. lia.
    + intros b Hbb. rewrite rd_write_ne by lia. apply I6. lia.
Qed.

Lemma bytes_ok s : forallb (fun c => 0 <? c) (bytes s) = true -> Forall byte_ok (bytes s).
Proof.
  unfold bytes. induction (String.list_ascii_of_string s) as [|c l IH]; simpl; [constructor|].
  intros [H1%Z.ltb_lt H2]%andb_true_iff. constructor; [|by apply IH]. split; [done|].
  unfold chr. pose proof (Ascii.N_ascii_bounded c). lia.
Qed.

(** The call [vsprintf(buf, "open: %s %d %lx%%", "/dev/mem", -1, 0x210000)]. *)
Definition demo_fmt : list Z := bytes "open: %s %d %lx%%".
Definition demo_path : list Z := bytes "/dev/mem".
Definition demo_mem : mem := put_string demo_path 3000 (put_string demo_fmt 2000 ∅).

Lemma demo_fmt_at : cstr demo_mem 2000 demo_fmt.
Proof.
  destruct (put_string_spec demo_path 3000 (put_string demo_fmt 2000 ∅)) as [_ Hf];
    [by apply bytes_ok|done|done|].
  eapply cstr_frame; [|intros b Hb; apply Hf; change (length demo_fmt) with 17%nat in Hb; lia].
  apply put_string_spec; [by apply bytes_ok|done..].
Qed.
Lemma demo_path_at : cstr demo_mem 3000 demo_path.
Proof. apply put_string_spec; [by apply bytes_ok|done..]. Qed.

Lemma vsprintf_refines_format_witness :
  exists m', vsprintf 60 0 demo_mem 1000 2000 (VA [3000; -1; 0x210000] []) = Some m' /\
    (forall i c, bytes "open: /dev/mem -1 0x210000%" !! i = Some c ->
       rd m' (1000 + Z.of_nat i) = c) /\
    rd m' (1000 + 27) = 0 /\ (forall a, a < 1000 \/ 1000 + 27 < a -> rd m' a = rd demo_mem a).
Proof.
  apply (vsprintf_refines_format 0 [] demo_fmt demo_mem 1000 2000 [3000; -1; 0x210000]
    [Str demo_path; Num (-1); Num 0x210000] (bytes "open: /dev/mem -1 0x210000%")).
  - exact demo_fmt_at.
  - vm_compute. reflexivity.
  - change (length (bytes "open: /dev/mem -1 0x210000%")) with 27%nat.
    apply Forall2_cons_2; [split; [exact demo_path_at|left; reflexivity]|].
    apply Forall2_cons_2; [done|]. apply Forall2_cons_2; [done|]. constructor.
  - lia.
  - change (length (bytes "open: /dev/mem -1 0x210000%")) with 27%nat. lia.
  - left. change (length (bytes "open: /dev/mem -1 0x210000%")) with 27%nat. lia.
  - change (length demo_fmt) with 17%nat. cbn. lia.
Defined.

(** The string routines: on NUL-terminated strings [strlen] returns the length, [strcpy]
    copies the string with its terminator to a destination that does not overlap it, returns
    the address of the terminator and changes nothing else, and [strcmp] returns 0 exactly
    when the strings are equal; each within a number of steps linear in the length. *)
Theorem string_routines_correct (m : mem) (a b to : Z) (la lb : list Z) (fuel : nat) :
  cstr m a la -> cstr m b lb -> (length la < fuel)%nat ->
  0 <= to -> to + Z.of_nat (length la) < 2 ^ 64 - 1 ->
  to + Z.of_nat (length la) < a \/ a + Z.of_nat (length la) < to ->
  strlen fuel m a = Some (Z.of_nat (length la)) /\
  (exists m', strcpy fuel m to a = Some (m', to + Z.of_nat (length la)) /\ cstr m' to la /\
     forall x, x < to \/ to + Z.of_nat (length la) < x -> rd m' x = rd m x) /\
  (exists r, strcmp fuel m a b = Some r /\ (r = 0 <-> la = lb)).
Proof.
  intros Ha Hb Hf Ht Hw Hd. split_and!.
  - by apply strlen_cstr.
  - destruct (strcpy_emits fuel m to a la) as (m' & E & He & Hz); [done..|].
    exists m'. split; [done|]. split; [|apply He].
    eapply emits_cstr; [done|done|apply Ha|done..].
  - by apply strcmp_cstr.
Qed.

Lemma string_routines_correct_witness :
  strlen 20 demo_mem 3000 = Some 8 /\
  (exists m', strcpy 20 demo_mem 1000 3000 = Some (m', 1000 + 8) /\ cstr m' 1000 demo_path /\
     forall x, x < 1000 \/ 1000 + 8 < x -> rd m' x = rd demo_mem x) /\
  (exists r, strcmp 20 demo_mem 3000 2000 = Some r /\ (r = 0 <-> demo_path = demo_fmt)).
Proof.
  apply (string_routines_correct demo_mem 3000 2000 1000 demo_path demo_fmt 20).
  - exact demo_path_at.
  - exact demo_fmt_at.
  - change (length demo_path) with 8%nat. lia.
  - lia.
  - change (length demo_path) with 8%nat. lia.
  - left. change (length demo_path) with 8%nat. lia.
Defined.

(** ** [gcvt] *)
Lemma put_zeros_emits n m a :
  0 <= a -> a + Z.of_nat n < 2 ^ 64 ->
  exists m', put_zeros n m a = (m', a + Z.of_nat n) /\ emits m m' a (replicate n (chr "0"%char)).
Proof.
  revert m a. induction n as [|n IH]; intros m a H0 H1; cbn [put_zeros replicate].
  - exists m. rewrite Z.add_0_r. split; [done|]. apply emits_nil.
  - rewrite u64_id by lia. destruct (IH (wr a (chr "0"%char) m) (a + 1)) as (m' & -> & He); [lia..|].
    exists m'. split; [f_equal; lia|]. by apply emits_cons.
Qed.

(** The fraction padded to [n] places, and the whole text. *)
Definition frac_text (n : nat) (frac : Z) : list Z :=
  replicate (n - length (numeral 10 frac)) (chr "0"%char) ++ numeral 10 frac.
Definition gcvt_text (neg : bool) (dec : Z) (n : nat) (frac : Z) : list Z :=
  (if neg then [chr "-"%char] else []) ++ numeral 10 dec ++ [chr "."%char] ++ frac_text n frac.

Lemma numeral_length n j :
  (1 <= j)%nat -> 0 <= n < 10 ^ Z.of_nat j -> (length (numeral 10 n) <= j)%nat.
Proof. intros. unfold numeral. case_match; [done|]. apply length_digits_pow; lia. Qed.

Lemma read_digits_zeros n l :
  read_digits 10 (replicate n (chr "0"%char) ++ l) = read_digits 10 l.
Proof. unfold read_digits. induction n as [|n IH]; [done|]. exact IH. Qed.

(** The padded fraction has exactly [n] digits and denotes [frac]. *)
Lemma frac_text_spec n frac :
  (1 <= n <= 18)%nat -> 0 <= frac < 10 ^ Z.of_nat n ->
  length (frac_text n frac) = n /\ read_digits 10 (frac_text n frac) = frac.
Proof.
  intros Hn Hf. assert (10 ^ Z.of_nat n <= 10 ^ 18) by (apply Z.pow_le_mono_r; lia).
  unfold frac_text. split.
  - rewrite length_app, length_replicate. pose proof (numeral_length frac n). lia.
  - rewrite read_digits_zeros. apply numeral_spec; lia.
Qed.

Lemma itoa_text_nonneg n : 0 <= n -> itoa_text 10 n = numeral 10 n.
Proof. intros. unfold itoa_text. cbn [Z.eqb Pos.eqb]. destruct (Z.ltb_spec n 0); [lia|done]. Qed.

(** The part of [gcvt] behind the sign. *)
Lemma gcvt_tail fuel m v n buf tmp dec frac :
  to_int 32 v = Some dec -> 0 <= dec ->
  to_int 64 (dmul (dsub v (of_int dec)) (dpow (of_int 10) (Z.of_nat n))) = Some frac ->
  (1 <= n <= 18)%nat -> 0 <= frac < 10 ^ Z.of_nat n -> (20 < fuel)%nat ->
  0 <= buf -> buf + 120 < 2 ^ 64 -> 0 <= tmp -> tmp + 120 < 2 ^ 64 ->
  buf + 40 < tmp \/ tmp + 40 < buf ->
  let text := numeral 10 dec ++ [chr "."%char] ++ frac_text n frac in
  (length text <= 40)%nat /\
  exists m',
    (dec ← to_int 32 v;
     '(m, buf) ← itoa m dec buf 10;
     let m := wr buf (chr "."%char) m in let buf := u64 (buf + 1) in
     let frac := dsub v (of_int dec) in
     scaled ← to_int 64 (dmul frac (dpow (of_int 10) (Z.of_nat n)));
     '(m, _) ← itoa m scaled tmp 10;
     len ← strlen fuel m tmp;
     let zeros := u32 (Z.of_nat n - len) in
     let '(m, buf) := put_zeros (Z.to_nat zeros) m buf in
     strcpy fuel m buf tmp) = Some (m', buf + Z.of_nat (length text)) /\
    (forall i c, text !! i = Some c -> rd m' (buf + Z.of_nat i) = c) /\
    rd m' (buf + Z.of_nat (length text)) = 0 /\
    rd m' (tmp + Z.of_nat (length (numeral 10 frac))) = 0 /\
    (forall b, (b < buf \/ buf + Z.of_nat (length text) < b) ->
       (b < tmp \/ tmp + Z.of_nat (length (numeral 10 frac)) < b) -> rd m' b = rd m b).
Proof.
  intros Hd Hd0 Hs Hn Hf Hfu B0 B1 T0 T1 Hdis text.
  assert (in_s 32 dec) as Hds.
  { unfold to_int in Hd. repeat (case_match; try done); simplify_eq; done || (unfold in_s; lia). }
  assert (10 ^ Z.of_nat n <= 10 ^ 18) by (apply Z.pow_le_mono_r; lia).
  assert (length (numeral 10 dec) <= 10)%nat as Ld by (apply numeral_length; unfold in_s in *; lia).
  assert (length (numeral 10 frac) <= n)%nat as Lf by (apply numeral_length; lia).
  destruct (frac_text_spec n frac) as [Lt _]; [done..|].
  assert (length text = length (numeral 10 dec) + 1 + n)%nat as Ltx.
  { unfold text. rewrite !length_app, Lt. simpl. lia. }
  split; [lia|].
  destruct (itoa_emits m dec buf 10) as (m1 & E1 & He1 & _); [lia|unfold in_s in *; lia|lia..|].
  rewrite itoa_text_nonneg in * by done. set (ld := length (numeral 10 dec)) in *.
  pose proof (emits_snoc m m1 buf (numeral 10 dec) (chr "."%char) He1 ltac:(done)) as He2.
  set (m2 := wr (buf + Z.of_nat ld) (chr "."%char) m1) in *.
  destruct (itoa_emits m2 frac tmp 10) as (m3 & E3 & He3 & Hz3); [lia|unfold in_s; lia|lia..|].
  rewrite itoa_text_nonneg in * by lia. set (lf := length (numeral 10 frac)) in *.
  assert (cstr m3 tmp (numeral 10 frac)) as Hc3.
  { eapply emits_cstr; [done|done|by apply numeral_spec; lia|lia..]. }
  set (nz := (n - lf)%nat).
  destruct (put_zeros_emits nz m3 (buf + Z.of_nat ld + 1)) as (m4 & E4 & He4); [lia..|].
  assert (cstr m4 tmp (numeral 10 frac)) as Hc4.
  { eapply cstr_frame; [done|]. intros b Hb. fold lf in Hb. apply He4.
    rewrite length_replicate. lia. }
  destruct (strcpy_emits fuel m4 (buf + Z.of_nat ld + 1 + Z.of_nat nz) tmp (numeral 10 frac))
    as (m5 & E5 & He5 & Hz5); [done|fold lf; lia..|].
  exists m5. rewrite Hd. cbn [mbind option_bind]. rewrite E1. cbn [mbind option_bind].
  rewrite Hs. cbn [mbind option_bind]. fold m2. rewrite E3. cbn [mbind option_bind].
  rewrite (strlen_cstr fuel m3 tmp _ Hc3) by (fold lf; lia). cbn [mbind option_bind]. fold lf.
  rewrite (wrap_small 32) by (unfold in_u; lia). rewrite u64_id by lia.
  replace (Z.to_nat (Z.of_nat n - Z.of_nat lf)) with nz by lia. rewrite E4, E5. fold lf.
  (* the pieces printed at [buf] *)
  assert (emits m4 m5 (buf + Z.of_nat ld + 1 + Z.of_nat nz) (numeral 10 frac)) as P3 by done.
  assert (emits m3 m5 (buf + Z.of_nat ld + 1) (frac_text n frac)) as P2.
  { unfold frac_text. fold lf nz. eapply emits_app; [done|]. by rewrite length_replicate. }
  assert (length (numeral 10 dec ++ [chr "."%char]) = ld + 1)%nat as L1
    by (rewrite length_app; done).
  split; [do 2 f_equal; lia|]. split_and!.
  - intros i c Hi. unfold text in Hi. rewrite app_assoc in Hi.
    apply lookup_app_Some in Hi as [Hi|[Hle Hi]].
    + pose proof (lookup_lt_Some _ _ _ Hi). rewrite L1 in *.
      rewrite (proj2 P2) by lia. rewrite (proj2 He3) by (fold lf; lia). by apply He2.
    + rewrite L1 in *. rewrite <- (proj1 P2 _ _ Hi). f_equal. lia.
  - rewrite <- Hz5. f_equal. fold lf. lia.
  - rewrite (proj2 P2) by lia. done.
  - intros b Hb1 Hb2. rewrite (proj2 P2) by lia. rewrite (proj2 He3) by (fold lf; lia).
    apply (proj2 He2). rewrite L1. lia.
Qed.

Lemma numeral_full n j :
  (1 <= j)%nat -> 10 ^ Z.of_nat (j - 1) <= n < 10 ^ Z.of_nat j -> n < 2 ^ 64 ->
  length (numeral 10 n) = j.
Proof.
  intros Hj Hn Hw. pose proof (numeral_length n j Hj ltac:(lia)).
  destruct (decide (length (numeral 10 n) = j)) as [|Hne]; [done|]. exfalso.
  assert (Hb : forall l, Forall (fun c => 48 <= c <= 57) l ->
    0 <= read_digits 10 l < 10 ^ Z.of_nat (length l)).
  { intros l. unfold read_digits. induction l as [|c l IH] using rev_ind; intros Hf; [done|].
    apply Forall_app in Hf as [Hf [Hc _]%Forall_cons]. specialize (IH Hf).
    rewrite fold_left_app, length_app, Nat2Z.inj_add, Z.pow_add_r by lia.
    change (10 ^ Z.of_nat (length [c])) with 10. cbn [fold_left].
    assert (0 <= char_digit c <= 9); [|lia].
    unfold char_digit. change (chr "9"%char) with 57. change (chr "0"%char) with 48.
    destruct (Z.leb_spec c 57); lia. }
  specialize (Hb (numeral 10 n) (numeral_decimal n)).
  assert (0 <= n) by (pose proof (Z.pow_nonneg 10 (Z.of_nat (j - 1))); lia).
  destruct (numeral_spec 10 n) as (-> & _ & L1 & _) in Hb; [lia..|].
  assert (10 ^ Z.of_nat (length (numeral 10 n)) <= 10 ^ Z.of_nat (j - 1))
    by (apply Z.pow_le_mono_r; lia). lia.
Qed.

(** C25: [gcvt] prints a sign, the integer part, a point and exactly [n] digits of the
    fraction, the digits denoting the truncated [frac]; it returns the address of the
    terminator.  Besides the output it writes its local array [tmp[n]], but the array is
    one byte short: whenever the fraction has all [n] digits the terminator lands on
    [tmp + n], behind the array. *)
Theorem gcvt_prints_fixed_point (fuel : nat) (m : mem) (value : double) (n : nat)
    (buf tmp dec frac : Z) :
  let neg := SpecFloat.SFltb value (of_int 0) in
  let v := if neg then dmul value (of_int (-1)) else value in
  to_int 32 v = Some dec -> 0 <= dec ->
  to_int 64 (dmul (dsub v (of_int dec)) (dpow (of_int 10) (Z.of_nat n))) = Some frac ->
  (1 <= n <= 18)%nat -> 0 <= frac < 10 ^ Z.of_nat n -> (20 < fuel)%nat ->
  0 <= buf -> buf + 121 < 2 ^ 64 -> 0 <= tmp -> tmp + 120 < 2 ^ 64 ->
  buf + 41 < tmp \/ tmp + 40 < buf ->
  let text := gcvt_text neg dec n frac in
  length (frac_text n frac) = n /\ read_digits 10 (frac_text n frac) = frac /\
  exists m', gcvt fuel m value (Z.of_nat n) buf tmp = Some (m', buf + Z.of_nat (length text)) /\
    (forall i c, text !! i = Some c -> rd m' (buf + Z.of_nat i) = c) /\
    rd m' (buf + Z.of_nat (length text)) = 0 /\
    (10 ^ Z.of_nat (n - 1) <= frac -> rd m' (tmp + Z.of_nat n) = 0) /\
    (forall b, (b < buf \/ buf + Z.of_nat (length text) < b) ->
       (b < tmp \/ tmp + Z.of_nat n < b) -> rd m' b = rd m b).
Proof.
  intros neg v Hd Hd0 Hs Hn Hf Hfu B0 B1 T0 T1 Hdis text.
  destruct (frac_text_spec n frac) as [Lt Rt]; [done..|]. split_and!; [done..|].
  assert (10 ^ Z.of_nat n <= 10 ^ 18) by (apply Z.pow_le_mono_r; lia).
  assert (length (numeral 10 frac) <= n)%nat as Lf by (apply numeral_length; lia).
  assert (10 ^ Z.of_nat (n - 1) <= frac -> length (numeral 10 frac) = n) as Hfull
    by (intros; apply numeral_full; lia).
  unfold gcvt, text, gcvt_text in *. fold neg. unfold v in *. destruct neg.
  - rewrite (u64_id (buf + 1)) by lia.
    destruct (gcvt_tail fuel (wr buf (chr "-"%char) m) _ n (buf + 1) tmp dec frac Hd Hd0 Hs)
      as (Lx & m' & E & He1 & Hz & Hz2 & He2); [lia..|].
    set (tl := numeral 10 dec ++ [chr "."%char] ++ frac_text n frac) in *.
    exists m'. cbn [app length]. split; [etransitivity; [exact E|do 2 f_equal; lia]|]. split_and!.
    + intros [|i] c Hi.
      * injection Hi as <-. rewrite Z.add_0_r, He2 by lia. by rewrite rd_write_eq.
      * rewrite <- (He1 _ _ Hi). f_equal. lia.
    + rewrite <- Hz. f_equal. lia.
    + intros Hx. by rewrite <- (Hfull Hx).
    + intros b Hb1 Hb2. rewrite He2 by lia. apply rd_write_ne. lia.
  - destruct (gcvt_tail fuel m _ n buf tmp dec frac Hd Hd0 Hs)
      as (Lx & m' & E & He1 & Hz & Hz2 & He2); [lia..|].
    exists m'. split; [exact E|]. split_and!; [done..| |].
    + intros Hx. by rewrite <- (Hfull Hx).
    + intros b Hb1 Hb2. apply He2; [exact Hb1|lia].
Qed.

(** [-2.5] in five places: the terminator of ["50000"] lands behind [tmp[5]]. *)
Lemma gcvt_prints_fixed_point_witness :
  exists m', gcvt 30 ∅ (SpecFloat.S754_finite true 5629499534213120 (-51)) 5 1000 2000
             = Some (m', 1000 + 8) /\
    (forall i c, bytes "-2.50000" !! i = Some c -> rd m' (1000 + Z.of_nat i) = c) /\
    rd m' (1000 + 8) = 0 /\ (10 ^ Z.of_nat (5 - 1) <= 50000 -> rd m' (2000 + Z.of_nat 5) = 0).
Proof.
  destruct (gcvt_prints_fixed_point 30 ∅ (SpecFloat.S754_finite true 5629499534213120 (-51)) 5
    1000 2000 2 50000) as (_ & _ & m' & E & H1 & H2 & H3 & _).
  all: try (vm_compute; reflexivity).
  all: try lia.
  all: try (vm_compute; split; congruence).
  exists m'. split; [exact E|]. split; [exact H1|]. split; [exact H2|exact H3].
Defined.

End KStringProps.
