(* ===== verification/Font.v ===== *)
(** The glyphs of the console font (src/kernel/src/VGA/Font.c): 95 printable characters of
    13 rows each, the bottom row first. *)
From S2P Require Import Prelude.
#[global] Open Scope Z_scope.

Module Font.

Definition FONT_WIDTH : Z := 9.
Definition FONT_HEIGHT : Z := 13.

Definition FONT : list (list Z) := [
  [0x00; 0x00; 0x00; 0x00; 0x00; 0x00; 0x00; 0x00; 0x00; 0x00; 0x00; 0x00; 0x00];
  [0x00; 0x00; 0x18; 0x18; 0x00; 0x00; 0x18; 0x18; 0x18; 0x18; 0x18; 0x18; 0x18];
  [0x00; 0x00; 0x00; 0x00; 0x00; 0x00; 0x00; 0x00; 0x00; 0x36; 0x36; 0x36; 0x36];
  [0x00; 0x00; 0x00; 0x66; 0x66; 0xff; 0x66; 0x66; 0xff; 0x66; 0x66; 0x00; 0x00];
  [0x00; 0x00; 0x18; 0x7e; 0xff; 0x1b; 0x1f; 0x7e; 0xf8; 0xd8; 0xff; 0x7e; 0x18];
  [0x00; 0x00; 0x0e; 0x1b; 0xdb; 0x6e; 0x30; 0x18; 0x0c; 0x76; 0xdb; 0xd8; 0x70];
  [0x00; 0x00; 0x7f; 0xc6; 0xcf; 0xd8; 0x70; 0x70; 0xd8; 0xcc; 0xcc; 0x6c; 0x38];
  [0x00; 0x00; 0x00; 0x00; 0x00; 0x00; 0x00; 0x00; 0x00; 0x18; 0x1c; 0x0c; 0x0e];
  [0x00; 0x00; 0x0c; 0x18; 0x30; 0x30; 0x30; 0x30; 0x30; 0x30; 0x30; 0x18; 0x0c];
  [0x00; 0x00; 0x30; 0x18; 0x0c; 0x0c; 0x0c; 0x0c; 0x0c; 0x0c; 0x0c; 0x18; 0x30];
  [0x00; 0x00; 0x00; 0x00; 0x99; 0x5a; 0x3c; 0xff; 0x3c; 0x5a; 0x99; 0x00; 0x00];
  [0x00; 0x00; 0x00; 0x18; 0x18; 0x18; 0xff; 0xff; 0x18; 0x18; 0x18; 0x00; 0x00];
  [0x00; 0x00; 0x30; 0x18; 0x1c; 0x1c; 0x00; 0x00; 0x00; 0x00; 0x00; 0x00; 0x00];
  [0x00; 0x00; 0x00; 0x00; 0x00; 0x00; 0xff; 0xff; 0x00; 0x00; 0x00; 0x00; 0x00];
  [0x00; 0x00; 0x00; 0x38; 0x38; 0x00; 0x00; 0x00; 0x00; 0x00; 0x00; 0x00; 0x00];
  [0x00; 0x60; 0x60; 0x30; 0x30; 0x18; 0x18; 0x0c; 0x0c; 0x06; 0x06; 0x03; 0x03];
  [0x00; 0x00; 0x3c; 0x66; 0xc3; 0xe3; 0xf3; 0xdb; 0xcf; 0xc7; 0xc3; 0x66; 0x3c];
  [0x00; 0x00; 0x7e; 0x18; 0x18; 0x18; 0x18; 0x18; 0x18; 0x18; 0x78; 0x38; 0x18];
  [0x00; 0x00; 0xff; 0xc0; 0xc0; 0x60; 0x30; 0x18; 0x0c; 0x06; 0x03; 0xe7; 0x7e];
  [0x00; 0x00; 0x7e; 0xe7; 0x03; 0x03; 0x07; 0x7e; 0x07; 0x03; 0x03; 0xe7; 0x7e];
  [0x00; 0x00; 0x0c; 0x0c; 0x0c; 0x0c; 0x0c; 0xff; 0xcc; 0x6c; 0x3c; 0x1c; 0x0c];
  [0x00; 0x00; 0x7e; 0xe7; 0x03; 0x03; 0x07; 0xfe; 0xc0; 0xc0; 0xc0; 0xc0; 0xff];
  [0x00; 0x00; 0x7e; 0xe7; 0xc3; 0xc3; 0xc7; 0xfe; 0xc0; 0xc0; 0xc0; 0xe7; 0x7e];
  [0x00; 0x00; 0x30; 0x30; 0x30; 0x30; 0x18; 0x0c; 0x06; 0x03; 0x03; 0x03; 0xff];
  [0x00; 0x00; 0x7e; 0xe7; 0xc3; 0xc3; 0xe7; 0x7e; 0xe7; 0xc3; 0xc3; 0xe7; 0x7e];
  [0x00; 0x00; 0x7e; 0xe7; 0x03; 0x03; 0x03; 0x7f; 0xe7; 0xc3; 0xc3; 0xe7; 0x7e];
  [0x00; 0x00; 0x00; 0x38; 0x38; 0x00; 0x00; 0x38; 0x38; 0x00; 0x00; 0x00; 0x00];
  [0x00; 0x00; 0x30; 0x18; 0x1c; 0x1c; 0x00; 0x00; 0x1c; 0x1c; 0x00; 0x00; 0x00];
  [0x00; 0x00; 0x06; 0x0c; 0x18; 0x30; 0x60; 0xc0; 0x60; 0x30; 0x18; 0x0c; 0x06];
  [0x00; 0x00; 0x00; 0x00; 0xff; 0xff; 0x00; 0xff; 0xff; 0x00; 0x00; 0x00; 0x00];
  [0x00; 0x00; 0x60; 0x30; 0x18; 0x0c; 0x06; 0x03; 0x06; 0x0c; 0x18; 0x30; 0x60];
  [0x00; 0x00; 0x18; 0x00; 0x00; 0x18; 0x18; 0x0c; 0x06; 0x03; 0xc3; 0xc3; 0x7e];
  [0x00; 0x00; 0x3f; 0x60; 0xcf; 0xdb; 0xd3; 0xdd; 0xc3; 0x7e; 0x00; 0x00; 0x00];
  [0x00; 0x00; 0xc3; 0xc3; 0xc3; 0xc3; 0xff; 0xc3; 0xc3; 0xc3; 0x66; 0x3c; 0x18];
  [0x00; 0x00; 0xfe; 0xc7; 0xc3; 0xc3; 0xc7; 0xfe; 0xc7; 0xc3; 0xc3; 0xc7; 0xfe];
  [0x00; 0x00; 0x7e; 0xe7; 0xc0; 0xc0; 0xc0; 0xc0; 0xc0; 0xc0; 0xc0; 0xe7; 0x7e];
  [0x00; 0x00; 0xfc; 0xce; 0xc7; 0xc3; 0xc3; 0xc3; 0xc3; 0xc3; 0xc7; 0xce; 0xfc];
  [0x00; 0x00; 0xff; 0xc0; 0xc0; 0xc0; 0xc0; 0xfc; 0xc0; 0xc0; 0xc0; 0xc0; 0xff];
  [0x00; 0x00; 0xc0; 0xc0; 0xc0; 0xc0; 0xc0; 0xc0; 0xfc; 0xc0; 0xc0; 0xc0; 0xff];
  [0x00; 0x00; 0x7e; 0xe7; 0xc3; 0xc3; 0xcf; 0xc0; 0xc0; 0xc0; 0xc0; 0xe7; 0x7e];
  [0x00; 0x00; 0xc3; 0xc3; 0xc3; 0xc3; 0xc3; 0xff; 0xc3; 0xc3; 0xc3; 0xc3; 0xc3];
  [0x00; 0x00; 0x7e; 0x18; 0x18; 0x18; 0x18; 0x18; 0x18; 0x18; 0x18; 0x18; 0x7e];
  [0x00; 0x00; 0x7c; 0xee; 0xc6; 0x06; 0x06; 0x06; 0x06; 0x06; 0x06; 0x06; 0x06];
  [0x00; 0x00; 0xc3; 0xc6; 0xcc; 0xd8; 0xf0; 0xe0; 0xf0; 0xd8; 0xcc; 0xc6; 0xc3];
  [0x00; 0x00; 0xff; 0xc0; 0xc0; 0xc0; 0xc0; 0xc0; 0xc0; 0xc0; 0xc0; 0xc0; 0xc0];
  [0x00; 0x00; 0xc3; 0xc3; 0xc3; 0xc3; 0xc3; 0xc3; 0xdb; 0xff; 0xff; 0xe7; 0xc3];
  [0x00; 0x00; 0xc7; 0xc7; 0xcf; 0xcf; 0xdf; 0xdb; 0xfb; 0xf3; 0xf3; 0xe3; 0xe3];
  [0x00; 0x00; 0x7e; 0xe7; 0xc3; 0xc3; 0xc3; 0xc3; 0xc3; 0xc3; 0xc3; 0xe7; 0x7e];
  [0x00; 0x00; 0xc0; 0xc0; 0xc0; 0xc0; 0xc0; 0xfe; 0xc7; 0xc3; 0xc3; 0xc7; 0xfe];
  [0x00; 0x00; 0x3f; 0x6e; 0xdf; 0xdb; 0xc3; 0xc3; 0xc3; 0xc3; 0xc3; 0x66; 0x3c];
  [0x00; 0x00; 0xc3; 0xc6; 0xcc; 0xd8; 0xf0; 0xfe; 0xc7; 0xc3; 0xc3; 0xc7; 0xfe];
  [0x00; 0x00; 0x7e; 0xe7; 0x03; 0x03; 0x07; 0x7e; 0xe0; 0xc0; 0xc0; 0xe7; 0x7e];
  [0x00; 0x00; 0x18; 0x18; 0x18; 0x18; 0x18; 0x18; 0x18; 0x18; 0x18; 0x18; 0xff];
  [0x00; 0x00; 0x7e; 0xe7; 0xc3; 0xc3; 0xc3; 0xc3; 0xc3; 0xc3; 0xc3; 0xc3; 0xc3];
  [0x00; 0x00; 0x18; 0x3c; 0x3c; 0x66; 0x66; 0xc3; 0xc3; 0xc3; 0xc3; 0xc3; 0xc3];
  [0x00; 0x00; 0xc3; 0xe7; 0xff; 0xff; 0xdb; 0xdb; 0xc3; 0xc3; 0xc3; 0xc3; 0xc3];
  [0x00; 0x00; 0xc3; 0x66; 0x66; 0x3c; 0x3c; 0x18; 0x3c; 0x3c; 0x66; 0x66; 0xc3];
  [0x00; 0x00; 0x18; 0x18; 0x18; 0x18; 0x18; 0x18; 0x3c; 0x3c; 0x66; 0x66; 0xc3];
  [0x00; 0x00; 0xff; 0xc0; 0xc0; 0x60; 0x30; 0x7e; 0x0c; 0x06; 0x03; 0x03; 0xff];
  [0x00; 0x00; 0x3c; 0x30; 0x30; 0x30; 0x30; 0x30; 0x30; 0x30; 0x30; 0x30; 0x3c];
  [0x00; 0x03; 0x03; 0x06; 0x06; 0x0c; 0x0c; 0x18; 0x18; 0x30; 0x30; 0x60; 0x60];
  [0x00; 0x00; 0x3c; 0x0c; 0x0c; 0x0c; 0x0c; 0x0c; 0x0c; 0x0c; 0x0c; 0x0c; 0x3c];
  [0x00; 0x00; 0x00; 0x00; 0x00; 0x00; 0x00; 0x00; 0x00; 0xc3; 0x66; 0x3c; 0x18];
  [0xff; 0xff; 0x00; 0x00; 0x00; 0x00; 0x00; 0x00; 0x00; 0x00; 0x00; 0x00; 0x00];
  [0x00; 0x00; 0x00; 0x00; 0x00; 0x00; 0x00; 0x00; 0x00; 0x18; 0x38; 0x30; 0x70];
  [0x00; 0x00; 0x7f; 0xc3; 0xc3; 0x7f; 0x03; 0xc3; 0x7e; 0x00; 0x00; 0x00; 0x00];
  [0x00; 0x00; 0xfe; 0xc3; 0xc3; 0xc3; 0xc3; 0xfe; 0xc0; 0xc0; 0xc0; 0xc0; 0xc0];
  [0x00; 0x00; 0x7e; 0xc3; 0xc0; 0xc0; 0xc0; 0xc3; 0x7e; 0x00; 0x00; 0x00; 0x00];
  [0x00; 0x00; 0x7f; 0xc3; 0xc3; 0xc3; 0xc3; 0x7f; 0x03; 0x03; 0x03; 0x03; 0x03];
  [0x00; 0x00; 0x7f; 0xc0; 0xc0; 0xfe; 0xc3; 0xc3; 0x7e; 0x00; 0x00; 0x00; 0x00];
  [0x00; 0x00; 0x30; 0x30; 0x30; 0x30; 0x30; 0xfc; 0x30; 0x30; 0x30; 0x33; 0x1e];
  [0x7e; 0xc3; 0x03; 0x03; 0x7f; 0xc3; 0xc3; 0xc3; 0x7e; 0x00; 0x00; 0x00; 0x00];
  [0x00; 0x00; 0xc3; 0xc3; 0xc3; 0xc3; 0xc3; 0xc3; 0xfe; 0xc0; 0xc0; 0xc0; 0xc0];
  [0x00; 0x00; 0x18; 0x18; 0x18; 0x18; 0x18; 0x18; 0x18; 0x00; 0x00; 0x18; 0x00];
  [0x38; 0x6c; 0x0c; 0x0c; 0x0c; 0x0c; 0x0c; 0x0c; 0x0c; 0x00; 0x00; 0x0c; 0x00];
  [0x00; 0x00; 0xc6; 0xcc; 0xf8; 0xf0; 0xd8; 0xcc; 0xc6; 0xc0; 0xc0; 0xc0; 0xc0];
  [0x00; 0x00; 0x7e; 0x18; 0x18; 0x18; 0x18; 0x18; 0x18; 0x18; 0x18; 0x18; 0x78];
  [0x00; 0x00; 0xdb; 0xdb; 0xdb; 0xdb; 0xdb; 0xdb; 0xfe; 0x00; 0x00; 0x00; 0x00];
  [0x00; 0x00; 0xc6; 0xc6; 0xc6; 0xc6; 0xc6; 0xc6; 0xfc; 0x00; 0x00; 0x00; 0x00];
  [0x00; 0x00; 0x7c; 0xc6; 0xc6; 0xc6; 0xc6; 0xc6; 0x7c; 0x00; 0x00; 0x00; 0x00];
  [0xc0; 0xc0; 0xc0; 0xfe; 0xc3; 0xc3; 0xc3; 0xc3; 0xfe; 0x00; 0x00; 0x00; 0x00];
  [0x03; 0x03; 0x03; 0x7f; 0xc3; 0xc3; 0xc3; 0xc3; 0x7f; 0x00; 0x00; 0x00; 0x00];
  [0x00; 0x00; 0xc0; 0xc0; 0xc0; 0xc0; 0xc0; 0xe0; 0xfe; 0x00; 0x00; 0x00; 0x00];
  [0x00; 0x00; 0xfe; 0x03; 0x03; 0x7e; 0xc0; 0xc0; 0x7f; 0x00; 0x00; 0x00; 0x00];
  [0x00; 0x00; 0x1c; 0x36; 0x30; 0x30; 0x30; 0x30; 0xfc; 0x30; 0x30; 0x30; 0x00];
  [0x00; 0x00; 0x7e; 0xc6; 0xc6; 0xc6; 0xc6; 0xc6; 0xc6; 0x00; 0x00; 0x00; 0x00];
  [0x00; 0x00; 0x18; 0x3c; 0x3c; 0x66; 0x66; 0xc3; 0xc3; 0x00; 0x00; 0x00; 0x00];
  [0x00; 0x00; 0xc3; 0xe7; 0xff; 0xdb; 0xc3; 0xc3; 0xc3; 0x00; 0x00; 0x00; 0x00];
  [0x00; 0x00; 0xc3; 0x66; 0x3c; 0x18; 0x3c; 0x66; 0xc3; 0x00; 0x00; 0x00; 0x00];
  [0xc0; 0x60; 0x60; 0x30; 0x18; 0x3c; 0x66; 0x66; 0xc3; 0x00; 0x00; 0x00; 0x00];
  [0x00; 0x00; 0xff; 0x60; 0x30; 0x18; 0x0c; 0x06; 0xff; 0x00; 0x00; 0x00; 0x00];
  [0x00; 0x00; 0x0f; 0x18; 0x18; 0x18; 0x38; 0xf0; 0x38; 0x18; 0x18; 0x18; 0x0f];
  [0x18; 0x18; 0x18; 0x18; 0x18; 0x18; 0x18; 0x18; 0x18; 0x18; 0x18; 0x18; 0x18];
  [0x00; 0x00; 0xf0; 0x18; 0x18; 0x18; 0x1c; 0x0f; 0x1c; 0x18; 0x18; 0x18; 0xf0];
  [0x00; 0x00; 0x00; 0x00; 0x00; 0x00; 0x06; 0x8f; 0xf1; 0x60; 0x00; 0x00; 0x00]].

(** [FONT[i][r]]; reading outside the array is undefined. *)
Definition font_row (i r : Z) : option Z :=
  if (0 <=? i) && (0 <=? r) then row ← FONT !! Z.to_nat i; row !! Z.to_nat r else None.

(** The table has the shape its type promises, and its rows are bytes. *)
Lemma FONT_shape :
  length FONT = 95%nat /\
  Forall (fun row => length row = 13%nat /\ Forall (fun b => 0 <= b < 256) row) FONT.
Proof.
  split; [reflexivity|]. apply Forall_forall. intros row Hrow.
  enough (forallb (fun row => Nat.eqb (length row) 13 && forallb (fun b => (0 <=? b) && (b <? 256)) row)
            FONT = true) as H.
  - apply list_elem_of_In in Hrow. rewrite forallb_forall in H. specialize (H row Hrow).
    apply andb_true_iff in H as [H1%Nat.eqb_eq H2]. split; [done|].
    apply Forall_forall. intros b Hb%list_elem_of_In. rewrite forallb_forall in H2.
    specialize (H2 b Hb). zb. lia.
  - vm_compute. reflexivity.
Qed.

Lemma font_row_some i r :
  0 <= i < 95 -> 0 <= r < 13 -> exists b, font_row i r = Some b /\ 0 <= b < 256.
Proof.
  intros Hi Hr. destruct FONT_shape as [HL HF]. unfold font_row.
  destruct (Z.leb_spec 0 i), (Z.leb_spec 0 r); try lia. cbn [andb].
  destruct (lookup_lt_is_Some_2 FONT (Z.to_nat i)) as [row Hrow]; [lia|]. rewrite Hrow. cbn.
  apply Forall_lookup_1 with (i := Z.to_nat i) (x := row) in HF as [HL2 HB]; [|done].
  destruct (lookup_lt_is_Some_2 row (Z.to_nat r)) as [b Hb]; [lia|].
  exists b. split; [done|]. by eapply Forall_lookup_1 in HB.
Qed.

End Font.
