(* ===== verification/Ports.v ===== *)
(** Port I/O and the interrupt controllers (PortIO.c, PIC.c).

    The x86 port space is hardware: the class [PortBus] is what the [in] and [out]
    instructions do to the machine.  The pair of 8259A controllers behind the ports 0x20,
    0x21, 0xA0 and 0xA1 is described by [chip_command] and [chip_data] after the data sheet
    (initialisation words, mask register, end of interrupt); [PicBus] says that a bus has
    such a pair.  [PIC_remap], [IRQ_set_mask], [IRQ_clear_mask] and [PIC_send_EOI] are
    proved against that interface. *)
From S2P Require Import Prelude KMonad.
#[global] Open Scope Z_scope.

Module Ports.

Class PortBus (K : Type) := {
  port_out : Z -> Z -> K -> K;
  port_in : Z -> K -> Z * K
}.

(** ** PortIO.c *)
Section Ops.
Context {K : Type} `{!PortBus K}.

Definition outb (port val : Z) : M K unit := modify (port_out (u16 port) (u8 val)).
Definition inb (port : Z) : M K Z := fun k =>
  let '(v, k') := port_in (u16 port) k in Some (u8 v, k').
Definition io_wait : M K unit := outb 0x80 0.

(** ** PIC.c *)
Definition PIC1 : Z := 0x20.
Definition PIC2 : Z := 0xA0.
Definition PIC1_COMMAND : Z := PIC1.
Definition PIC1_DATA : Z := PIC1 + 1.
Definition PIC2_COMMAND : Z := PIC2.
Definition PIC2_DATA : Z := PIC2 + 1.
Definition PIC_EOI : Z := 0x20.
Definition ICW1_ICW4 : Z := 0x01.
Definition ICW1_INIT : Z := 0x10.
Definition ICW4_8086 : Z := 0x01.

Definition PIC_send_EOI (irq_no : Z) : M K unit :=
  when (8 <=? u32 irq_no) (outb PIC2_COMMAND PIC_EOI) ;;;
  outb PIC1_COMMAND PIC_EOI.

Definition PIC_remap (offset1 offset2 : Z) : M K unit :=
  let! a1 := inb PIC1_DATA in
  let! a2 := inb PIC2_DATA in
  outb PIC1_COMMAND (ICW1_INIT ||| ICW1_ICW4) ;;;
  io_wait ;;;
  outb PIC2_COMMAND (ICW1_INIT ||| ICW1_ICW4) ;;;
  io_wait ;;;
  outb PIC1_DATA offset1 ;;;
  io_wait ;;;
  outb PIC2_DATA offset2 ;;;
  io_wait ;;;
  outb PIC1_DATA 4 ;;;
  io_wait ;;;
  outb PIC2_DATA 2 ;;;
  io_wait ;;;
  outb PIC1_DATA ICW4_8086 ;;;
  io_wait ;;;
  outb PIC2_DATA ICW4_8086 ;;;
  io_wait ;;;
  outb PIC1_DATA a1 ;;;
  outb PIC2_DATA a2.

(** The data port and the bit of an interrupt line. *)
Definition irq_port (IRQline : Z) : Z * Z :=
  if IRQline <? 8 then (PIC1_DATA, IRQline) else (PIC2_DATA, u8 (IRQline - 8)).

Definition IRQ_set_mask (IRQline : Z) : M K unit :=
  let '(port, line) := irq_port (u8 IRQline) in
  let! v := inb port in
  outb port (v ||| (1 <<< line)).

Definition IRQ_clear_mask (IRQline : Z) : M K unit :=
  let '(port, line) := irq_port (u8 IRQline) in
  let! v := inb port in
  outb port (v &&& Z.lnot (1 <<< line)).
End Ops.

(** ** The 8259A *)

(** Which initialisation word the data port expects. *)
Inductive phase := Ready | WantICW2 | WantICW3 | WantICW4.

Record chip := Chip {
  imr : Z;               (** interrupt mask register *)
  isr : Z;               (** lines in service *)
  icw2 : Z;              (** vector offset *)
  icw3 : Z;              (** cascade wiring *)
  single : bool;         (** no ICW3 expected *)
  with4 : bool;          (** ICW4 expected *)
  state : phase
}.

(** A byte written to the command port.  [None]: the commands the kernel does not use. *)
Definition chip_command (v : Z) (c : chip) : option chip :=
  if Z.testbit v 4
  then Some (Chip 0 0 (icw2 c) (icw3 c) (Z.testbit v 1) (Z.testbit v 0) WantICW2)
  else if v =? 0x20
  then Some (Chip (imr c) (isr c &&& (isr c - 1)) (icw2 c) (icw3 c) (single c) (with4 c) (state c))
  else None.

(** A byte written to the data port. *)
Definition chip_data (v : Z) (c : chip) : chip :=
  match state c with
  | Ready => Chip v (isr c) (icw2 c) (icw3 c) (single c) (with4 c) Ready
  | WantICW2 => Chip (imr c) (isr c) v (icw3 c) (single c) (with4 c)
      (if single c then if with4 c then WantICW4 else Ready else WantICW3)
  | WantICW3 => Chip (imr c) (isr c) (icw2 c) v (single c) (with4 c)
      (if with4 c then WantICW4 else Ready)
  | WantICW4 => Chip (imr c) (isr c) (icw2 c) (icw3 c) (single c) (with4 c) Ready
  end.

(** The pair of controllers, master first, and the ports they answer to. *)
Definition pic_write (p v : Z) (cs : chip * chip) : option (chip * chip) :=
  if p =? 0x20 then m ← chip_command v cs.1; Some (m, cs.2)
  else if p =? 0x21 then Some (chip_data v cs.1, cs.2)
  else if p =? 0xA0 then s ← chip_command v cs.2; Some (cs.1, s)
  else if p =? 0xA1 then Some (cs.1, chip_data v cs.2)
  else Some cs.
Definition pic_read (p : Z) (cs : chip * chip) : option Z :=
  if p =? 0x21 then match state cs.1 with Ready => Some (imr cs.1) | _ => None end
  else if p =? 0xA1 then match state cs.2 with Ready => Some (imr cs.2) | _ => None end
  else None.

(** A bus with a pair of controllers on it. *)
Class PicBus (K : Type) `{!PortBus K} := {
  chips : K -> chip * chip;
  chips_out : forall p v k cs, 0 <= v < 256 -> pic_write p v (chips k) = Some cs ->
    chips (port_out p v k) = cs;
  chips_in : forall p k, chips (port_in p k).2 = chips k;
  chips_read : forall p k v, pic_read p (chips k) = Some v -> (port_in p k).1 = v
}.

(** The mask of all sixteen lines, and the lines in service. *)
Definition irq_mask (cs : chip * chip) : Z := imr cs.1 ||| (imr cs.2 <<< 8).

Definition chips_ok (cs : chip * chip) : Prop :=
  state cs.1 = Ready /\ state cs.2 = Ready /\ in_u 8 (imr cs.1) /\ in_u 8 (imr cs.2).

(** The vector on which line [n] is delivered (8086 mode: the low three bits of the offset
    are replaced by the line). *)
Definition irq_vector (cs : chip * chip) (n : Z) : Z :=
  if n <? 8 then (icw2 cs.1 &&& 0xf8) ||| n else (icw2 cs.2 &&& 0xf8) ||| (n - 8).

Section Specs.
Context {K : Type} `{!PortBus K} `{!PicBus K}.
Implicit Types k : K.

Lemma wp_outb_pic p v k cs (Q : unit -> K -> Prop) :
  pic_write (u16 p) (u8 v) (chips k) = Some cs ->
  (forall k', chips k' = cs -> Q tt k') -> wp (outb p v) k Q.
Proof.
  intros Hw HQ. apply wp_modify, HQ, chips_out; [|done].
  pose proof (wrap_range 8 v ltac:(lia)). unfold in_u in *. lia.
Qed.

Lemma wp_inb_pic p v k (Q : Z -> K -> Prop) :
  pic_read (u16 p) (chips k) = Some v -> in_u 8 v ->
  (forall k', chips k' = chips k -> Q v k') -> wp (inb p) k Q.
Proof.
  intros Hr Hv HQ. pose proof (chips_read _ _ _ Hr) as Hv'. pose proof (chips_in (u16 p) k) as Hc.
  unfold wp, inb. destruct (port_in (u16 p) k) as [x k']. simpl in *. subst.
  rewrite wrap_small by done. by apply HQ.
Qed.

(** Evaluate a port access on known controller states. *)
Ltac pic_eval :=
  change (u16 PIC1_COMMAND) with 0x20; change (u16 PIC1_DATA) with 0x21;
  change (u16 PIC2_COMMAND) with 0xA0; change (u16 PIC2_DATA) with 0xA1;
  change (u16 0x80) with 0x80; change (u8 PIC_EOI) with 0x20;
  change (u8 (ICW1_INIT ||| ICW1_ICW4)) with 0x11; change (u8 ICW4_8086) with 1;
  change (u8 4) with 4; change (u8 2) with 2; cbn.
Ltac pic_out Ek :=
  eapply wp_outb_pic; [rewrite Ek; pic_eval; reflexivity|];
  clear Ek; intros ? Ek; cbn in Ek.

Lemma PIC_remap_spec o1 o2 k :
  chips_ok (chips k) ->
  wp (PIC_remap o1 o2) k (fun _ k' =>
    chips k' = (Chip (imr (chips k).1) 0 (u8 o1) 4 false true Ready,
                Chip (imr (chips k).2) 0 (u8 o2) 2 false true Ready)).
Proof.
  intros (H1 & H2 & H3 & H4). unfold PIC_remap, io_wait. destruct (chips k) as [m s] eqn:Ek.
  cbn [fst snd] in *. wp1. eapply wp_inb_pic; [rewrite Ek; pic_eval; by rewrite H1|done|].
  intros k1 E1. wp1. eapply wp_inb_pic; [rewrite E1, Ek; pic_eval; by rewrite H2|done|].
  intros k2 E2. rewrite E1, Ek in E2.
  repeat (wp1; pic_out E2). pic_out E2.
  rewrite E2. by rewrite !(wrap_small 8 (imr _)) by done.
Qed.

(** *** Masks *)
Lemma irq_mask_testbit cs i :
  in_u 8 (imr cs.1) -> 0 <= i ->
  Z.testbit (irq_mask cs) i = if i <? 8 then Z.testbit (imr cs.1) i else Z.testbit (imr cs.2) (i - 8).
Proof.
  intros H Hi. unfold irq_mask. rewrite Z.lor_spec, Z.shiftl_spec by done.
  destruct (Z.ltb_spec i 8).
  - rewrite (Z.testbit_neg_r (imr cs.2)) by lia. apply orb_false_r.
  - by rewrite (testbit_high 8 (imr cs.1)) by (done || lia).
Qed.

Lemma testbit_one l i : 0 <= i -> 0 <= l -> Z.testbit (1 <<< l) i = (i =? l).
Proof.
  intros. rewrite Z.shiftl_1_l, Z.pow2_bits_eqb by lia. apply Z.eqb_sym.
Qed.
Lemma one_range l : 0 <= l < 8 -> in_u 8 (1 <<< l).
Proof.
  intros. unfold in_u. rewrite Z.shiftl_1_l. split; [lia|]. apply Z.pow_lt_mono_r; lia.
Qed.

(** A read-modify-write of the mask of line [n] through [f], which acts on each bit. *)
Lemma mask_spec (f : Z -> Z -> Z) (g : bool -> bool -> bool) n k :
  (forall v l, 0 <= l < 8 -> in_u 8 v -> in_u 8 (f v l)) ->
  (forall v l i, 0 <= l < 8 -> 0 <= i -> Z.testbit (f v l) i = g (Z.testbit v i) (i =? l)) ->
  (forall b, g b false = b) ->
  chips_ok (chips k) -> 0 <= n < 16 ->
  wp (let '(port, line) := irq_port (u8 n) in
      let! v := inb port in outb port (f v line)) k (fun _ k' =>
    chips_ok (chips k') /\
    (forall i, 0 <= i ->
       Z.testbit (irq_mask (chips k')) i = g (Z.testbit (irq_mask (chips k)) i) (i =? n)) /\
    (forall i, irq_vector (chips k') i = irq_vector (chips k) i) /\
    isr (chips k').1 = isr (chips k).1 /\ isr (chips k').2 = isr (chips k).2).
Proof.
  intros Hr Hb Hg (S1 & S2 & R1 & R2) Hn. rewrite wrap_small by (unfold in_u; lia).
  unfold irq_port. destruct (chips k) as [m s] eqn:Ek. cbn [fst snd] in *.
  destruct (Z.ltb_spec n 8) as [Hlt|Hge].
  - wp1. eapply wp_inb_pic; [rewrite Ek; pic_eval; by rewrite S1|done|]. intros k1 E1.
    rewrite Ek in E1. eapply wp_outb_pic; [rewrite E1; pic_eval; reflexivity|].
    intros k2 E2. unfold chip_data in E2. rewrite S1 in E2. rewrite E2.
    rewrite wrap_small by (apply Hr; [lia|done]).
    split; [unfold chips_ok; cbn; split_and!; try done; apply Hr; [lia|done]|]. split; [|by split_and!].
    intros i Hi. rewrite !irq_mask_testbit by (first [done|apply Hr; [lia|done]]). cbn [fst snd imr].
    destruct (Z.ltb_spec i 8); [apply Hb; lia|].
    destruct (Z.eqb_spec i n); [lia|by rewrite Hg].
  - rewrite wrap_small by (unfold in_u; lia).
    wp1. eapply wp_inb_pic; [rewrite Ek; pic_eval; by rewrite S2|done|]. intros k1 E1.
    rewrite Ek in E1. eapply wp_outb_pic; [rewrite E1; pic_eval; reflexivity|].
    intros k2 E2. unfold chip_data in E2. rewrite S2 in E2. rewrite E2.
    rewrite wrap_small by (apply Hr; [lia|done]).
    split; [unfold chips_ok; cbn; split_and!; try done; apply Hr; [lia|done]|]. split; [|by split_and!].
    intros i Hi. rewrite !irq_mask_testbit by done. cbn [fst snd imr].
    destruct (Z.ltb_spec i 8).
    + destruct (Z.eqb_spec i n); [lia|by rewrite Hg].
    + rewrite Hb by lia. f_equal. destruct (Z.eqb_spec (i - 8) (n - 8)), (Z.eqb_spec i n); lia || done.
Qed.

(** *** End of interrupt *)
Lemma land_pred_clears x b :
  0 <= b -> Z.testbit x b = true -> (forall i, 0 <= i < b -> Z.testbit x i = false) ->
  x &&& (x - 1) = Z.clearbit x b.
Proof.
  intros Hb Hx Hl. pose proof (Z.div_mod x (2 ^ (b + 1)) ltac:(lia)) as Hd.
  assert (x mod 2 ^ (b + 1) = 2 ^ b) as Hm.
  { apply Z.bits_inj'. intros i Hi. rewrite Z.pow2_bits_eqb by lia.
    destruct (decide (i < b + 1)).
    - rewrite Z.mod_pow2_bits_low by lia.
      destruct (Z.eqb_spec b i) as [->|]; [done|]. apply Hl. lia.
    - rewrite Z.mod_pow2_bits_high by lia. destruct (Z.eqb_spec b i); [lia|done]. }
  rewrite Hm in Hd. set (q := x / 2 ^ (b + 1)) in *.
  assert (2 ^ b < 2 ^ (b + 1)) by (apply Z.pow_lt_mono_r; lia).
  assert ((2 ^ (b + 1) * q) mod 2 ^ (b + 1) = 0) as Ha by (rewrite Z.mul_comm; apply Z_mod_mult).
  assert (x = 2 ^ (b + 1) * q ||| 2 ^ b) as E1
    by (rewrite (lor_aligned_add (b + 1)) by (unfold in_u; lia); lia).
  assert (x - 1 = 2 ^ (b + 1) * q ||| (2 ^ b - 1)) as E2
    by (rewrite (lor_aligned_add (b + 1)) by (unfold in_u; lia); lia).
  rewrite E2. rewrite E1 at 1. rewrite E1. clear E1 E2 Hx Hl Hd Hm. apply Z.bits_inj'. intros i Hi.
  rewrite Z.clearbit_eqb, Z.land_spec, !Z.lor_spec, Z.pow2_bits_eqb by lia.
  replace (2 ^ b - 1) with (Z.ones b) by (rewrite Z.ones_equiv; lia).
  rewrite Z.testbit_ones by lia.
  destruct (decide (i < b + 1)).
  - rewrite (testbit_aligned (b + 1) _ i) by lia. cbn.
    destruct (Z.eqb_spec b i), (Z.leb_spec 0 i), (Z.ltb_spec i b); lia || done.
  - destruct (Z.eqb_spec b i), (Z.ltb_spec i b); try lia.
    rewrite andb_false_r, !orb_false_r. cbn. by rewrite andb_diag, andb_true_r.
Qed.

(** [n] is the line of the highest priority (lowest number) in service. *)
Definition servicing (x b : Z) : Prop :=
  Z.testbit x b = true /\ forall i, 0 <= i < b -> Z.testbit x i = false.

(** The interrupt being handled: a line of the slave is also line 2 of the master. *)
Definition handling (cs : chip * chip) (n : Z) : Prop :=
  if n <? 8 then servicing (isr cs.1) n
  else servicing (isr cs.1) 2 /\ servicing (isr cs.2) (n - 8).

Lemma PIC_send_EOI_spec n k :
  0 <= n < 16 -> handling (chips k) n ->
  wp (PIC_send_EOI n) k (fun _ k' =>
    chips k' =
      let '(m, s) := chips k in
      let clear b c := Chip (imr c) (Z.clearbit (isr c) b) (icw2 c) (icw3 c) (single c) (with4 c) (state c) in
      if n <? 8 then (clear n m, s) else (clear 2 m, clear (n - 8) s)).
Proof.
  intros Hn Hh. unfold PIC_send_EOI, handling in *. rewrite wrap_small by (unfold in_u; lia).
  destruct (chips k) as [m s] eqn:Ek. cbn [fst snd] in *.
  destruct (Z.ltb_spec n 8), (Z.leb_spec 8 n); try lia; cbn [when].
  - wp1. wp1. pic_out Ek. rewrite Ek. destruct Hh as [H1 H2].
    by rewrite (land_pred_clears _ n) by (lia || done).
  - wp1. pic_out Ek. pic_out Ek. rewrite Ek. destruct Hh as [[H1 H2] [H3 H4]].
    by rewrite (land_pred_clears _ 2), (land_pred_clears _ (n - 8)) by (lia || done).
Qed.

Lemma vector_of o n : 0 <= n < 8 -> 0 <= o < 256 -> o mod 8 = 0 -> (o &&& 0xf8) ||| n = o + n.
Proof.
  intros Hn Ho Hm. replace (o &&& 0xf8) with o.
  - apply (lor_aligned_add 3); [lia|done|unfold in_u; lia].
  - symmetry. apply Z.bits_inj'. intros i Hi. rewrite Z.land_spec.
    change 0xf8 with (Z.shiftl (Z.ones 5) 3). rewrite testbit_mask by lia.
    destruct (decide (i < 3)).
    { by rewrite (testbit_aligned 3 o i) by (done || lia). }
    destruct (decide (i < 8)).
    { rewrite bool_decide_eq_true_2 by lia. apply andb_true_r. }
    rewrite (testbit_high 8 o i); [done|unfold in_u; lia|lia].
Qed.

(** C20: [PIC_remap] moves the interrupt lines to the vectors asked for.  Started with both
    controllers in operation it goes through the whole initialisation sequence and leaves
    them in operation, the mask of the sixteen lines as it was and nothing in service; for
    offsets that are multiples of 8, line [n] is then delivered on [offset1 + n] and line
    [8 + n] on [offset2 + n]. *)
Theorem PIC_remap_moves_vectors (k : K) (offset1 offset2 : Z) :
  chips_ok (chips k) -> 0 <= offset1 < 256 -> 0 <= offset2 < 256 ->
  offset1 mod 8 = 0 -> offset2 mod 8 = 0 ->
  exists k', PIC_remap offset1 offset2 k = Some (tt, k') /\ chips_ok (chips k') /\
    irq_mask (chips k') = irq_mask (chips k) /\
    isr (chips k').1 = 0 /\ isr (chips k').2 = 0 /\
    (forall n, 0 <= n < 8 -> irq_vector (chips k') n = offset1 + n /\
       irq_vector (chips k') (8 + n) = offset2 + n).
Proof.
  intros Hok H1 H2 M1 M2.
  destruct (wp_run _ _ _ (PIC_remap_spec offset1 offset2 k Hok)) as ([] & k' & E & Hc).
  exists k'. split; [done|]. rewrite Hc. destruct Hok as (_ & _ & R1 & R2).
  split; [by repeat split; apply R1 || apply R2|]. split_and!; [done..|]. intros n Hn.
  unfold irq_vector. cbn [fst snd icw2]. rewrite !wrap_small by (unfold in_u; lia).
  destruct (Z.ltb_spec n 8), (Z.ltb_spec (8 + n) 8); try lia.
  replace (8 + n - 8) with n by lia. by rewrite !vector_of by done.
Qed.

Lemma IRQ_set_mask_spec line k :
  chips_ok (chips k) -> 0 <= line < 16 ->
  wp (IRQ_set_mask line) k (fun _ k' => chips_ok (chips k') /\
    (forall i, 0 <= i -> Z.testbit (irq_mask (chips k')) i
                         = Z.testbit (irq_mask (chips k)) i || (i =? line)) /\
    (forall i, irq_vector (chips k') i = irq_vector (chips k) i) /\
    isr (chips k').1 = isr (chips k).1 /\ isr (chips k').2 = isr (chips k).2).
Proof.
  apply (mask_spec (fun v l => v ||| (1 <<< l)) orb line k); [..|exact orb_false_r];
    intros; cbv beta.
  - apply lor_range; [lia|done|by apply one_range].
  - by rewrite Z.lor_spec, testbit_one by lia.
Qed.
Lemma IRQ_clear_mask_spec line k :
  chips_ok (chips k) -> 0 <= line < 16 ->
  wp (IRQ_clear_mask line) k (fun _ k' => chips_ok (chips k') /\
    (forall i, 0 <= i -> Z.testbit (irq_mask (chips k')) i
                         = Z.testbit (irq_mask (chips k)) i && negb (i =? line)) /\
    (forall i, irq_vector (chips k') i = irq_vector (chips k) i) /\
    isr (chips k').1 = isr (chips k).1 /\ isr (chips k').2 = isr (chips k).2).
Proof.
  apply (mask_spec (fun v l => v &&& Z.lnot (1 <<< l)) (fun a b => a && negb b) line k);
    intros; cbv beta.
  - rewrite Z.land_comm. by apply land_range.
  - by rewrite Z.land_spec, Z.lnot_spec, testbit_one by lia.
  - apply andb_true_r.
Qed.

(** [IRQ_set_mask] and [IRQ_clear_mask] change the mask of exactly the line they are
    given, of the sixteen, and touch neither the vectors nor the lines in service. *)
Theorem IRQ_mask_exact (k : K) (line : Z) :
  chips_ok (chips k) -> 0 <= line < 16 ->
  (exists k', IRQ_set_mask line k = Some (tt, k') /\ chips_ok (chips k') /\
     (forall i, 0 <= i -> Z.testbit (irq_mask (chips k')) i
                          = Z.testbit (irq_mask (chips k)) i || (i =? line)) /\
     (forall i, irq_vector (chips k') i = irq_vector (chips k) i) /\
     isr (chips k').1 = isr (chips k).1 /\ isr (chips k').2 = isr (chips k).2) /\
  (exists k', IRQ_clear_mask line k = Some (tt, k') /\ chips_ok (chips k') /\
     (forall i, 0 <= i -> Z.testbit (irq_mask (chips k')) i
                          = Z.testbit (irq_mask (chips k)) i && negb (i =? line)) /\
     (forall i, irq_vector (chips k') i = irq_vector (chips k) i) /\
     isr (chips k').1 = isr (chips k).1 /\ isr (chips k').2 = isr (chips k).2).
Proof.
  intros Hok Hl. split.
  - destruct (wp_run _ _ _ (IRQ_set_mask_spec line k Hok Hl)) as ([] & k' & E & H). by exists k'.
  - destruct (wp_run _ _ _ (IRQ_clear_mask_spec line k Hok Hl)) as ([] & k' & E & H). by exists k'.
Qed.

(** [PIC_send_EOI] ends the interrupt being handled: the line's bit leaves the in-service
    register of its controller, and for a line of the slave also the cascade line of the
    master; masks, vectors and every other line in service stay. *)
Theorem PIC_send_EOI_completes (k : K) (n : Z) :
  0 <= n < 16 -> handling (chips k) n ->
  exists k', PIC_send_EOI n k = Some (tt, k') /\
    irq_mask (chips k') = irq_mask (chips k) /\
    (forall i, irq_vector (chips k') i = irq_vector (chips k) i) /\
    isr (chips k').1 = Z.clearbit (isr (chips k).1) (if n <? 8 then n else 2) /\
    isr (chips k').2 = (if n <? 8 then isr (chips k).2 else Z.clearbit (isr (chips k).2) (n - 8)).
Proof.
  intros Hn Hh. destruct (wp_run _ _ _ (PIC_send_EOI_spec n k Hn Hh)) as ([] & k' & E & Hc).
  exists k'. split; [done|]. rewrite Hc. destruct (chips k) as [m s]. by destruct (n <? 8).
Qed.
End Specs.

(** ** A concrete machine
    The two controllers, the bytes waiting in the keyboard controller (port 0x60) and the
    bytes written to the first serial port (0x3F8, newest first). *)
Record pc := Pc { pc_chips : chip * chip; pc_keys : list Z; pc_serial : list Z }.

#[export] Instance pc_bus : PortBus pc := {|
  port_out := fun p v k =>
    Pc (default (pc_chips k) (pic_write p v (pc_chips k))) (pc_keys k)
       (if p =? 0x3F8 then v :: pc_serial k else pc_serial k);
  port_in := fun p k =>
    if p =? 0x60 then
      match pc_keys k with
      | c :: r => (c, Pc (pc_chips k) r (pc_serial k))
      | [] => (0, k)
      end
    else (default 0 (pic_read p (pc_chips k)), k)
|}.

#[export] Instance pc_pic : PicBus pc.
Proof.
  refine {| chips := pc_chips |}.
  - intros p v k cs _ H. cbn. by rewrite H.
  - intros p k. cbn. destruct (p =? 0x60); [|done]. by destruct (pc_keys k).
  - intros p k v H. cbn. destruct (Z.eqb_spec p 0x60) as [->|]; [done|]. by rewrite H.
Defined.

(** The state the BIOS leaves: vectors 8 and 0x70, timer and keyboard unmasked; the
    timer interrupt is being handled. *)
Definition pc_bios : pc :=
  Pc (Chip 0xB8 1 8 4 false true Ready, Chip 0x8F 0 0x70 2 false true Ready) [] [].

Lemma pc_bios_ok : chips_ok (chips pc_bios).
Proof. by repeat split. Qed.

Lemma PIC_remap_moves_vectors_witness :
  exists k', PIC_remap 0x20 0x28 pc_bios = Some (tt, k') /\
    irq_mask (chips k') = irq_mask (chips pc_bios) /\ irq_vector (chips k') 1 = 0x21 /\
    irq_vector (chips k') (8 + 6) = 0x2E.
Proof.
  destruct (PIC_remap_moves_vectors pc_bios 0x20 0x28 pc_bios_ok ltac:(lia) ltac:(lia)
    eq_refl eq_refl) as (k' & E & _ & Hm & _ & _ & Hv).
  exists k'. split; [exact E|]. split; [exact Hm|].
  split; [exact (proj1 (Hv 1 ltac:(lia)))|exact (proj2 (Hv 6 ltac:(lia)))].
Defined.

Lemma IRQ_mask_exact_witness :
  exists k', IRQ_set_mask 0 pc_bios = Some (tt, k') /\ Z.testbit (irq_mask (chips k')) 0 = true.
Proof.
  destruct (IRQ_mask_exact pc_bios 0 pc_bios_ok ltac:(lia)) as [(k' & E & _ & Hb & _) _].
  exists k'. split; [exact E|]. rewrite (Hb 0 ltac:(lia)). reflexivity.
Defined.

Lemma PIC_send_EOI_completes_witness :
  exists k', PIC_send_EOI 0 pc_bios = Some (tt, k') /\ isr (chips k').1 = 0.
Proof.
  destruct (PIC_send_EOI_completes pc_bios 0) as (k' & E & _ & _ & Hi & _); [lia| |].
  - split; [reflexivity|lia].
  - exists k'. split; [exact E|]. rewrite Hi. reflexivity.
Defined.

End Ports.
