(* ===== verification/Console.v ===== *)
(** The graphics console (VGA.c): a frame buffer, a back buffer and a background picture,
    and the text cursor; [putChar], [scrollUp], [clearScreen], [log], [log_n], [vga_init].

    Pixels are 32-bit words of a memory addressed by byte address, so that the three
    buffers are windows of one memory and an index outside one of them hits whatever lies
    there.  Reading the glyph of a character that has none is undefined.  [fsin] is an
    instruction of the x87 unit: its sign is a parameter of [vga_init]. *)
From S2P Require Import Prelude KMonad Font Ports KString KStringProps.
From Stdlib Require Import Ascii.
Import Font Ports.
#[global] Open Scope Z_scope.

Module Console.

Definition TAB_SIZE : Z := 4.
Definition TEXT_COLOR : Z := 0x00ffffff.
Definition PAGE_SIZE : Z := 4096.

(** VGA.h: what the boot loader found out about the screen. *)
Record vbe_screen_info := Vbe {
  width : Z; height : Z; bpp : Z; physical_buffer : Z; bytes_per_pixel : Z;
  bytes_per_line : Z; x_cur_max : Z; y_cur_max : Z
}.

(** The globals of VGA.c. *)
Record console := MkConsole {
  vbe_info : vbe_screen_info;
  pixels : gmap Z Z;
  FRAMEBUFFER : Z; BACKBUFFER : Z; BACKGROUND : Z;
  fb_size : Z;
  rowMax : Z; colMax : Z; cursorX : Z; cursorY : Z;
  vga_ready : bool
}.
Definition set_pixels p c := MkConsole (vbe_info c) p (FRAMEBUFFER c) (BACKBUFFER c)
  (BACKGROUND c) (fb_size c) (rowMax c) (colMax c) (cursorX c) (cursorY c) (vga_ready c).
Definition set_cursor x y c := MkConsole (vbe_info c) (pixels c) (FRAMEBUFFER c) (BACKBUFFER c)
  (BACKGROUND c) (fb_size c) (rowMax c) (colMax c) x y (vga_ready c).
Definition set_fb_size n c := MkConsole (vbe_info c) (pixels c) (FRAMEBUFFER c) (BACKBUFFER c)
  (BACKGROUND c) n (rowMax c) (colMax c) (cursorX c) (cursorY c) (vga_ready c).
Definition set_front a c := MkConsole (vbe_info c) (pixels c) a (BACKBUFFER c)
  (BACKGROUND c) (fb_size c) (rowMax c) (colMax c) (cursorX c) (cursorY c) (vga_ready c).
Definition set_back a c := MkConsole (vbe_info c) (pixels c) (FRAMEBUFFER c) a
  (BACKGROUND c) (fb_size c) (rowMax c) (colMax c) (cursorX c) (cursorY c) (vga_ready c).
Definition set_background a c := MkConsole (vbe_info c) (pixels c) (FRAMEBUFFER c) (BACKBUFFER c)
  a (fb_size c) (rowMax c) (colMax c) (cursorX c) (cursorY c) (vga_ready c).
Definition set_vga rows cols c := MkConsole (vbe_info c) (pixels c) (FRAMEBUFFER c) (BACKBUFFER c)
  (BACKGROUND c) (fb_size c) rows cols 0 0 (vga_ready c).
Definition set_ready b c := MkConsole (vbe_info c) (pixels c) (FRAMEBUFFER c) (BACKBUFFER c)
  (BACKGROUND c) (fb_size c) (rowMax c) (colMax c) (cursorX c) (cursorY c) b.

(** The globals before [vga_init]. *)
Definition console_start (v : vbe_screen_info) : console := MkConsole v ∅ 0 0 0 0 0 0 0 0 false.

(** The pixel [i] of the buffer at [base]. *)
Definition pixel_at (base i : Z) : Z := u64 (base + 4 * i).
Definition pixel (c : console) (a : Z) : Z := default 0 (pixels c !! a).

(** The memory the console gets from the rest of the kernel. *)
Class ScreenMemory (K : Type) := {
  vmm_mmap : Z -> Z -> bool -> M K Z;
  kmalloc : Z -> M K Z
}.

(** Byte memory: strings and user memory. *)
Record ram := Ram { ram_bytes : gmap Z Z }.

(** A C string literal: the escapes of the source. *)
Fixpoint esc (s : string) : string :=
  match s with
  | EmptyString => EmptyString
  | String c s1 =>
      if ascii_dec c "\"%char then
        match s1 with
        | String d r =>
            let d := if ascii_dec d "n"%char then "010"%char
                     else if ascii_dec d "t"%char then "009"%char
                     else if ascii_dec d "r"%char then "013"%char else d in
            String d (esc r)
        | EmptyString => s
        end
      else String c (esc s1)
  end.

Fixpoint until_nul (l : list Z) : list Z :=
  match l with [] => [] | c :: l => if c =? 0 then [] else c :: until_nul l end.

Section Ops.
Context {K : Type} `{!Has console K}.

Definition con (k : K) : console := the k.
Definition rpx (a : Z) : M K Z := sgets (fun c => pixel c a).
Definition wpx (a v : Z) : M K unit := smod (fun c => set_pixels (<[a := v]> (pixels c)) c).

(** *** memcpy.asm: [kmemcpy_128]
    128 bytes at a time through eight registers; a count below 128 makes the counter wrap
    around, and an address that is not a multiple of 16 faults. *)
Fixpoint store_regs (regs : list Z) (dst i : Z) (p : gmap Z Z) : gmap Z Z :=
  match regs with
  | [] => p
  | v :: regs => store_regs regs dst (i + 1) (<[pixel_at dst i := v]> p)
  end.
Definition copy_128 (dst src : Z) (p : gmap Z Z) : gmap Z Z :=
  store_regs ((fun i => default 0 (p !! pixel_at src (Z.of_nat i))) <$> seq 0 32) dst 0 p.
Fixpoint copy_loop (n : nat) (dst src : Z) (p : gmap Z Z) : gmap Z Z :=
  match n with
  | O => p
  | S n => copy_loop n (u64 (dst + 128)) (u64 (src + 128)) (copy_128 dst src p)
  end.
Definition kmemcpy_128 (dst src count : Z) : M K unit :=
  if (count >>> 7 =? 0) || negb (dst mod 16 =? 0) || negb (src mod 16 =? 0) then fault
  else smod (fun c => set_pixels (copy_loop (Z.to_nat (count >>> 7)) dst src (pixels c)) c).

Definition swapBuffers : M K unit :=
  let! c := gets con in
  kmemcpy_128 (FRAMEBUFFER c) (BACKBUFFER c) (fb_size c).

Definition clearScreen : M K unit :=
  let! c := gets con in
  if negb (vga_ready c) then ret tt
  else
    smod (set_cursor 0 0) ;;;
    kmemcpy_128 (BACKBUFFER c) (BACKGROUND c) (fb_size c) ;;;
    swapBuffers.

Definition scrollUp : M K unit :=
  let! c := gets con in
  let w := width (vbe_info c) in
  for_to (u32 (u32 (rowMax c - 1) * FONT_HEIGHT)) (fun y =>
    for_to (u32 (u32 (colMax c + 1) * FONT_WIDTH)) (fun x =>
      let! lower := rpx (pixel_at (BACKBUFFER c) (x + (y + FONT_HEIGHT) * w)) in
      let! b := rpx (pixel_at (BACKGROUND c) (x + y * w)) in
      wpx (pixel_at (BACKBUFFER c) (x + y * w))
          (if lower =? TEXT_COLOR then TEXT_COLOR else b))) ;;;
  for_to FONT_HEIGHT (fun y =>
    for_to (u32 (colMax c * FONT_WIDTH)) (fun x =>
      let py := u32 (u32 (u32 (rowMax c - 1) * FONT_HEIGHT) + y) in
      let! b := rpx (pixel_at (BACKGROUND c) (x + u32 (py * w))) in
      wpx (pixel_at (BACKBUFFER c) (x + u32 (py * w))) b)).

Definition ensureCursorInRange : M K unit :=
  let! c := gets con in
  when (colMax c <=? cursorX c) (smod (set_cursor 0 (u32 (cursorY c + 1)))) ;;;
  let! c := gets con in
  when (rowMax c <=? cursorY c) (
    scrollUp ;;;
    smod (set_cursor 0 (u32 (rowMax c - 1)))).

Definition render (character : Z) : M K unit :=
  let! c := gets con in
  let w := width (vbe_info c) in
  for_to FONT_WIDTH (fun x =>
    for_to FONT_HEIGHT (fun y =>
      match font_row (character - 32) (FONT_HEIGHT - y - 1) with
      | None => fault
      | Some row =>
          let set := truth (row &&& (1 <<< (FONT_WIDTH - x - 1))) in
          let px := u32 (u32 (cursorX c * FONT_WIDTH) + x) in
          let py := u32 (u32 (cursorY c * FONT_HEIGHT) + y) in
          let i := u32 (px + u32 (py * w)) in
          let! b := rpx (pixel_at (BACKGROUND c) i) in
          wpx (pixel_at (BACKBUFFER c) i) (if set then TEXT_COLOR else b)
      end)).
End Ops.

Section Text.
Context {K : Type} `{!Has console K} `{!PortBus K}.

(** [putChar] calls itself once, for a tab: [depth] bounds the nesting. *)
Fixpoint putChar_at (depth : nat) (c : Z) : M K unit :=
  match depth with
  | O => fault
  | S depth =>
      outb 0x3F8 c ;;;
      let! k := gets con in
      if negb (vga_ready k) then ret tt else
      (if c =? 13 then smod (set_cursor 0 (cursorY k))
       else if c =? 8 then
         (if cursorX k =? 0
          then when (truth (cursorY k)) (smod (set_cursor (u32 (colMax k - 1)) (u32 (cursorY k - 1))))
          else smod (set_cursor (u32 (cursorX k - 1)) (cursorY k))) ;;;
         render 32
       else if c =? 10 then smod (set_cursor 0 (u32 (cursorY k + 1)))
       else if c =? 9 then
         for_to (TAB_SIZE - cursorX k mod TAB_SIZE) (fun _ => putChar_at depth 32)
       else
         render c ;;;
         let! k := gets con in
         smod (set_cursor (u32 (cursorX k + 1)) (cursorY k))) ;;;
      ensureCursorInRange
  end.
Definition putChar (c : Z) : M K unit := putChar_at 2 (s8 c).

Fixpoint put_all (l : list Z) : M K unit :=
  match l with [] => ret tt | c :: l => putChar c ;;; put_all l end.

(** Text on the screen, and a [log] call with the text of its format; a NUL in the text
    (from [%c]) ends it. *)
Definition log_text (l : list Z) : M K unit := put_all l ;;; swapBuffers.

Definition log (fmt : string) (args : list KStringProps.arg) : M K unit :=
  match KStringProps.format (KStringProps.bytes (esc fmt)) args with
  | Some out => if (length out <? 512)%nat then log_text (until_nul out) else fault
  | None => fault
  end.

(** *** Byte memory: [log] as it is written, and [log_n] *)
Context `{!Has ram K}.

Fixpoint put_string_at (fuel : nat) (ptr : Z) : M K unit :=
  match fuel with
  | O => fault
  | S fuel =>
      let! c := sgets (fun r => KString.rd (ram_bytes r) ptr) in
      if c =? 0 then ret tt
      else putChar c ;;; put_string_at fuel (u64 (ptr + 1))
  end.

(** [buffer] and [tmp] are the addresses of the local arrays of [log] and [gcvt]. *)
Definition log_va (fuel : nat) (buffer tmp fmt : Z) (arg : KString.va_list) : M K unit :=
  let! m := sgets ram_bytes in
  match KString.vsprintf fuel tmp m buffer fmt arg with
  | None => fault
  | Some m' =>
      smod (fun _ => Ram m') ;;;
      put_string_at fuel buffer ;;;
      swapBuffers
  end.

Definition log_n (buf n : Z) : M K unit :=
  for_to n (fun i =>
    let! c := sgets (fun r => KString.rd (ram_bytes r) (u64 (buf + i))) in
    putChar c) ;;;
  swapBuffers.
End Text.

(** *** [vga_init] and [vga_info] *)
Section Init.
Context {K : Type} `{!Has console K} `{!ScreenMemory K}.
Variable sin_positive : Z -> bool.

Definition C1 : Z := 0x232526.
Definition C2 : Z := 0x414345.
Definition C3 : Z := 0xf37335.

(** Rows and columns of the picture; [flag1] is carried along a row. *)
Fixpoint paint_row (n : nat) (v : vbe_screen_info) (base x y : Z) (flag1 : bool) : M K unit :=
  match n with
  | O => ret tt
  | S n =>
      let flag1 := xorb flag1 ((x + y) mod 100 =? 0) in
      let dx := x - width v / 2 in
      let dy := y - height v / 2 in
      let flag2 := (s32 (s32 (dx * dx) + s32 (dy * dy)) <=? 10000) && sin_positive y in
      wpx (pixel_at base (x + y * width v)) (if flag2 then C3 else if flag1 then C1 else C2) ;;;
      paint_row n v base (x + 1) y flag1
  end.

Definition vga_init : M K unit :=
  let! c := gets con in
  let v := vbe_info c in
  let size := u64 (s32 (height v * bytes_per_line v)) in
  smod (set_fb_size size) ;;;
  let page := physical_buffer v &&& Z.lnot 0xfff in
  let! f := vmm_mmap page (size / PAGE_SIZE) true in
  smod (set_front f) ;;;
  smod (set_vga (height v / FONT_HEIGHT) (width v / FONT_WIDTH)) ;;;
  let! b := kmalloc size in
  smod (set_back b) ;;;
  let! g := kmalloc size in
  smod (set_background g) ;;;
  for_to (height v) (fun y => paint_row (Z.to_nat (width v)) v g 0 y false) ;;;
  smod (set_ready true).
End Init.

Section Info.
Context {K : Type} `{!Has console K} `{!PortBus K}.
Import KStringProps.

Definition vga_info : M K unit :=
  let! c := gets con in
  let v := vbe_info c in
  log "Display info:\n" [] ;;;
  log "\tDisplay size: %d x %d x %d\n" [Num (width v); Num (height v); Num (bpp v)] ;;;
  log "\tFramebuffer at %x physical, %p virtual, size: %lukB\n" [Num (physical_buffer v); Num (FRAMEBUFFER c); Num (fb_size c / 1000)] ;;;
  log "\tBytes per pixel: %d, per line: %d\n" [Num (bytes_per_pixel v); Num (bytes_per_line v)] ;;;
  log "\tCursor range: %d x %d\n" [Num (x_cur_max v); Num (y_cur_max v)] ;;;
  log "\tTeletype range: %d x %d\n" [Num (colMax c); Num (rowMax c)] ;;;
  log "\tFont size: %d x %d\n" [Num FONT_WIDTH; Num FONT_HEIGHT] ;;;
  log "\nPalette test:\n\n" [] ;;;
  for_ 94 1 (fun c => putChar (c + 32)) ;;;
  log "\n" [].
End Info.

End Console.
