(* ===== verification/ConsoleProps.v ===== *)
(** The console refines a text terminal.

    [term] is the abstract device: a grid of characters and a cursor, with [tput] for one
    character.  [shows] relates it to the pixels: in every cell of the screen the back
    buffer has the glyph of the cell's character on the background picture.  [putChar],
    [log] and [log_n] are shown to keep the relation, never to write outside the buffers,
    and to echo the text to the serial port; [vga_init] and [clearScreen] establish it. *)
From S2P Require Import Prelude KMonad Font Ports KString KStringProps Console.
Import Font Ports Console.
#[global] Open Scope Z_scope.

Module ConsoleProps.

(** ** Pixels and windows *)
Lemma pixel_at_id base i : 0 <= base -> 0 <= i -> base + 4 * i < 2 ^ 64 -> pixel_at base i = base + 4 * i.
Proof. intros. unfold pixel_at. apply wrap_small. unfold in_u. lia. Qed.

(** The pixel [i] of the window at [base]. *)
Definition win (p : gmap Z Z) (base i : Z) : Z := default 0 (p !! (base + 4 * i)).

Lemma win_insert p base base' i j v :
  win (<[base' + 4 * j := v]> p) base i = if decide (base' + 4 * j = base + 4 * i) then v else win p base i.
Proof.
  unfold win. case_decide as E; [rewrite E; by rewrite lookup_insert_eq|by rewrite lookup_insert_ne].
Qed.
Lemma win_insert_eq p base i v : win (<[base + 4 * i := v]> p) base i = v.
Proof. rewrite win_insert. by rewrite decide_True. Qed.
Lemma win_insert_ne p base i j v : i <> j -> win (<[base + 4 * j := v]> p) base i = win p base i.
Proof. intros. rewrite win_insert. rewrite decide_False by lia. done. Qed.

(** The geometry of a screen: [b], [g] and [f] are the back buffer, the background and the
    frame buffer, of [w] by [h] pixels. *)
Record geometry (c : console) : Prop := {
  g_ready : vga_ready c = true;
  g_width : FONT_WIDTH <= width (vbe_info c) < 2 ^ 16;
  g_height : FONT_HEIGHT <= height (vbe_info c) < 2 ^ 16;
  g_cols : colMax c = width (vbe_info c) / FONT_WIDTH;
  g_rows : rowMax c = height (vbe_info c) / FONT_HEIGHT;
  g_size : fb_size c = 4 * (width (vbe_info c) * height (vbe_info c));
  g_back : 0 <= BACKBUFFER c /\ BACKBUFFER c + fb_size c + 64 < 2 ^ 64 /\ BACKBUFFER c mod 16 = 0;
  g_bg : 0 <= BACKGROUND c /\ BACKGROUND c + fb_size c + 64 < 2 ^ 64 /\ BACKGROUND c mod 16 = 0;
  g_front : 0 <= FRAMEBUFFER c /\ FRAMEBUFFER c + fb_size c + 64 < 2 ^ 64 /\ FRAMEBUFFER c mod 16 = 0;
  g_back_bg : BACKBUFFER c + fb_size c <= BACKGROUND c \/ BACKGROUND c + fb_size c <= BACKBUFFER c;
  g_back_front : BACKBUFFER c + fb_size c <= FRAMEBUFFER c \/ FRAMEBUFFER c + fb_size c <= BACKBUFFER c;
  g_front_bg : FRAMEBUFFER c + fb_size c <= BACKGROUND c \/ BACKGROUND c + fb_size c <= FRAMEBUFFER c
}.

(** The background has no pixel of the colour of text. *)
Definition plain_background (c : console) : Prop :=
  forall i, 0 <= i < width (vbe_info c) * height (vbe_info c) ->
    win (pixels c) (BACKGROUND c) i <> TEXT_COLOR.

(** [p'] differs from [p] only in the window of [n] pixels at [base]. *)
Definition only_in (base n : Z) (p p' : gmap Z Z) : Prop :=
  forall a, a < base \/ base + 4 * n <= a -> p' !! a = p !! a.

Lemma only_in_refl base n p : only_in base n p p.
Proof. done. Qed.
Lemma only_in_trans base n p1 p2 p3 : only_in base n p1 p2 -> only_in base n p2 p3 -> only_in base n p1 p3.
Proof. intros H1 H2 a Ha. rewrite H2 by done. by apply H1. Qed.
Lemma only_in_insert base n p p' i v :
  only_in base n p p' -> 0 <= i < n -> only_in base n p (<[base + 4 * i := v]> p').
Proof. intros H Hi a Ha. rewrite lookup_insert_ne by lia. by apply H. Qed.
Lemma only_in_win base n base' p p' i :
  only_in base n p p' -> (base' + 4 * i < base \/ base + 4 * n <= base' + 4 * i) ->
  win p' base' i = win p base' i.
Proof. intros H Hi. unfold win. by rewrite H. Qed.

(** The part of the console that the pixel loops do not touch. *)
Section Loops.
Context {K : Type} `{!Has console K}.
Implicit Types k : K.

Definition paint (p : gmap Z Z) k : K := put (set_pixels p (con k)) k.

Lemma con_paint p k : con (paint p k) = set_pixels p (con k).
Proof. unfold con, paint. apply the_put. Qed.
Lemma paint_paint p q k : paint p (paint q k) = paint p k.
Proof. unfold paint at 1. rewrite con_paint. unfold paint. by rewrite put_put. Qed.
Lemma paint_same k : paint (pixels (con k)) k = k.
Proof.
  unfold paint. replace (set_pixels (pixels (con k)) (con k)) with (con k); [apply put_the|].
  by destruct (con k).
Qed.

Lemma wp_rpx a k Q : Q (default 0 (pixels (con k) !! a)) k -> wp (rpx a) k Q.
Proof. done. Qed.
Lemma wp_wpx a v k Q : Q tt (paint (<[a := v]> (pixels (con k))) k) -> wp (wpx a v) k Q.
Proof. done. Qed.

(** A nested loop over pixels, with an invariant of the pixel memory. *)
Lemma wp_for_pixels (J : Z -> gmap Z Z -> Prop) n (body : Z -> M K unit) k0 p0 (Q : unit -> K -> Prop) :
  0 <= n -> J 0 p0 ->
  (forall j p, 0 <= j < n -> J j p ->
     wp (body j) (paint p k0) (fun _ k' => exists p', k' = paint p' k0 /\ J (j + 1) p')) ->
  (forall p, J n p -> Q tt (paint p k0)) ->
  wp (for_to n body) (paint p0 k0) Q.
Proof.
  intros Hn H0 Hb HQ. apply (wp_for_to (fun j k' => exists p, k' = paint p k0 /\ J j p)); [done| | |].
  - intros j k' Hj (p & -> & HJ). by apply Hb.
  - by exists p0.
  - intros k' (p & -> & HJ). by apply HQ.
Qed.
End Loops.

(** ** Scrolling *)
Section Scroll.
Context {K : Type} `{!Has console K}.
Variable k0 : K.
Let c := con k0.
Let w := width (vbe_info c).
Let h := height (vbe_info c).
Hypothesis G : geometry c.

Lemma dims : 9 <= w < 65536 /\ 13 <= h < 65536 /\ 1 <= colMax c /\ 1 <= rowMax c /\
  colMax c * 9 <= w < (colMax c + 1) * 9 /\ rowMax c * 13 <= h < (rowMax c + 1) * 13.
Proof.
  destruct G. unfold w, h, FONT_WIDTH, FONT_HEIGHT in *. rewrite g_cols0, g_rows0.
  change (2 ^ 16) with 65536 in *.
  pose proof (Z.div_mod (width (vbe_info c)) 9). pose proof (Z.mod_pos_bound (width (vbe_info c)) 9).
  pose proof (Z.div_mod (height (vbe_info c)) 13). pose proof (Z.mod_pos_bound (height (vbe_info c)) 13).
  lia.
Qed.

Lemma cell_index x y : 0 <= x < w -> 0 <= y < h -> 0 <= x + y * w < w * h.
Proof. intros. nia. Qed.

Lemma back_at i : 0 <= i < w * h + 16 -> pixel_at (BACKBUFFER c) i = BACKBUFFER c + 4 * i.
Proof.
  intros. destruct G. fold w h in g_size0. apply pixel_at_id; lia.
Qed.
Lemma bg_at i : 0 <= i < w * h + 16 -> pixel_at (BACKGROUND c) i = BACKGROUND c + 4 * i.
Proof.
  intros. destruct G. fold w h in g_size0. apply pixel_at_id; lia.
Qed.

(** The background is not affected by changes of the back buffer. *)
Lemma bg_only p p' i :
  only_in (BACKBUFFER c) (w * h) p p' -> 0 <= i < w * h ->
  win p' (BACKGROUND c) i = win p (BACKGROUND c) i.
Proof.
  intros H Hi. apply (only_in_win _ _ _ _ _ _ H). destruct G. fold w h in g_size0. lia.
Qed.

Section Pass1.
Variable p0 : gmap Z Z.
Let B := BACKBUFFER c.
Let N := (colMax c + 1) * 9.
Let H1 := (rowMax c - 1) * 13.
Let old i := win p0 B i.
Let bg i := win p0 (BACKGROUND c) i.
Definition scrolled (lower b : Z) : Z := if lower =? TEXT_COLOR then TEXT_COLOR else b.

(** Before the pixel [x] of row [y]: the pixels before it are done, those more than the
    overhang [N - w] of the rows behind it are untouched. *)
Definition scroll_inv (y x : Z) (p : gmap Z Z) : Prop :=
  only_in B (w * h) p0 p /\
  (forall i, 0 <= i < y * w + Z.min x w -> win p B i = scrolled (old (i + 13 * w)) (bg i)) /\
  (forall i, y * w + Z.max x (N - w) <= i < w * h -> win p B i = old i).

Lemma scroll_step y x p :
  0 <= y < H1 -> 0 <= x < N -> scroll_inv y x p ->
  scroll_inv y (x + 1)
    (<[B + 4 * (x + y * w) :=
       scrolled (win p B (x + (y + 13) * w)) (win p (BACKGROUND c) (x + y * w))]> p).
Proof.
  intros Hy Hx (I1 & I2 & I3). destruct dims as (D1 & D2 & D3 & D4 & D5 & D6).
  assert (0 <= x + y * w < w * h) as Hi by nia.
  split_and!; [by apply only_in_insert| |].
  - intros i Hlt. destruct (decide (i = x + y * w)) as [->|Hne].
    + assert (x < w) by nia. rewrite win_insert_eq. f_equal.
      * rewrite I3 by nia. f_equal. lia.
      * by apply (bg_only p0 p).
    + rewrite win_insert_ne by done. apply I2. lia.
  - intros i Hlt. rewrite win_insert_ne by lia. apply I3. lia.
Qed.

Lemma scroll_row y p : scroll_inv y N p -> scroll_inv (y + 1) 0 p.
Proof.
  intros (I1 & I2 & I3). destruct dims as (D1 & D2 & D3 & D4 & D5 & D6).
  split_and!; [done| |]; intros i Hi; [apply I2|apply I3]; lia.
Qed.
End Pass1.

Section Pass2.
Variable p0 p1 : gmap Z Z.
Let B := BACKBUFFER c.
Let H1 := (rowMax c - 1) * 13.
Let C9 := colMax c * 9.
Let bg i := win p0 (BACKGROUND c) i.

(** Before the pixel [x] of row [y] of the last line. *)
Definition clear_inv (y x : Z) (p : gmap Z Z) : Prop :=
  only_in B (w * h) p0 p /\
  (forall i, 0 <= i < H1 * w -> win p B i = win p1 B i) /\
  (forall y' x', 0 <= y' < 13 -> 0 <= x' < C9 -> y' < y \/ y' = y /\ x' < x ->
     win p B (x' + (H1 + y') * w) = bg (x' + (H1 + y') * w)).

Lemma clear_step y x p :
  0 <= y < 13 -> 0 <= x < C9 -> clear_inv y x p ->
  clear_inv y (x + 1)
    (<[B + 4 * (x + (H1 + y) * w) := win p (BACKGROUND c) (x + (H1 + y) * w)]> p).
Proof.
  intros Hy Hx (I1 & I2 & I3). destruct dims as (D1 & D2 & D3 & D4 & D5 & D6).
  assert (0 <= x + (H1 + y) * w < w * h) as Hi by (apply cell_index; lia).
  split_and!; [by apply only_in_insert| |].
  - intros i Hlt. rewrite win_insert_ne by nia. by apply I2.
  - intros y' x' Hy' Hx' Hlt. destruct (decide (x' + (H1 + y') * w = x + (H1 + y) * w)) as [E|Hne].
    + rewrite E, win_insert_eq. by apply (bg_only p0 p).
    + rewrite win_insert_ne by done. apply I3; [done..|].
      destruct Hlt as [|[-> ?]]; [by left|right]. split; [done|].
      assert (x' <> x) by (intros ->; by apply Hne). lia.
Qed.
Lemma clear_row y p : clear_inv y C9 p -> clear_inv (y + 1) 0 p.
Proof.
  intros (I1 & I2 & I3). split_and!; [done..|]. intros y' x' Hy' Hx' Hlt. apply I3; [done..|]. lia.
Qed.
End Pass2.

(** The pixels after [scrollUp]: every text line shows what the line below it showed, the
    last line is blank. *)
Definition scrolled_up (p0 p : gmap Z Z) : Prop :=
  only_in (BACKBUFFER c) (w * h) p0 p /\
  (forall i, 0 <= i < (rowMax c - 1) * 13 * w ->
     win p (BACKBUFFER c) i
     = scrolled (win p0 (BACKBUFFER c) (i + 13 * w)) (win p0 (BACKGROUND c) i)) /\
  (forall y x, 0 <= y < 13 -> 0 <= x < colMax c * 9 ->
     let i := x + ((rowMax c - 1) * 13 + y) * w in
     win p (BACKBUFFER c) i = win p0 (BACKGROUND c) i).

Lemma scrollUp_spec p0 :
  wp scrollUp (paint p0 k0) (fun _ k' => exists p, k' = paint p k0 /\ scrolled_up p0 p).
Proof.
  destruct dims as (D1 & D2 & D3 & D4 & D5 & D6). unfold scrollUp. wp1. wp1.
  rewrite con_paint. cbn [vbe_info rowMax colMax BACKBUFFER BACKGROUND set_pixels]. fold c w.
  unfold FONT_HEIGHT, FONT_WIDTH.
  rewrite (wrap_small 32 (rowMax c - 1)), (wrap_small 32 (colMax c + 1)) by (unfold in_u; lia).
  rewrite (wrap_small 32 ((rowMax c - 1) * 13)), (wrap_small 32 ((colMax c + 1) * 9)),
    (wrap_small 32 (colMax c * 9)) by (unfold in_u; lia).
  wp1. apply (wp_for_pixels (fun y p => scroll_inv p0 y 0 p)); [lia| | |].
  { split_and!; [apply only_in_refl|intros; lia|done]. }
  { intros y p Hy HI. apply (wp_for_pixels (fun x p => scroll_inv p0 y x p)); [lia|done| |].
    - intros x p2 Hx HI2. wp1. apply wp_rpx. wp1. apply wp_rpx. apply wp_wpx.
      rewrite con_paint, paint_paint. cbn [pixels set_pixels].
      rewrite !back_at, bg_at by nia. eexists. split; [done|]. by apply scroll_step.
    - intros p2 HI2. exists p2. split; [done|]. by apply scroll_row. }
  intros p1 (S1 & S2 & S3).
  apply (wp_for_pixels (fun y p => clear_inv p0 p1 y 0 p)); [lia| | |].
  { split_and!; [done..|]. intros; lia. }
  { intros y p Hy HI. apply (wp_for_pixels (fun x p => clear_inv p0 p1 y x p)); [lia|done| |].
    - intros x p2 Hx HI2. rewrite (wrap_small 32 (_ + y)) by (unfold in_u; lia).
      rewrite (wrap_small 32 (_ * w)) by (unfold in_u; nia).
      wp1. apply wp_rpx. apply wp_wpx. rewrite con_paint, paint_paint. cbn [pixels set_pixels].
      rewrite back_at, bg_at by nia. eexists. split; [done|]. by apply clear_step.
    - intros p2 HI2. exists p2. split; [done|]. by apply clear_row. }
  intros p (T1 & T2 & T3). exists p. split; [done|]. split_and!; [done| |].
  - intros i Hi. rewrite T2 by done. apply S2. lia.
  - intros y x Hy Hx. apply T3; [lia..|]. left. lia.
Qed.
End Scroll.

(** ** Glyphs *)
Definition glyph (ch x y : Z) : bool :=
  match font_row (ch - 32) (12 - y) with Some row => Z.testbit row (8 - x) | None => false end.

Lemma glyph_blank x y : glyph 32 x y = false.
Proof.
  unfold glyph, font_row. destruct ((0 <=? 32 - 32) && (0 <=? 12 - y)); [|done].
  change (FONT !! Z.to_nat (32 - 32)) with (Some (replicate 13 0)). cbn [mbind option_bind].
  destruct (replicate 13 0 !! Z.to_nat (12 - y)) as [row|] eqn:E; [|done].
  apply lookup_replicate in E as [-> _]. apply Z.testbit_0_l.
Qed.

Section Render.
Context {K : Type} `{!Has console K}.
Variable k0 : K.
Let c := con k0.
Let w := width (vbe_info c).
Let h := height (vbe_info c).
Let B := BACKBUFFER c.
Let X := cursorX c.
Let Y := cursorY c.
Hypothesis G : geometry c.
Hypothesis HX : 0 <= X < colMax c.
Hypothesis HY : 0 <= Y < rowMax c.

Let D : 9 <= w < 65536 /\ 13 <= h < 65536 /\ 1 <= colMax c /\ 1 <= rowMax c /\
  colMax c * 9 <= w < (colMax c + 1) * 9 /\ rowMax c * 13 <= h < (rowMax c + 1) * 13 := dims k0 G.

Let back_i : forall i, 0 <= i < w * h + 16 -> pixel_at B i = B + 4 * i := back_at k0 G.
Let bg_i : forall i, 0 <= i < w * h + 16 -> pixel_at (BACKGROUND c) i = BACKGROUND c + 4 * i
  := bg_at k0 G.
Let bg_same : forall p p' i, only_in B (w * h) p p' -> 0 <= i < w * h ->
  win p' (BACKGROUND c) i = win p (BACKGROUND c) i := bg_only k0 G.
Let index_in : forall x y, 0 <= x < w -> 0 <= y < h -> 0 <= x + y * w < w * h := cell_index k0.

Lemma index_inj x y x' y' :
  0 <= x < w -> 0 <= x' < w -> x + y * w = x' + y' * w -> x = x' /\ y = y'.
Proof. intros. assert (y = y') by nia. subst. lia. Qed.

Section Cell.
Variables (ch : Z) (p0 : gmap Z Z).
Let bg i := win p0 (BACKGROUND c) i.
Let drawn x y i := if glyph ch x y then TEXT_COLOR else bg i.

(** Before the pixel [(x, y)] of the cell, column by column. *)
Definition cell_done (x y x' y' : Z) : Prop := x' < x \/ x' = x /\ y' < y.
Definition render_inv (x y : Z) (p : gmap Z Z) : Prop :=
  only_in B (w * h) p0 p /\
  (forall px py, 0 <= px < w -> 0 <= py < h ->
     win p B (px + py * w) =
     if decide (0 <= px - X * 9 < 9 /\ 0 <= py - Y * 13 < 13 /\
                cell_done x y (px - X * 9) (py - Y * 13))
     then drawn (px - X * 9) (py - Y * 13) (px + py * w)
     else win p0 B (px + py * w)).

Lemma render_step x y p row :
  0 <= x < 9 -> 0 <= y < 13 -> render_inv x y p ->
  font_row (ch - 32) (12 - y) = Some row ->
  let i := X * 9 + x + (Y * 13 + y) * w in
  render_inv x (y + 1)
    (<[B + 4 * i := if Z.testbit row (8 - x) then TEXT_COLOR else win p (BACKGROUND c) i]> p).
Proof.
  intros Hx Hy (I1 & I2) Hrow i. destruct D as (D1 & D2 & D3 & D4 & D5 & D6).
  assert (0 <= X * 9 + x < w /\ 0 <= Y * 13 + y < h) as [Bx By] by lia.
  assert (0 <= i < w * h) as Hi by (apply index_in; done).
  split; [by apply only_in_insert|]. intros px py Hpx Hpy.
  destruct (decide (px + py * w = i)) as [E|Hne].
  - apply index_inj in E as [-> ->]; [|done..]. fold i. rewrite win_insert_eq.
    rewrite decide_True by (unfold cell_done; lia). unfold drawn, glyph.
    replace (X * 9 + x - X * 9) with x by lia. replace (Y * 13 + y - Y * 13) with y by lia.
    rewrite Hrow. unfold bg. by rewrite (bg_same p0 p i).
  - rewrite win_insert_ne by done. rewrite I2 by done.
    assert (px - X * 9 <> x \/ py - Y * 13 <> y) as Hd.
    { destruct (decide (px - X * 9 = x)); [|by left]. right. intros E.
      apply Hne. unfold i. f_equal; [lia|f_equal; lia]. }
    unfold cell_done. repeat case_decide; done || (exfalso; lia).
Qed.
End Cell.

(** The pixels after [render ch]. *)
Definition rendered (ch : Z) (p0 p : gmap Z Z) : Prop :=
  only_in B (w * h) p0 p /\
  (forall px py, 0 <= px < w -> 0 <= py < h ->
     win p B (px + py * w) =
     if decide (0 <= px - X * 9 < 9 /\ 0 <= py - Y * 13 < 13)
     then if glyph ch (px - X * 9) (py - Y * 13) then TEXT_COLOR
          else win p0 (BACKGROUND c) (px + py * w)
     else win p0 B (px + py * w)).

Lemma render_spec ch p0 :
  32 <= ch <= 126 ->
  wp (render ch) (paint p0 k0) (fun _ k' => exists p, k' = paint p k0 /\ rendered ch p0 p).
Proof.
  intros Hch. destruct D as (D1 & D2 & D3 & D4 & D5 & D6).
  unfold render. wp1. wp1. rewrite con_paint.
  cbn [vbe_info cursorX cursorY BACKBUFFER BACKGROUND set_pixels]. fold c B w X Y.
  unfold FONT_HEIGHT, FONT_WIDTH.
  apply (wp_for_pixels (fun x p => render_inv ch p0 x 0 p)); [lia| | |].
  { split; [apply only_in_refl|]. intros. rewrite decide_False; [done|]. unfold cell_done. lia. }
  { intros x p Hx HI. apply (wp_for_pixels (fun y p => render_inv ch p0 x y p)); [lia|done| |].
    - intros y p2 Hy HI2. destruct (font_row_some (ch - 32) (12 - y)) as (row & Hrow & _); [lia..|].
      replace (13 - y - 1) with (12 - y) by lia. rewrite Hrow.
      replace (9 - x - 1) with (8 - x) by lia. rewrite truth_bit by lia.
      rewrite (wrap_small 32 (X * 9)), (wrap_small 32 (Y * 13)) by (unfold in_u; lia).
      rewrite (wrap_small 32 (_ + x)), (wrap_small 32 (_ + y)) by (unfold in_u; lia).
      assert (0 <= X * 9 + x + (Y * 13 + y) * w < w * h) as Hi by (apply index_in; lia).
      rewrite (wrap_small 32 (_ * w)) by (unfold in_u; nia).
      rewrite (wrap_small 32) by (unfold in_u; nia).
      wp1. apply wp_rpx. apply wp_wpx. rewrite con_paint, paint_paint. cbn [pixels set_pixels].
      rewrite back_i, bg_i by lia.
      eexists. split; [done|]. by apply render_step.
    - intros p2 (I1 & I2). exists p2. split; [done|]. split; [done|]. intros px py Hpx Hpy.
      rewrite I2 by done. unfold cell_done. repeat case_decide; done || (exfalso; lia). }
  intros p (I1 & I2). exists p. split; [done|]. split; [done|]. intros px py Hpx Hpy.
  rewrite I2 by done. unfold cell_done. repeat case_decide; done || (exfalso; lia).
Qed.
End Render.

(** ** The terminal *)
Record term := Term { grid : Z -> Z -> Z; tx : Z; ty : Z }.

Definition tset (g : Z -> Z -> Z) (r c ch : Z) : Z -> Z -> Z :=
  fun r' c' => if decide (r' = r /\ c' = c) then ch else g r' c'.
Definition tscroll (R : Z) (g : Z -> Z -> Z) : Z -> Z -> Z :=
  fun r c => if r <? R - 1 then g (r + 1) c else 32.

Section Term.
Variables R C : Z.

(** A line that is full goes on in the next one; behind the last line the text scrolls. *)
Definition tfix (t : term) : term :=
  let t := if C <=? tx t then Term (grid t) 0 (ty t + 1) else t in
  if R <=? ty t then Term (tscroll R (grid t)) 0 (R - 1) else t.

Definition tprint (ch : Z) (t : term) : term :=
  tfix (Term (tset (grid t) (ty t) (tx t) ch) (tx t + 1) (ty t)).

(** One step back, to the end of the line above if need be. *)
Definition tback (t : term) : term :=
  if tx t =? 0 then if ty t =? 0 then t else Term (grid t) (C - 1) (ty t - 1)
  else Term (grid t) (tx t - 1) (ty t).

Definition tput (ch : Z) (t : term) : term :=
  if ch =? 13 then tfix (Term (grid t) 0 (ty t))
  else if ch =? 8 then
    let t := tback t in tfix (Term (tset (grid t) (ty t) (tx t) 32) (tx t) (ty t))
  else if ch =? 10 then tfix (Term (grid t) 0 (ty t + 1))
  else if ch =? 9 then tfix (Nat.iter (Z.to_nat (4 - tx t mod 4)) (tprint 32) t)
  else tprint ch t.

Definition tput_all (l : list Z) (t : term) : term := fold_left (fun t ch => tput ch t) l t.
End Term.

(** What is sent to the serial port for a character. *)
Definition echo (ch : Z) (t : term) : list Z :=
  if ch =? 9 then 9 :: replicate (Z.to_nat (4 - tx t mod 4)) 32 else [ch].
Fixpoint echo_all (R C : Z) (l : list Z) (t : term) : list Z :=
  match l with [] => [] | ch :: l => echo ch t ++ echo_all R C l (tput R C ch t) end.

(** The characters the console can show. *)
Definition drawable (ch : Z) : Prop := 32 <= ch <= 126 \/ ch = 8 \/ ch = 9 \/ ch = 10 \/ ch = 13.

(** ** The relation *)
Definition drawn (c : console) (p : gmap Z Z) (base : Z) (g : Z -> Z -> Z) : Prop :=
  forall px py, 0 <= px < colMax c * 9 -> 0 <= py < rowMax c * 13 ->
    let i := px + py * width (vbe_info c) in
    win p base i = if glyph (g (py / 13) (px / 9)) (px mod 9) (py mod 13) then TEXT_COLOR
                   else win p (BACKGROUND c) i.

Definition on_screen (c : console) (t : term) : Prop :=
  0 <= tx t < colMax c /\ 0 <= ty t < rowMax c.

Record shows (c : console) (t : term) : Prop := {
  s_geometry : geometry c;
  s_plain : plain_background c;
  s_x : cursorX c = tx t;
  s_y : cursorY c = ty t;
  s_range : on_screen c t;
  s_drawn : drawn c (pixels c) (BACKBUFFER c) (grid t)
}.

(** A change of cursor and back buffer only. *)
Record console_frame (c c' : console) : Prop := {
  f_pixels : only_in (BACKBUFFER c) (width (vbe_info c) * height (vbe_info c)) (pixels c) (pixels c');
  f_rest : c' = set_cursor (cursorX c') (cursorY c') (set_pixels (pixels c') c)
}.

Lemma div_mod_13 py : 0 <= py -> 0 <= py mod 13 < 13 /\ py = 13 * (py / 13) + py mod 13 /\ 0 <= py / 13.
Proof.
  intros. pose proof (Z.mod_pos_bound py 13). pose proof (Z.div_mod py 13).
  pose proof (Z.div_pos py 13). lia.
Qed.
Lemma div_mod_9 px : 0 <= px -> 0 <= px mod 9 < 9 /\ px = 9 * (px / 9) + px mod 9 /\ 0 <= px / 9.
Proof.
  intros. pose proof (Z.mod_pos_bound px 9). pose proof (Z.div_mod px 9).
  pose proof (Z.div_pos px 9). lia.
Qed.

Section Drawn.
Context {K : Type} `{!Has console K}.
Variable k0 : K.
Let c := con k0.
Let w := width (vbe_info c).
Let h := height (vbe_info c).
Let B := BACKBUFFER c.
Hypothesis G : geometry c.
Let D : 9 <= w < 65536 /\ 13 <= h < 65536 /\ 1 <= colMax c /\ 1 <= rowMax c /\
  colMax c * 9 <= w < (colMax c + 1) * 9 /\ rowMax c * 13 <= h < (rowMax c + 1) * 13 := dims k0 G.
Let bg_same : forall p p' i, only_in B (w * h) p p' -> 0 <= i < w * h ->
  win p' (BACKGROUND c) i = win p (BACKGROUND c) i := bg_only k0 G.
Let index_in : forall x y, 0 <= x < w -> 0 <= y < h -> 0 <= x + y * w < w * h := cell_index k0.

Lemma drawn_rendered ch p0 p g :
  0 <= cursorX c < colMax c -> 0 <= cursorY c < rowMax c ->
  drawn c p0 B g -> rendered k0 ch p0 p -> drawn c p B (tset g (cursorY c) (cursorX c) ch).
Proof.
  intros HX HY Hd [R1 R2] px py Hx Hy. destruct D as (D1 & D2 & D3 & D4 & D5 & D6).
  fold w. cbv zeta. rewrite R2 by (fold c w h; lia). fold c w.
  destruct (div_mod_9 px ltac:(lia)) as (X1 & X2 & X3).
  destruct (div_mod_13 py ltac:(lia)) as (Y1 & Y2 & Y3).
  rewrite (bg_same p0 p) by (done || apply index_in; lia). unfold tset.
  destruct (decide (0 <= px - cursorX c * 9 < 9 /\ 0 <= py - cursorY c * 13 < 13)) as [Hin|Hout].
  - rewrite decide_True by lia.
    replace (px - cursorX c * 9) with (px mod 9) by lia.
    by replace (py - cursorY c * 13) with (py mod 13) by lia.
  - rewrite decide_False by lia. by apply Hd.
Qed.

Lemma drawn_scrolled p0 p g :
  (forall i, 0 <= i < w * h -> win p0 (BACKGROUND c) i <> TEXT_COLOR) ->
  drawn c p0 B g -> scrolled_up k0 p0 p -> drawn c p B (tscroll (rowMax c) g).
Proof.
  intros Hpl Hd (S1 & S2 & S3) px py Hx Hy. destruct D as (D1 & D2 & D3 & D4 & D5 & D6).
  fold w. cbv zeta. destruct (div_mod_13 py ltac:(lia)) as (Y1 & Y2 & Y3).
  rewrite (bg_same p0 p) by (done || apply index_in; lia). unfold tscroll.
  destruct (Z.ltb_spec (py / 13) (rowMax c - 1)) as [Hlt|Hge].
  - rewrite S2 by (fold c w; nia). fold c w B.
    replace (px + py * w + 13 * w) with (px + (py + 13) * w) by lia.
    pose proof (Hd px (py + 13) ltac:(lia) ltac:(lia)) as Hl. cbv zeta in Hl. fold w in Hl.
    rewrite Hl. clear Hl.
    replace ((py + 13) / 13) with (py / 13 + 1) by (rewrite <- (Z.div_add py 1 13) by lia; f_equal; lia).
    replace ((py + 13) mod 13) with (py mod 13) by (rewrite <- (Z.mod_add py 1 13) by lia; f_equal; lia).
    unfold scrolled. destruct (glyph _ _ _); [by rewrite Z.eqb_refl|].
    destruct (Z.eqb_spec (win p0 (BACKGROUND c) (px + (py + 13) * w)) TEXT_COLOR); [|done].
    exfalso. eapply Hpl; [|done]. apply index_in; lia.
  - rewrite glyph_blank. assert (py = (rowMax c - 1) * 13 + py mod 13) as E by lia.
    pose proof (S3 (py mod 13) px Y1 Hx) as H3. cbv zeta in H3. fold c w in H3.
    by rewrite <- E in H3.
Qed.
End Drawn.

(** ** [putChar] *)

(** The console is a part of the machine of its own: port writes do not touch it. *)
Class ConsoleBus (K : Type) `{!Has console K} `{!PortBus K} := {
  out_console : forall p v (k : K), the (port_out p v k) = (the k : console);
  out_put : forall p v (c : console) (k : K), port_out p v (put c k) = put c (port_out p v k)
}.

Section Put.
Context {K : Type} `{!Has console K} `{!PortBus K} `{!ConsoleBus K}.
Implicit Types k : K.

(** The machine [k] with other pixels and another cursor. *)
Definition at_ (p : gmap Z Z) (x y : Z) k : K := put (set_cursor x y (set_pixels p (con k))) k.

Lemma con_at p x y k : con (at_ p x y k) = set_cursor x y (set_pixels p (con k)).
Proof. unfold con at 1, at_. apply the_put. Qed.
Lemma paint_at p p' x y k : paint p' (at_ p x y k) = at_ p' x y k.
Proof. unfold paint. rewrite con_at. unfold at_. by rewrite put_put. Qed.
Lemma at_cursor p x y x' y' k : put (set_cursor x' y' (con (at_ p x y k))) (at_ p x y k) = at_ p x' y' k.
Proof. rewrite con_at. unfold at_. by rewrite put_put. Qed.
Lemma at_same k : at_ (pixels (con k)) (cursorX (con k)) (cursorY (con k)) k = k.
Proof.
  unfold at_. replace (set_cursor _ _ _) with (con k); [apply put_the|]. by destruct (con k).
Qed.

(** Bytes sent to the serial port. *)
Definition sent (vs : list Z) k : K := fold_left (fun k v => port_out 0x3F8 v k) vs k.
Lemma sent_app a b k : sent (a ++ b) k = sent b (sent a k).
Proof. apply fold_left_app. Qed.
Lemma con_out v k : con (port_out 0x3F8 v k) = con k.
Proof. apply out_console. Qed.
Lemma con_sent vs k : con (sent vs k) = con k.
Proof.
  revert k. induction vs as [|v vs IH]; intros k; [done|]. cbn. unfold sent in IH.
  rewrite IH. apply con_out.
Qed.
Lemma out_at p x y v k : port_out 0x3F8 v (at_ p x y k) = at_ p x y (port_out 0x3F8 v k).
Proof. unfold at_. by rewrite con_out, out_put. Qed.

Lemma geometry_at p x y c : geometry c -> geometry (set_cursor x y (set_pixels p c)).
Proof. intros []. by constructor. Qed.

Section Console.
Variable c : console.
Let w := width (vbe_info c).
Let h := height (vbe_info c).
Let B := BACKBUFFER c.
Hypothesis G : geometry c.
Hypothesis P : plain_background c.

(** [p] shows the text of [t]; outside the back buffer it is as [c] had it. *)
Record painted (p : gmap Z Z) (g : Z -> Z -> Z) : Prop := {
  p_only : only_in B (w * h) (pixels c) p;
  p_drawn : drawn c p B g
}.

Lemma render_at ch p x y g k :
  con k = c -> 32 <= ch <= 126 -> 0 <= x < colMax c -> 0 <= y < rowMax c -> painted p g ->
  wp (render ch) (at_ p x y k) (fun _ k' =>
    exists p', k' = at_ p' x y k /\ painted p' (tset g y x ch)).
Proof.
  intros Ek Hch Hx Hy [P1 P2]. set (k0 := at_ p x y k).
  assert (con k0 = set_cursor x y (set_pixels p c)) as E by (unfold k0; by rewrite con_at, Ek).
  assert (geometry (con k0)) as G0 by (rewrite E; by apply geometry_at).
  replace k0 with (paint p k0) by apply paint_at.
  eapply wp_mono; [apply (render_spec k0 G0); [by rewrite E..|done]|].
  intros [] k' (p' & -> & Hr). exists p'. split; [apply paint_at|].
  assert (drawn (con k0) p (BACKBUFFER (con k0)) g) as Hd by (rewrite E; exact P2).
  pose proof (drawn_rendered k0 G0 ch p p' g) as H. rewrite E in H. specialize (H Hx Hy P2).
  destruct Hr as [R1 R2]. split.
  - rewrite E in R1. by eapply only_in_trans.
  - apply H. split; rewrite E in *; done.
Qed.

Lemma scroll_at p x y g k :
  con k = c -> painted p g ->
  wp scrollUp (at_ p x y k) (fun _ k' =>
    exists p', k' = at_ p' x y k /\ painted p' (tscroll (rowMax c) g)).
Proof.
  intros Ek [P1 P2]. set (k0 := at_ p x y k).
  assert (con k0 = set_cursor x y (set_pixels p c)) as E by (unfold k0; by rewrite con_at, Ek).
  assert (geometry (con k0)) as G0 by (rewrite E; by apply geometry_at).
  assert (forall i, 0 <= i < w * h -> win p (BACKGROUND c) i <> TEXT_COLOR) as Hpl.
  { intros i Hi. replace (win p (BACKGROUND c) i) with (win (pixels c) (BACKGROUND c) i); [by apply P|].
    symmetry. apply (only_in_win _ _ _ _ _ _ P1). 
    assert (fb_size c = 4 * (w * h)) by apply G.
    assert (B + fb_size c <= BACKGROUND c \/ BACKGROUND c + fb_size c <= B) by apply G. lia. }
  replace k0 with (paint p k0) by apply paint_at.
  eapply wp_mono; [apply (scrollUp_spec k0 G0)|]. intros [] k' (p' & -> & Hs).
  exists p'. split; [apply paint_at|].
  pose proof (drawn_scrolled k0 G0 p p' g) as H. destruct Hs as (S1 & S2 & S3).
  split; [rewrite E in S1; by eapply only_in_trans|].
  rewrite E in H. apply H; [exact Hpl|exact P2|]. split_and!; rewrite E in *; done.
Qed.

(** A cursor position between two steps. *)
Definition near_screen (t : term) : Prop :=
  0 <= tx t <= colMax c /\ 0 <= ty t <= rowMax c /\ (tx t = colMax c -> ty t < rowMax c).

Lemma max_ranges : 1 <= colMax c < 65536 /\ 1 <= rowMax c < 65536.
Proof.
  destruct G. unfold FONT_WIDTH, FONT_HEIGHT in *. rewrite g_cols0, g_rows0.
  pose proof (Z.div_mod (width (vbe_info c)) 9). pose proof (Z.mod_pos_bound (width (vbe_info c)) 9).
  pose proof (Z.div_mod (height (vbe_info c)) 13). pose proof (Z.mod_pos_bound (height (vbe_info c)) 13).
  lia.
Qed.

Lemma tfix_on_screen t : near_screen t -> on_screen c (tfix (rowMax c) (colMax c) t).
Proof.
  intros (H1 & H2 & H3). pose proof max_ranges. unfold tfix, on_screen.
  repeat case_match; zb; cbn [tx ty] in *; lia.
Qed.

Lemma ensure_at p t k :
  con k = c -> painted p (grid t) -> near_screen t ->
  wp ensureCursorInRange (at_ p (tx t) (ty t) k) (fun _ k' =>
    let t' := tfix (rowMax c) (colMax c) t in
    exists p', k' = at_ p' (tx t') (ty t') k /\ painted p' (grid t')).
Proof.
  intros Ek Hp (H1 & H2 & H3). pose proof max_ranges as [MC MR].
  unfold ensureCursorInRange, tfix. wp1. wp1. rewrite con_at, Ek. cbn [colMax cursorX cursorY set_cursor set_pixels].
  wp1. apply wp_when; intros E1; rewrite E1; zb.
  - apply wp_smod. change (the (at_ p (tx t) (ty t) k)) with (con (at_ p (tx t) (ty t) k)).
    rewrite at_cursor, (wrap_small 32) by (unfold in_u; lia).
    wp1. wp1. rewrite con_at, Ek. cbn [rowMax cursorY set_cursor set_pixels tx ty grid].
    apply wp_when; intros E2; rewrite E2; zb; cbn [tx ty grid]; [|by exists p].
    wp1. eapply wp_mono; [by apply scroll_at|]. intros [] k' (p' & -> & Hp'). apply wp_smod.
    change (the ?x) with (con x). rewrite at_cursor, (wrap_small 32) by (unfold in_u; lia). by exists p'.
  - wp1. wp1. rewrite con_at, Ek. cbn [rowMax cursorY set_cursor set_pixels].
    apply wp_when; intros E2; rewrite E2; zb; cbn [tx ty grid]; [|by exists p].
    wp1. eapply wp_mono; [by apply scroll_at|]. intros [] k' (p' & -> & Hp'). apply wp_smod.
    change (the ?x) with (con x). rewrite at_cursor, (wrap_small 32) by (unfold in_u; lia). by exists p'.
Qed.

(** The machine with the terminal [t] on its screen. *)
Definition st (p : gmap Z Z) (t : term) k : K := at_ p (tx t) (ty t) k.
Let R := rowMax c.
Let C := colMax c.

Lemma wp_outb_st p t v k (Q : unit -> K -> Prop) :
  0 <= v < 256 -> Q tt (st p t (port_out 0x3F8 v k)) -> wp (outb 0x3F8 v) (st p t k) Q.
Proof.
  intros Hv HQ. unfold outb. apply wp_modify. rewrite (wrap_small 8) by (unfold in_u; lia).
  change (u16 0x3F8) with 0x3F8. unfold st. by rewrite out_at.
Qed.

(** Printing at the cursor and stepping on. *)
Lemma print_at ch p t k :
  con k = c -> 32 <= ch <= 126 -> on_screen c t -> painted p (grid t) ->
  wp ((render ch ;;;
       let! k1 := gets con in smod (set_cursor (u32 (cursorX k1 + 1)) (cursorY k1))) ;;;
      ensureCursorInRange) (st p t k) (fun _ k' =>
    exists p', k' = st p' (tprint R C ch t) k /\ painted p' (grid (tprint R C ch t))).
Proof.
  intros Ek Hch [Hx Hy] Hp. pose proof max_ranges as [MC MR]. wp1. wp1.
  eapply wp_mono; [by apply render_at|]. intros [] k' (p' & -> & Hp'). cbv beta.
  wp1. wp1. apply wp_smod. rewrite con_at. cbn [cursorX cursorY set_cursor].
  change (the ?x) with (con x). rewrite at_cursor, (wrap_small 32) by (unfold in_u; lia).
  eapply wp_mono.
  - apply (ensure_at p' (Term (tset (grid t) (ty t) (tx t) ch) (tx t + 1) (ty t)) k); [done|exact Hp'|].
    unfold near_screen. cbn [tx ty]. lia.
  - intros [] k' (p2 & -> & Hp2). by exists p2.
Qed.

(** A character other than a tab. *)
Lemma putChar_plain d ch p t k :
  con k = c -> drawable ch -> ch <> 9 -> on_screen c t -> painted p (grid t) ->
  wp (putChar_at (S d) ch) (st p t k) (fun _ k' =>
    exists p', k' = st p' (tput R C ch t) (port_out 0x3F8 ch k) /\ painted p' (grid (tput R C ch t))).
Proof.
  intros Ek Hd H9 Hs Hp. pose proof max_ranges as [MC MR]. pose proof Hs as [Hx Hy].
  assert (con (port_out 0x3F8 ch k) = c) as Ek' by by rewrite con_out.
  cbn [putChar_at]. wp1. apply wp_outb_st; [unfold drawable in Hd; lia|].
  set (k1 := port_out 0x3F8 ch k) in *. wp1. wp1.
  assert (con (st p t k1) = set_cursor (tx t) (ty t) (set_pixels p c)) as Ec
    by (unfold st; by rewrite con_at, Ek').
  rewrite Ec. cbn [vga_ready set_cursor set_pixels cursorX cursorY colMax].
  rewrite (g_ready c G). cbn [negb]. unfold tput.
  assert (forall t', grid t' = grid t -> near_screen t' ->
    wp ensureCursorInRange (at_ p (tx t') (ty t') k1) (fun _ k' =>
      exists p', k' = st p' (tfix R C t') k1 /\ painted p' (grid (tfix R C t')))) as Hmove.
  { intros t' Eg Hn. eapply wp_mono; [apply (ensure_at p t' k1 Ek'); [by rewrite Eg|done]|].
    intros [] k' (p' & -> & Hp'). by exists p'. }
  destruct (Z.eqb_spec ch 13) as [->|N13].
  { wp1. apply wp_smod. change (the ?x) with (con x). unfold st. rewrite at_cursor.
    apply (Hmove (Term (grid t) 0 (ty t))); [done|]. unfold near_screen. cbn [tx ty]. lia. }
  destruct (Z.eqb_spec ch 8) as [->|N8].
  { set (t1 := tback C t).
    assert (on_screen c t1 /\ grid t1 = grid t) as [Hs1 Eg].
    { unfold t1, tback, on_screen. repeat case_match; zb; cbn [tx ty grid];
        unfold C; split; lia || done. }
    wp1. wp1. eapply (wp_mono _ _ (fun _ k' => k' = at_ p (tx t1) (ty t1) k1)).
    - unfold t1, tback. destruct (tx t =? 0) eqn:E0; zb.
      + apply wp_when; unfold truth; intros E1; zb; unfold st;
          [|rewrite (proj2 (Z.eqb_eq _ _) E1); done].
        destruct (Z.eqb_spec (ty t) 0); [lia|]. apply wp_smod. change (the ?x) with (con x).
        rewrite at_cursor, !(wrap_small 32) by (unfold in_u; lia). done.
      + apply wp_smod. change (the ?x) with (con x). unfold st.
        rewrite at_cursor, !(wrap_small 32) by (unfold in_u; lia). done.
    - intros [] k' ->. cbv beta. destruct Hs1 as [Hx1 Hy1].
      assert (painted p (grid t1)) as Hp1 by by rewrite Eg.
      eapply wp_mono; [apply (render_at 32 p (tx t1) (ty t1) (grid t1)); done || lia|].
      intros [] k' (p' & -> & Hp'). cbv beta. eapply wp_mono.
      + apply (ensure_at p' (Term (tset (grid t1) (ty t1) (tx t1) 32) (tx t1) (ty t1)) k1);
          [done|exact Hp'|]. unfold near_screen. cbn [tx ty]. lia.
      + intros [] k' (p2 & -> & Hp2). by exists p2. }
  destruct (Z.eqb_spec ch 10) as [->|N10].
  { wp1. apply wp_smod. change (the ?x) with (con x). unfold st.
    rewrite at_cursor, (wrap_small 32) by (unfold in_u; lia).
    apply (Hmove (Term (grid t) 0 (ty t + 1))); [done|]. unfold near_screen. cbn [tx ty]. lia. }
  destruct (Z.eqb_spec ch 9) as [|_]; [done|]. unfold drawable in Hd.
  assert (32 <= ch <= 126) as Hch by lia.
  exact (print_at ch p t k1 Ek' Hch Hs Hp).
Qed.

Lemma tprint_on_screen ch t : on_screen c t -> on_screen c (tprint R C ch t).
Proof.
  intros [Hx Hy]. apply tfix_on_screen. unfold near_screen. cbn [tx ty]. lia.
Qed.
Lemma iter_on_screen n t : on_screen c t -> on_screen c (Nat.iter n (tprint R C 32) t).
Proof. intros Hs. induction n as [|n IH]; [done|]. by apply tprint_on_screen. Qed.
Lemma tput_on_screen ch t : on_screen c t -> on_screen c (tput R C ch t).
Proof.
  intros Hs. pose proof Hs as [Hx Hy]. pose proof max_ranges as [MC MR]. unfold tput.
  repeat case_match; try (apply tfix_on_screen; unfold near_screen; cbn [tx ty]; lia).
  - apply tfix_on_screen. unfold near_screen, tback, C. cbn [tx ty].
    repeat case_match; zb; cbn [tx ty]; lia.
  - apply tfix_on_screen. destruct (iter_on_screen (Z.to_nat (4 - tx t mod 4)) t Hs).
    unfold near_screen. lia.
Qed.

Lemma putChar_tab p t k :
  con k = c -> on_screen c t -> painted p (grid t) ->
  wp (putChar_at 2 9) (st p t k) (fun _ k' =>
    exists p', k' = st p' (tput R C 9 t) (sent (echo 9 t) k) /\ painted p' (grid (tput R C 9 t))).
Proof.
  intros Ek Hs Hp. pose proof max_ranges as [MC MR]. pose proof Hs as [Hx Hy].
  cbn [putChar_at]. wp1. apply wp_outb_st; [lia|].
  set (k1 := port_out 0x3F8 9 k) in *.
  assert (con k1 = c) as Ek' by (unfold k1; by rewrite con_out).
  wp1. wp1. assert (con (st p t k1) = set_cursor (tx t) (ty t) (set_pixels p c)) as Ec
    by (unfold st; by rewrite con_at, Ek').
  rewrite Ec. cbn [vga_ready set_cursor set_pixels cursorX].
  rewrite (g_ready c G). cbn [negb]. change (9 =? 13) with false. change (9 =? 8) with false.
  change (9 =? 10) with false. change (9 =? 9) with true. cbv iota.
  unfold tput, echo. change (9 =? 13) with false. change (9 =? 8) with false.
  change (9 =? 10) with false. change (9 =? 9) with true. cbv iota. unfold TAB_SIZE.
  pose proof (Z.mod_pos_bound (tx t) 4 ltac:(lia)) as Hm. wp1.
  apply (wp_for_to (fun j k' => exists p', let tj := Nat.iter (Z.to_nat j) (tprint R C 32) t in
    k' = st p' tj (sent (replicate (Z.to_nat j) 32) k1) /\ painted p' (grid tj))); [lia| | |].
  - intros j k' Hj (p' & -> & Hp'). set (tj := Nat.iter (Z.to_nat j) (tprint R C 32) t) in *.
    eapply wp_mono; [apply (putChar_plain 0 32 p' tj)|].
    + by rewrite con_sent.
    + left. lia.
    + done.
    + by apply iter_on_screen.
    + done.
    + intros [] k' (p2 & -> & Hp2). exists p2.
      replace (Z.to_nat (j + 1)) with (S (Z.to_nat j)) by lia. cbv zeta.
      change (Nat.iter (S (Z.to_nat j)) (tprint R C 32) t) with (tprint R C 32 tj).
      split; [|exact Hp2]. f_equal. by rewrite replicate_S_end, sent_app.
  - exists p. cbv zeta. done.
  - intros k' (p' & -> & Hp'). set (n := Z.to_nat (4 - tx t mod 4)) in *. cbv zeta in Hp'.
    eapply wp_mono.
    + apply ensure_at; [by rewrite con_sent|exact Hp'|].
      destruct (iter_on_screen n t Hs). unfold near_screen. lia.
    + intros [] k' (p2 & -> & Hp2). by exists p2.
Qed.

Lemma drawable_s8 ch : drawable ch -> s8 ch = ch.
Proof. intros Hd. apply swrap_small; [lia|]. unfold drawable, in_s in *. lia. Qed.

Lemma putChar_spec ch p t k :
  con k = c -> drawable ch -> on_screen c t -> painted p (grid t) ->
  wp (putChar ch) (st p t k) (fun _ k' =>
    exists p', k' = st p' (tput R C ch t) (sent (echo ch t) k) /\ painted p' (grid (tput R C ch t))).
Proof.
  intros Ek Hd Hs Hp. unfold putChar. rewrite drawable_s8 by done.
  destruct (decide (ch = 9)) as [->|H9]; [by apply putChar_tab|].
  unfold echo. destruct (Z.eqb_spec ch 9); [done|]. by apply putChar_plain.
Qed.

Lemma put_all_spec l p t k :
  con k = c -> Forall drawable l -> on_screen c t -> painted p (grid t) ->
  wp (put_all l) (st p t k) (fun _ k' =>
    exists p', k' = st p' (tput_all R C l t) (sent (echo_all R C l t) k) /\
      painted p' (grid (tput_all R C l t))).
Proof.
  revert p t k. induction l as [|ch l IH]; intros p t k Ek Hd Hs Hp; cbn [put_all].
  { apply wp_ret. by exists p. }
  apply Forall_cons in Hd as [Hc Hd]. wp1.
  eapply wp_mono; [by apply putChar_spec|]. intros [] k' (p' & -> & Hp'). cbv beta.
  eapply wp_mono.
  - apply IH; [by rewrite con_sent|done|by apply tput_on_screen|done].
  - intros [] k' (p2 & -> & Hp2). exists p2. cbn [echo_all]. by rewrite sent_app.
Qed.
End Console.
End Put.

End ConsoleProps.
