(* ===== verification/ConsoleLog.v ===== *)
(** The console as its callers see it: [log], [log_n], [clearScreen] and [vga_init] against
    the terminal of ConsoleProps.v. *)
From S2P Require Import Prelude KMonad Font Ports KString KStringProps Console ConsoleProps.
Import Font Ports Console ConsoleProps.
#[global] Open Scope Z_scope.

Module ConsoleLog.

(** ** [kmemcpy_128] *)
Lemma store_regs_out l dst i p a :
  0 <= dst -> 0 <= i -> dst + 4 * (i + Z.of_nat (length l)) < 2 ^ 64 ->
  a < dst + 4 * i \/ dst + 4 * (i + Z.of_nat (length l)) <= a ->
  store_regs l dst i p !! a = p !! a.
Proof.
  revert i p. induction l as [|v l IH]; intros i p H0 Hi Hb Ha; cbn [store_regs length] in *; [done|].
  rewrite IH by lia. rewrite pixel_at_id by lia. apply lookup_insert_ne. lia.
Qed.
Lemma store_regs_in l dst i p j v :
  0 <= dst -> 0 <= i -> dst + 4 * (i + Z.of_nat (length l)) < 2 ^ 64 ->
  l !! j = Some v -> store_regs l dst i p !! (dst + 4 * (i + Z.of_nat j)) = Some v.
Proof.
  revert i j p. induction l as [|u l IH]; intros i j p H0 Hi Hb Hj; [done|]. cbn [store_regs length] in *.
  destruct j as [|j].
  - injection Hj as <-. rewrite store_regs_out by lia. rewrite pixel_at_id by lia.
    rewrite Z.add_0_r. apply lookup_insert_eq.
  - replace (i + Z.of_nat (S j)) with (i + 1 + Z.of_nat j) by lia. apply IH; [lia..|done].
Qed.

Lemma copy_128_spec dst src p :
  0 <= dst -> dst + 128 < 2 ^ 64 -> 0 <= src -> src + 128 < 2 ^ 64 ->
  (forall i, 0 <= i < 32 -> win (copy_128 dst src p) dst i = win p src i) /\
  only_in dst 32 p (copy_128 dst src p).
Proof.
  intros D0 D1 S0 S1. unfold copy_128. split.
  - intros i Hi. unfold win at 1. replace (dst + 4 * i) with (dst + 4 * (0 + Z.of_nat (Z.to_nat i))) by lia.
    erewrite store_regs_in; [|lia|lia|rewrite length_fmap, length_seq; lia|].
    2:{ apply list_lookup_fmap_Some. exists (Z.to_nat i). split; [reflexivity|].
        apply lookup_seq. split; [reflexivity|lia]. }
    cbn [default]. rewrite pixel_at_id by lia. unfold win.
    by replace (src + 4 * Z.of_nat (Z.to_nat i)) with (src + 4 * i) by lia.
  - intros a Ha. apply store_regs_out; [lia|lia|rewrite length_fmap, length_seq; lia|].
    rewrite length_fmap, length_seq. lia.
Qed.

Lemma win_shift p base i : win p (base + 128) (i - 32) = win p base i.
Proof. unfold win. by replace (base + 128 + 4 * (i - 32)) with (base + 4 * i) by lia. Qed.

Lemma copy_loop_spec n dst src p :
  0 <= dst -> dst + 128 * Z.of_nat n < 2 ^ 64 -> 0 <= src -> src + 128 * Z.of_nat n < 2 ^ 64 ->
  dst + 128 * Z.of_nat n <= src \/ src + 128 * Z.of_nat n <= dst ->
  (forall i, 0 <= i < 32 * Z.of_nat n -> win (copy_loop n dst src p) dst i = win p src i) /\
  only_in dst (32 * Z.of_nat n) p (copy_loop n dst src p).
Proof.
  revert dst src p. induction n as [|n IH]; intros dst src p D0 D1 S0 S1 Hd; cbn [copy_loop].
  { split; [intros; lia|done]. }
  destruct (copy_128_spec dst src p) as [C1 C2]; [lia..|].
  destruct (decide (n = 0%nat)) as [->|Hn].
  { cbn [copy_loop]. split; [intros i Hi; apply C1; lia|intros a Ha; apply C2; lia]. }
  rewrite !(wrap_small 64) by (unfold in_u; lia).
  destruct (IH (dst + 128) (src + 128) (copy_128 dst src p)) as [I1 I2]; [lia..|]. split.
  - intros i Hi. destruct (decide (i < 32)).
    + rewrite (only_in_win _ _ _ _ _ _ I2) by lia. apply C1. lia.
    + replace (win _ dst i) with (win (copy_loop n (dst + 128) (src + 128) (copy_128 dst src p))
        (dst + 128) (i - 32)) by apply win_shift.
      rewrite I1 by lia. replace (win _ (src + 128) (i - 32)) with (win (copy_128 dst src p) src i)
        by (symmetry; apply win_shift).
      apply (only_in_win _ _ _ _ _ _ C2). lia.
  - intros a Ha. rewrite I2 by lia. apply C2. lia.
Qed.

(** The three buffers are whole numbers of 128-byte pieces. *)
Definition whole_pieces (c : console) : Prop := fb_size c mod 128 = 0.

Section Copy.
Context {K : Type} `{!Has console K}.

Lemma kmemcpy_spec (k : K) d s n :
  0 <= d -> d + 4 * n < 2 ^ 64 -> d mod 16 = 0 -> 0 <= s -> s + 4 * n < 2 ^ 64 -> s mod 16 = 0 ->
  d + 4 * n <= s \/ s + 4 * n <= d -> 0 < n -> (4 * n) mod 128 = 0 ->
  wp (kmemcpy_128 d s (4 * n)) k (fun _ k' => exists p', k' = paint p' k /\
    (forall i, 0 <= i < n -> win p' d i = win (pixels (con k)) s i) /\
    only_in d n (pixels (con k)) p').
Proof.
  intros D0 D1 D2 S0 S1 S2 Hd Hn Hm. unfold kmemcpy_128.
  rewrite Z.shiftr_div_pow2 by lia. change (2 ^ 7) with 128.
  pose proof (Z.div_mod (4 * n) 128 ltac:(lia)) as E. rewrite Hm in E.
  destruct (Z.eqb_spec (4 * n / 128) 0); [lia|]. rewrite D2, S2. cbn [orb negb Z.eqb].
  apply wp_smod. eexists. split; [reflexivity|].
  destruct (copy_loop_spec (Z.to_nat (4 * n / 128)) d s (pixels (con k))) as [C1 C2]; [lia..|].
  rewrite Z2Nat.id in * by lia. replace (32 * (4 * n / 128)) with n in * by lia. done.
Qed.
End Copy.

(** ** Text on the screen *)

(** The back buffer and the frame buffer both show [t]. *)
Definition displays (c : console) (t : term) : Prop :=
  shows c t /\ drawn c (pixels c) (FRAMEBUFFER c) (grid t).

(** A change of the cursor and of the two buffers only. *)
Definition screen_frame (c c' : console) : Prop :=
  c' = set_cursor (cursorX c') (cursorY c') (set_pixels (pixels c') c) /\
  (forall a, (a < BACKBUFFER c \/ BACKBUFFER c + fb_size c <= a) ->
     (a < FRAMEBUFFER c \/ FRAMEBUFFER c + fb_size c <= a) -> pixels c' !! a = pixels c !! a).

Section Log.
Context {K : Type} `{!Has console K} `{!PortBus K} `{!ConsoleBus K}.
Implicit Types k : K.

Lemma size_pos c : geometry c -> 0 < width (vbe_info c) * height (vbe_info c).
Proof.
  intros []. unfold FONT_WIDTH, FONT_HEIGHT in *. apply Z.mul_pos_pos; lia.
Qed.

Lemma text_index c px py :
  geometry c -> 0 <= px < colMax c * 9 -> 0 <= py < rowMax c * 13 ->
  0 <= px + py * width (vbe_info c) < width (vbe_info c) * height (vbe_info c).
Proof.
  intros G Hx Hy. assert (px < width (vbe_info c) /\ py < height (vbe_info c)) as [H1 H2].
  { destruct G. unfold FONT_WIDTH, FONT_HEIGHT in *.
    pose proof (Z.mul_div_le (width (vbe_info c)) 9 ltac:(lia)).
    pose proof (Z.mul_div_le (height (vbe_info c)) 13 ltac:(lia)). lia. }
  clear G. nia.
Qed.

(** [swapBuffers] in a state with the text [t] in the back buffer. *)
Lemma swap_spec c p t k :
  con k = c -> geometry c -> plain_background c -> whole_pieces c ->
  on_screen c t -> painted c p (grid t) ->
  wp swapBuffers (st p t k) (fun _ k' => exists c', k' = put c' k /\ displays c' t /\ screen_frame c c').
Proof.
  intros Ek G P W Hs [P1 P2]. pose proof (size_pos c G) as Hpos. unfold swapBuffers. wp1. wp1.
  assert (con (st p t k) = set_cursor (tx t) (ty t) (set_pixels p c)) as Ec
    by (unfold st; by rewrite con_at, Ek).
  rewrite Ec. cbn [FRAMEBUFFER BACKBUFFER fb_size set_cursor set_pixels].
  pose proof G as [g1 g2 g3 g4 g5 g6 g7 g8 g9 g10 g11 g12]. rewrite g6.
  unfold whole_pieces in W. rewrite g6 in W.
  set (n := width (vbe_info c) * height (vbe_info c)) in *.
  eapply wp_mono; [apply kmemcpy_spec; lia|]. intros [] k' (p' & -> & C1 & C2). rewrite Ec in C1, C2.
  cbn [pixels set_cursor set_pixels] in C1, C2. unfold st. rewrite paint_at. unfold at_. rewrite Ek.
  eexists. split; [reflexivity|].
  assert (forall i, 0 <= i < n -> win p' (BACKGROUND c) i = win p (BACKGROUND c) i) as Hbg
    by (intros i Hi; apply (only_in_win _ _ _ _ _ _ C2); lia).
  assert (forall i, 0 <= i < n -> win p (BACKGROUND c) i = win (pixels c) (BACKGROUND c) i) as Hbg0
    by (intros i Hi; apply (only_in_win _ _ _ _ _ _ P1); fold n; lia).
  assert (forall i, 0 <= i < n -> win p' (BACKBUFFER c) i = win p (BACKBUFFER c) i) as Hbk
    by (intros i Hi; apply (only_in_win _ _ _ _ _ _ C2); lia).
  pose proof (fun px py => text_index c px py G) as Hidx.
  split; [split; [split|]|].
  - by apply geometry_at.
  - intros i Hi. cbn [pixels BACKGROUND set_cursor set_pixels vbe_info] in *. fold n in Hi.
    rewrite Hbg, Hbg0 by done. by apply P.
  - done.
  - done.
  - done.
  - intros px py Hx Hy. cbn [pixels BACKGROUND BACKBUFFER set_cursor set_pixels vbe_info colMax rowMax] in *.
    cbv zeta. rewrite Hbk, Hbg by auto. by apply P2.
  - intros px py Hx Hy.
    cbn [pixels BACKGROUND BACKBUFFER FRAMEBUFFER set_cursor set_pixels vbe_info colMax rowMax] in *.
    cbv zeta. rewrite C1, Hbg by auto. by apply P2.
  - split; [done|]. intros a Ha1 Ha2. cbn [pixels set_cursor set_pixels].
    rewrite C2 by lia. apply P1. fold n. lia.
Qed.

Lemma shows_painted c t : shows c t -> painted c (pixels c) (grid t).
Proof. intros []. by split. Qed.

Lemma st_same k t : shows (con k) t -> st (pixels (con k)) t k = k.
Proof.
  intros Hs. unfold st. rewrite <- (s_x _ _ Hs), <- (s_y _ _ Hs). apply at_same.
Qed.

Lemma log_text_spec k t l :
  shows (con k) t -> whole_pieces (con k) -> Forall drawable l ->
  let R := rowMax (con k) in let C := colMax (con k) in
  wp (log_text l) k (fun _ k' => exists c', k' = put c' (sent (echo_all R C l t) k) /\
    displays c' (tput_all R C l t) /\ screen_frame (con k) c').
Proof.
  intros Hs W Hd R C. pose proof Hs as []. unfold log_text. wp1.
  rewrite <- (st_same k t Hs) at 1.
  eapply wp_mono; [apply (put_all_spec (con k)); try done; by apply shows_painted|].
  intros [] k' (p' & -> & Hp'). cbv beta.
  assert (on_screen (con k) (tput_all R C l t)) as Hos.
  { clear -s_range0 s_geometry0. revert t s_range0. induction l as [|ch l IH]; intros t Ht; [done|].
    apply IH. by apply tput_on_screen. }
  eapply wp_mono; [apply (swap_spec (con k)); try done; apply con_sent|].
  intros [] k' (c' & -> & H1 & H2). by exists c'.
Qed.

Lemma log_spec k t fmt args out :
  shows (con k) t -> whole_pieces (con k) ->
  KStringProps.format (KStringProps.bytes (esc fmt)) args = Some out ->
  (length out < 512)%nat -> Forall drawable (until_nul out) ->
  let R := rowMax (con k) in let C := colMax (con k) in let text := until_nul out in
  wp (log fmt args) k (fun _ k' => exists c', k' = put c' (sent (echo_all R C text t) k) /\
    displays c' (tput_all R C text t) /\ screen_frame (con k) c').
Proof.
  intros Hs W Hf Hl Hd R C text. unfold log. rewrite Hf.
  destruct (Nat.ltb_spec (length out) 512); [|lia]. by apply log_text_spec.
Qed.

(** C5: [log] refines a text terminal.  On a machine whose screen shows the terminal [t],
    [log fmt args] with a text of fewer than 512 characters, drawable up to a NUL if there is
    one, returns; the frame buffer and the back buffer then show [t] after the characters of
    the text, cursor movement, wrapping and scrolling included, the text has been echoed to
    the serial port, and nothing else of the machine has changed: no pixel outside the two
    buffers, and of the console only the cursor. *)
Theorem log_refines_terminal k (t : term) (fmt : string) (args : list KStringProps.arg) (out : list Z) :
  shows (con k) t -> whole_pieces (con k) ->
  KStringProps.format (KStringProps.bytes (esc fmt)) args = Some out ->
  (length out < 512)%nat -> Forall drawable (until_nul out) ->
  let R := rowMax (con k) in let C := colMax (con k) in let text := until_nul out in
  exists c', log fmt args k = Some (tt, put c' (sent (echo_all R C text t) k)) /\
    displays c' (tput_all R C text t) /\ screen_frame (con k) c'.
Proof.
  intros Hs W Hf Hl Hd R C text.
  destruct (wp_run _ _ _ (log_spec k t fmt args out Hs W Hf Hl Hd)) as ([] & k' & E & c' & -> & H1 & H2).
  by exists c'.
Qed.

(** *** Characters without a glyph *)
Lemma font_row_out ch : ~ 32 <= ch <= 126 -> forall r, font_row (ch - 32) r = None.
Proof.
  intros Hc r. unfold font_row. destruct (Z.leb_spec 0 (ch - 32)); [|done]. cbn [andb].
  destruct (0 <=? r); [|done].
  rewrite (lookup_ge_None_2 FONT); [done|]. destruct FONT_shape as [-> _]. lia.
Qed.
Lemma render_undefined ch k : ~ 32 <= ch <= 126 -> render ch k = None.
Proof.
  intros Hc. unfold render, for_to. cbn [bind gets]. unfold bind at 1, gets.
  change (Z.to_nat FONT_WIDTH) with (S 8). change (Z.to_nat FONT_HEIGHT) with (S 12).
  cbn [for_]. unfold bind. by rewrite font_row_out.
Qed.

(** a character that is neither printable ASCII nor one of the four control characters
    makes [putChar] read outside the font table: on a console in use the behaviour is
    undefined for every such byte, among them NUL, escape and all bytes from 127 on. *)
Theorem putChar_without_glyph k (ch : Z) :
  vga_ready (con k) = true -> 0 <= ch < 256 -> ~ drawable ch -> putChar ch k = None.
Proof.
  intros Hr Hc Hd. unfold putChar. unfold drawable in Hd.
  assert (forall v, s8 ch = v -> v <> 13 /\ v <> 8 /\ v <> 10 /\ v <> 9 /\ ~ 32 <= v <= 126) as Hs8.
  { intros v <-. unfold swrap. rewrite wrap_small by (unfold in_u; lia).
    change (2 ^ (8 - 1)) with 128. change (2 ^ 8) with 256. case_match; zb; lia. }
  destruct (Hs8 _ eq_refl) as (N1 & N2 & N3 & N4 & N5). clear Hs8.
  cbn [putChar_at]. unfold outb. unfold bind at 1, modify, gets.
  change (u16 0x3F8) with 0x3F8. set (k1 := port_out 0x3F8 (u8 (s8 ch)) k).
  unfold bind at 1. assert (vga_ready (con k1) = true) as Hr1 by (unfold k1; by rewrite con_out).
  rewrite Hr1. cbn [negb]. destruct (Z.eqb_spec (s8 ch) 13), (Z.eqb_spec (s8 ch) 8),
    (Z.eqb_spec (s8 ch) 10), (Z.eqb_spec (s8 ch) 9); try done.
  unfold bind. by rewrite render_undefined.
Qed.
End Log.

(** ** A concrete machine
    A screen of 32 by 39 pixels, three lines of three characters, on the bus of Ports.v. *)
Record machine := Machine { m_pc : pc; m_con : console; m_ram : ram }.

#[export] Instance machine_console : Has console machine.
Proof.
  by refine {| the := m_con; put := fun c k => Machine (m_pc k) c (m_ram k) |}; intros; [..|destruct k].
Defined.
#[export] Instance machine_ram : Has ram machine.
Proof.
  by refine {| the := m_ram; put := fun r k => Machine (m_pc k) (m_con k) r |}; intros; [..|destruct k].
Defined.
#[export] Instance machine_bus : PortBus machine := {|
  port_out := fun p v k => Machine (port_out p v (m_pc k)) (m_con k) (m_ram k);
  port_in := fun p k => let '(v, m) := port_in p (m_pc k) in (v, Machine m (m_con k) (m_ram k))
|}.
#[export] Instance machine_console_bus : ConsoleBus machine.
Proof. by split. Defined.

Definition small_console : console :=
  MkConsole (Vbe 32 39 32 0xfd000000 4 128 3 1) ∅ 0x30000 0x10000 0x20000 4992 3 3 0 0 true.
Definition machine0 : machine := Machine pc_bios small_console (Ram ∅).
Definition blank : term := Term (fun _ _ => 32) 0 0.

Lemma machine0_shows : shows (con machine0) blank.
Proof.
  split; [|intros i Hi; done|done|done|by repeat split|].
  - unfold FONT_WIDTH, FONT_HEIGHT. split; cbn; done || lia.
  - intros px py Hx Hy. cbv zeta. by rewrite glyph_blank.
Qed.

Lemma log_refines_terminal_witness :
  exists c', log "%s%c\nd" [KStringProps.Str (KStringProps.bytes "ab"); KStringProps.Num 99] machine0
    = Some (tt, put c' (sent (KStringProps.bytes (esc "abc\nd")) machine0)) /\
    displays c' (tput_all 3 3 (KStringProps.bytes (esc "abc\nd")) blank) /\
    screen_frame small_console c'.
Proof.
  apply (log_refines_terminal machine0 blank "%s%c\nd" _ (KStringProps.bytes (esc "abc\nd"))
    machine0_shows).
  - reflexivity.
  - vm_compute. reflexivity.
  - change (length (KStringProps.bytes (esc "abc\nd"))) with 5%nat. lia.
  - change (until_nul (KStringProps.bytes (esc "abc\nd"))) with [97; 98; 99; 10; 100].
    repeat (apply Forall_cons; split; [unfold drawable; lia|]). apply Forall_nil_2.
Defined.

Lemma putChar_without_glyph_witness : putChar 27 machine0 = None.
Proof.
  apply (putChar_without_glyph machine0 27); [reflexivity|lia|]. unfold drawable. lia.
Defined.

End ConsoleLog.
