(* ===== verification/ConsoleBoot.v ===== *)
(** The console and memory: [log] as it is written, with its format string, its arguments
    and its buffer in memory; [log_n], which prints user memory; and [vga_init] with
    [clearScreen], which set the screen up. *)
From S2P Require Import Prelude KMonad Font Ports KString KStringProps Console ConsoleProps ConsoleLog.
Import Font Ports Console ConsoleProps ConsoleLog.
#[global] Open Scope Z_scope.

Module ConsoleBoot.
Import KString KStringProps.

(** Byte memory is a part of the machine of its own. *)
Class RamBus (K : Type) `{!Has console K} `{!PortBus K} `{!Has ram K} := {
  ram_put : forall (c : console) (k : K), (the (put c k) : ram) = the k;
  ram_out : forall p v (k : K), (the (port_out p v k) : ram) = the k;
  con_put_ram : forall (r : ram) (k : K), (the (put r k) : console) = the k
}.

Section Memory.
Context {K : Type} `{!Has console K} `{!PortBus K} `{!ConsoleBus K} `{!Has ram K} `{!RamBus K}.
Implicit Types k : K.

Definition mem_of k : gmap Z Z := ram_bytes (the k).

Lemma mem_at p x y k : mem_of (at_ p x y k) = mem_of k.
Proof. unfold mem_of, at_. by rewrite ram_put. Qed.
Lemma mem_st p t k : mem_of (st p t k) = mem_of k.
Proof. apply mem_at. Qed.
Lemma mem_sent vs k : mem_of (sent vs k) = mem_of k.
Proof.
  revert k. induction vs as [|v vs IH]; intros k; [done|]. cbn. unfold sent in IH. rewrite IH.
  unfold mem_of. by rewrite ram_out.
Qed.

Section Screen.
Variable c : console.
Hypothesis G : geometry c.
Hypothesis P : plain_background c.
Let R := rowMax c.
Let C := colMax c.

Lemma put_string_at_spec fuel ptr l p t k :
  con k = c -> cstr (mem_of k) ptr l -> (length l < fuel)%nat -> Forall drawable l ->
  on_screen c t -> painted c p (grid t) ->
  wp (put_string_at fuel ptr) (st p t k) (fun _ k' =>
    exists p', k' = st p' (tput_all R C l t) (sent (echo_all R C l t) k) /\
      painted c p' (grid (tput_all R C l t))).
Proof.
  revert ptr l p t k.
  induction fuel as [|fuel IH]; intros ptr l p t k Ek Hc Hf Hd Hs Hp; [lia|]. cbn [put_string_at].
  wp1. apply wp_sgets. change (ram_bytes (the (st p t k))) with (mem_of (st p t k)).
  rewrite mem_st. destruct l as [|ch l].
  - rewrite (cstr_nil _ _ Hc). cbn [Z.eqb]. apply wp_ret. by exists p.
  - apply cstr_cons in Hc as (-> & Hb & -> & Hc). apply Forall_cons in Hd as [Hch Hd].
    unfold byte_ok in Hb. destruct (Z.eqb_spec ch 0); [lia|]. cbn [length] in Hf. wp1.
    eapply wp_mono; [by apply (putChar_spec c G P)|]. intros [] k' (p' & -> & Hp'). cbv beta.
    eapply wp_mono.
    + apply (IH _ l); [by rewrite con_sent|by rewrite mem_sent|lia|done| |done].
      by apply tput_on_screen.
    + intros [] k' (p2 & -> & Hp2). exists p2. cbn [echo_all]. by rewrite sent_app.
Qed.

(** [n] bytes from [buf] on, as [log_n] prints them. *)
Lemma log_n_loop l buf p t k :
  con k = c -> 0 <= buf -> buf + Z.of_nat (length l) < 2 ^ 64 ->
  (forall i ch, l !! i = Some ch -> rd (mem_of k) (buf + Z.of_nat i) = ch) ->
  Forall drawable l -> on_screen c t -> painted c p (grid t) ->
  wp (for_ (length l) 0 (fun i =>
        let! ch := sgets (fun r => rd (ram_bytes r) (u64 (buf + i))) in putChar ch))
     (st p t k) (fun _ k' =>
    exists p', k' = st p' (tput_all R C l t) (sent (echo_all R C l t) k) /\
      painted c p' (grid (tput_all R C l t))).
Proof.
  enough (forall j, 0 <= j -> con k = c -> 0 <= buf -> buf + j + Z.of_nat (length l) < 2 ^ 64 ->
    (forall i ch, l !! i = Some ch -> rd (mem_of k) (buf + j + Z.of_nat i) = ch) ->
    Forall drawable l -> on_screen c t -> painted c p (grid t) ->
    wp (for_ (length l) j (fun i =>
        let! ch := sgets (fun r => rd (ram_bytes r) (u64 (buf + i))) in putChar ch))
     (st p t k) (fun _ k' =>
      exists p', k' = st p' (tput_all R C l t) (sent (echo_all R C l t) k) /\
        painted c p' (grid (tput_all R C l t)))) as H.
  { intros. apply H; try done; rewrite Z.add_0_r; done. }
  revert p t k. induction l as [|ch l IH]; intros p t k j Hj Ek Hb0 Hb1 Hm Hd Hs Hp; cbn [for_ length].
  { apply wp_ret. by exists p. }
  cbn [length] in Hb1. apply Forall_cons in Hd as [Hch Hd]. wp1. wp1. apply wp_sgets.
  change (ram_bytes (the (st p t k))) with (mem_of (st p t k)). rewrite mem_st, u64_id by lia.
  pose proof (Hm 0%nat ch eq_refl) as H0. rewrite Z.add_0_r in H0. rewrite H0.
  eapply wp_mono; [by apply (putChar_spec c G P)|]. intros [] k' (p' & -> & Hp'). cbv beta.
  eapply wp_mono.
  - apply IH; [lia|by rewrite con_sent|done|lia| |done|by apply tput_on_screen|done].
    intros i ch' Hi. rewrite mem_sent. rewrite <- (Hm (S i) ch' Hi). f_equal. lia.
  - intros [] k' (p2 & -> & Hp2). exists p2. cbn [echo_all]. by rewrite sent_app.
Qed.
End Screen.

Lemma tput_all_on_screen c l t :
  geometry c -> on_screen c t -> on_screen c (tput_all (rowMax c) (colMax c) l t).
Proof.
  intros G. revert t. induction l as [|ch l IH]; intros t Ht; [done|]. apply IH. by apply tput_on_screen.
Qed.

(** C19: [log] as VGA.c writes it.  With the format string and the string arguments in memory
    and a text [out] of fewer than 512 drawable characters, [log] formats into its 512-byte
    buffer, prints the buffer and copies it to the screen: the frame buffer shows the
    terminal after [out], the text is echoed to the serial port, and the only memory
    written is the buffer, up to the terminator. *)
Theorem log_prints_format k (t : term) (fuel : nat) (buffer tmp fmt : Z) (f : list Z)
    (xs : list Z) (args : list arg) (out : list Z) :
  shows (con k) t -> whole_pieces (con k) ->
  cstr (mem_of k) fmt f -> format f args = Some out ->
  (length out < 512)%nat -> Forall drawable out ->
  Forall2 (passes (mem_of k) buffer (buffer + Z.of_nat (length out))) xs args ->
  0 <= buffer -> buffer + 600 < 2 ^ 64 ->
  buffer + Z.of_nat (length out) < fmt \/ fmt + Z.of_nat (length f) < buffer ->
  (length f + sum_list (arg_size <$> args) < fuel)%nat -> (length out < fuel)%nat ->
  let R := rowMax (con k) in let C := colMax (con k) in
  exists c' m',
    log_va fuel buffer tmp fmt (VA xs []) k
      = Some (tt, put c' (sent (echo_all R C out t) (put (Ram m') k))) /\
    displays c' (tput_all R C out t) /\ screen_frame (con k) c' /\
    cstr m' buffer out /\
    (forall a, a < buffer \/ buffer + Z.of_nat (length out) < a -> rd m' a = rd (mem_of k) a).
Proof.
  intros Hs W Hc Hf Hl Hd Hp B0 B1 Hdis Hfu Hfu2 R C. pose proof Hs as [G P _ _ HR _].
  assert (Forall (fun a => length f + arg_size a < fuel)%nat args) as Hsz.
  { clear -Hfu. induction args as [|a args IH]; constructor; cbn in Hfu; [lia|]. apply IH. lia. }
  destruct (vsprintf_emits fuel tmp [] f (mem_of k) buffer fmt xs args out)
    as (m' & Ev & He & Hz); [done|done|done|done|lia|done|lia|done|].
  assert (cstr m' buffer out) as Hout.
  { eapply emits_cstr; [done|done| |done|lia]. eapply Forall_impl; [done|].
    intros x Hx. unfold drawable, byte_ok in *. lia. }
  set (k1 := put (Ram m') k).
  assert (con k1 = con k) as Ek1 by apply con_put_ram.
  assert (wp (log_va fuel buffer tmp fmt (VA xs [])) k (fun _ k' => exists c',
    k' = put c' (sent (echo_all R C out t) k1) /\
    displays c' (tput_all R C out t) /\ screen_frame (con k) c')) as Hw.
  { unfold log_va. wp1. apply wp_sgets. change (ram_bytes (the k)) with (mem_of k). rewrite Ev.
    wp1. apply wp_smod. change (put (Ram m') k) with k1.
    assert (shows (con k1) t) as Hs1 by by rewrite Ek1.
    wp1. rewrite <- (st_same k1 t Hs1) at 1. rewrite Ek1.
    eapply wp_mono.
    - apply (put_string_at_spec (con k) G P fuel buffer out); [done| |done|done|done|by apply shows_painted].
      unfold mem_of, k1. by rewrite the_put.
    - intros [] k' (p' & -> & Hp'). cbv beta.
      eapply wp_mono; [apply (swap_spec (con k)); try done; [by rewrite con_sent|by apply tput_all_on_screen]|].
      intros [] k' (c' & -> & H1 & H2). by exists c'. }
  destruct (wp_run _ _ _ Hw) as ([] & k' & E & c' & -> & H1 & H2).
  exists c', m'. split_and!; [done..|]. apply He.
Qed.

Lemma log_n_spec k t l buf :
  shows (con k) t -> whole_pieces (con k) -> 0 <= buf -> buf + Z.of_nat (length l) < 2 ^ 64 ->
  (forall i ch, l !! i = Some ch -> rd (mem_of k) (buf + Z.of_nat i) = ch) -> Forall drawable l ->
  let R := rowMax (con k) in let C := colMax (con k) in
  wp (log_n buf (Z.of_nat (length l))) k (fun _ k' => exists c',
    k' = put c' (sent (echo_all R C l t) k) /\
    displays c' (tput_all R C l t) /\ screen_frame (con k) c').
Proof.
  intros Hs W B0 B1 Hm Hd R C. pose proof Hs as [G P _ _ HR _]. unfold log_n, for_to.
  rewrite Nat2Z.id. wp1. rewrite <- (st_same k t Hs) at 1.
  eapply wp_mono; [apply (log_n_loop (con k) G P l buf); try done; by apply shows_painted|].
  intros [] k' (p' & -> & Hp'). cbv beta.
  eapply wp_mono; [apply (swap_spec (con k)); try done; [by rewrite con_sent|by apply tput_all_on_screen]|].
  intros [] k' (c' & -> & H1 & H2). by exists c'.
Qed.
End Memory.

#[export] Instance machine_ram_bus : RamBus machine.
Proof. by split. Defined.

(** The call [log("%d!", 42)] with the format string at 2000 and the buffer at 1000. *)
Definition machine1 : machine := Machine pc_bios small_console (Ram (put_string (bytes "%d!") 2000 ∅)).

Lemma log_prints_format_witness :
  exists c' m', log_va 20 1000 0 2000 (VA [42] []) machine1
      = Some (tt, put c' (sent [52; 50; 33] (put (Ram m') machine1))) /\
    displays c' (tput_all 3 3 [52; 50; 33] blank) /\ cstr m' 1000 [52; 50; 33].
Proof.
  destruct (log_prints_format machine1 blank 20 1000 0 2000 (bytes "%d!") [42] [Num 42] [52; 50; 33])
    as (c' & m' & E & H1 & _ & H2 & _).
  - exact machine0_shows.
  - reflexivity.
  - apply put_string_spec; [by apply bytes_ok|done..].
  - vm_compute. reflexivity.
  - cbn. lia.
  - repeat (apply Forall_cons; split; [unfold drawable; lia|]). apply Forall_nil_2.
  - apply Forall2_cons_2; [done|]. constructor.
  - lia.
  - lia.
  - left. cbn. lia.
  - cbn. lia.
  - cbn. lia.
  - exists c', m'. split; [exact E|]. split; [exact H1|exact H2].
Defined.

(** ** [vga_init] and [clearScreen] *)

(** The requests of the console to the memory managers; [served l k k']: the requests of [l],
    made one after the other from [k] on, return the addresses next to them and end in
    [k']. *)
Inductive mem_request := MapPages (page pages : Z) | AllocBytes (size : Z).

Section Requests.
Context {K : Type} `{!ScreenMemory K}.
Definition ask (r : mem_request) : M K Z :=
  match r with
  | MapPages page pages => Console.vmm_mmap page pages true
  | AllocBytes size => Console.kmalloc size
  end.
Fixpoint served (l : list (mem_request * Z)) (k k' : K) : Prop :=
  match l with
  | [] => k' = k
  | (r, a) :: l => exists k1, ask r k = Some (a, k1) /\ served l k1 k'
  end.
End Requests.

(** What the console relies on: the memory managers neither read nor change the console. *)
Class ScreenSupply (K : Type) `{!Has console K} `{!ScreenMemory K} : Prop :=
  ask_put : forall r (c : console) (k : K),
    ask r (put c k) = match ask r k with Some (a, k') => Some (a, put c k') | None => None end.

(** The requests of [vga_init]: the frame buffer, the back buffer and the background. *)
Definition fb_bytes (v : vbe_screen_info) : Z := 4 * (width v * height v).
Definition screen_requests (v : vbe_screen_info) (front back bg : Z) : list (mem_request * Z) :=
  [(MapPages (physical_buffer v &&& Z.lnot 0xfff) (fb_bytes v / PAGE_SIZE), front);
   (AllocBytes (fb_bytes v), back); (AllocBytes (fb_bytes v), bg)].

Section Init.
Context {K : Type} `{!Has console K} `{!ScreenMemory K} `{!ScreenSupply K}.
Variable sin_positive : Z -> bool.
Implicit Types k : K.

Definition picture_colour (v : Z) : Prop := v = C1 \/ v = C2 \/ v = C3.

Section Paint.
Variables (k0 : K) (v : vbe_screen_info) (base : Z) (p0 : gmap Z Z).
Let w := width v.
Let h := height v.
Hypothesis Hw : 0 < w < 65536.
Hypothesis Hh : 0 < h < 65536.
Hypothesis Hbase : 0 <= base /\ base + 4 * (w * h) < 2 ^ 64.

(** Before the pixel [x] of row [y]. *)
Definition paint_inv (y x : Z) (p : gmap Z Z) : Prop :=
  only_in base (w * h) p0 p /\
  (forall i, 0 <= i < y * w + x -> picture_colour (win p base i)).

Lemma paint_row_spec n x y flag p :
  0 <= y < h -> 0 <= x -> x + Z.of_nat n = w -> paint_inv y x p ->
  wp (paint_row sin_positive n v base x y flag) (paint p k0) (fun _ k' =>
    exists p', k' = paint p' k0 /\ paint_inv (y + 1) 0 p').
Proof.
  intros Hy. revert x flag p. induction n as [|n IH]; intros x flag p Hx Hn (I1 & I2); cbn [paint_row].
  - apply wp_ret. exists p. split; [done|]. split; [done|]. intros i Hi. apply I2. lia.
  - wp1. apply wp_wpx. rewrite con_paint, paint_paint. cbn [pixels set_pixels]. fold w.
    assert (0 <= x + y * w < w * h) as Hi by nia. rewrite pixel_at_id by lia.
    apply IH; [lia|lia|]. split; [by apply only_in_insert|]. intros i Hlt.
    destruct (decide (i = x + y * w)) as [->|Hne].
    + rewrite win_insert_eq. unfold picture_colour. repeat case_match; auto.
    + rewrite win_insert_ne by done. apply I2. lia.
Qed.

Lemma paint_spec :
  wp (for_to h (fun y => paint_row sin_positive (Z.to_nat w) v base 0 y false)) (paint p0 k0)
    (fun _ k' => exists p', k' = paint p' k0 /\ only_in base (w * h) p0 p' /\
      forall i, 0 <= i < w * h -> picture_colour (win p' base i)).
Proof.
  apply (wp_for_pixels (fun y p => paint_inv y 0 p)); [lia| | |].
  - split; [apply only_in_refl|]. intros; lia.
  - intros y p Hy HI. apply paint_row_spec; [done|lia|lia|done].
  - intros p (I1 & I2). exists p. split; [done|]. split; [done|]. intros i Hi. apply I2. lia.
Qed.
End Paint.

(** A video mode the console can run in, and buffers for it. *)
Record mode_ok (v : vbe_screen_info) : Prop := {
  mo_w : FONT_WIDTH <= width v < 2 ^ 16;
  mo_h : FONT_HEIGHT <= height v < 2 ^ 16;
  mo_line : bytes_per_line v = 4 * width v;
  mo_size : 4 * (width v * height v) < 2 ^ 31;
  mo_pieces : (4 * (width v * height v)) mod 128 = 0
}.
Definition buffer_ok (size a : Z) : Prop := 0 <= a /\ a + size + 64 < 2 ^ 64 /\ a mod 16 = 0.
Definition apart (size a b : Z) : Prop := a + size <= b \/ b + size <= a.

Lemma wp_ask r (c : console) k a k' Q :
  ask r k = Some (a, k') -> Q a (put c k') -> wp (ask r) (put c k) Q.
Proof. intros E HQ. unfold wp. by rewrite ask_put, E. Qed.

Lemma vga_init_spec k km v front back bg :
  con k = console_start v -> mode_ok v -> served (screen_requests v front back bg) k km ->
  let size := fb_bytes v in
  buffer_ok size front -> buffer_ok size back -> buffer_ok size bg ->
  apart size back bg -> apart size back front -> apart size front bg ->
  wp (vga_init sin_positive) k (fun _ k' =>
    geometry (con k') /\ plain_background (con k') /\ whole_pieces (con k') /\
    vbe_info (con k') = v /\ FRAMEBUFFER (con k') = front /\ exists c, k' = put c km).
Proof.
  intros Ek [M1 M2 M3 M4 M5] (ka & Ra & kb & Rb & kc & Rc & ->) size HF HB HG A1 A2 A3.
  unfold FONT_WIDTH, FONT_HEIGHT in *.
  unfold vga_init. wp1. wp1. rewrite Ek. cbn [vbe_info console_start].
  assert (u64 (s32 (height v * bytes_per_line v)) = size) as ->.
  { rewrite M3. replace (height v * (4 * width v)) with size by (unfold size, fb_bytes; lia).
    unfold size, fb_bytes in *.
    rewrite swrap_small by (unfold in_s; lia). apply wrap_small. unfold in_u. lia. }
  wp1. apply wp_smod. wp1. eapply (wp_ask (MapPages _ _)); [exact Ra|].
  wp1. apply wp_smod. wp1. apply wp_smod. rewrite !the_put, !put_put.
  wp1. eapply (wp_ask (AllocBytes _)); [exact Rb|]. wp1. apply wp_smod. rewrite the_put, put_put.
  wp1. eapply (wp_ask (AllocBytes _)); [exact Rc|]. wp1. apply wp_smod. rewrite the_put, put_put.
  change (the k) with (con k). rewrite Ek. set (c7 := set_background bg _). set (k7 := put c7 kc).
  assert (con k7 = c7) as E7 by (unfold k7, con; by rewrite the_put).
  wp1. rewrite <- (paint_same k7), E7. change (pixels c7) with (∅ : gmap Z Z).
  eapply wp_mono; [apply (paint_spec k7 v bg ∅);
    [lia|lia|unfold buffer_ok, size, fb_bytes in *; lia]|].
  intros [] k' (p' & -> & I1 & I2). cbv beta. apply wp_smod. unfold con. rewrite the_put.
  change (the (paint p' k7)) with (con (paint p' k7)). rewrite con_paint, E7.
  unfold buffer_ok, apart in *. split_and!.
  - unfold size, fb_bytes in *. split; cbn [c7 set_background set_back set_vga set_front set_fb_size console_start
      set_ready set_pixels vbe_info vga_ready colMax rowMax fb_size
      BACKBUFFER BACKGROUND FRAMEBUFFER]; unfold FONT_WIDTH, FONT_HEIGHT; done || lia.
  - intros i Hi. cbn [c7 set_background set_back set_vga set_front set_fb_size console_start
      set_ready set_pixels vbe_info pixels BACKGROUND] in *.
    destruct (I2 i Hi) as [->|[->| ->]]; done.
  - exact M5.
  - done.
  - done.
  - eexists. unfold paint, k7. rewrite !put_put. reflexivity.
Qed.

(** [clearScreen] on any console in use. *)
Lemma clearScreen_spec k :
  geometry (con k) -> plain_background (con k) -> whole_pieces (con k) ->
  wp clearScreen k (fun _ k' => exists c', k' = put c' k /\ displays c' blank /\ screen_frame (con k) c').
Proof.
  intros G P W. pose proof (size_pos _ G) as Hpos. unfold clearScreen. wp1. wp1.
  rewrite (g_ready _ G). cbn [negb]. wp1. apply wp_smod.
  set (c := con k) in *. set (k1 := put _ k).
  assert (con k1 = set_cursor 0 0 c) as E1 by (unfold k1, con at 1; by rewrite the_put).
  pose proof G as [g1 g2 g3 g4 g5 g6 g7 g8 g9 g10 g11 g12]. unfold whole_pieces in W. rewrite g6 in *.
  set (n := width (vbe_info c) * height (vbe_info c)) in *. wp1.
  eapply wp_mono; [apply kmemcpy_spec; lia|]. intros [] k' (p' & -> & C1 & C2). cbv beta.
  rewrite E1 in C1, C2. cbn [pixels set_cursor] in C1, C2.
  assert (paint p' k1 = st p' blank k) as ->.
  { unfold paint. rewrite E1. unfold k1, st, at_. by rewrite put_put. }
  eapply wp_mono; [apply (swap_spec c p' blank k); try done|].
  - unfold whole_pieces. by rewrite g6.
  - unfold on_screen. cbn [tx ty blank]. rewrite g4, g5. unfold FONT_WIDTH, FONT_HEIGHT in *.
    pose proof (Z.div_str_pos (width (vbe_info c)) 9). pose proof (Z.div_str_pos (height (vbe_info c)) 13).
    lia.
  - split; [exact C2|]. intros px py Hx Hy. cbn [grid blank]. cbv zeta. rewrite glyph_blank.
    pose proof (text_index c px py G Hx Hy) as Hi. fold n in Hi. rewrite C1 by done. symmetry.
    apply (only_in_win _ _ _ _ _ _ C2). lia.
  - intros [] k' H. exact H.
Qed.

End Init.

(** A machine that is booting: the console and the blocks [kmalloc] has left. *)
Record booting := Booting { b_con : console; b_supply : list Z }.
#[export] Instance booting_console : Has console booting.
Proof.
  by refine {| the := b_con; put := fun c k => Booting c (b_supply k) |}; intros; [..|destruct k].
Defined.
#[export] Instance booting_memory : ScreenMemory booting := {|
  vmm_mmap := fun _ _ _ k => Some (0x30000, k);
  kmalloc := fun _ k =>
    match b_supply k with
    | a :: r => Some (a, Booting (b_con k) r)
    | [] => Some (0, k)
    end
|}.
#[export] Instance booting_supply : ScreenSupply booting.
Proof. intros [page pages|size] c [c0 l]; [done|]. cbn. by destruct l. Qed.


End ConsoleBoot.
