(* ===== verification/Descriptors.v ===== *)
(** Descriptor tables: the interrupt descriptor table (IDT.h) and the task state segment
    (Ring3.c).  The addresses of the assembly entry points [isr0 ..], [irq0 ..], of the
    tables and of the stacks are parameters: the linker chooses them. *)
From S2P Require Import Prelude KMonad.
#[global] Open Scope Z_scope.

Module Descriptors.

(** ** IDT.h *)
Record IDT_entry := Gate {
  offset_1 : Z; selector : Z; ist : Z; type_attr : Z; offset_2 : Z; offset_3 : Z; zero : Z
}.
Definition sizeof_IDT_entry : Z := 16.
Record idt := Idt {
  table : gmap Z IDT_entry;     (** entries never registered are all zero *)
  idt_limit : Z;
  idt_base : Z;
  loaded : bool                 (** [lidt] has been executed *)
}.
Definition no_gate : IDT_entry := Gate 0 0 0 0 0 0 0.
Definition entry (t : idt) (n : Z) : IDT_entry := default no_gate (table t !! n).

Section Idt.
Variable GDT64_Code : Z.        (** the address the linker gave the symbol *)
Variable table_address : Z.
Variables isr irq : Z -> Z.     (** the entry points [isr<n>], [irq<n>] *)

Definition register_with (irq_fn index flags : Z) (t : idt) : idt :=
  let irq_address := s64 irq_fn in
  Idt (<[index := Gate (u16 (irq_address &&& 0xffff)) (u16 GDT64_Code) 0 (u8 flags)
                       (u16 ((irq_address >>> 16) &&& 0xfff))
                       (u32 ((irq_address >>> 32) &&& 0xffffffff)) 0]> (table t))
      (idt_limit t) (idt_base t) (loaded t).
Definition register_isr (irq_fn index : Z) : idt -> idt := register_with irq_fn index 0x8f.
Definition register_irq (irq_fn index : Z) : idt -> idt := register_with irq_fn index 0x8e.

Definition register_isrs (t : idt) : idt :=
  fold_left (fun t n => register_isr (isr (Z.of_nat n)) (Z.of_nat n) t) (seq 0 21) t.
Definition register_irqs (t : idt) : idt :=
  fold_left (fun t n => register_irq (irq (Z.of_nat n)) (32 + Z.of_nat n) t) (seq 0 16) t.

Definition IDT_init (t : idt) : idt :=
  let t := register_irqs (register_isrs t) in
  Idt (table t) (u16 (sizeof_IDT_entry * 256 - 1)) table_address true.
End Idt.

(** The address the processor jumps to through a gate. *)
Definition gate_target (e : IDT_entry) : Z := offset_1 e + offset_2 e * 2 ^ 16 + offset_3 e * 2 ^ 32.
(** The vectors the processor accepts: the gate is inside the limit and present. *)
Definition gate_present (t : idt) (n : Z) : bool :=
  loaded t && ((n + 1) * sizeof_IDT_entry - 1 <=? idt_limit t) && Z.testbit (type_attr (entry t n)) 7.

(** ** Ring3.c *)
Record tss_entry_t := TssEntry {
  length : Z; base_low : Z; base_mid : Z; flags1 : Z; flags2 : Z; base_high : Z;
  base_upper : Z; reserved : Z
}.
Definition sizeof_tss_entry : Z := 16.
Record tss_t := Tss { rsp : list Z; ist_stacks : list Z; iopb_offset : Z }.
Definition sizeof_tss : Z := 104.

Record tasks := Tasks { GDT64_TSS : tss_entry_t; tss : tss_t; tss_loaded : bool }.
Definition tasks_start : tasks :=
  Tasks (TssEntry 0 0 0 0 0 0 0 0) (Tss [0; 0; 0] [0; 0; 0; 0; 0; 0; 0] 0) false.

(** [flush_tss] loads the task register. *)
Definition setup_tss (tss_address tss_stack_top : Z) (t : tasks) : tasks :=
  Tasks (TssEntry (u16 (sizeof_tss_entry - 1))
           (u16 (tss_address &&& 0xffff))
           (u8 ((tss_address >>> 16) &&& 0xff))
           0x89 0x20
           (u8 ((tss_address >>> 24) &&& 0xff))
           (u32 (tss_address >>> 32)) 0)
        (Tss (<[0%nat := tss_stack_top]> (rsp (tss t))) (ist_stacks (tss t)) (u16 sizeof_tss))
        true.

(** The base address a system descriptor holds. *)
Definition tss_base (e : tss_entry_t) : Z :=
  base_low e + base_mid e * 2 ^ 16 + base_high e * 2 ^ 24 + base_upper e * 2 ^ 32.

(** ** Gates *)
Lemma split_bits a n m : 0 <= n -> 0 <= m -> a mod 2 ^ (n + m) = a mod 2 ^ n + (a / 2 ^ n) mod 2 ^ m * 2 ^ n.
Proof.
  intros. rewrite Z.pow_add_r, Z.rem_mul_r by lia. lia.
Qed.

Lemma gate_fields GDT64_Code addr index flags t :
  in_u 64 addr ->
  entry (register_with GDT64_Code addr index flags t) index
  = Gate (addr mod 2 ^ 16) (u16 GDT64_Code) 0 (u8 flags) ((addr / 2 ^ 16) mod 2 ^ 12)
         ((addr / 2 ^ 32) mod 2 ^ 32) 0.
Proof.
  intros Ha. unfold entry, register_with. cbn [table]. rewrite lookup_insert_eq. cbn [default].
  change 0xffff with (2 ^ 16 - 1). change 0xfff with (2 ^ 12 - 1). change 0xffffffff with (2 ^ 32 - 1).
  rewrite land_mask_mod, !shiftr_mask by lia.
  assert (forall s n, 0 <= s -> 0 <= n -> s + n <= 64 ->
    (s64 addr / 2 ^ s) mod 2 ^ n = (addr / 2 ^ s) mod 2 ^ n) as Hs.
  { intros s n Hs Hn Hsn. unfold swrap. rewrite wrap_small by done. case_match; [done|].
    replace (addr - 2 ^ 64) with (addr + - 2 ^ (64 - s) * 2 ^ s).
    - rewrite Z.div_add by lia.
      replace (- 2 ^ (64 - s)) with (- 2 ^ (64 - s - n) * 2 ^ n).
      + by rewrite Z.mod_add by lia.
      + rewrite Z.mul_opp_l, <- Z.pow_add_r by lia. do 2 f_equal. lia.
    - rewrite Z.mul_opp_l, <- Z.pow_add_r by lia. replace (64 - s + s) with 64 by lia. lia. }
  pose proof (Hs 0 16 ltac:(lia) ltac:(lia) ltac:(lia)) as H0.
  change (2 ^ 0) with 1 in H0. rewrite !Z.div_1_r in H0. rewrite H0, !Hs by lia.
  pose proof (Z.mod_pos_bound addr (2 ^ 16)). pose proof (Z.mod_pos_bound (addr / 2 ^ 16) (2 ^ 12)).
  pose proof (Z.mod_pos_bound (addr / 2 ^ 32) (2 ^ 32)).
  rewrite !(wrap_small 16 (_ mod _)), (wrap_small 32) by (unfold in_u; lia). done.
Qed.

Lemma address_parts addr :
  in_u 64 addr ->
  addr = addr mod 2 ^ 16 + (addr / 2 ^ 16) mod 2 ^ 12 * 2 ^ 16 + (addr / 2 ^ 28) mod 2 ^ 4 * 2 ^ 28
         + (addr / 2 ^ 32) mod 2 ^ 32 * 2 ^ 32.
Proof.
  intros Ha. unfold in_u in Ha.
  rewrite <- (Z.mod_small addr (2 ^ 64)) at 1 by lia.
  change 64 with (32 + 32) at 1. rewrite split_bits by lia. f_equal.
  change (addr mod 2 ^ 32) with (addr mod 2 ^ (28 + 4)). rewrite split_bits by lia. f_equal.
  change (addr mod 2 ^ 28) with (addr mod 2 ^ (16 + 12)). by rewrite split_bits by lia.
Qed.

(** The gate leads to the handler with the bits 28 to 31 of its address dropped. *)
Lemma gate_target_register GDT64_Code addr index flags t :
  in_u 64 addr ->
  gate_target (entry (register_with GDT64_Code addr index flags t) index)
  = addr - (addr / 2 ^ 28) mod 2 ^ 4 * 2 ^ 28.
Proof.
  intros Ha. rewrite gate_fields by done. unfold gate_target. cbn [offset_1 offset_2 offset_3].
  pose proof (address_parts addr Ha). lia.
Qed.

Lemma entry_other GDT64_Code addr index flags t n :
  n <> index -> entry (register_with GDT64_Code addr index flags t) n = entry t n.
Proof. intros. unfold entry, register_with. cbn [table]. by rewrite lookup_insert_ne. Qed.

Section Init.
Variables (GDT64_Code table_address : Z) (isr irq : Z -> Z).
Hypothesis Hisr : forall n, 0 <= n < 21 -> in_u 64 (isr n).
Hypothesis Hirq : forall n, 0 <= n < 16 -> in_u 64 (irq n).

(** Registering a block of vectors from [lo] on. *)
Lemma register_block (f : Z -> Z) flags lo m t n :
  let reg t n := register_with GDT64_Code (f (Z.of_nat n)) (lo + Z.of_nat n) flags t in
  entry (fold_left reg (seq 0 m) t) n =
  if decide (lo <= n < lo + Z.of_nat m)
  then entry (register_with GDT64_Code (f (n - lo)) n flags t) n else entry t n.
Proof.
  intros reg. induction m as [|m IH].
  - rewrite decide_False by lia. done.
  - rewrite seq_S, fold_left_app. cbn [fold_left]. unfold reg at 1. cbn [Nat.add].
    destruct (decide (n = lo + Z.of_nat m)) as [->|Hne].
    + rewrite decide_True by lia. replace (lo + Z.of_nat m - lo) with (Z.of_nat m) by lia.
      unfold entry, register_with. cbn [table]. by rewrite !lookup_insert_eq.
    + rewrite entry_other by done. rewrite IH. repeat case_decide; done || lia.
Qed.

Lemma entry_isrs t n :
  entry (register_isrs GDT64_Code isr t) n =
  if decide (0 <= n < 21) then entry (register_with GDT64_Code (isr n) n 0x8f t) n else entry t n.
Proof.
  unfold register_isrs, register_isr.
  pose proof (register_block isr 0x8f 0 21 t n) as H. cbv zeta in H. rewrite Z.sub_0_r in H. exact H.
Qed.
Lemma entry_irqs t n :
  entry (register_irqs GDT64_Code irq t) n =
  if decide (32 <= n < 48) then entry (register_with GDT64_Code (irq (n - 32)) n 0x8e t) n else entry t n.
Proof. unfold register_irqs, register_irq. apply (register_block irq 0x8e 32 16 t n). Qed.

Definition idt_start : idt := Idt ∅ 0 0 false.

(** C23: [IDT_init] fills the table.  Starting from the zeroed table, exactly the vectors 0 to
    20 and 32 to 47 are present and the table is loaded with room for 256 gates; the gate of
    exception [n] is a trap gate and that of vector [32 + n] an interrupt gate, both into the
    kernel code segment, and each leads to its entry point, except that the bits 28 to 31 of
    the address are lost (the mask of the middle word has three digits instead of four):
    entry points below 256 MiB are reached exactly. *)
Theorem IDT_init_gates :
  let t := IDT_init GDT64_Code table_address isr irq idt_start in
  idt_base t = table_address /\
  (forall n, 0 <= n < 256 ->
     gate_present t n = bool_decide (0 <= n < 21 \/ 32 <= n < 48)) /\
  (forall n, 0 <= n < 21 -> type_attr (entry t n) = 0x8f /\ selector (entry t n) = u16 GDT64_Code /\
     gate_target (entry t n) = isr n - (isr n / 2 ^ 28) mod 2 ^ 4 * 2 ^ 28 /\
     (isr n < 2 ^ 28 -> gate_target (entry t n) = isr n)) /\
  (forall n, 0 <= n < 16 -> type_attr (entry t (32 + n)) = 0x8e /\
     selector (entry t (32 + n)) = u16 GDT64_Code /\
     gate_target (entry t (32 + n)) = irq n - (irq n / 2 ^ 28) mod 2 ^ 4 * 2 ^ 28 /\
     (irq n < 2 ^ 28 -> gate_target (entry t (32 + n)) = irq n)).
Proof.
  intros t.
  assert (forall n, entry t n = entry (register_irqs GDT64_Code irq (register_isrs GDT64_Code isr idt_start)) n)
    as He by done.
  assert (forall x, x < 2 ^ 28 -> 0 <= x -> (x / 2 ^ 28) mod 2 ^ 4 * 2 ^ 28 = 0) as Hlow
    by (intros x H1 H2; by rewrite Z.div_small by lia).
  assert (forall n, 0 <= n < 21 ->
    entry t n = entry (register_with GDT64_Code (isr n) n 0x8f idt_start) n) as H1.
  { intros n Hn. rewrite He, entry_irqs, decide_False by lia. by rewrite entry_isrs, decide_True. }
  assert (forall n, 0 <= n < 16 -> entry t (32 + n) =
    entry (register_with GDT64_Code (irq n) (32 + n) 0x8e (register_isrs GDT64_Code isr idt_start)) (32 + n)) as H2.
  { intros n Hn. rewrite He, entry_irqs, decide_True by lia. by replace (32 + n - 32) with n by lia. }
  split_and!; [done| | |].
  - intros n Hn. unfold gate_present. change (loaded t) with true. cbn [andb].
    change (idt_limit t) with 4095. unfold sizeof_IDT_entry.
    destruct (Z.leb_spec ((n + 1) * 16 - 1) 4095); [|lia]. cbn [andb].
    destruct (decide (0 <= n < 21)); [|destruct (decide (32 <= n < 48))].
    + rewrite H1, gate_fields, bool_decide_eq_true_2 by (try apply Hisr; lia). done.
    + replace n with (32 + (n - 32)) by lia.
      rewrite H2, gate_fields, bool_decide_eq_true_2 by (try apply Hirq; lia). done.
    + rewrite He, entry_irqs, decide_False by lia. rewrite entry_isrs, decide_False by lia.
      rewrite bool_decide_eq_false_2 by lia. done.
  - intros n Hn. pose proof (Hisr n Hn) as Hu. rewrite H1 by done.
    rewrite gate_target_register, gate_fields by done. split_and!; [done..|].
    intros Hl. unfold in_u in Hu. rewrite Hlow by lia. lia.
  - intros n Hn. pose proof (Hirq n Hn) as Hu. rewrite H2 by done.
    rewrite gate_target_register, gate_fields by done. split_and!; [done..|].
    intros Hl. unfold in_u in Hu. rewrite Hlow by lia. lia.
Qed.
End Init.

(** Entry points at 1 MiB and 2 MiB, the code segment at 8. *)
Lemma IDT_init_gates_witness :
  let t := IDT_init 8 0x5000 (fun n => 0x100000 + 16 * n) (fun n => 0x200000 + 16 * n) idt_start in
  gate_target (entry t 14) = 0x1000e0 /\ gate_target (entry t (32 + 1)) = 0x200010 /\
  gate_present t 21 = false.
Proof.
  destruct (IDT_init_gates 8 0x5000 (fun n => 0x100000 + 16 * n) (fun n => 0x200000 + 16 * n))
    as (_ & Hp & H1 & H2).
  - intros n Hn. unfold in_u. lia.
  - intros n Hn. unfold in_u. lia.
  - intros t. split_and!.
    + destruct (H1 14 ltac:(lia)) as (_ & _ & _ & H). exact (H eq_refl).
    + destruct (H2 1 ltac:(lia)) as (_ & _ & _ & H). exact (H eq_refl).
    + etransitivity; [exact (Hp 21 ltac:(lia))|reflexivity].
Defined.

(** [setup_tss] describes the task state segment: the descriptor holds the address of
    [tss] whatever it is, its type is an available 64-bit TSS, the stack for interrupts from
    ring 3 is [tss_stack_top] and there is no I/O permission map; but the limit is that of
    the descriptor (15) and not that of the segment: the stack pointers, which end at offset
    27, lie behind it. *)
Theorem setup_tss_describes (tss_address tss_stack_top : Z) :
  in_u 64 tss_address ->
  let t := setup_tss tss_address tss_stack_top tasks_start in
  tss_base (GDT64_TSS t) = tss_address /\ flags1 (GDT64_TSS t) = 0x89 /\
  rsp (tss t) !! 0%nat = Some tss_stack_top /\ iopb_offset (tss t) = sizeof_tss /\
  tss_loaded t = true /\
  length (GDT64_TSS t) = 15 /\ length (GDT64_TSS t) < 4 + 3 * 8 - 1.
Proof.
  intros Ha t. unfold in_u in Ha. split_and!; try done.
  unfold t, tss_base, setup_tss. cbn [GDT64_TSS base_low base_mid base_high base_upper].
  change 0xffff with (2 ^ 16 - 1). change 0xff with (2 ^ 8 - 1).
  rewrite land_mask_mod, !shiftr_mask, Z.shiftr_div_pow2 by lia.
  pose proof (Z.mod_pos_bound tss_address (2 ^ 16)). pose proof (Z.mod_pos_bound (tss_address / 2 ^ 16) (2 ^ 8)).
  pose proof (Z.mod_pos_bound (tss_address / 2 ^ 24) (2 ^ 8)).
  rewrite (wrap_small 16), !(wrap_small 8) by (unfold in_u; lia).
  assert (0 <= tss_address / 2 ^ 32 < 2 ^ 32) by (split; [apply Z.div_pos|apply Z.div_lt_upper_bound]; lia).
  rewrite (wrap_small 32) by (unfold in_u; lia).
  pose proof (split_bits tss_address 32 32 ltac:(lia) ltac:(lia)) as E1.
  pose proof (split_bits tss_address 24 8 ltac:(lia) ltac:(lia)) as E2.
  pose proof (split_bits tss_address 16 8 ltac:(lia) ltac:(lia)) as E3.
  change (32 + 32) with 64 in E1. change (24 + 8) with 32 in E2. change (16 + 8) with 24 in E3.
  rewrite Z.mod_small in E1 by lia. rewrite (Z.mod_small (tss_address / 2 ^ 32)) in E1 by lia. lia.
Qed.

Lemma setup_tss_describes_witness :
  let t := setup_tss 0xffff800000123456 0x9000 tasks_start in
  tss_base (GDT64_TSS t) = 0xffff800000123456 /\ rsp (tss t) !! 0%nat = Some 0x9000.
Proof.
  destruct (setup_tss_describes 0xffff800000123456 0x9000) as (H1 & _ & H2 & _); [unfold in_u; lia|].
  split; [exact H1|exact H2].
Defined.

End Descriptors.
