(* ===== verification/Keyboard.v ===== *)
(** The keyboard (KbController.c): the scan code table and the subscribed handlers.

    A handler is the address of a function; [Callbacks] is what calling it does.  The two
    arrays of eight slots start zeroed. *)
From S2P Require Import Prelude KMonad KString.
From Stdlib Require Import Ascii.
#[global] Open Scope Z_scope.

Module Keyboard.

Definition MAX_HANDLERS : Z := 8.

Definition ch (c : ascii) : Z := KString.chr c.
Definition translationTable : list Z :=
  [0; 0;
   ch "1"; ch "2"; ch "3"; ch "4"; ch "5"; ch "6"; ch "7"; ch "8"; ch "9"; ch "0"; ch "-"; ch "="; 8; 9;
   ch "q"; ch "w"; ch "e"; ch "r"; ch "t"; ch "y"; ch "u"; ch "i"; ch "o"; ch "p"; ch "["; ch "]"; 10; 0;
   ch "a"; ch "s"; ch "d"; ch "f"; ch "g"; ch "h"; ch "j"; ch "k"; ch "l"; ch ";"; ch "'";
   ch "~"; 0; ch "\"; ch "z"; ch "x"; ch "c"; ch "v"; ch "b"; ch "n"; ch "m"; ch ","; ch "."; ch "/"; 0; 0; 0;
   ch " "]%char.

Definition scanCodeToChar (scancode : Z) : Z :=
  if scancode <? Z.of_nat (length translationTable) then nthZ translationTable scancode else 0.

Record keyboard := Kbd { pressHandlers : list Z; releaseHandlers : list Z }.
Definition keyboard_start : keyboard := Kbd (replicate 8 0) (replicate 8 0).

(** The search for a free slot, [n] slots from [i] on: the array and the result. *)
Fixpoint subscribe_from (n : nat) (i : Z) (handlers : list Z) (h : Z) : bool * list Z :=
  match n with
  | O => (false, handlers)
  | S n =>
      if nthZ handlers i =? 0 then (true, updZ handlers i h)
      else subscribe_from n (i + 1) handlers h
  end.
Definition subscribe (handlers : list Z) (h : Z) : bool * list Z :=
  subscribe_from (Z.to_nat MAX_HANDLERS) 0 handlers h.

Class Callbacks (K : Type) := { call : Z -> Z -> Z -> M K unit }.

Section Ops.
Context {K : Type} `{!Has keyboard K} `{!Callbacks K}.

Definition subscribePress (h : Z) : M K bool := fun k =>
  let kb : keyboard := the k in
  let '(r, hs) := subscribe (pressHandlers kb) h in Some (r, put (Kbd hs (releaseHandlers kb)) k).
Definition subscribeRelease (h : Z) : M K bool := fun k =>
  let kb : keyboard := the k in
  let '(r, hs) := subscribe (releaseHandlers kb) h in Some (r, put (Kbd (pressHandlers kb) hs) k).

(** The array is read again before every call. *)
Definition dispatch (field : keyboard -> list Z) (scancode : Z) : M K unit :=
  for_to MAX_HANDLERS (fun i =>
    let! h := sgets (fun kb => nthZ (field kb) i) in
    when (truth h) (call h (scanCodeToChar scancode) scancode)).
Definition onKeyPressed (scancode : Z) : M K unit := dispatch pressHandlers scancode.
Definition onKeyReleased (scancode : Z) : M K unit := dispatch releaseHandlers scancode.
End Ops.

(** ** The registry as a queue *)

(** The array holds the subscribers [l], in order, and free slots. *)
Definition holds (handlers l : list Z) : Prop :=
  (length l <= 8)%nat /\ handlers = l ++ replicate (8 - length l) 0 /\ Forall (fun h => h <> 0) l.

Lemma holds_nth handlers l i :
  holds handlers l -> 0 <= i < 8 -> nthZ handlers i = default 0 (l !! Z.to_nat i).
Proof.
  intros (Hl & -> & _) Hi. unfold nthZ. destruct (decide (Z.to_nat i < length l)%nat).
  - by rewrite lookup_app_l.
  - rewrite lookup_app_r, (lookup_ge_None_2 l) by lia. rewrite lookup_replicate_2 by lia. done.
Qed.

Lemma subscribe_from_spec handlers l h n i :
  holds handlers l -> h <> 0 -> 0 <= i -> i + Z.of_nat n = 8 -> i <= Z.of_nat (length l) ->
  subscribe_from n i handlers h =
  if (length l <? 8)%nat then (true, (l ++ [h]) ++ replicate (7 - length l) 0) else (false, handlers).
Proof.
  intros Hh Hh0. revert i. induction n as [|n IH]; intros i Hi Hn Hle; cbn [subscribe_from].
  - destruct Hh as [Hl _]. destruct (Nat.ltb_spec (length l) 8); [lia|done].
  - rewrite (holds_nth _ l) by (exact Hh || lia). destruct (decide (i = Z.of_nat (length l))) as [->|].
    + rewrite Nat2Z.id, (lookup_ge_None_2 l) by lia. cbn [default Z.eqb].
      destruct (Nat.ltb_spec (length l) 8); [|lia]. f_equal. destruct Hh as (_ & -> & _).
      unfold updZ. rewrite Nat2Z.id. replace (8 - length l)%nat with (S (7 - length l)) by lia.
      cbn [replicate]. rewrite insert_app_r_alt by lia. rewrite Nat.sub_diag, <- app_assoc. reflexivity.
    + destruct (lookup_lt_is_Some_2 l (Z.to_nat i)) as [x Hx]; [lia|]. rewrite Hx. change (default 0 (Some x)) with x.
      destruct Hh as (Hl & He & Hf). pose proof (Forall_lookup_1 _ _ _ _ Hf Hx) as Hnz. cbn in Hnz.
      destruct (Z.eqb_spec x 0); [done|]. apply IH; lia.
Qed.

Lemma subscribe_spec handlers l h :
  holds handlers l -> h <> 0 ->
  if decide (length l < 8)%nat
  then exists handlers', subscribe handlers h = (true, handlers') /\ holds handlers' (l ++ [h])
  else subscribe handlers h = (false, handlers).
Proof.
  intros Hh Hh0. unfold subscribe. change (Z.to_nat MAX_HANDLERS) with 8%nat.
  rewrite (subscribe_from_spec handlers l h 8 0 Hh Hh0) by lia.
  destruct (Nat.ltb_spec (length l) 8); case_decide; try lia; [|done].
  eexists. split; [done|]. destruct Hh as (_ & _ & Hf). split_and!.
  - rewrite length_app. cbn. lia.
  - f_equal. f_equal. rewrite length_app. cbn. lia.
  - apply Forall_app. by split; [|constructor].
Qed.

Section Dispatch.
Context {K : Type} `{!Has keyboard K} `{!Callbacks K}.
Implicit Types k : K.

Fixpoint call_all (l : list Z) (c scancode : Z) : M K unit :=
  match l with [] => ret tt | h :: l => call h c scancode ;;; call_all l c scancode end.

(** The handlers leave the registry alone. *)
Definition well_behaved (l : list Z) (c scancode : Z) : Prop :=
  forall h k k', h ∈ l -> call h c scancode k = Some (tt, k') -> (the k' : keyboard) = the k.

Lemma dispatch_from field l sc k n i :
  holds (field (the k)) l -> well_behaved l (scanCodeToChar sc) sc -> 0 <= i -> i + Z.of_nat n = 8 ->
  for_ n i (fun i => let! h := sgets (fun kb => nthZ (field kb) i) in
      when (truth h) (call h (scanCodeToChar sc) sc)) k
  = call_all (drop (Z.to_nat i) l) (scanCodeToChar sc) sc k.
Proof.
  revert i k. induction n as [|n IH]; intros i k Hh Hw Hi Hn; cbn [for_].
  { rewrite drop_ge; [done|]. destruct Hh as [? _]. lia. }
  unfold bind at 1 2, sgets, gets. rewrite (holds_nth _ l) by (done || lia).
  destruct (l !! Z.to_nat i) as [h|] eqn:El.
  - rewrite (drop_S _ _ _ El). change (default 0 (Some h)) with h. cbn [call_all].
    destruct Hh as (Hl & He & Hf). pose proof (Forall_lookup_1 _ _ _ _ Hf El) as Hnz. cbn in Hnz.
    unfold truth. destruct (Z.eqb_spec h 0); [done|]. cbn [negb when]. unfold bind.
    destruct (call h (scanCodeToChar sc) sc k) as [[[] k']|] eqn:Ec; [|done].
    replace (S (Z.to_nat i)) with (Z.to_nat (i + 1)) by lia. apply IH; [|done|lia..].
    rewrite (Hw h k k'); [done|by eapply list_elem_of_lookup_2|done].
  - cbn [default truth Z.eqb negb when]. unfold ret. rewrite IH by (done || lia).
    apply lookup_ge_None_1 in El. by rewrite !drop_ge by lia.
Qed.

Lemma onKeyPressed_calls l sc k :
  holds (pressHandlers (the k)) l -> well_behaved l (scanCodeToChar sc) sc ->
  onKeyPressed sc k = call_all l (scanCodeToChar sc) sc k.
Proof. intros. by apply (dispatch_from pressHandlers l sc k 8 0). Qed.
Lemma onKeyReleased_calls l sc k :
  holds (releaseHandlers (the k)) l -> well_behaved l (scanCodeToChar sc) sc ->
  onKeyReleased sc k = call_all l (scanCodeToChar sc) sc k.
Proof. intros. by apply (dispatch_from releaseHandlers l sc k 8 0). Qed.

(** the handler registry is a queue of at most eight.  Subscribing appends a handler and
    reports success until eight are registered; from then on it reports failure and changes
    nothing; the release handlers are not affected.  Pressing a key calls the registered
    handlers once each, in the order of their subscription, with the character and the scan
    code, provided they leave the registry alone. *)
Theorem press_handlers_queue k (l : list Z) (h : Z) :
  holds (pressHandlers (the k)) l -> h <> 0 ->
  (exists k', subscribePress h k = Some (bool_decide (length l < 8)%nat, k') /\
     holds (pressHandlers (the k')) (if decide (length l < 8)%nat then l ++ [h] else l) /\
     releaseHandlers (the k') = releaseHandlers (the k)) /\
  (forall sc, well_behaved l (scanCodeToChar sc) sc ->
     onKeyPressed sc k = call_all l (scanCodeToChar sc) sc k).
Proof.
  intros Hh Hh0. split; [|intros sc Hw; by apply onKeyPressed_calls].
  unfold subscribePress. pose proof (subscribe_spec _ l h Hh Hh0) as Hs.
  case_decide as Hd.
  - destruct Hs as (hs & -> & Hs). rewrite bool_decide_eq_true_2 by done.
    eexists. split; [done|]. by rewrite the_put.
  - rewrite Hs, bool_decide_eq_false_2 by done. eexists. split; [done|]. by rewrite the_put.
Qed.
End Dispatch.

(** Handlers that write what they are called with. *)
Record typist := Typist { ty_kbd : keyboard; ty_calls : list (Z * Z * Z) }.
#[export] Instance typist_kbd : Has keyboard typist.
Proof.
  by refine {| the := ty_kbd; put := fun c k => Typist c (ty_calls k) |}; intros; [..|destruct k].
Defined.
#[export] Instance typist_calls : Callbacks typist := {|
  call := fun h c sc k => Some (tt, Typist (ty_kbd k) (ty_calls k ++ [(h, c, sc)]))
|}.

Lemma press_handlers_queue_witness :
  let k := Typist (Kbd [7; 5; 0; 0; 0; 0; 0; 0] (replicate 8 0)) [] in
  (exists k', subscribePress 9 k = Some (true, k') /\ holds (pressHandlers (the k')) [7; 5; 9]) /\
  onKeyPressed 30 k = Some (tt, Typist (ty_kbd k) [(7, 97, 30); (5, 97, 30)]).
Proof.
  intros k. assert (holds (pressHandlers (the k)) [7; 5]) as Hh.
  { split_and!; [cbn; lia|done|]. repeat constructor; done. }
  destruct (press_handlers_queue k [7; 5] 9 Hh ltac:(lia)) as [(k' & E & H & _) Hc].
  split; [exists k'; exact (conj E H)|]. rewrite (Hc 30); [reflexivity|].
  intros h k1 k2 _ [= <-]. reflexivity.
Defined.

(** ** The scan code table *)
Lemma scanCodeToChar_range sc :
  0 <= sc -> scanCodeToChar sc = 0 \/ 32 <= scanCodeToChar sc <= 126 \/
    scanCodeToChar sc = 8 \/ scanCodeToChar sc = 9 \/ scanCodeToChar sc = 10.
Proof.
  intros Hsc. unfold scanCodeToChar. destruct (Z.ltb_spec sc (Z.of_nat (length translationTable))) as [Hlt|]; [|by left].
  assert (Forall (fun c => c = 0 \/ 32 <= c <= 126 \/ c = 8 \/ c = 9 \/ c = 10) translationTable) as Hf.
  { apply Forall_forall. intros c Hc.
    assert (forallb (fun c => (c =? 0) || ((32 <=? c) && (c <=? 126)) || (c =? 8) || (c =? 9) || (c =? 10))
              translationTable = true) as H by (vm_compute; reflexivity).
    rewrite forallb_forall in H. apply list_elem_of_In in Hc. specialize (H c Hc).
    rewrite !orb_true_iff, !Z.eqb_eq, andb_true_iff, !Z.leb_le in H. lia. }
  unfold nthZ. destruct (translationTable !! Z.to_nat sc) as [c|] eqn:E; [|by left].
  by eapply Forall_lookup_1 in Hf.
Qed.

End Keyboard.
