(* ===== verification/Reports.v ===== *)
(** Sequences of [log] calls.

    [fmt_bound f args] checks a format string against its arguments and bounds the length of
    the text: the conversions match, the characters can be shown, and how long it can get.
    A [log] call that passes the check with a bound below 512 fits into the buffer of [log]
    whatever the values are, and [prints] says what it leaves behind. *)
From S2P Require Import Prelude KMonad Font Ports KString KStringProps Console ConsoleProps ConsoleLog.
From Stdlib Require Import Ascii.
Import Font Ports Console ConsoleProps ConsoleLog.
#[global] Open Scope Z_scope.

Module Reports.
Import KString KStringProps.

#[export] Instance drawable_dec ch : Decision (drawable ch).
Proof. unfold drawable. apply _. Defined.

Definition drawables (l : list Z) : bool := bool_decide (Forall drawable l).

(** The longest text of a conversion. *)
Definition conv_bound (c : Z) (args : list arg) : option (nat * list arg) :=
  if c =? chr "%"%char then Some (1%nat, args)
  else if c =? chr "c"%char then
    match args with Num x :: r => if decide (drawable (u8 x)) then Some (1%nat, r) else None | _ => None end
  else if c =? chr "s"%char then
    match args with Str l :: r => if drawables l then Some (length l, r) else None | _ => None end
  else if c =? chr "f"%char then None
  else if (c =? chr "u"%char) || (c =? chr "d"%char) || (c =? chr "p"%char) || (c =? chr "x"%char) then
    match args with Num _ :: r => Some (20%nat, r) | _ => None end
  else Some (0%nat, args).
Definition long_bound (c : Z) (args : list arg) : option (nat * list arg) :=
  if (c =? chr "u"%char) || (c =? chr "d"%char) || (c =? chr "x"%char) then
    match args with Num _ :: r => Some (20%nat, r) | _ => None end
  else Some (0%nat, args).

Fixpoint fmt_bound (f : list Z) (args : list arg) : option nat :=
  match f with
  | [] => Some 0%nat
  | ch :: f1 =>
      if ch =? chr "%"%char then
        match f1 with
        | [] => None
        | c :: f2 =>
            if c =? chr "l"%char then
              match f2 with
              | [] => None
              | d :: f3 => '(n, args) ← long_bound d args; m ← fmt_bound f3 args; Some (n + m)%nat
              end
            else '(n, args) ← conv_bound c args; m ← fmt_bound f2 args; Some (n + m)%nat
        end
      else if decide (drawable ch) then m ← fmt_bound f1 args; Some (S m) else None
  end.

Lemma digits_drawable k base n : 2 <= base <= 36 -> Forall drawable (digits k base n).
Proof.
  intros Hb. revert n. induction k as [|k IH]; intros n; simpl; [constructor|].
  zcase; [|constructor]. apply Forall_app. split; [done|]. constructor; [|constructor].
  pose proof (mod_digit n base Hb) as Hm. unfold digit_char, drawable.
  change (chr "0"%char) with 48. change (chr "a"%char) with 97. zcase; lia.
Qed.
Lemma itoa_text_drawable base n : base = 10 \/ base = 16 -> Forall drawable (itoa_text base n).
Proof.
  assert (forall b m, 2 <= b <= 36 -> Forall drawable (numeral b m)) as H.
  { intros b m Hb. unfold numeral. case_match; [|by apply digits_drawable].
    constructor; [left; by vm_compute|constructor]. }
  unfold itoa_text. intros [-> | ->]; cbn [Z.eqb Pos.eqb]; [destruct (n <? 0)|];
    rewrite ?Forall_cons; split_and?; first [apply H; lia|left; by vm_compute].
Qed.

Lemma num_conv_bound (f : Z -> Z) base args n args' :
  base = 10 \/ base = 16 -> (forall x, in_s 64 (f x)) ->
  match args with Num _ :: r => Some (20%nat, r) | _ => None end = Some (n, args') ->
  exists t, num_conv (fun x => itoa_text base (f x)) args = Some (t, args') /\
    Forall drawable t /\ (length t <= n)%nat.
Proof.
  intros Hb Hr. destruct args as [|[x|l] args]; try done. intros [= <- <-].
  eexists. split; [done|]. split; [by apply itoa_text_drawable|by apply itoa_text_length].
Qed.

Lemma conv_bound_ok c args n args' :
  conv_bound c args = Some (n, args') ->
  exists t, conv c args = Some (t, args') /\ Forall drawable t /\ (length t <= n)%nat.
Proof.
  unfold conv_bound, conv. destruct (c =? chr "%"%char).
  { intros [= <- <-]. eexists. split; [done|]. split; [|done]. constructor; [left; by vm_compute|constructor]. }
  destruct (c =? chr "c"%char).
  { destruct args as [|[x|l] args]; try done. case_decide as Hd; [|done]. intros [= <- <-].
    eexists. split; [done|]. split; [|done]. by constructor. }
  destruct (c =? chr "s"%char).
  { destruct args as [|[x|l] args]; try done. destruct (drawables l) eqn:El; [|done]. intros [= <- <-].
    eexists. split; [done|]. split; [by apply bool_decide_eq_true in El|done]. }
  destruct (Z.eqb_spec c (chr "f"%char)) as [->|Hf]; [done|].
  destruct (c =? chr "u"%char); [intros E; eapply (num_conv_bound u32) in E; eauto using u32_in_s|].
  destruct (c =? chr "d"%char); [intros E; eapply (num_conv_bound s32) in E; eauto using s32_in_s|].
  destruct (c =? chr "p"%char); [intros E; eapply (num_conv_bound s64) in E; eauto using s64_in_s|].
  destruct (c =? chr "x"%char); [intros E; eapply (num_conv_bound u32) in E; eauto using u32_in_s|].
  intros [= <- <-]. exists []. by split_and!.
Qed.
Lemma long_bound_ok c args n args' :
  long_bound c args = Some (n, args') ->
  exists t, long_conv c args = Some (t, args') /\ Forall drawable t /\ (length t <= n)%nat.
Proof.
  unfold long_bound, long_conv.
  destruct ((c =? chr "u"%char) || (c =? chr "d"%char));
    [intros E; eapply (num_conv_bound s64) in E; eauto using s64_in_s|]. cbn [orb].
  destruct (c =? chr "x"%char); [intros E; eapply (num_conv_bound s64) in E; eauto using s64_in_s|].
  intros [= <- <-]. exists []. by split_and!.
Qed.

(** A checked format has a text, of drawable characters, within the bound. *)
Lemma fmt_bound_ok f args n :
  fmt_bound f args = Some n ->
  exists out, format f args = Some out /\ Forall drawable out /\ (length out <= n)%nat.
Proof.
  remember (length f) as m eqn:Hm. revert f Hm args n.
  induction m as [m IH] using lt_wf_ind. intros f -> args n.
  destruct f as [|ch f]; cbn [fmt_bound format].
  { intros [= <-]. exists []. by split_and!. }
  destruct (ch =? chr "%"%char).
  - destruct f as [|c f]; [done|]. destruct (c =? chr "l"%char).
    + destruct f as [|d f]; [done|]. destruct (long_bound d args) as [[a args2]|] eqn:E; [|done]. cbn.
      destruct (fmt_bound f args2) as [b|] eqn:E2; [|done]. intros [= <-].
      destruct (long_bound_ok _ _ _ _ E) as (t & -> & H1 & H2). cbn.
      edestruct (IH (length f)) as (out & -> & H3 & H4); [cbn; lia|done|done|].
      eexists. split; [done|]. rewrite Forall_app, length_app. split_and!; [done..|lia].
    + destruct (conv_bound c args) as [[a args2]|] eqn:E; [|done]. cbn.
      destruct (fmt_bound f args2) as [b|] eqn:E2; [|done]. intros [= <-].
      destruct (conv_bound_ok _ _ _ _ E) as (t & -> & H1 & H2). cbn.
      edestruct (IH (length f)) as (out & -> & H3 & H4); [cbn; lia|done|done|].
      eexists. split; [done|]. rewrite Forall_app, length_app. split_and!; [done..|lia].
  - case_decide as Hd; [|done]. destruct (fmt_bound f args) as [b|] eqn:E2; [|done]. intros [= <-].
    edestruct (IH (length f)) as (out & -> & H3 & H4); [cbn; lia|done|done|].
    eexists. split; [done|]. split; [by constructor|]. cbn. lia.
Qed.

Lemma until_nul_drawable l : Forall drawable l -> until_nul l = l.
Proof.
  induction 1 as [|ch l Hc _ IH]; [done|]. cbn. unfold drawable in Hc.
  destruct (Z.eqb_spec ch 0); [lia|]. by rewrite IH.
Qed.

(** ** What [log] leaves behind *)
Section Prints.
Context {K : Type} `{!Has console K} `{!PortBus K} `{!ConsoleBus K}.
Implicit Types k : K.

(** The console is in use and shows [t]. *)
Definition ready k (t : term) : Prop := shows (con k) t /\ whole_pieces (con k).

(** From [k], showing [t], to [k']: the text [out] has been printed, and nothing else. *)
Definition prints k (t : term) (out : list Z) k' : Prop :=
  let R := rowMax (con k) in let C := colMax (con k) in
  exists c', k' = put c' (sent (echo_all R C out t) k) /\
    displays c' (tput_all R C out t) /\ screen_frame (con k) c'.

(** The terminal after [out], of the size of [k]'s screen. *)
Definition after k (t : term) (out : list Z) : term := tput_all (rowMax (con k)) (colMax (con k)) out t.

Lemma prints_con k t out k' : prints k t out k' -> screen_frame (con k) (con k').
Proof. intros (c' & -> & _ & Hf). unfold con at 2. by rewrite the_put. Qed.

Lemma prints_ready k t out k' : whole_pieces (con k) -> prints k t out k' -> ready k' (after k t out).
Proof.
  intros W Hp. pose proof (prints_con _ _ _ _ Hp) as [Hf _]. destruct Hp as (c' & -> & [Hd _] & _).
  split; [unfold con; by rewrite the_put|]. unfold whole_pieces in *. rewrite Hf. exact W.
Qed.

Lemma sent_put vs (c : console) k : sent vs (put c k) = put c (sent vs k).
Proof.
  revert k. induction vs as [|v vs IH]; intros k; [done|]. cbn. unfold sent in IH. by rewrite out_put, IH.
Qed.

Lemma echo_all_app R C l1 l2 t :
  echo_all R C (l1 ++ l2) t = echo_all R C l1 t ++ echo_all R C l2 (tput_all R C l1 t).
Proof.
  revert t. induction l1 as [|ch l1 IH]; intros t; [done|]. cbn. by rewrite IH, app_assoc.
Qed.

Lemma screen_frame_trans c1 c2 c3 : screen_frame c1 c2 -> screen_frame c2 c3 -> screen_frame c1 c3.
Proof.
  intros [E1 H1] [E2 H2]. split.
  - rewrite E2 at 1. rewrite E1. by destruct c1.
  - intros a Ha Hb. rewrite H2; [by apply H1|rewrite E1..]; done.
Qed.

Lemma prints_app k t o1 k1 o2 k2 :
  prints k t o1 k1 -> prints k1 (after k t o1) o2 k2 -> prints k t (o1 ++ o2) k2.
Proof.
  intros Hp1 (c2 & -> & D2 & F2). pose proof (prints_con _ _ _ _ Hp1) as [E1 _].
  assert (rowMax (con k1) = rowMax (con k) /\ colMax (con k1) = colMax (con k)) as [ER EC]
    by (rewrite E1; done).
  rewrite ER, EC in *. destruct Hp1 as (c1 & -> & D1 & F1). exists c2. split_and!.
  - rewrite sent_put, put_put, echo_all_app, sent_app. done.
  - unfold tput_all in *. by rewrite fold_left_app.
  - unfold con at 1 in F2. rewrite the_put in F2. by eapply screen_frame_trans.
Qed.

Lemma prints_nil k t : ready k t -> drawn (con k) (pixels (con k)) (FRAMEBUFFER (con k)) (grid t) ->
  prints k t [] k.
Proof.
  intros [Hs W] Hd. exists (con k). split_and!; [symmetry; apply put_the|by split|].
  split; [by destruct (con k)|done].
Qed.

(** A checked [log] call. *)
Lemma log_ok k t fmt args n :
  ready k t -> fmt_bound (bytes (esc fmt)) args = Some n -> (n < 512)%nat ->
  wp (log fmt args) k (fun _ k' => exists out, format (bytes (esc fmt)) args = Some out /\
    Forall drawable out /\ prints k t out k').
Proof.
  intros [Hs W] Hb Hn. destruct (fmt_bound_ok _ _ _ Hb) as (out & Ef & Hd & Hl).
  pose proof (until_nul_drawable out Hd) as Eu.
  eapply wp_mono; [apply (log_spec k t fmt args out Hs W Ef); [lia|by rewrite Eu]|].
  rewrite Eu. intros [] k' (c' & H). exists out. split; [done|]. split; [done|]. by exists c'.
Qed.

(** *** A sequence of calls *)
Definition line : Type := string * list arg.
Fixpoint log_all (ls : list line) : M K unit :=
  match ls with [] => ret tt | (f, a) :: ls => log f a ;;; log_all ls end.

Definition line_text (l : line) : option (list Z) := format (bytes (esc l.1)) l.2.
Fixpoint report_text (ls : list line) : option (list Z) :=
  match ls with
  | [] => Some []
  | l :: ls => a ← line_text l; b ← report_text ls; Some (a ++ b)
  end.

(** Every line fits into the buffer. *)
Definition fits (l : line) : bool :=
  match fmt_bound (bytes (esc l.1)) l.2 with Some n => (n <? 512)%nat | None => false end.

Lemma log_all_ok k t ls :
  ready k t -> ls <> [] -> forallb fits ls = true ->
  wp (log_all ls) k (fun _ k' => exists out, report_text ls = Some out /\ prints k t out k').
Proof.
  revert k t. induction ls as [|[f a] ls IH]; intros k t Hr Hne Hf; [done|].
  cbn [log_all report_text forallb] in *. apply andb_true_iff in Hf as [Hl Hf].
  unfold fits in Hl. cbn [fst snd] in Hl.
  destruct (fmt_bound (bytes (esc f)) a) as [n|] eqn:Eb; [|done]. apply Nat.ltb_lt in Hl.
  wp1. eapply wp_mono; [by eapply log_ok|]. intros [] k' (o1 & E1 & _ & Hp1). cbv beta.
  unfold line_text. cbn [fst snd]. rewrite E1. cbn [mbind option_bind].
  destruct ls as [|l ls].
  - cbn [log_all report_text mbind option_bind]. apply wp_ret. eexists. split; [done|]. by rewrite app_nil_r.
  - eapply wp_mono; [apply IH; [|done|done]|].
    + apply prints_ready; [apply Hr|done].
    + intros [] k2 (o2 & -> & Hp2). cbn [mbind option_bind]. eexists. split; [done|]. by eapply prints_app.
Qed.
End Prints.

End Reports.
