(* ===== verification/Interrupts.v ===== *)
(** Exceptions and interrupts (Interrupts.c): the report [isr_handler] writes before it stops
    the machine, and the handlers of the sixteen interrupt lines.

    The control registers and the memory that the report shows (page tables, stack) are
    arguments.  [isr_handler] ends in an endless loop; its definition gives the state the
    machine loops in. *)
From S2P Require Import Prelude PMM Paging PagePerm KMonad Font Ports KString KStringProps Console ConsoleProps.
From S2P Require Import ConsoleLog Reports Keyboard.
Import Font Ports Console ConsoleProps ConsoleLog Reports.
#[global] Open Scope Z_scope.

Module Interrupts.
Import KStringProps.

Definition KBD_DATA_PORT : Z := 0x60.
Definition KBD_SCANCODE_MASK : Z := 0x7f.
Definition KBD_STATUS_MASK : Z := 0x80.
Definition NUM_EXCEPTIONS : Z := 21.

Record ISR_Frame := Frame {
  ds : Z;
  r15 : Z; r14 : Z; r13 : Z; r12 : Z; r11 : Z; r10 : Z; r9 : Z; r8 : Z;
  ax : Z; cx : Z; dx : Z; bx : Z; useless_sp : Z; bp : Z; si : Z; di : Z;
  int_no : Z;
  err_code : Z;
  ip : Z; cs : Z; e_flags : Z; sp : Z; ss : Z
}.

Definition are_interrupts_enabled (flags : Z) : bool := truth (flags &&& (1 <<< 9)).

Definition exceptions : list string := [
  "Division By Zero";
  "Debug";
  "Non-maskable Interrupt";
  "Breakpoint";
  "Overflow";
  "Bound Range Exceeded";
  "Invalid Opcode";
  "Device Not Available";
  "Double Fault";
  "Coprocessor Segment Overrun";
  "Invalid TSS";
  "Segment Not Present";
  "Stack-Segment Fault";
  "General Protection Fault";
  "Page Fault";
  "Reserved";
  "x87 Floating-Point Exception";
  "Alignment Check";
  "Machine Check";
  "SIMD Floating-Point Exception";
  "Virtualization Exception"]%string.
Definition sources : list string := ["GDT"; "IDT"; "LDT"; "IDT"]%string.

Definition pick (l : list string) (i : Z) : arg := Str (bytes (default ""%string (l !! Z.to_nat i))).

Section Report.
Variable rd64 : Z -> Z.         (** the 64-bit word at an address *)
Variables cr2 cr3 : Z.

(** The paging structures behind [address]. *)
Definition page_trace (address : Z) : list line :=
  let pt4_index := Paging.pt_index 39 address in
  let pt3_index := Paging.pt_index 30 address in
  let pt2_index := Paging.pt_index 21 address in
  let page_index := Paging.pt_index 12 address in
  let p4 := cr3 in
  let e4 := rd64 (p4 + 8 * pt4_index) in
  let p3 := e4 &&& Paging.NOT_FFF in
  let e3 := rd64 (p3 + 8 * pt3_index) in
  let p2 := e3 &&& Paging.NOT_FFF in
  let e2 := rd64 (p2 + 8 * pt2_index) in
  let p1 := e2 &&& Paging.NOT_FFF in
  let e1 := rd64 (p1 + 8 * page_index) in
  [("PML4T at: %p\n", [Num p4]);
   ("PML4T entry %u : %lx\n", [Num pt4_index; Num e4]);
   ("PDPT entry %u: %lx\n", [Num pt3_index; Num e3]);
   ("PDT entry %u: %lx\n", [Num pt2_index; Num e2]);
   ("PT entry %u: %lx\n", [Num page_index; Num (e1 &&& 0xffffffffffff)])]%string.

Definition special (regs : ISR_Frame) : list line :=
  if int_no regs =? 13 then
    if truth (err_code regs) then
      if truth (err_code regs &&& 1) then [("Exception of external origin\n", [])]%string
      else [("Source: %s\n", [pick sources ((err_code regs >>> 1) &&& 0x3)]);
            ("Selector index: %lu\n", [Num ((err_code regs >>> 3) &&& 0x1ffff)])]%string
    else []
  else if int_no regs =? 14 then
    [("Address: %lx (%lu)\n", [Num cr2; Num cr2]);
     ((if truth (err_code regs &&& 1) then "Page-protection violation\n" else "Non-present page\n"), []);
     ((if truth (err_code regs &&& 2) then "Write access\n" else "Read access\n"), []);
     ("Caused by process in ring %d\n", [Num (if truth (err_code regs &&& 4) then 3 else 0)])]%string
    ++ (if truth (err_code regs &&& 8)
        then [("One or more page directory entries contain reserved bits which are set to 1\n", [])]%string
        else [])
    ++ (if truth (err_code regs &&& 16) then [("Caused by an instruction fetch\n", [])]%string else [])
    ++ page_trace cr2
  else [].

Definition stack_line (regs : ISR_Frame) (i : nat) : line :=
  let a := u64 (sp regs + 8 * Z.of_nat i) in ("%p | %lx\n"%string, [Num a; Num (rd64 a)]).

Definition isr_report (regs : ISR_Frame) : list line :=
  [if (int_no regs <? NUM_EXCEPTIONS)%Z
   then ("\nException: %s\n", [pick exceptions (int_no regs)])
   else ("\nUnknown exception: %lu\n", [Num (int_no regs)])]%string
  ++ special regs ++
  [("Registers:\nA: %lx | B: %lx | C: %lx | D: %lx\n", [Num (ax regs); Num (bx regs); Num (cx regs); Num (dx regs)]);
   ("DI: %lx | SI: %lx\nIP: %lx\nBP: %lx | SP: %lx\n",
     [Num (di regs); Num (si regs); Num (ip regs); Num (bp regs); Num (sp regs)]);
   ("CS: %lx | DS: %lx | SS: %lx | EFLAGS: %lx\n", [Num (cs regs); Num (ds regs); Num (ss regs); Num (e_flags regs)]);
   ("R8: %lx | R9: %lx | R10: %lx | R11: %lx\n", [Num (r8 regs); Num (r9 regs); Num (r10 regs); Num (r11 regs)]);
   ("R12: %lx | R13: %lx | R14: %lx | R15: %lx\n", [Num (r12 regs); Num (r13 regs); Num (r14 regs); Num (r15 regs)]);
   ("Stack trace:\n", [])]%string
  ++ (stack_line regs <$> seq 0 10).
End Report.

(** The static variable of [irq0_handler]. *)
Record timer := Timer { clock : Z }.

Section Handlers.
Context {K : Type} `{!Has console K} `{!PortBus K}.

Definition isr_handler (rd64 : Z -> Z) (cr2 cr3 : Z) (regs : ISR_Frame) : M K unit :=
  log_all (isr_report rd64 cr2 cr3 regs).

Context `{!Has timer K} `{!Has Keyboard.keyboard K} `{!Keyboard.Callbacks K}.

Definition irq0_handler : M K unit :=
  PIC_send_EOI 0 ;;;
  let! c := sgets clock in
  smod (fun _ => Timer (u64 (c + 1))) ;;;
  log "Clock: %lu\r" [Num c].

Definition irq1_handler : M K unit :=
  let! scancode := inb KBD_DATA_PORT in
  PIC_send_EOI 1 ;;;
  let released := scancode &&& KBD_STATUS_MASK in
  let code := scancode &&& KBD_SCANCODE_MASK in
  if negb (truth released) then Keyboard.onKeyPressed code else Keyboard.onKeyReleased code.

(** The macro pastes the number into the text. *)
Definition irq_names : list string :=
  ["0"; "1"; "2"; "3"; "4"; "5"; "6"; "7"; "8"; "9"; "10"; "11"; "12"; "13"; "14"; "15"]%string.
Definition BLANK_IRQ (X : Z) : M K unit :=
  PIC_send_EOI X ;;;
  log ("Received IRQ " +:+ default ""%string (irq_names !! Z.to_nat X) +:+ "\n") [].

Definition irq_handler (n : Z) : M K unit :=
  if n =? 0 then irq0_handler else if n =? 1 then irq1_handler else BLANK_IRQ n.
End Handlers.

(** ** The report fits *)
Definition checked (f : string) (l : list string) : bool :=
  forallb (fun s => fits (f, [Str (bytes s)])) (""%string :: l).

Lemma pick_fits f l i : checked f l = true -> fits (f, [pick l i]) = true.
Proof.
  unfold checked, pick. intros Hc. rewrite forallb_forall in Hc. apply Hc.
  destruct (l !! Z.to_nat i) as [s|] eqn:E; [|by left]. right. apply list_elem_of_In.
  by eapply list_elem_of_lookup_2.
Qed.

Lemma page_trace_fits rd64 cr3 a : forallb fits (page_trace rd64 cr3 a) = true.
Proof. reflexivity. Qed.

Lemma special_fits rd64 cr2 cr3 regs : forallb fits (special rd64 cr2 cr3 regs) = true.
Proof.
  unfold special. destruct (int_no regs =? 13).
  - destruct (truth (err_code regs)); [|done]. destruct (truth (err_code regs &&& 1)); [done|].
    cbn [forallb]. rewrite pick_fits by (vm_compute; reflexivity). reflexivity.
  - destruct (int_no regs =? 14); [|done]. rewrite !forallb_app, page_trace_fits, andb_true_r.
    destruct (truth (err_code regs &&& 1)), (truth (err_code regs &&& 2)), (truth (err_code regs &&& 4)),
      (truth (err_code regs &&& 8)), (truth (err_code regs &&& 16)); reflexivity.
Qed.

Lemma isr_report_fits rd64 cr2 cr3 regs : forallb fits (isr_report rd64 cr2 cr3 regs) = true.
Proof.
  unfold isr_report. rewrite !forallb_app, special_fits.
  replace (forallb fits (stack_line rd64 regs <$> seq 0 10)) with true by reflexivity.
  rewrite andb_true_r. destruct (int_no regs <? NUM_EXCEPTIONS); [|reflexivity].
  cbn [forallb]. rewrite pick_fits by (vm_compute; reflexivity). reflexivity.
Qed.

(** ** The page-table trace *)

(** A table entry without the bits the trace does not mask. *)
Definition low_entry (e : Z) : Prop := in_u 52 e.

Lemma low_entry_mask e : low_entry e -> e &&& Paging.NOT_FFF = e &&& Paging.PHYS_MASK.
Proof.
  intros He. bit_ext i.
  change Paging.NOT_FFF with (Z.shiftl (Z.ones 52) 12).
  change Paging.PHYS_MASK with (Z.shiftl (Z.ones 40) 12). rewrite !testbit_mask by lia.
  destruct (decide (i < 52)).
  - destruct (decide (12 <= i)); [rewrite !bool_decide_eq_true_2 by lia|rewrite !bool_decide_eq_false_2 by lia]; done.
  - by rewrite (testbit_high 52 e i) by (done || lia).
Qed.

Section Trace.
Context {P : Type}.
Implicit Types s : Paging.paging P.

Lemma walk_step d s v t e :
  Paging.walk d s v = Some t -> e = Paging.rd s (t + 8 * Paging.didx d v) ->
  Paging.walk (S d) s v = if Paging.present e then Some (e &&& Paging.PHYS_MASK) else None.
Proof. intros Hw ->. cbn [Paging.walk]. by rewrite Hw. Qed.

Lemma walk_some d s v t :
  Paging.walk (S d) s v = Some t -> exists t0, Paging.walk d s v = Some t0 /\
    t = Paging.rd s (t0 + 8 * Paging.didx d v) &&& Paging.PHYS_MASK.
Proof.
  cbn [Paging.walk]. destruct (Paging.walk d s v) as [t0|]; [|done]. case_match; [|done].
  intros [= <-]. by exists t0.
Qed.

(** the trace that [isr_handler] prints for a page fault is the hardware's walk.  When the
    tables of the faulting address are there down to the last level and no entry on the way
    has a bit above the physical address set, the four entries printed are the entries the
    processor went through, and the last one is the page-table entry of the address. *)
Theorem page_trace_is_walk s (v t3 t2 t1 : Z) :
  Paging.walk 1 s v = Some t3 -> Paging.walk 2 s v = Some t2 -> Paging.walk 3 s v = Some t1 ->
  let e4 := Paging.rd s (Paging.pt4 s + 8 * Paging.didx 0 v) in
  let e3 := Paging.rd s (t3 + 8 * Paging.didx 1 v) in
  let e2 := Paging.rd s (t2 + 8 * Paging.didx 2 v) in
  let e1 := Paging.rd s (t1 + 8 * Paging.didx 3 v) in
  low_entry e4 -> low_entry e3 -> low_entry e2 ->
  page_trace (Paging.rd s) (Paging.pt4 s) v =
  [("PML4T at: %p\n", [Num (Paging.pt4 s)]);
   ("PML4T entry %u : %lx\n", [Num (Paging.didx 0 v); Num e4]);
   ("PDPT entry %u: %lx\n", [Num (Paging.didx 1 v); Num e3]);
   ("PDT entry %u: %lx\n", [Num (Paging.didx 2 v); Num e2]);
   ("PT entry %u: %lx\n", [Num (Paging.didx 3 v); Num (e1 &&& 0xffffffffffff)])]%string.
Proof.
  intros W1 W2 W3 e4 e3 e2 e1 L4 L3 L2.
  destruct (walk_some 0 s v t3 W1) as (t0 & [= <-] & E3).
  destruct (walk_some 1 s v t2 W2) as (t3' & W1' & E2). rewrite W1 in W1'. injection W1' as <-.
  destruct (walk_some 2 s v t1 W3) as (t2' & W2' & E1). rewrite W2 in W2'. injection W2' as <-.
  fold e4 in E3. fold e3 in E2. fold e2 in E1. unfold page_trace.
  change (Paging.pt_index 39 v) with (Paging.didx 0 v). change (Paging.pt_index 30 v) with (Paging.didx 1 v).
  change (Paging.pt_index 21 v) with (Paging.didx 2 v). change (Paging.pt_index 12 v) with (Paging.didx 3 v).
  fold e4. rewrite (low_entry_mask e4 L4), <- E3. fold e3. rewrite (low_entry_mask e3 L3), <- E2.
  fold e2. rewrite (low_entry_mask e2 L2), <- E1. reflexivity.
Qed.
End Trace.

(** The tables of the boot loader and an address in the first 2 MiB. *)
Lemma page_trace_is_walk_witness :
  page_trace (Paging.rd PagePerm.boot_state) (Paging.pt4 PagePerm.boot_state) 0x123000
  = [("PML4T at: %p\n", [Num 0x24000]);
     ("PML4T entry %u : %lx\n", [Num 0; Num 0x25003]);
     ("PDPT entry %u: %lx\n", [Num 0; Num 0x26003]);
     ("PDT entry %u: %lx\n", [Num 0; Num 0x27003]);
     ("PT entry %u: %lx\n", [Num 291; Num 0x123003])]%string.
Proof.
  etransitivity.
  - apply (page_trace_is_walk PagePerm.boot_state 0x123000 0x25000 0x26000 0x27000);
      try (vm_compute; reflexivity); by vm_compute.
  - vm_compute. reflexivity.
Defined.

(** ** Handlers on the machine *)

(** Two parts of the machine are apart when writing one does not change the other; a part is
    off the bus when port I/O does not change it. *)
Class Apart (A B K : Type) `{!Has A K} `{!Has B K} : Prop :=
  apart_put : forall (b : B) (k : K), (the (put b k) : A) = the k.
Class OffBus (A K : Type) `{!Has A K} `{!PortBus K} : Prop := {
  off_out : forall p v (k : K), (the (port_out p v k) : A) = the k;
  off_in : forall p (k : K), (the (port_in p k).2 : A) = the k
}.
(** The controllers are on the bus only. *)
Class OnBus (A K : Type) `{!Has A K} `{!PortBus K} `{!PicBus K} : Prop :=
  chips_put : forall (a : A) (k : K), chips (put a k) = chips k.

Section Specs.
Context {K : Type} `{!Has console K} `{!PortBus K} `{!ConsoleBus K}.
Implicit Types k : K.


(** *** Interrupt lines *)
Context `{!PicBus K} `{!Has timer K} `{!Has Keyboard.keyboard K} `{!Keyboard.Callbacks K}.
Context `{!OnBus console K} `{!OnBus timer K}.

Lemma chips_sent vs k : Forall (fun v => 0 <= v < 256) vs -> chips (sent vs k) = chips k.
Proof.
  revert k. induction vs as [|v vs IH]; intros k Hv; [done|]. apply Forall_cons in Hv as [Hv Hvs].
  cbn. unfold sent in IH. rewrite IH by done. by apply chips_out.
Qed.

Lemma echo_all_bytes R C out t : Forall drawable out -> Forall (fun v => 0 <= v < 256) (echo_all R C out t).
Proof.
  intros Hd. revert t. induction Hd as [|ch out Hc _ IH]; intros t; [constructor|]. cbn [echo_all].
  apply Forall_app. split; [|apply IH]. unfold echo. unfold drawable in Hc. case_match.
  - constructor; [lia|]. apply Forall_replicate. lia.
  - constructor; [lia|constructor].
Qed.

Lemma prints_chips k t out k' : Forall drawable out -> prints k t out k' -> chips k' = chips k.
Proof.
  intros Hd (c' & -> & _). rewrite chips_put. by apply chips_sent, echo_all_bytes.
Qed.

(** A part off the bus and apart from the console is not touched by printing. *)
Lemma prints_keeps {A} `{!Has A K} `{!OffBus A K} `{!Apart A console K} k t out k' :
  prints k t out k' -> (the k' : A) = the k.
Proof.
  intros (c' & -> & _). rewrite apart_put. generalize (echo_all (rowMax (con k)) (colMax (con k)) out t).
  intros vs. revert k. induction vs as [|v vs IH]; intros k; [done|]. cbn. unfold sent in IH.
  by rewrite IH, off_out.
Qed.

(** [PIC_send_EOI] only talks to the controllers. *)
Lemma EOI_keeps {A} `{!Has A K} `{!OffBus A K} n k k' :
  PIC_send_EOI n k = Some (tt, k') -> (the k' : A) = the k.
Proof.
  unfold PIC_send_EOI. destruct (8 <=? u32 n); intros [= <-]; by rewrite !off_out.
Qed.
Lemma EOI_con n k k' : PIC_send_EOI n k = Some (tt, k') -> con k' = con k.
Proof.
  unfold PIC_send_EOI, con. destruct (8 <=? u32 n); intros [= <-]; by rewrite !out_console.
Qed.

Lemma ready_con k k' t : con k' = con k -> ready k t -> ready k' t.
Proof. unfold ready. by intros ->. Qed.
Lemma after_con k k' t out : con k' = con k -> after k' t out = after k t out.
Proof. unfold after. by intros ->. Qed.

(** The controllers after the end of interrupt [n]. *)
Definition acknowledged (n : Z) (cs cs' : chip * chip) : Prop :=
  irq_mask cs' = irq_mask cs /\ (forall i, irq_vector cs' i = irq_vector cs i) /\
  isr cs'.1 = Z.clearbit (isr cs.1) (if n <? 8 then n else 2) /\
  isr cs'.2 = (if n <? 8 then isr cs.2 else Z.clearbit (isr cs.2) (n - 8)).

Lemma EOI_spec n k :
  0 <= n < 16 -> handling (chips k) n ->
  exists k', PIC_send_EOI n k = Some (tt, k') /\ acknowledged n (chips k) (chips k').
Proof.
  intros Hn Hh. destruct (wp_run _ _ _ (PIC_send_EOI_spec n k Hn Hh)) as ([] & k' & E & Hc).
  exists k'. split; [done|]. unfold acknowledged. rewrite Hc. destruct (chips k) as [m s]. by destruct (n <? 8).
Qed.

(** The text a line without a device behind it leaves. *)
Definition irq_line (n c : Z) : line :=
  if n =? 0 then ("Clock: %lu\r"%string, [Num c])
  else ("Received IRQ " +:+ default ""%string (irq_names !! Z.to_nat n) +:+ "\n", [])%string.

Lemma irq_line_fits n c : 0 <= n < 16 -> fits (irq_line n c) = true.
Proof.
  intros Hn. unfold irq_line. destruct (Z.eqb_spec n 0); [reflexivity|].
  assert (Z.to_nat n < 16)%nat as Hm by lia. revert Hm. generalize (Z.to_nat n). intros m Hm.
  do 16 (destruct m as [|m]; [vm_compute; reflexivity|]). lia.
Qed.

(** One call of [log], on a line that fits. *)
Lemma log_line k t f a :
  ready k t -> fits (f, a) = true ->
  exists out k', line_text (f, a) = Some out /\ log f a k = Some (tt, k') /\
    Forall drawable out /\ prints k t out k'.
Proof.
  intros Hr Hf. unfold fits in Hf. cbn [fst snd] in Hf.
  destruct (fmt_bound (bytes (esc f)) a) as [m|] eqn:Eb; [|done]. apply Nat.ltb_lt in Hf.
  destruct (wp_run _ _ _ (log_ok k t f a m Hr Eb Hf)) as ([] & k' & E & out & H1 & H2 & H3).
  by exists out, k'.
Qed.

(** every interrupt line except the keyboard's is acknowledged and reported.  While the
    line [n] is being handled, its handler ends the interrupt at the controllers (for lines
    of the slave, the cascade too), leaves masks and vectors alone, prints its line of text
    on the console, and on line 0 shows the number of ticks so far and counts one more,
    modulo 2^64. *)
Theorem irq_handler_acknowledges `{!OffBus timer K} `{!Apart console timer K} `{!Apart timer console K}
    k (t : term) (n : Z) :
  ready k t -> 0 <= n < 16 -> n <> 1 -> handling (chips k) n ->
  exists out k', irq_handler n k = Some (tt, k') /\
    line_text (irq_line n (clock (the k))) = Some out /\ ready k' (after k t out) /\
    acknowledged n (chips k) (chips k') /\
    clock (the k') = (if n =? 0 then u64 (clock (the k) + 1) else clock (the k)).
Proof.
  intros Hr Hn Hn1 Hh. destruct (EOI_spec n k Hn Hh) as (k1 & E1 & Ha).
  pose proof (EOI_con n k k1 E1) as Ec. pose proof (EOI_keeps (A:=timer) n k k1 E1) as Et.
  set (k2 := if n =? 0 then put (Timer (u64 (clock (the k) + 1))) k1 else k1).
  assert (con k2 = con k) as Ec2.
  { unfold k2, con in *. case_match; [by rewrite apart_put|done]. }
  assert (chips k2 = chips k1) as Eh2 by (unfold k2; case_match; [apply chips_put|done]).
  pose proof (irq_line_fits n (clock (the k)) Hn) as Hf.
  destruct (irq_line n (clock (the k))) as [f a] eqn:El.
  destruct (log_line k2 t f a (ready_con _ _ _ Ec2 Hr) Hf) as (out & k3 & H1 & H2 & Hd & Hp).
  exists out, k3. split_and!; [|done| | |].
  - unfold irq_handler. unfold irq_line in El. unfold k2 in H2. destruct (Z.eqb_spec n 0) as [->|Hn0].
    + injection El as <- <-. unfold irq0_handler, bind, sgets, gets, smod, modify. by rewrite E1, Et.
    + destruct (Z.eqb_spec n 1); [done|]. injection El as <- <-. unfold BLANK_IRQ, bind. by rewrite E1.
  - rewrite <- (after_con k k2) by done. eapply prints_ready; [|done]. rewrite Ec2. apply Hr.
  - by rewrite (prints_chips _ _ _ _ Hd Hp), Eh2.
  - rewrite (prints_keeps (A:=timer) _ _ _ _ Hp). unfold k2. destruct (n =? 0); [by rewrite the_put|by rewrite Et].
Qed.
End Specs.

(** ** A concrete machine *)
Record board := Board { bd_machine : machine; bd_timer : timer; bd_kbd : Keyboard.keyboard }.

#[export] Instance board_console : Has console board.
Proof.
  by refine {| the := fun k => the (bd_machine k);
    put := fun c k => Board (put c (bd_machine k)) (bd_timer k) (bd_kbd k) |}; intros; destruct k as [[] ?].
Defined.
#[export] Instance board_timer : Has timer board.
Proof.
  by refine {| the := bd_timer; put := fun t k => Board (bd_machine k) t (bd_kbd k) |}; intros; destruct k.
Defined.
#[export] Instance board_kbd : Has Keyboard.keyboard board.
Proof.
  by refine {| the := bd_kbd; put := fun b k => Board (bd_machine k) (bd_timer k) b |}; intros; destruct k.
Defined.
#[export] Instance board_bus : PortBus board := {|
  port_out := fun p v k => Board (port_out p v (bd_machine k)) (bd_timer k) (bd_kbd k);
  port_in := fun p k => let '(v, m) := port_in p (bd_machine k) in (v, Board m (bd_timer k) (bd_kbd k))
|}.
#[export] Instance board_console_bus : ConsoleBus board.
Proof. by split. Qed.
#[export] Instance board_pic : PicBus board.
Proof.
  refine {| chips := fun k => chips (m_pc (bd_machine k)) |}.
  - intros p v k cs Hv Hw. by apply (chips_out (K:=pc)).
  - intros p [m ??]. cbn. by destruct (p =? 0x60), (pc_keys (m_pc m)).
  - intros p [m ??] v Hr. rewrite <- (chips_read p _ _ Hr). cbn. by destruct (p =? 0x60), (pc_keys (m_pc m)).
Defined.
#[export] Instance board_apart_con_timer : Apart console timer board. Proof. done. Qed.
#[export] Instance board_apart_timer_con : Apart timer console board. Proof. done. Qed.
#[export] Instance board_apart_kbd_con : Apart Keyboard.keyboard console board. Proof. done. Qed.
#[export] Instance board_con_bus : OnBus console board. Proof. done. Qed.
#[export] Instance board_timer_bus : OnBus timer board. Proof. done. Qed.
Lemma board_in_keeps p (k : board) : bd_timer (port_in p k).2 = bd_timer k /\ bd_kbd (port_in p k).2 = bd_kbd k.
Proof. cbn. by destruct (p =? 0x60), (pc_keys (m_pc (bd_machine k))). Qed.
#[export] Instance board_timer_off : OffBus timer board.
Proof. split; [done|]. intros. apply board_in_keeps. Qed.
#[export] Instance board_kbd_off : OffBus Keyboard.keyboard board.
Proof. split; [done|]. intros. apply board_in_keeps. Qed.
#[export] Instance board_calls : Keyboard.Callbacks board := {| Keyboard.call := fun _ _ _ => ret tt |}.

(** The timer interrupt is being handled, after 41 ticks. *)
Definition board0 : board := Board machine0 (Timer 41) Keyboard.keyboard_start.
Lemma board0_ready : ready board0 blank.
Proof. split; [apply machine0_shows|reflexivity]. Qed.


Lemma irq_handler_acknowledges_witness :
  exists out k', irq_handler 0 board0 = Some (tt, k') /\
    line_text ("Clock: %lu\r"%string, [Num 41]) = Some out /\ ready k' (after board0 blank out) /\
    isr (chips k').1 = 0 /\ clock (the k') = 42.
Proof.
  destruct (irq_handler_acknowledges board0 blank 0 board0_ready ltac:(lia) ltac:(lia))
    as (out & k' & H1 & H2 & H3 & (_ & _ & H4 & _) & H5).
  - split; [reflexivity|lia].
  - exists out, k'. exact (conj H1 (conj H2 (conj H3 (conj H4 H5)))).
Defined.

End Interrupts.
