(* ===== verification/Diagnostics.v ===== *)
(** The kernel's reports (Diagnostics.c, lib/sanitizers/ubsan_handlers.c): what they print,
    line by line, and that every line fits into the buffer of [log].

    The addresses of the sections are the linker's, [query_cpu] is assembly code
    (lib/cpuid.asm): both are parameters.  The handlers of the undefined-behaviour sanitizer
    that end in [ubsan_common] stop in an endless loop; their definitions give the state the
    machine loops in. *)
From S2P Require Import Prelude PMM Paging PagePerm KMonad Font Ports KString KStringProps Console ConsoleProps.
From S2P Require Import ConsoleLog Reports.
Import Font Ports Console ConsoleProps ConsoleLog Reports.
#[global] Open Scope Z_scope.

Module Diagnostics.
Import KStringProps.

(** ** Diagnostics.c *)
Definition btoa (x : Z) : arg := Str (bytes (if truth x then "true" else "false")).

Definition PRINT_SECTION (X : string) (s : Z * Z) : line :=
  let '(start, end_) := s in
  (("\t" +:+ X +:+ ":\t%lu bytes\t%lu - %lu\t(%lx - %lx)\n")%string,
   [Num (u64 (end_ - start)); Num start; Num end_; Num start; Num end_]).

Definition section_lines (l : PagePerm.sections) (first_free_page : Z) : list line :=
  [("Image section sizes:\n"%string, []);
   PRINT_SECTION "BOOT" (PagePerm.BOOT l);
   ("\n"%string, []);
   PRINT_SECTION "KERNEL_TEXT" (PagePerm.KERNEL_TEXT l);
   PRINT_SECTION "KERNEL_RODATA" (PagePerm.KERNEL_RODATA l);
   PRINT_SECTION "KERNEL_DATA" (PagePerm.KERNEL_DATA l);
   ("\n"%string, []);
   PRINT_SECTION "OS_TEXT" (PagePerm.OS_TEXT l);
   PRINT_SECTION "OS_RODATA" (PagePerm.OS_RODATA l);
   PRINT_SECTION "OS_DATA" (PagePerm.OS_DATA l);
   ("\n"%string, []);
   PRINT_SECTION "KERNEL_BSS" (PagePerm.KERNEL_BSS l);
   PRINT_SECTION "OS_BSS" (PagePerm.OS_BSS l);
   ("\n\tFirst free page at: %lx\n"%string, [Num first_free_page])].

(** The Makefile enables the extensions up to SSE4.2 and not AVX: the last branch of the C
    function is not compiled. *)
Definition sse_lines (query_cpu : Z -> Z -> Z -> Z) : list line :=
  let xsave := query_cpu 1 2 26 in
  [("SSE support:\n", []);
   ("\tSSE3:\t%s\n", [btoa (query_cpu 1 2 0)]);
   ("\tSSSE3:\t%s\n", [btoa (query_cpu 1 2 9)]);
   ("\tSSE4.1:\t%s\n", [btoa (query_cpu 1 2 19)]);
   ("\tSSE4.2:\t%s\n", [btoa (query_cpu 1 2 20)]);
   ("\tSSE4a:\t%s\n", [btoa (query_cpu 0x80000001 2 6)]);
   ("\tXSAVE:\t%s\n", [btoa xsave])]%string
  ++ if truth xsave then
       let avx := query_cpu 1 2 28 in
       [("\tAVX:\t%s\n", [btoa avx]);
        ("\tAVX2:\t%s\n", [btoa (query_cpu 7 1 5)]);
        ("\tAVX512:\t%s\n", [btoa (query_cpu 7 1 16)])]%string
     else [].

(** ** ubsan_handlers.c *)
Record source_location := Loc { filename : list Z; loc_line : Z; column : Z }.
Record nonnull_data := Nonnull { nn_location : source_location; attr_loc : source_location; arg_index : Z }.
Record type_descriptor := TypeDesc { type_kind : Z; type_info : Z; type_name : list Z }.
Record shift_out_of_bounds_data := Shift {
  sh_location : source_location; lhs_type : type_descriptor; rhs_type : type_descriptor }.
Record type_mismatch_data_v1 := Mismatch {
  tm_location : source_location; tm_type : type_descriptor; log_alignment : Z; type_check_kind : Z }.
Record out_of_bounds_data := Bounds {
  ob_location : source_location; array_type : type_descriptor; index_type : type_descriptor }.

Definition ubsan_common (location : source_location) : list line :=
  [("[UBSAN] at %s, line %d, column %d\n"%string,
    [Str (filename location); Num (loc_line location); Num (column location)])].

Definition ubsan_nonnull_arg (data : nonnull_data) : list line :=
  ("[UBSAN] Nonnull attribute violation\n"%string, []) :: ubsan_common (nn_location data).
Definition ubsan_shift_out_of_bounds (data : shift_out_of_bounds_data) (lhs rhs : Z) : list line :=
  ("[UBSAN] Shift out of bounds (%lu `shift` %lu)"%string, [Num lhs; Num rhs]) :: ubsan_common (sh_location data).
(** [None]: a shift by more than the width, undefined in C. *)
Definition ubsan_type_mismatch_v1 (data : type_mismatch_data_v1) (index : Z) : option (list line) :=
  if log_alignment data <? 64 then
    Some (("[UBSAN] Type mismatch (ix: %lu, type: %s, align: %lu)\n"%string,
      [Num index; Str (type_name (tm_type data)); Num (u64 (1 <<< log_alignment data))])
      :: ubsan_common (tm_location data))
  else None.
Definition ubsan_out_of_bounds (data : out_of_bounds_data) (index : Z) : list line :=
  ("[UBSAN] Index out of bounds (%lu)\n"%string, [Num index]) :: ubsan_common (ob_location data).

Definition HANDLER2 (fun_ : string) (data index : Z) : list line :=
  [((fun_ +:+ ": %p, %lu\n")%string, [Num data; Num index])].
Definition HANDLER3 (fun_ : string) (data lhs rhs : Z) : list line :=
  [((fun_ +:+ ": %p, %lu, %lu\n")%string, [Num data; Num lhs; Num rhs])].
Definition handlers2 : list string :=
  ["__ubsan_handle_load_invalid_value"; "__ubsan_handle_negate_overflow"]%string.
Definition handlers3 : list string :=
  ["__ubsan_handle_pointer_overflow"; "__ubsan_handle_divrem_overflow"; "__ubsan_handle_add_overflow";
   "__ubsan_handle_mul_overflow"; "__ubsan_handle_sub_overflow"; "__ubsan_handle_vla_bound_not_positive"]%string.

(** ** The lines fit *)
Lemma section_lines_fit l p : forallb fits (section_lines l p) = true.
Proof. destruct l as [[] [] [] [] [] [] [] [] []]. vm_compute. reflexivity. Qed.

Lemma sse_lines_fit q : forallb fits (sse_lines q) = true.
Proof.
  unfold sse_lines. rewrite forallb_app.
  assert (forall f b, fits (f, [Str (bytes "true")]) = true -> fits (f, [Str (bytes "false")]) = true ->
    fits (f, [btoa b]) = true) as Hb by (intros f b; unfold btoa; by destruct (truth b)).
  cbn [forallb]. rewrite !Hb by (vm_compute; reflexivity).
  destruct (truth (q 1 2 26)); [|reflexivity]. cbn [forallb]. by rewrite !Hb by (vm_compute; reflexivity).
Qed.

(** A text for [%s] of at most [n] characters. *)
Definition text_ok (n : nat) (l : list Z) : Prop := Forall drawable l /\ (length l <= n)%nat.
Definition loc_ok (loc : source_location) : Prop := text_ok 400 (filename loc).

Lemma text_drawables n l : text_ok n l -> drawables l = true.
Proof. intros [H _]. by apply bool_decide_eq_true_2. Qed.

Lemma ubsan_common_fits loc : loc_ok loc -> forallb fits (ubsan_common loc) = true.
Proof.
  intros H. pose proof (text_drawables _ _ H) as Hd. destruct H as [_ Hl].
  unfold ubsan_common. cbn [forallb]. rewrite andb_true_r. unfold fits. cbn [fst snd].
  cbv -[drawables length Nat.ltb filename loc_line column Nat.add]. rewrite Hd.
  cbv -[drawables length Nat.ltb filename loc_line column Nat.add]. apply Nat.ltb_lt. lia.
Qed.

Lemma ubsan_type_mismatch_fits data index ls :
  loc_ok (tm_location data) -> text_ok 400 (type_name (tm_type data)) ->
  ubsan_type_mismatch_v1 data index = Some ls -> forallb fits ls = true.
Proof.
  intros Hl Ht. unfold ubsan_type_mismatch_v1. case_match; [|done]. intros [= <-]. cbn [forallb].
  rewrite ubsan_common_fits, andb_true_r by done.
  pose proof (text_drawables _ _ Ht) as Hd. destruct Ht as [_ Hn]. unfold fits. cbn [fst snd].
  generalize (u64 (1 <<< log_alignment data)). intros al.
  cbv -[drawables length Nat.ltb type_name tm_type Nat.add]. rewrite Hd.
  cbv -[drawables length Nat.ltb type_name tm_type Nat.add]. apply Nat.ltb_lt. lia.
Qed.

(** Every report of the two files, with the arguments it can be called with. *)
Inductive diagnostic : list line -> Prop :=
  | diag_sections l p : diagnostic (section_lines l p)
  | diag_sse q : diagnostic (sse_lines q)
  | diag_nonnull data : loc_ok (nn_location data) -> diagnostic (ubsan_nonnull_arg data)
  | diag_shift data a b : loc_ok (sh_location data) -> diagnostic (ubsan_shift_out_of_bounds data a b)
  | diag_mismatch data i ls : loc_ok (tm_location data) -> text_ok 400 (type_name (tm_type data)) ->
      ubsan_type_mismatch_v1 data i = Some ls -> diagnostic ls
  | diag_bounds data i : loc_ok (ob_location data) -> diagnostic (ubsan_out_of_bounds data i)
  | diag_2 f p i : f ∈ handlers2 -> diagnostic (HANDLER2 f p i)
  | diag_3 f p a b : f ∈ handlers3 -> diagnostic (HANDLER3 f p a b).

Lemma diagnostic_fits ls : diagnostic ls -> forallb fits ls = true /\ ls <> [].
Proof.
  intros H; destruct H as [[] p|q|data H|data a b H|data i ls H1 H2 H3|data i H|f p i Hf|f p a b Hf];
    (split; [|try done]).
  - apply section_lines_fit.
  - apply sse_lines_fit.
  - cbn [ubsan_nonnull_arg forallb]. by rewrite ubsan_common_fits.
  - cbn [ubsan_shift_out_of_bounds forallb]. by rewrite ubsan_common_fits.
  - by eapply ubsan_type_mismatch_fits.
  - unfold ubsan_type_mismatch_v1 in H3. case_match; [|done]. by injection H3 as <-.
  - cbn [ubsan_out_of_bounds forallb]. by rewrite ubsan_common_fits.
  - unfold handlers2 in Hf. rewrite !elem_of_cons, elem_of_nil in Hf. by destruct_or! Hf; subst f.
  - unfold handlers3 in Hf. rewrite !elem_of_cons, elem_of_nil in Hf. by destruct_or! Hf; subst f.
Qed.

Section Report.
Context {K : Type} `{!Has console K} `{!PortBus K} `{!ConsoleBus K}.
Implicit Types k : K.

(** no diagnostic overruns the buffer of [log].  Whatever the addresses of the sections,
    the answers of the processor and the values a sanitizer handler is called with, and for
    file and type names of up to 400 characters, every line of every report has a text of
    less than 512 characters that the console can show, and on a console in use the whole
    report is printed. *)
Theorem diagnostics_print k (t : term) (ls : list line) :
  ready k t -> diagnostic ls ->
  exists out k', report_text ls = Some out /\ log_all ls k = Some (tt, k') /\ prints k t out k'.
Proof.
  intros Hr Hd. destruct (diagnostic_fits ls Hd) as [Hf Hne].
  destruct (wp_run _ _ _ (log_all_ok k t ls Hr Hne Hf)) as ([] & k' & E & out & H1 & H2). by exists out, k'.
Qed.
End Report.

Lemma diagnostics_print_witness :
  exists out k', report_text (ubsan_out_of_bounds (Bounds (Loc (bytes "VGA.c") 118 9) (TypeDesc 0 0 []) (TypeDesc 0 0 [])) 95)
    = Some out /\
    log_all (ubsan_out_of_bounds (Bounds (Loc (bytes "VGA.c") 118 9) (TypeDesc 0 0 []) (TypeDesc 0 0 [])) 95) machine0
    = Some (tt, k') /\ prints machine0 blank out k'.
Proof.
  apply (diagnostics_print machine0 blank).
  - split; [exact machine0_shows|reflexivity].
  - apply diag_bounds. split; [|cbn; lia]. cbn [ob_location filename].
    repeat (apply Forall_cons; split; [vm_compute; by (left; split)|]). apply Forall_nil_2.
Defined.

End Diagnostics.
