(* ===== verification/Kernel.v ===== *)
(** The kernel as a whole (Kernel.c): the start-up sequence of [kmain], the key handler, and
    the state all components share.

    [kernel B H] puts the parts together: the ports [B], the console, the clock, the keyboard
    registry, the descriptor tables, and the memory managers [H], of which the start-up code
    sees the paging structures and two operations ([KernelMemory]).  [kmain] ends in
    [jump_usermode], which does not come back; its definition gives the state of the jump.

    [keeps f m]: the part [f] of the state survives [m]; it is the frame rule of the proofs
    about [kmain]. *)
From S2P Require Import Prelude PMM Paging PagePerm KMonad Font Ports KString KStringProps Console ConsoleProps.
From S2P Require Import ConsoleLog ConsoleBoot Descriptors Keyboard Reports Interrupts Diagnostics.
Import Font Ports Console ConsoleProps ConsoleLog ConsoleBoot Reports Interrupts Diagnostics.
#[global] Open Scope Z_scope.

Module Kernel.
Import KStringProps.

(** ** Operations *)
Section PrintKey.
Context {K : Type} `{!Has console K} `{!PortBus K}.

Definition printKey (character scancode : Z) : M K unit :=
  if character =? 49 then IRQ_clear_mask 0
  else if character =? 50 then IRQ_set_mask 0
  else log "%c" [Num character].
End PrintKey.

(** The memory managers as the start-up code uses them. *)
Class KernelMemory (H : Type) `{!Has (Paging.paging PMM.pmm) H} := {
  mm_mmap : Z -> Z -> bool -> M H Z;
  mm_kmalloc : Z -> M H Z
}.

Record kernel {B H : Type} := MkKernel {
  k_bus : B; k_con : console; k_timer : timer; k_kbd : Keyboard.keyboard;
  k_idt : Descriptors.idt; k_tasks : Descriptors.tasks; k_mem : H
}.
Arguments kernel : clear implicits.

Section Kernel.
Context {B H : Type} `{!PortBus B} `{!Has (Paging.paging PMM.pmm) H} `{!KernelMemory H}.
#[local] Notation kern := (kernel B H).
Implicit Types k : kern.

Definition with_bus (b : B) k : kern :=
  MkKernel _ _ b (k_con k) (k_timer k) (k_kbd k) (k_idt k) (k_tasks k) (k_mem k).
Definition with_mem (h : H) k : kern :=
  MkKernel _ _ (k_bus k) (k_con k) (k_timer k) (k_kbd k) (k_idt k) (k_tasks k) h.

#[export] Instance kernel_console : Has console kern.
Proof.
  by refine {| the := k_con; put := fun x k => MkKernel _ _ (k_bus k) x (k_timer k) (k_kbd k) (k_idt k) (k_tasks k) (k_mem k) |};
    intros; destruct k.
Defined.
#[export] Instance kernel_timer : Has timer kern.
Proof.
  by refine {| the := k_timer; put := fun x k => MkKernel _ _ (k_bus k) (k_con k) x (k_kbd k) (k_idt k) (k_tasks k) (k_mem k) |};
    intros; destruct k.
Defined.
#[export] Instance kernel_kbd : Has Keyboard.keyboard kern.
Proof.
  by refine {| the := k_kbd; put := fun x k => MkKernel _ _ (k_bus k) (k_con k) (k_timer k) x (k_idt k) (k_tasks k) (k_mem k) |};
    intros; destruct k.
Defined.
#[export] Instance kernel_idt : Has Descriptors.idt kern.
Proof.
  by refine {| the := k_idt; put := fun x k => MkKernel _ _ (k_bus k) (k_con k) (k_timer k) (k_kbd k) x (k_tasks k) (k_mem k) |};
    intros; destruct k.
Defined.
#[export] Instance kernel_tasks : Has Descriptors.tasks kern.
Proof.
  by refine {| the := k_tasks; put := fun x k => MkKernel _ _ (k_bus k) (k_con k) (k_timer k) (k_kbd k) (k_idt k) x (k_mem k) |};
    intros; destruct k.
Defined.
#[export] Instance kernel_paging : Has (Paging.paging PMM.pmm) kern.
Proof.
  refine {| the := fun k => the (k_mem k); put := fun x k => with_mem (put x (k_mem k)) k |};
    intros; destruct k; unfold with_mem; cbn; by autorewrite with state.
Defined.
#[export] Instance kernel_bus : PortBus kern := {|
  port_out := fun p v k => with_bus (port_out p v (k_bus k)) k;
  port_in := fun p k => let '(v, b) := port_in p (k_bus k) in (v, with_bus b k)
|}.
#[export] Instance kernel_screen : ScreenMemory kern := {|
  vmm_mmap := fun a n b k => match mm_mmap a n b (k_mem k) with Some (v, h) => Some (v, with_mem h k) | None => None end;
  kmalloc := fun n k => match mm_kmalloc n (k_mem k) with Some (v, h) => Some (v, with_mem h k) | None => None end
|}.

(** The addresses and sizes the linker fixes. *)
Record image := Image {
  sections : PagePerm.sections; first_free_page : Z;
  GDT64_Code : Z; idt_table : Z; isr_entry : Z -> Z; irq_entry : Z -> Z;
  tss_address : Z; tss_stack_top : Z; PRINT_KEY : Z
}.
Variable im : image.
Variable sin_positive : Z -> bool.

(** Handlers are addresses; the only one the kernel subscribes is [printKey]. *)
#[export] Instance kernel_calls : Keyboard.Callbacks kern := {|
  Keyboard.call := fun h c sc => if h =? PRINT_KEY im then printKey c sc else fault
|}.

Definition section_info : M kern unit := log_all (section_lines (sections im) (first_free_page im)).
Definition enable_interrupts : M kern unit :=
  smod (Paging.enable_interrupts (P := PMM.pmm)).
Definition enter_user_mode : M kern unit :=
  smod (Descriptors.setup_tss (tss_address im) (tss_stack_top im)) ;;;
  log "TSS stack at: %lx\n" [Num (tss_stack_top im)].

Definition kmain : M kern unit :=
  vga_init sin_positive ;;;
  PIC_remap 0x20 0x28 ;;;
  smod (Descriptors.IDT_init (GDT64_Code im) (idt_table im) (isr_entry im) (irq_entry im)) ;;;
  clearScreen ;;;
  vga_info ;;;
  log "\n" [] ;;;
  section_info ;;;
  smod (PagePerm.vmm_set_page_permissions (sections im)) ;;;
  let! _ := Keyboard.subscribePress (PRINT_KEY im) in
  IRQ_set_mask 0 ;;;
  enable_interrupts ;;;
  log "\nEntering user space...\n" [] ;;;
  enter_user_mode.
End Kernel.

(** ** Frames *)
Section Preserves.
Context {K : Type} (I : K -> Prop).

Definition preserves {A} (m : M K A) : Prop := forall k a k', m k = Some (a, k') -> I k -> I k'.

Lemma preserves_ret {A} (a : A) : preserves (ret a).
Proof. by intros k a' k' [= _ <-]. Qed.
Lemma preserves_fault {A} : preserves (fault : M K A).
Proof. done. Qed.
Lemma preserves_gets {A} (g : K -> A) : preserves (gets g).
Proof. by intros k a' k' [= _ <-]. Qed.
Lemma preserves_modify g : (forall k, I k -> I (g k)) -> preserves (modify g).
Proof. intros H k a' k' [= _ <-]. apply H. Qed.
Lemma preserves_bind {A C} (m : M K A) (g : A -> M K C) :
  preserves m -> (forall a, preserves (g a)) -> preserves (bind m g).
Proof.
  intros H1 H2 k c k'. unfold bind. destruct (m k) as [[a k1]|] eqn:E; [|done]. intros Hg Hk.
  exact (H2 _ _ _ _ Hg (H1 _ _ _ E Hk)).
Qed.
Lemma preserves_when b m : preserves m -> preserves (when b m).
Proof. intros. destruct b; [done|apply preserves_ret]. Qed.
Lemma preserves_for n i body : (forall j, preserves (body j)) -> preserves (for_ n i body).
Proof.
  intros Hb. revert i. induction n as [|n IH]; intros i; [apply preserves_ret|]. cbn [for_].
  by apply preserves_bind.
Qed.
Lemma wp_preserves {A} (m : M K A) k (Q : A -> K -> Prop) :
  preserves m -> I k -> wp m k Q -> wp m k (fun a k' => Q a k' /\ I k').
Proof. intros Hm Hk. unfold wp. destruct (m k) as [[a k']|] eqn:E; [|done]. split; [done|by eapply Hm]. Qed.
End Preserves.

Ltac keep1 :=
  lazymatch goal with
  | |- preserves _ (bind _ _) => apply preserves_bind; [|intros ?]
  | |- preserves _ (ret _) => apply preserves_ret
  | |- preserves _ fault => apply preserves_fault
  | |- preserves _ (gets _) => apply preserves_gets
  | |- preserves _ (sgets _) => apply preserves_gets
  | |- preserves _ (modify _) => apply preserves_modify; intros ?
  | |- preserves _ (smod _) => apply preserves_modify; intros ?
  | |- preserves _ (when _ _) => apply preserves_when
  | |- preserves _ (for_ _ _ _) => apply preserves_for; intros ?
  | |- preserves _ (for_to _ _) => apply preserves_for; intros ?
  | |- preserves _ (match ?x with _ => _ end) => destruct x
  end; cbv beta.
Ltac keep := repeat keep1; auto.

(** What neither the console nor the serial port matters to survives console output. *)
Section KeepConsole.
Context {K : Type} `{!Has console K} (I : K -> Prop).
Hypothesis Hcon : forall (c : console) k, I k -> I (put c k).

Lemma preserves_kmemcpy a b n : preserves I (kmemcpy_128 a b n).
Proof. unfold kmemcpy_128. keep. Qed.
Lemma preserves_swap : preserves I swapBuffers.
Proof. unfold swapBuffers. keep. apply preserves_kmemcpy. Qed.
Lemma preserves_clear : preserves I clearScreen.
Proof. unfold clearScreen. keep; apply preserves_kmemcpy || apply preserves_swap. Qed.
Lemma preserves_ensure : preserves I ensureCursorInRange.
Proof. unfold ensureCursorInRange, scrollUp, rpx, wpx. keep. Qed.
Lemma preserves_render c : preserves I (render c).
Proof. unfold render, rpx, wpx. keep. Qed.

Context `{!PortBus K}.
Hypothesis Hout : forall v k, 0 <= v < 256 -> I k -> I (port_out 0x3F8 v k).

Lemma preserves_serial c : preserves I (outb 0x3F8 c).
Proof. unfold outb. keep1. intros Hk. apply Hout; [|done]. apply Z.mod_pos_bound. lia. Qed.
Lemma preserves_putChar_at d c : preserves I (putChar_at d c).
Proof.
  revert c. induction d as [|d IH]; intros c; cbn [putChar_at]; keep;
    lazymatch goal with
    | |- preserves _ (outb _ _) => apply preserves_serial
    | |- preserves _ (render _) => apply preserves_render
    | |- _ => apply preserves_ensure
    end.
Qed.
Lemma preserves_put_all l : preserves I (put_all l).
Proof. induction l; cbn [put_all]; keep. apply preserves_putChar_at. Qed.
Lemma preserves_log fmt args : preserves I (log fmt args).
Proof. unfold log, log_text. keep; apply preserves_put_all || apply preserves_swap. Qed.
Lemma preserves_log_all ls : preserves I (log_all ls).
Proof. induction ls as [|[] ls IH]; cbn [log_all]; keep. apply preserves_log. Qed.
Lemma preserves_vga_info : preserves I vga_info.
Proof. unfold vga_info, putChar. keep; apply preserves_log || apply preserves_putChar_at. Qed.
End KeepConsole.

Section KeepPorts.
Context {K : Type} `{!PortBus K} (I : K -> Prop).
Hypothesis Hout : forall p v k, I k -> I (port_out p v k).
Hypothesis Hin : forall p k, I k -> I (port_in p k).2.

Lemma preserves_inb p : preserves I (inb p).
Proof.
  intros k a k'. unfold inb. pose proof (Hin (u16 p) k) as Hp. destruct (port_in (u16 p) k) as [v k1].
  intros [= _ <-]. exact Hp.
Qed.
Lemma preserves_remap a b : preserves I (PIC_remap a b).
Proof. unfold PIC_remap, io_wait, outb. keep; apply preserves_inb. Qed.
Lemma preserves_set_mask n : preserves I (IRQ_set_mask n).
Proof. unfold IRQ_set_mask, outb. keep; apply preserves_inb. Qed.
Lemma preserves_clear_mask n : preserves I (IRQ_clear_mask n).
Proof. unfold IRQ_clear_mask, outb. keep; apply preserves_inb. Qed.
Lemma preserves_EOI n : preserves I (PIC_send_EOI n).
Proof. unfold PIC_send_EOI, outb. keep. Qed.
End KeepPorts.

(** ** What [vga_info] prints *)
Section Info.
Context {K : Type} `{!Has console K} `{!PortBus K} `{!ConsoleBus K}.
Implicit Types k : K.

Definition vga_lines (c : console) : list line :=
  let v := vbe_info c in
  [("Display info:\n", []);
   ("\tDisplay size: %d x %d x %d\n", [Num (width v); Num (height v); Num (bpp v)]);
   ("\tFramebuffer at %x physical, %p virtual, size: %lukB\n",
     [Num (physical_buffer v); Num (FRAMEBUFFER c); Num (fb_size c / 1000)]);
   ("\tBytes per pixel: %d, per line: %d\n", [Num (bytes_per_pixel v); Num (bytes_per_line v)]);
   ("\tCursor range: %d x %d\n", [Num (x_cur_max v); Num (y_cur_max v)]);
   ("\tTeletype range: %d x %d\n", [Num (colMax c); Num (rowMax c)]);
   ("\tFont size: %d x %d\n", [Num FONT_WIDTH; Num FONT_HEIGHT]);
   ("\nPalette test:\n\n", [])]%string.
(** Every character of the font but the space. *)
Definition palette : list Z := (fun j => 33 + Z.of_nat j) <$> seq 0 94.

Lemma log_all_seq ls (g : M K unit) k :
  bind (log_all ls) (fun _ => g) k
  = fold_right (fun (l : line) (m : M K unit) => log l.1 l.2 ;;; m) g ls k.
Proof.
  revert k. induction ls as [|[f a] ls IH]; intros k; [done|]. cbn [log_all fold_right fst snd].
  unfold bind in *. destruct (log f a k) as [[[] k1]|]; [apply IH|done].
Qed.

Lemma for_put_all n i k :
  for_ n i (fun c => putChar (c + 32)) k = put_all ((fun j => i + 32 + Z.of_nat j) <$> seq 0 n) k.
Proof.
  revert i k. induction n as [|n IH]; intros i k; [done|]. cbn [for_ seq fmap list_fmap put_all].
  rewrite Z.add_0_r. unfold bind. destruct (putChar (i + 32) k) as [[[] k1]|]; [|done]. rewrite IH.
  f_equal. rewrite <- fmap_S_seq, <- list_fmap_compose. apply list_fmap_ext. intros j ? _. cbn. lia.
Qed.

Lemma put_all_app l1 l2 k : put_all (l1 ++ l2) k = bind (put_all l1) (fun _ => put_all l2) k.
Proof.
  revert k. induction l1 as [|c l1 IH]; intros k; [done|]. cbn [put_all app]. unfold bind in *.
  destruct (putChar c k) as [[[] k1]|]; [apply IH|done].
Qed.

Lemma log_nl_text : log "\n" [] = log_text [10].
Proof. reflexivity. Qed.

Lemma palette_text k : bind (for_ 94 1 (fun c => putChar (c + 32))) (fun _ => log "\n" []) k
  = log_text (palette ++ [10]) k.
Proof.
  unfold log_text at 1. unfold bind at 1. rewrite for_put_all. unfold bind. rewrite put_all_app. unfold bind.
  rewrite log_nl_text. change (1 + 32) with 33. fold palette.
  destruct (put_all palette k) as [[[] k1]|]; [|done]. done.
Qed.

Lemma fold_log_ext (g h : M K unit) ls k :
  (forall k, g k = h k) ->
  fold_right (fun (l : line) (m : M K unit) => log l.1 l.2 ;;; m) g ls k
  = fold_right (fun (l : line) (m : M K unit) => log l.1 l.2 ;;; m) h ls k.
Proof.
  intros E. revert k. induction ls as [|l ls IH]; intros k; [apply E|]. cbn [fold_right]. unfold bind.
  destruct (log l.1 l.2 k) as [[[] k1]|]; [apply IH|done].
Qed.

Lemma vga_info_eq k :
  vga_info k = bind (log_all (vga_lines (con k))) (fun _ => log_text (palette ++ [10])) k.
Proof.
  rewrite log_all_seq. rewrite <- (fold_log_ext _ _ _ _ palette_text). reflexivity.
Qed.
End Info.
End Kernel.
