(* ===== verification/KernelProps.v ===== *)
(** What the kernel as a whole does: the state [kmain] enters user mode in, and what a key
    press leads to, from the port of the keyboard to the screen. *)
From S2P Require Import Prelude PMM Paging PagePerm KMonad Font Ports KString KStringProps Console ConsoleProps.
From S2P Require Import ConsoleLog ConsoleBoot Descriptors Keyboard Reports Interrupts Diagnostics Kernel.
Import PmmSupply Font Ports Console ConsoleProps ConsoleLog ConsoleBoot Reports Interrupts Diagnostics Kernel.
#[global] Open Scope Z_scope.

Module KernelProps.
Import KStringProps.

(** ** [vga_info] *)
Section Info.
Context {K : Type} `{!Has console K} `{!PortBus K} `{!ConsoleBus K}.
Implicit Types k : K.

Lemma log_text_ok k t l :
  ready k t -> Forall drawable l -> wp (log_text l) k (fun _ k' => prints k t l k').
Proof.
  intros [Hs W] Hd. eapply wp_mono; [by apply (log_text_spec k t l)|]. intros [] k' (c' & H). by exists c'.
Qed.

Lemma palette_drawable : Forall drawable (palette ++ [10]).
Proof.
  apply Forall_app. split.
  - unfold palette. apply Forall_fmap, Forall_seq. intros j Hj. cbn. left. lia.
  - constructor; [right; lia|constructor].
Qed.

Lemma vga_info_ok k t :
  ready k t -> wp vga_info k (fun _ k' => exists out, report_text (vga_lines (con k)) = Some out /\
    prints k t (out ++ palette ++ [10]) k').
Proof.
  intros Hr. unfold wp. rewrite vga_info_eq. fold (wp (bind (log_all (vga_lines (con k)))
    (fun _ => log_text (palette ++ [10]))) k (fun _ k' => exists out,
      report_text (vga_lines (con k)) = Some out /\ prints k t (out ++ palette ++ [10]) k')).
  wp1. eapply wp_mono; [apply (log_all_ok k t); [done..|by vm_compute]|]. intros [] k1 (out & E & Hp). cbv beta.
  eapply wp_mono; [apply (log_text_ok k1 (after k t out)); [|apply palette_drawable]|].
  - apply prints_ready; [apply Hr|done].
  - intros [] k2 Hp2. exists out. split; [done|]. by eapply prints_app.
Qed.
End Info.

(** ** The composed machine *)
(** Page tables in order: what [vmm_set_page_permissions] relies on. *)
Definition paged {H} `{!Has (Paging.paging PMM.pmm) H} (h : H) : Prop := exists O,
  Paging.tables_ok (the h : Paging.paging PMM.pmm) O /\
  PagePerm.mapped_below (the h : Paging.paging PMM.pmm) 0x200000.

Section Machine.
Context {B H : Type} `{!PortBus B} `{!PicBus B} `{!Has (Paging.paging PMM.pmm) H} `{!KernelMemory H}.
#[local] Notation kern := (kernel B H).
Implicit Types k : kern.

#[export] Instance kernel_console_bus : ConsoleBus kern.
Proof. by split. Qed.
#[export] Instance kernel_pic : PicBus kern.
Proof.
  refine {| chips := fun k => chips (k_bus k) |}.
  - intros p v k cs Hv Hw. by apply (chips_out (K:=B)).
  - intros p k. rewrite <- (chips_in p (k_bus k)). cbn. by destruct (port_in p (k_bus k)).
  - intros p k v Hr. rewrite <- (chips_read p _ _ Hr). cbn. by destruct (port_in p (k_bus k)).
Defined.
#[export] Instance kernel_on_bus : OnBus console kern.
Proof. done. Qed.

(** The parts [I] that port I/O does not reach. *)
Lemma kernel_in_keeps p k : exists b, (port_in p k).2 = with_bus b k.
Proof. cbn. destruct (port_in p (k_bus k)) as [v b]. by exists b. Qed.

#[export] Instance kernel_supply : ScreenSupply kern.
Proof.
  intros [page pages|size] c k; cbn.
  - by destruct (mm_mmap page pages true (k_mem k)) as [[a h]|].
  - by destruct (mm_kmalloc size (k_mem k)) as [[a h]|].
Qed.

(** The same requests on the memory managers alone. *)
Definition mm_ask (r : mem_request) : M H Z :=
  match r with
  | MapPages page pages => mm_mmap page pages true
  | AllocBytes size => mm_kmalloc size
  end.
Fixpoint mm_served (l : list (mem_request * Z)) (h h' : H) : Prop :=
  match l with
  | [] => h' = h
  | (r, a) :: l => exists h1, mm_ask r h = Some (a, h1) /\ mm_served l h1 h'
  end.
Lemma served_mem l k h' : mm_served l (k_mem k) h' -> served l k (with_mem h' k).
Proof.
  revert k. induction l as [|[r a] l IH]; intros k; cbn [mm_served served].
  - intros ->. by destruct k.
  - intros (h1 & E & Hs). exists (with_mem h1 k). split; [|by apply (IH (with_mem h1 k))].
    destruct r; cbn in *; by rewrite E.
Qed.

(** Everything but the console and the bytes on the bus. *)
Record rest_is (cs : chip * chip) (kb : Keyboard.keyboard) (i : Descriptors.idt) (t : Descriptors.tasks)
    (h : H) k : Prop := {
  ri_chips : chips k = cs; ri_kbd : k_kbd k = kb; ri_idt : k_idt k = i; ri_tasks : k_tasks k = t; ri_mem : k_mem k = h
}.

Lemma rest_refl k : rest_is (chips k) (k_kbd k) (k_idt k) (k_tasks k) (k_mem k) k.
Proof. done. Qed.
Lemma rest_put cs kb i t h (c : console) k : rest_is cs kb i t h k -> rest_is cs kb i t h (put c k).
Proof. by intros []. Qed.
Lemma rest_serial cs kb i t h v k : 0 <= v < 256 -> rest_is cs kb i t h k -> rest_is cs kb i t h (port_out 0x3F8 v k).
Proof.
  intros Hv []. split; try done. transitivity (chips k); [|done]. by apply chips_out.
Qed.
End Machine.

(** ** A key press *)
Section Key.
Context {B H : Type} `{!PortBus B} `{!PicBus B} `{!Has (Paging.paging PMM.pmm) H} `{!KernelMemory H}.
#[local] Notation kern := (kernel B H).
Implicit Types k : kern.

(** What the key [c] does to the mask and to the screen; 0 is a key without a character. *)
Definition key_mask (c : Z) (i : Z) (b : bool) : bool :=
  if c =? 49 then b && negb (i =? 0) else if c =? 50 then b || (i =? 0) else b.
Definition key_text (c : Z) : list Z := if (c =? 49) || (c =? 50) || (c =? 0) then [] else [c].

Lemma EOI1_chips k : chips_ok (chips k) -> handling (chips k) 1 ->
  wp (PIC_send_EOI 1) k (fun _ k' => chips_ok (chips k') /\ isr (chips k').1 = Z.clearbit (isr (chips k).1) 1 /\
    irq_mask (chips k') = irq_mask (chips k)).
Proof.
  intros Hok Hh. eapply wp_mono; [apply (PIC_send_EOI_spec 1); [lia|done]|]. intros [] k' ->.
  destruct (chips k) as [m s]. cbn. unfold chips_ok in *. cbn in *. by destruct Hok as (?&?&?&?).
Qed.

Lemma preserves_printKey (I : kern -> Prop) c sc :
  (forall (x : console) k, I k -> I (put x k)) -> (forall p v k, I k -> I (port_out p v k)) ->
  (forall p k, I k -> I (port_in p k).2) -> preserves I (printKey c sc).
Proof.
  intros H1 H2 H3. unfold printKey. keep.
  - by apply preserves_clear_mask.
  - by apply preserves_set_mask.
  - apply preserves_log; auto.
Qed.
Lemma printKey_kbd c sc k k' : printKey c sc k = Some (tt, k') -> k_kbd k' = k_kbd k.
Proof.
  intros E. refine (preserves_printKey (fun k' => k_kbd k' = k_kbd k) c sc _ _ _ k tt k' E eq_refl); [done..|].
  intros p k1 <-. by destruct (kernel_in_keeps p k1) as [b ->].
Qed.
Lemma printKey_same_con c sc k k' :
  c = 49 \/ c = 50 -> printKey c sc k = Some (tt, k') -> con k' = con k.
Proof.
  assert (forall p k1, con k1 = con k -> con (port_in p k1).2 = con k) as Hin.
  { intros p k1 <-. by destruct (kernel_in_keeps p k1) as [b ->]. }
  unfold printKey. intros [-> | ->] E; cbn [Z.eqb Pos.eqb] in E.
  - by refine (preserves_clear_mask (fun k' => con k' = con k) _ Hin 0 k tt k' E eq_refl).
  - by refine (preserves_set_mask (fun k' => con k' = con k) _ Hin 0 k tt k' E eq_refl).
Qed.

Lemma log_char k t c :
  ready k t -> c = 0 \/ drawable c ->
  wp (log "%c" [Num c]) k (fun _ k' => prints k t (until_nul [c]) k' /\ Forall drawable (until_nul [c])).
Proof.
  intros [Hs W] Hc.
  assert (u8 c = c) as Hu by (apply wrap_small; unfold in_u, drawable in *; lia).
  assert (format (bytes (esc "%c")) [Num c] = Some [c]) as Ef by (rewrite <- Hu at 2; reflexivity).
  assert (Forall drawable (until_nul [c])) as Hd.
  { cbn. destruct (Z.eqb_spec c 0); [constructor|]. constructor; [naive_solver|constructor]. }
  eapply wp_mono; [apply (log_spec k t "%c" [Num c] [c] Hs W Ef); [cbn; lia|done]|].
  intros [] k' (c' & Hk). split; [by exists c'|done].
Qed.

Lemma printKey_spec k t c sc :
  ready k t -> chips_ok (chips k) -> c = 0 \/ drawable c ->
  wp (printKey c sc) k (fun _ k' => ready k' (after k t (key_text c)) /\ isr (chips k').1 = isr (chips k).1 /\
    forall i, 0 <= i -> Z.testbit (irq_mask (chips k')) i = key_mask c i (Z.testbit (irq_mask (chips k)) i)).
Proof.
  intros Hr Hok Hc. unfold printKey, key_text, key_mask.
  assert (forall k', printKey c sc k = Some (tt, k') -> c = 49 \/ c = 50 -> ready k' (after k t [])) as Hsame.
  { intros k' E Hk. apply (ready_con k); [by eapply printKey_same_con|exact Hr]. }
  unfold printKey in Hsame. destruct (Z.eqb_spec c 49) as [->|H1]; [|destruct (Z.eqb_spec c 50) as [->|H2]].
  - destruct (wp_run _ _ _ (IRQ_clear_mask_spec 0 k Hok ltac:(lia))) as ([] & k' & E & _ & Hm & _ & Hi & _).
    eapply wp_intro; [exact E|]. split; [by apply Hsame; auto|]. by split.
  - destruct (wp_run _ _ _ (IRQ_set_mask_spec 0 k Hok ltac:(lia))) as ([] & k' & E & _ & Hm & _ & Hi & _).
    eapply wp_intro; [exact E|]. split; [by apply Hsame; auto|]. by split.
  - eapply wp_mono; [by apply log_char|]. intros [] k' [Hp Hd].
    rewrite (prints_chips _ _ _ _ Hd Hp). split; [|by split].
    replace (if false || (c =? 0) then [] else [c]) with (until_nul [c]) by (cbn; by destruct (c =? 0)).
    apply prints_ready; [apply Hr|done].
Qed.

Variable im : image.
#[local] Notation calls := (kernel_calls im).

Lemma irq1_code sc : 0 <= sc < 256 ->
  truth (sc &&& KBD_STATUS_MASK) = negb (sc <? 128) /\
  (sc &&& KBD_SCANCODE_MASK = if sc <? 128 then sc else sc - 128).
Proof.
  intros Hs.
  assert (forallb (fun n => let sc := Z.of_nat n in
    Bool.eqb (truth (sc &&& KBD_STATUS_MASK)) (negb (sc <? 128)) &&
    (sc &&& KBD_SCANCODE_MASK =? if sc <? 128 then sc else sc - 128)) (seq 0 256) = true) as Hf
    by (vm_compute; reflexivity).
  rewrite forallb_forall in Hf. specialize (Hf (Z.to_nat sc) ltac:(apply in_seq; lia)). cbv zeta in Hf.
  rewrite Z2Nat.id in Hf by lia. apply andb_true_iff in Hf as [H1 H2].
  split; [by apply Bool.eqb_prop|by apply Z.eqb_eq].
Qed.

(** The registry as [kmain] leaves it. *)
Definition key_handlers k : Prop :=
  Keyboard.holds (Keyboard.pressHandlers (k_kbd k)) [PRINT_KEY im] /\
  Keyboard.holds (Keyboard.releaseHandlers (k_kbd k)) [].

Lemma onKey_spec k t sc (pressed : bool) :
  ready k t -> chips_ok (chips k) -> key_handlers k -> 0 <= sc ->
  let c := if pressed then Keyboard.scanCodeToChar sc else 0 in
  wp (if pressed then Keyboard.onKeyPressed (Callbacks0 := calls) sc
      else Keyboard.onKeyReleased (Callbacks0 := calls) sc) k (fun _ k' =>
    ready k' (after k t (key_text c)) /\ isr (chips k').1 = isr (chips k).1 /\ k_kbd k' = k_kbd k /\
    forall i, 0 <= i -> Z.testbit (irq_mask (chips k')) i = key_mask c i (Z.testbit (irq_mask (chips k)) i)).
Proof.
  intros Hr Hok [Hp Hl] Hsc c. destruct pressed.
  - unfold wp. rewrite (Keyboard.onKeyPressed_calls [PRINT_KEY im]); [|exact Hp|].
    + cbn [Keyboard.call_all]. cbn [Keyboard.call calls]. rewrite Z.eqb_refl. fold c. unfold bind.
      destruct (wp_run _ _ _ (printKey_spec k t c sc Hr Hok
        ltac:(pose proof (Keyboard.scanCodeToChar_range sc Hsc); unfold drawable; lia)))
        as ([] & k' & E & H1 & H2 & H3).
      rewrite E. cbn. split_and!; [done..|by eapply printKey_kbd|done].
    + intros h k1 k2 Hh. apply list_elem_of_singleton in Hh as ->. cbn. rewrite Z.eqb_refl. apply printKey_kbd.
  - unfold wp. rewrite (Keyboard.onKeyReleased_calls []); [|exact Hl|intros h k1 k2 Hh; by apply elem_of_nil in Hh].
    cbn. split_and!; done.
Qed.

(** C8: a key press, from the port to the screen.  The keyboard interrupt is being handled,
    the keyboard controller has the scan code [sc] waiting, and the handlers are those of
    [kmain].  Then [irq1_handler] ends the interrupt and leaves the registry alone; the key 1
    unmasks the timer, the key 2 masks it, and both touch no other line and print nothing;
    any other key that has a character prints exactly that character; a key without one, and
    every key released, changes neither screen nor mask. *)
Theorem key_press_effect k (t : term) (sc : Z) (b : B) :
  ready k t -> chips_ok (chips k) -> handling (chips k) 1 -> key_handlers k ->
  port_in KBD_DATA_PORT (k_bus k) = (sc, b) -> 0 <= sc < 256 ->
  let c := if sc <? 128 then Keyboard.scanCodeToChar sc else 0 in
  exists k', irq1_handler (H := calls) k = Some (tt, k') /\
    ready k' (after k t (key_text c)) /\ k_kbd k' = k_kbd k /\
    isr (chips k').1 = Z.clearbit (isr (chips k).1) 1 /\
    forall i, 0 <= i -> Z.testbit (irq_mask (chips k')) i = key_mask c i (Z.testbit (irq_mask (chips k)) i).
Proof.
  intros Hr Hok Hh Hk Hin Hsc c. destruct (irq1_code sc Hsc) as [E1 E2].
  set (k1 := with_bus b k).
  assert (inb KBD_DATA_PORT k = Some (sc, k1)) as Ein.
  { unfold inb. change (u16 KBD_DATA_PORT) with KBD_DATA_PORT. cbn [port_in kernel_bus]. rewrite Hin.
    by rewrite wrap_small. }
  assert (chips k1 = chips k) as Ec.
  { pose proof (chips_in KBD_DATA_PORT (k_bus k)) as Hc. rewrite Hin in Hc. exact Hc. }
  rewrite <- Ec in Hok, Hh. destruct (wp_run _ _ _ (EOI1_chips k1 Hok Hh)) as ([] & k2 & E & Hok2 & Hi & Hm).
  assert (con k2 = con k /\ k_kbd k2 = k_kbd k) as [Hc2 Hk2].
  { refine (preserves_EOI (fun k' => con k' = con k /\ k_kbd k' = k_kbd k) _ 1 k1 tt k2 E _); done. }
  assert (key_handlers k2) as Hkh by (unfold key_handlers in *; by rewrite Hk2).
  destruct (wp_run _ _ _ (onKey_spec k2 t (sc &&& KBD_SCANCODE_MASK) (sc <? 128) (ready_con _ _ _ Hc2 Hr) Hok2 Hkh
    ltac:(rewrite E2; destruct (Z.ltb_spec sc 128); lia))) as ([] & k3 & E3 & R1 & R2 & R3 & R4).
  replace (if sc <? 128 then Keyboard.scanCodeToChar (sc &&& KBD_SCANCODE_MASK) else 0) with c in *
    by (unfold c; rewrite E2; by destruct (sc <? 128)).
  exists k3. split; [|rewrite (after_con _ _ _ _ Hc2), Hm, Hi, Ec, Hk2 in *; done].
  unfold irq1_handler. unfold bind at 1. rewrite Ein. unfold bind. rewrite E, E1, negb_involutive. exact E3.
Qed.
End Key.

(** ** Start-up *)
Section Boot.
Context {B H : Type} `{!PortBus B} `{!PicBus B} `{!Has (Paging.paging PMM.pmm) H} `{!KernelMemory H}.
#[local] Notation kern := (kernel B H).
Implicit Types k : kern.
Variable im : image.
Variable sin_positive : Z -> bool.
#[local] Notation calls := (kernel_calls im).

(** The geometry [vga_init] sets up for the mode [v]. *)
Definition mode_console (v : vbe_screen_info) (fb : Z) : console :=
  MkConsole v ∅ fb 0 0 (4 * (width v * height v)) (height v / FONT_HEIGHT) (width v / FONT_WIDTH) 0 0 true.

Definition boot_text (v : vbe_screen_info) (fb : Z) : option (list Z) :=
  info ← report_text (vga_lines (mode_console v fb));
  sizes ← report_text (section_lines (sections im) (first_free_page im));
  last ← report_text [("\nEntering user space...\n"%string, []); ("TSS stack at: %lx\n"%string, [Num (tss_stack_top im)])];
  Some ((info ++ palette ++ [10]) ++ [10] ++ sizes ++ last).

Lemma vga_lines_mode k : geometry (con k) ->
  vga_lines (con k) = vga_lines (mode_console (vbe_info (con k)) (FRAMEBUFFER (con k))).
Proof.
  intros G. pose proof G as [g1 g2 g3 g4 g5 g6 g7 g8 g9 g10 g11 g12].
  unfold vga_lines, mode_console. cbn [vbe_info FRAMEBUFFER fb_size colMax rowMax].
  by rewrite g4, g5, g6.
Qed.

(** The screen, of [R] lines of [C] characters, shows what [out] leaves on an empty one. *)
Definition shown (R C : Z) (out : list Z) k : Prop :=
  ready k (tput_all R C out blank) /\ rowMax (con k) = R /\ colMax (con k) = C.

Lemma shown_con R C out k k' : con k' = con k -> shown R C out k -> shown R C out k'.
Proof. unfold shown. intros E (H1 & H2 & H3). rewrite E. split; [by eapply ready_con|done]. Qed.

Lemma shown_prints R C o1 o2 k k' :
  shown R C o1 k -> prints k (tput_all R C o1 blank) o2 k' -> shown R C (o1 ++ o2) k'.
Proof.
  intros (Hr & HR & HC) Hp. unfold shown. pose proof (prints_con _ _ _ _ Hp) as [E _].
  assert (tput_all R C (o1 ++ o2) blank = after k (tput_all R C o1 blank) o2) as ->.
  { unfold after. rewrite HR, HC. unfold tput_all. by rewrite fold_left_app. }
  split; [apply prints_ready; [apply Hr|done]|]. by rewrite E.
Qed.

(** Output keeps the rest. *)
Lemma output_rest (m : M kern unit) (ot : option (list Z)) R C o1 k cs kb i ts h :
  (forall I : kern -> Prop, (forall (c : console) k, I k -> I (put c k)) ->
     (forall v k, 0 <= v < 256 -> I k -> I (port_out 0x3F8 v k)) -> preserves I m) ->
  (forall t, ready k t -> wp m k (fun _ k' => exists out, ot = Some out /\ prints k t out k')) ->
  shown R C o1 k -> rest_is cs kb i ts h k ->
  wp m k (fun _ k' => exists o2, ot = Some o2 /\ shown R C (o1 ++ o2) k' /\ rest_is cs kb i ts h k').
Proof.
  intros Hm Hp Hs Hk. eapply wp_mono.
  - apply (wp_preserves (rest_is cs kb i ts h)); [|done|apply Hp, Hs].
    apply Hm; [intros; by apply rest_put|intros; by apply rest_serial].
  - intros [] k' [(o2 & E & Hpr) Hrest]. exists o2. split; [done|]. split; [|done]. by eapply shown_prints.
Qed.

Lemma log_all_rest ls R C o1 k cs kb i ts h :
  forallb fits ls = true -> ls <> [] -> shown R C o1 k -> rest_is cs kb i ts h k ->
  wp (log_all ls) k (fun _ k' => exists o2, report_text ls = Some o2 /\
    shown R C (o1 ++ o2) k' /\ rest_is cs kb i ts h k').
Proof.
  intros Hf Hne. apply output_rest; [intros; by apply preserves_log_all|]. intros t Ht. by apply log_all_ok.
Qed.
Lemma log_rest f a R C o1 k cs kb i ts h :
  fits (f, a) = true -> shown R C o1 k -> rest_is cs kb i ts h k ->
  wp (log f a) k (fun _ k' => exists o2, line_text (f, a) = Some o2 /\
    shown R C (o1 ++ o2) k' /\ rest_is cs kb i ts h k').
Proof.
  intros Hf. apply output_rest; [intros; by apply preserves_log|]. intros t Ht.
  destruct (log_line k t f a Ht Hf) as (out & k' & E1 & E2 & _ & E3). eapply wp_intro; [exact E2|]. by exists out.
Qed.
Lemma vga_info_rest R C o1 k cs kb i ts h :
  shown R C o1 k -> rest_is cs kb i ts h k ->
  wp vga_info k (fun _ k' => exists o2,
    (info ← report_text (vga_lines (con k)); Some (info ++ palette ++ [10])) = Some o2 /\
    shown R C (o1 ++ o2) k' /\ rest_is cs kb i ts h k').
Proof.
  apply output_rest; [intros; by apply preserves_vga_info|]. intros t Ht.
  eapply wp_mono; [by apply vga_info_ok|]. intros [] k' (out & -> & Hp). by exists (out ++ palette ++ [10]).
Qed.

(** A machine as the boot loader hands it over. *)
Record fresh (v : vbe_screen_info) (front back bg : Z) (h : H) k : Prop := {
  fr_con : con k = console_start v;
  fr_mode : mode_ok v;
  fr_served : mm_served (screen_requests v front back bg) (k_mem k) h;
  fr_fb : buffer_ok (fb_bytes v) front;
  fr_back : buffer_ok (fb_bytes v) back;
  fr_bg : buffer_ok (fb_bytes v) bg;
  fr_apart : apart (fb_bytes v) back bg /\ apart (fb_bytes v) back front /\ apart (fb_bytes v) front bg;
  fr_chips : chips_ok (chips k);
  fr_kbd : k_kbd k = Keyboard.keyboard_start;
  fr_idt : k_idt k = Descriptors.idt_start;
  fr_tasks : k_tasks k = Descriptors.tasks_start;
  fr_paged : paged h
}.

(** The screen part of the start-up: up to [section_info]. *)
Lemma boot_screen_spec k v front back bg h :
  fresh v front back bg h k ->
  wp (vga_init sin_positive ;;; PIC_remap 0x20 0x28 ;;;
      smod (Descriptors.IDT_init (GDT64_Code im) (idt_table im) (isr_entry im) (irq_entry im)) ;;; clearScreen) k
    (fun _ k' => shown (height v / 13) (width v / 9) [] k' /\
      vga_lines (con k') = vga_lines (mode_console v front) /\
      k_mem k' = h /\
      rest_is (Chip (imr (chips k).1) 0 0x20 4 false true Ready, Chip (imr (chips k).2) 0 0x28 2 false true Ready)
        Keyboard.keyboard_start
        (Descriptors.IDT_init (GDT64_Code im) (idt_table im) (isr_entry im) (irq_entry im) Descriptors.idt_start)
        Descriptors.tasks_start (k_mem k') k').
Proof.
  intros [F1 F2 F3 F4 F5 F6 (A1 & A2 & A3) F8 F9 F10 F11 F12].
  wp1. eapply wp_mono.
  - eapply (vga_init_spec sin_positive k _ v front back bg); [done|done|by apply served_mem|done..].
  - intros [] k1 (G & P & W & Ev & Ef & c1 & Ek1). cbv beta.
    assert (k_kbd k1 = k_kbd k /\ k_idt k1 = k_idt k /\ k_tasks k1 = k_tasks k /\ k_mem k1 = h /\
      chips k1 = chips k) as (E2 & E3 & E4 & E5 & Ec) by (by rewrite Ek1).
    wp1. eapply wp_mono.
    + apply (wp_preserves (fun k' => con k' = con k1 /\ k_kbd k' = k_kbd k1 /\ k_idt k' = k_idt k1 /\
        k_tasks k' = k_tasks k1 /\ k_mem k' = k_mem k1)); [| |apply PIC_remap_spec; by rewrite Ec].
      * apply preserves_remap; [done|]. intros p k2 Hk2. by destruct (kernel_in_keeps p k2) as [b ->].
      * done.
    + intros [] k2 [Hc (H1 & H2 & H3 & H4 & H5)]. cbv beta. rewrite Ec in Hc.
      wp1. apply wp_smod. set (k3 := put _ k2).
      assert (con k3 = con k1) as Ek3 by exact H1.
      eapply wp_mono; [apply (clearScreen_spec k3); by rewrite Ek3|].
      intros [] k' (c' & -> & Hd & Hf). rewrite Ek3 in Hf. pose proof Hf as [Ecc _].
      pose proof G as [g1 g2 g3 g4 g5 g6 g7 g8 g9 g10 g11 g12]. rewrite Ev in g4, g5.
      assert (geometry (con (put c' k3))) as G' by (destruct Hd as [[] _]; done).
      split_and!.
      * split; [split; [by destruct Hd|]|].
        -- unfold whole_pieces in *. change (con (put c' k3)) with c'. by rewrite Ecc.
        -- change (con (put c' k3)) with c'. rewrite Ecc. split; [exact g5|exact g4].
      * rewrite vga_lines_mode by done. change (con (put c' k3)) with c'. rewrite Ecc.
        by rewrite <- Ev, <- Ef.
      * cbn. by rewrite H5.
      * apply rest_put. change (u8 0x20) with 0x20 in Hc. change (u8 0x28) with 0x28 in Hc. split.
        -- exact Hc.
        -- change (k_kbd k2 = Keyboard.keyboard_start). congruence.
        -- change (Descriptors.IDT_init (GDT64_Code im) (idt_table im) (isr_entry im) (irq_entry im) (k_idt k2) =
             Descriptors.IDT_init (GDT64_Code im) (idt_table im) (isr_entry im) (irq_entry im) Descriptors.idt_start).
           congruence.
        -- change (k_tasks k2 = Descriptors.tasks_start). congruence.
        -- done.
Qed.

(** The gate of an interrupt line. *)
Lemma irq_gate n :
  0 <= n < 16 -> in_u 64 (irq_entry im n) -> irq_entry im n < 2 ^ 28 ->
  let i := Descriptors.IDT_init (GDT64_Code im) (idt_table im) (isr_entry im) (irq_entry im) Descriptors.idt_start in
  Descriptors.gate_present i (32 + n) = true /\
  Descriptors.gate_target (Descriptors.entry i (32 + n)) = irq_entry im n.
Proof.
  intros Hn Hu Hlt i. set (t0 := Descriptors.register_isrs (GDT64_Code im) (isr_entry im) Descriptors.idt_start).
  assert (Descriptors.entry i (32 + n) = Descriptors.entry
    (Descriptors.register_with (GDT64_Code im) (irq_entry im n) (32 + n) 0x8e t0) (32 + n)) as E.
  { change (Descriptors.entry i (32 + n)) with
      (Descriptors.entry (Descriptors.register_irqs (GDT64_Code im) (irq_entry im) t0) (32 + n)).
    rewrite Descriptors.entry_irqs, decide_True by lia. by replace (32 + n - 32) with n by lia. }
  split.
  - unfold Descriptors.gate_present. rewrite E, Descriptors.gate_fields by done.
    change (Descriptors.loaded i) with true. change (Descriptors.idt_limit i) with 4095.
    unfold Descriptors.sizeof_IDT_entry. by destruct (Z.leb_spec ((32 + n + 1) * 16 - 1) 4095); [|lia].
  - rewrite E, Descriptors.gate_target_register by done. unfold in_u in Hu. rewrite Z.div_small by lia.
    rewrite Z.mod_0_l by lia. lia.
Qed.

Lemma wp_group (m1 m2 m3 m4 g : M kern unit) k Q :
  wp (m1 ;;; m2 ;;; m3 ;;; m4) k (fun _ k' => wp g k' Q) -> wp (m1 ;;; m2 ;;; m3 ;;; m4 ;;; g) k Q.
Proof.
  unfold wp, bind. destruct (m1 k) as [[_ k1]|]; [|done]. destruct (m2 k1) as [[_ k2]|]; [|done].
  destruct (m3 k2) as [[_ k3]|]; [|done]. by destruct (m4 k3) as [[_ k4]|].
Qed.

Lemma rest_ports cs kb i ts h k k' :
  con k' = con k /\ k_kbd k' = k_kbd k /\ k_idt k' = k_idt k /\ k_tasks k' = k_tasks k /\ k_mem k' = k_mem k ->
  rest_is cs kb i ts h k -> rest_is (chips k') kb i ts h k'.
Proof. intros (_ & E1 & E2 & E3 & E4) []. by split; congruence. Qed.

(** The hypotheses on the image: handlers where the gates can reach them. *)
Record image_ok : Prop := {
  io_irq : forall n, 0 <= n < 16 -> 0 <= irq_entry im n < 2 ^ 28;
  io_layout : PagePerm.layout_ok (sections im);
  io_key : PRINT_KEY im <> 0
}.

(** The second half of [kmain], after the screen is up. *)
Lemma kmain_tail_spec R C out0 k cs i :
  image_ok -> shown R C out0 k -> chips_ok cs ->
  rest_is cs Keyboard.keyboard_start i Descriptors.tasks_start (k_mem k) k ->
  wp (smod (PagePerm.vmm_set_page_permissions (sections im)) ;;;
      let! _ := Keyboard.subscribePress (PRINT_KEY im) in
      IRQ_set_mask 0 ;;; enable_interrupts ;;; log "\nEntering user space...\n" [] ;;; enter_user_mode im) k
    (fun _ k' => exists s0 o4,
      report_text [("\nEntering user space...\n"%string, []); ("TSS stack at: %lx\n"%string, [Num (tss_stack_top im)])] = Some o4 /\
      shown R C (out0 ++ o4) k' /\ chips_ok (chips k') /\
      (forall n, 0 <= n -> Z.testbit (irq_mask (chips k')) n = Z.testbit (irq_mask cs) n || (n =? 0)) /\
      (forall n, irq_vector (chips k') n = irq_vector cs n) /\
      key_handlers im k' /\ k_idt k' = i /\
      k_tasks k' = Descriptors.setup_tss (tss_address im) (tss_stack_top im) Descriptors.tasks_start /\
      s0 = the (k_mem k) /\
      (the (k_mem k') : Paging.paging PMM.pmm)
        = Paging.enable_interrupts (PagePerm.vmm_set_page_permissions (sections im) s0)).
Proof.
  intros Him Hs Hok [H1 H2 H3 H4 _].
  wp1. apply wp_smod. wp1. set (k1 := put _ k).
  unfold Keyboard.subscribePress, wp at 1. cbv zeta.
  change (the k1 : Keyboard.keyboard) with (k_kbd k). rewrite H2.
  assert (Keyboard.holds (replicate 8 0) []) as H0 by (split_and!; [cbn; lia|done|constructor]).
  pose proof (Keyboard.subscribe_spec _ [] (PRINT_KEY im) H0 (io_key Him)) as Hsub.
  rewrite decide_True in Hsub by (cbn; lia). destruct Hsub as (hs & Esub & Hhs).
  change (Keyboard.pressHandlers Keyboard.keyboard_start) with (replicate 8 0). rewrite Esub. cbv beta iota.
  set (k2 := put _ k1).
  wp1. eapply wp_mono.
  { apply (wp_preserves (fun k' => con k' = con k2 /\ k_kbd k' = k_kbd k2 /\ k_idt k' = k_idt k2 /\
      k_tasks k' = k_tasks k2 /\ k_mem k' = k_mem k2)); [|done|apply IRQ_set_mask_spec; [|lia]].
    - apply preserves_set_mask; [done|]. intros p k' Hk'. by destruct (kernel_in_keeps p k') as [b ->].
    - change (chips k2) with (chips k). by rewrite H1. }
  intros [] k3 [(Hok3 & Hm3 & Hv3 & _) Hsame]. cbv beta.
  change (chips k2) with (chips k) in *. rewrite H1 in Hm3, Hv3. destruct Hsame as (E1 & E2 & E3 & E4 & E5).
  wp1. apply wp_smod. set (k4 := put _ k3).
  assert (shown R C out0 k4) as Hs4 by (apply (shown_con _ _ _ k); [exact E1|done]).
  wp1. eapply wp_mono; [apply (log_rest _ _ R C out0 k4); [reflexivity|exact Hs4|apply rest_refl]|].
  intros [] k5 (oa & Ea & Hs5 & R5). cbv beta. unfold enter_user_mode.
  wp1. apply wp_smod. set (k6 := put _ k5).
  assert (shown R C (out0 ++ oa) k6) as Hs6 by (apply (shown_con _ _ _ k5); done).
  eapply wp_mono; [apply (log_rest _ _ R C (out0 ++ oa) k6); [reflexivity|exact Hs6|apply rest_refl]|].
  intros [] k7 (ob & Eb & Hs7 & [C7 K7 I7 T7 M7]). destruct R5 as [C5 K5 I5 T5 M5].
  change (chips k6) with (chips k5) in C7. rewrite C5 in C7. change (chips k4) with (chips k3) in C7.
  change (k_kbd k6) with (k_kbd k5) in K7. rewrite K5 in K7. change (k_kbd k4) with (k_kbd k3) in K7.
  change (k_idt k6) with (k_idt k5) in I7. rewrite I5 in I7. change (k_idt k4) with (k_idt k3) in I7.
  change (k_mem k6) with (k_mem k5) in M7. rewrite M5 in M7.
  exists (the (k_mem k)), (oa ++ ob). rewrite C7. split_and!; try assumption.
  - cbn [report_text]. rewrite Ea, Eb. cbn [mbind option_bind]. by rewrite app_nil_r.
  - by rewrite app_assoc.
  - unfold key_handlers. rewrite K7, E2. split; [exact Hhs|exact H0].
  - rewrite I7, E3. exact H3.
  - rewrite T7. change (k_tasks k6) with (Descriptors.setup_tss (tss_address im) (tss_stack_top im) (k_tasks k5)).
    rewrite T5. change (k_tasks k4) with (k_tasks k3). rewrite E4. change (k_tasks k2) with (k_tasks k). by rewrite H4.
  - reflexivity.
  - rewrite M7. change (k_mem k4) with (put (Paging.enable_interrupts (the (k_mem k3) : Paging.paging PMM.pmm)) (k_mem k3)).
    rewrite the_put, E5. change (k_mem k2) with (k_mem k1).
    change (k_mem k1) with (put (PagePerm.vmm_set_page_permissions (sections im) (the (k_mem k))) (k_mem k)).
    by rewrite the_put.
Qed.

Lemma kmain_spec k v front back bg h :
  image_ok -> fresh v front back bg h k ->
  wp (kmain im sin_positive) k (fun _ k' => exists out, boot_text v front = Some out /\
    shown (height v / 13) (width v / 9) out k' /\ chips_ok (chips k') /\
    (forall n, 0 <= n -> Z.testbit (irq_mask (chips k')) n = Z.testbit (irq_mask (chips k)) n || (n =? 0)) /\
    (forall n, 0 <= n < 16 -> irq_vector (chips k') n = 32 + n) /\
    key_handlers im k' /\
    k_idt k' = Descriptors.IDT_init (GDT64_Code im) (idt_table im) (isr_entry im) (irq_entry im) Descriptors.idt_start /\
    k_tasks k' = Descriptors.setup_tss (tss_address im) (tss_stack_top im) Descriptors.tasks_start /\
    (the (k_mem k') : Paging.paging PMM.pmm)
      = Paging.enable_interrupts (PagePerm.vmm_set_page_permissions (sections im) (the h))).
Proof.
  intros Him Hf. unfold kmain. apply wp_group. eapply wp_mono; [by eapply boot_screen_spec|].
  intros [] k1 (Hs1 & Hv1 & Hp1 & R1). cbv beta. pose proof (fr_chips _ _ _ _ _ _ Hf) as (_ & _ & I1 & I2).
  set (cs := (_, _)) in R1.
  wp1. eapply wp_mono; [exact (vga_info_rest _ _ [] k1 _ _ _ _ _ Hs1 R1)|].
  intros [] k2 (o1 & E1 & Hs2 & R2). cbv beta. rewrite Hv1 in E1.
  destruct (report_text (vga_lines _)) as [info|] eqn:Einfo in E1; [|done].
  change (Some (info ++ palette ++ [10]) = Some o1) in E1. apply (inj Some) in E1. subst o1.
  wp1. eapply wp_mono; [exact (log_rest _ _ _ _ _ k2 _ _ _ _ _ (eq_refl : fits ("\n"%string, []) = true) Hs2 R2)|].
  intros [] k3 (o2 & E2 & Hs3 & R3). cbv beta. vm_compute in E2. injection E2 as <-.
  wp1. eapply wp_mono; [refine (log_all_rest _ _ _ _ k3 _ _ _ _ _ (section_lines_fit _ _) _ Hs3 R3); done|].
  intros [] k4 (o3 & E3 & Hs4 & R4). cbv beta.
  assert (k_mem k4 = k_mem k1) as Em by (by destruct R4). rewrite <- Em in R4.
  eapply wp_mono; [refine (kmain_tail_spec _ _ _ k4 cs _ Him Hs4 _ R4); repeat split; apply I1 || apply I2|].
  intros [] k' (s0 & o4 & E4 & Hs5 & Hok & Hm & Hv & Hk & Hi & Ht & Es & Hpg).
  exists ((info ++ palette ++ [10]) ++ [10] ++ o3 ++ o4). split_and!; try assumption.
  - unfold boot_text. rewrite Einfo, E3, E4. reflexivity.
  - rewrite app_nil_l, <- !(app_assoc (_ ++ palette ++ _)) in Hs5. exact Hs5.
  - intros n Hn. rewrite Hv. unfold irq_vector, cs. cbn [fst snd icw2].
    destruct (Z.ltb_spec n 8); rewrite vector_of by (reflexivity || lia); lia.
  - by rewrite Hpg, Es, Em, Hp1.
Qed.

(** the state the kernel enters user mode in.  On a machine as the boot loader hands it
    over, with three buffers that do not overlap, [kmain] runs up to the jump to user mode
    without a fault, and then: the screen shows exactly the start-up text; all sixteen
    interrupt lines are delivered on the vectors 32 to 47, where the gate is present and
    leads to the entry point of that line; the timer is masked and no other mask has changed;
    [printKey] is the only key handler; every page of a kernel or OS section has exactly the
    permissions of its section; the task state segment is set up; interrupts are enabled. *)
Theorem kmain_boots k (v : vbe_screen_info) (front back bg : Z) (h : H) :
  image_ok -> fresh v front back bg h k ->
  exists out k', kmain im sin_positive k = Some (tt, k') /\
    boot_text v front = Some out /\
    ready k' (tput_all (height v / FONT_HEIGHT) (width v / FONT_WIDTH) out blank) /\
    (forall n, 0 <= n < 16 ->
       Descriptors.gate_present (k_idt k') (irq_vector (chips k') n) = true /\
       Descriptors.gate_target (Descriptors.entry (k_idt k') (irq_vector (chips k') n)) = irq_entry im n) /\
    (forall n, 0 <= n -> Z.testbit (irq_mask (chips k')) n = Z.testbit (irq_mask (chips k)) n || (n =? 0)) /\
    key_handlers im k' /\
    (forall x w, x ∈ PagePerm.section_perms (sections im) -> in_u 48 w -> PagePerm.touched x.1 w ->
       PagePerm.leaf_perm (the (k_mem k') : Paging.paging PMM.pmm) w = Some x.2) /\
    k_tasks k' = Descriptors.setup_tss (tss_address im) (tss_stack_top im) Descriptors.tasks_start /\
    Paging.IF (the (k_mem k') : Paging.paging PMM.pmm) = true.
Proof.
  intros Him Hf. destruct (wp_run _ _ _ (kmain_spec k v front back bg h Him Hf)) as ([] & k' & E &
    out & Eo & Hs & Hok & Hm & Hv & Hk & Hi & Ht & Emem).
  exists out, k'. rewrite Emem. split_and!; try assumption.
  - by destruct Hs.
  - intros n Hn. rewrite Hi, Hv by done. pose proof (io_irq Him n Hn). apply irq_gate; [done|unfold in_u; lia|lia].
  - intros x w Hx Hw Htc. destruct (fr_paged _ _ _ _ _ _ Hf) as (O & T1 & T2).
    destruct (PagePerm.vmm_set_page_permissions_spec (the h) O (sections im) T1 T2 (io_layout Him)) as (_ & _ & _ & Hl).
    exact (Hl x w Hx Hw Htc).
  - reflexivity.
Qed.
End Boot.

(** ** Concrete runs *)

(** Memory managers that hand out fixed blocks, over the page tables of the boot loader. *)
Record blocks := Blocks { bl_paging : Paging.paging PMM.pmm; bl_supply : list Z }.
#[export] Instance blocks_paging : Has (Paging.paging PMM.pmm) blocks.
Proof.
  by refine {| the := bl_paging; put := fun s h => Blocks s (bl_supply h) |}; intros; [..|destruct k].
Defined.
#[export] Instance blocks_memory : KernelMemory blocks := {|
  mm_mmap := fun _ _ _ => ret 0x30000;
  mm_kmalloc := fun _ h => match bl_supply h with a :: r => Some (a, Blocks (bl_paging h) r) | [] => Some (0, h) end
|}.
Definition small_mode : vbe_screen_info := Vbe 32 39 32 0xfd000000 4 128 3 1.
Definition small_image : image :=
  Image PagePerm.sample_sections 0x48000 8 0x5000 (fun n => 0x10000 + 16 * n) (fun n => 0x11000 + 16 * n)
    0x6000 0x9000 0x12345.
Definition small_kernel : kernel pc blocks :=
  MkKernel _ _ pc_bios (console_start small_mode) (Timer 0) Keyboard.keyboard_start Descriptors.idt_start
    Descriptors.tasks_start (Blocks PagePerm.boot_state [0x10000; 0x20000]).

Lemma small_image_ok : image_ok small_image.
Proof.
  split; [intros n Hn; change (irq_entry small_image n) with (0x11000 + 16 * n); lia| |done].
  split; try (cbn; unfold Paging.PAGE_SIZE; lia). repeat constructor; done.
Qed.
Lemma small_kernel_fresh :
  fresh small_mode 0x30000 0x10000 0x20000 (Blocks PagePerm.boot_state []) small_kernel.
Proof.
  split; [reflexivity| | |by vm_compute|by vm_compute|by vm_compute| |apply pc_bios_ok|reflexivity..|].
  - unfold small_mode. split; reflexivity || (cbn; unfold FONT_WIDTH, FONT_HEIGHT; lia).
  - do 3 (eexists; split; [reflexivity|]). reflexivity.
  - split_and!; [left; by vm_compute|left; by vm_compute|right; by vm_compute].
  - exists (PagePerm.boot_owner 0x24000). split; [apply PagePerm.boot_state_ok|apply PagePerm.boot_state_mapped].
Qed.

Lemma kmain_boots_witness :
  exists out k', kmain small_image (fun y => Z.odd y) small_kernel = Some (tt, k') /\
    boot_text small_image small_mode 0x30000 = Some out /\ ready k' (tput_all 3 3 out blank) /\
    Descriptors.gate_target (Descriptors.entry (k_idt k') (irq_vector (chips k') 1)) = 0x11010 /\
    Z.testbit (irq_mask (chips k')) 0 = true /\ key_handlers small_image k'.
Proof.
  destruct (kmain_boots small_image (fun y => Z.odd y) small_kernel small_mode 0x30000 0x10000 0x20000 _
    small_image_ok small_kernel_fresh) as (out & k' & H1 & H2 & H3 & H4 & H5 & H6 & _).
  exists out, k'. split; [exact H1|]. split; [exact H2|]. split; [exact H3|].
  split; [exact (proj2 (H4 1 ltac:(lia)))|]. split; [|exact H6].
  exact (eq_trans (H5 0 ltac:(lia)) (orb_true_r _)).
Defined.

(** The key A (scan code 30) waiting, its interrupt in service. *)
Definition typing_kernel : kernel pc blocks :=
  MkKernel _ _ (Pc (Chip 0xB8 2 0x20 4 false true Ready, Chip 0x8F 0 0x28 2 false true Ready) [30] [])
    small_console (Timer 0) (Keyboard.Kbd (0x12345 :: replicate 7 0) (replicate 8 0)) Descriptors.idt_start
    Descriptors.tasks_start (Blocks PagePerm.boot_state []).

Lemma key_press_effect_witness :
  exists k', irq1_handler (H := kernel_calls small_image) typing_kernel = Some (tt, k') /\
    ready k' (tput_all 3 3 [97] blank) /\ isr (chips k').1 = 0 /\
    Z.testbit (irq_mask (chips k')) 0 = false.
Proof.
  destruct (key_press_effect small_image typing_kernel blank 30
    (Pc (Chip 0xB8 2 0x20 4 false true Ready, Chip 0x8F 0 0x28 2 false true Ready) [] []))
    as (k' & H1 & H2 & _ & H4 & H5).
  - split; [apply machine0_shows|reflexivity].
  - by vm_compute.
  - split; [reflexivity|]. intros i Hi. assert (i = 0) as -> by lia. reflexivity.
  - split; (split_and!; [cbn; lia|reflexivity|repeat constructor; done]).
  - reflexivity.
  - lia.
  - exists k'. split; [exact H1|]. split; [exact H2|]. split; [exact H4|].
    exact (H5 0 ltac:(lia)).
Defined.
End KernelProps.
