(* ===== verification/KernelHeap.v ===== *)
(** The memory managers of the kernel as one program (memory/VMM.c, liballoc_1_1.c,
    lib/liballoc/liballoc_hooks.c).

    The heap gets its pages from the address space manager, and the address space manager
    keeps the nodes of its free list on the heap: [kmalloc] calls [vmm_mmap] through the
    hooks, and [vmm_mmap] and [vmm_free_pages] call [kmalloc] and [kfree].  [hooks d] ties the
    knot, for calls nested up to [d] deep; a deeper nesting is a fault.  The kernel nests
    twice, at its first allocation, when the first node of the list is allocated.

    [memory_ok] is the invariant of the whole: the heap's, the address space manager's, page
    tables in order, and everything handed out disjoint and apart from what is free. *)
From S2P Require Import Prelude PMM Paging PagePerm KMonad DList Spans VmmSpace VmmProps Liballoc LiballocInv.
From S2P Require Import LiballocSpec LiballocProps Font Ports Console ConsoleProps ConsoleLog ConsoleBoot Descriptors Keyboard Reports Interrupts Kernel KernelProps.
Import Paging PagePerm PmmSupply VmmSpace VmmProps Liballoc LiballocInv LiballocSpec LiballocProps.

Module KernelHeap.

(** ** State *)
Record memory := Mem { m_vmm : vmm PMM.pmm; m_heap : heap }.

#[export] Instance memory_vmm : Has (vmm PMM.pmm) memory.
Proof. by refine {| the := m_vmm; put := fun v k => Mem v (m_heap k) |}; intros; [..|destruct k]. Defined.
#[export] Instance memory_heap : Has heap memory.
Proof. by refine {| the := m_heap; put := fun h k => Mem (m_vmm k) h |}; intros; [..|destruct k]. Defined.
#[export] Instance memory_paging : Has (paging PMM.pmm) memory.
Proof.
  refine {| the := fun k => pg (m_vmm k); put := fun s k => Mem (set_pg s (m_vmm k)) (m_heap k) |};
    intros; [done|done|]. by destruct k as [[]].
Defined.

(** The memory managers before their first call, on the page tables [s]. *)
Definition memory_start (s : paging PMM.pmm) : memory := Mem (vmm_start s) heap_start.

(** ** Operations *)

(** [void *liballoc_alloc(int pages)]: the caller passes a [size_t]. *)
Definition alloc_hook (B : BlockAlloc memory) (pages : Z) : M memory Z :=
  vmm_mmap 0 (u64 (s32 pages)) true.
Definition free_hook (B : BlockAlloc memory) (start pages : Z) : M memory unit :=
  vmm_free_pages start pages.

Fixpoint hooks (d : nat) : PageHooks memory :=
  match d with
  | O => {| liballoc_alloc := fun _ => fault; liballoc_free := fun _ _ => fault |}
  | S d =>
      let B := {| VmmSpace.kmalloc := Liballoc.kmalloc (H := hooks d);
                  VmmSpace.kfree := Liballoc.kfree (H := hooks d) |} in
      {| liballoc_alloc := alloc_hook B; liballoc_free := free_hook B |}
  end.
Definition nodes (d : nat) : BlockAlloc memory :=
  {| VmmSpace.kmalloc := Liballoc.kmalloc (H := hooks d);
     VmmSpace.kfree := Liballoc.kfree (H := hooks d) |}.

(** The two entry points. *)
Definition kernel_mmap (d : nat) (physical pages : Z) (is_kernel : bool) : M memory Z :=
  vmm_mmap (H := nodes d) physical pages is_kernel.
Definition kernel_malloc (d : nat) (size : Z) : M memory Z :=
  Liballoc.kmalloc (H := hooks d) size.

(** ** The free list *)

(** The list from [blockchain] on is [l]. *)
Record lists (v : vmm PMM.pmm) (l : list (Z * (Z * Z))) : Prop := {
  ls_nodup : NoDup l.*1;
  ls_chain : chain (blocks v) 0 l 0;
  ls_base : blockchain v = first_ptr l 0;
  ls_started : first_alloc v = false;
  ls_sep : sep (HEAP_START - 1) l.*2 HEAP_END
}.

Lemma chain_unique (h : gmap Z free_block) p l l' :
  chain h p l 0 -> chain h p l' 0 -> first_ptr l 0 = first_ptr l' 0 -> l = l'.
Proof.
  revert p l'. induction l as [|[a v] l IH]; intros p [|[b w] l']; cbn [chain first_ptr]; try done.
  - by intros _ (? & _) <-.
  - by intros (? & _) _ ->.
  - intros (Ha & Ea & Hc) (_ & Eb & Hc') <-. rewrite Ea in Eb. destruct v, w. cbn in Eb. simplify_eq.
    f_equal. by eapply IH.
Qed.
Lemma lists_unique v l l' : lists v l -> lists v l' -> l = l'.
Proof. intros [_ C1 B1 _ _] [_ C2 B2 _ _]. eapply chain_unique; [done..|congruence]. Qed.

Lemma lists_log v l e : lists v l -> lists (add_log e v) l.
Proof. by intros []. Qed.

(** A request of [n] pages uses up no block, so that no node has to be freed for it. *)
Definition leaves_rest (n : Z) (l : list (Z * (Z * Z))) : Prop := forall a s, (a, (s, n)) ∉ l.

(** [vmm_mmap] when it does not call the heap: whatever the node allocator is. *)
Section Quiet.
Context (B : BlockAlloc memory).

Definition static_ok (X : gset Z) : BlockAllocOk PMM.pmm memory.
Proof.
  by refine {| live := fun _ => X; malloc_quiet := fun _ => False; free_quiet := fun _ _ => False |}.
Defined.

Lemma mmap_quiet k l phys n is_kernel :
  lists (m_vmm k) l -> leaves_rest n l -> 0 < n ->
  exists a v, vmm_mmap phys n is_kernel k = Some (a, put (v : vmm PMM.pmm) k) /\
    match first_fit n l.*2 with
    | None => a = 0 /\ lists v l /\ pg v = pg (m_vmm k)
    | Some (s, r) => a = s /\ pg v = map_pages (Z.to_nat n) 0 phys s (mmap_flags is_kernel) (pg (m_vmm k)) /\
        exists l', l'.*2 = r /\ lists v l'
    end.
Proof.
  intros [H1 H2 H3 H4 H5] Hr Hn. pose (ok := static_ok (list_to_set l.*1)).
  assert (space_inv (BlockAllocOk0 := ok) k l) as Hinv.
  { split; [done..| |done|done]. intros a Ha. by apply elem_of_list_to_set. }
  destruct (first_fit n l.*2) as [[s r]|] eqn:E.
  - destruct (wp_run _ _ _ (vmm_mmap_some (BlockAllocOk0 := ok) phys n is_kernel k l s r Hinv
      (fun a t Ha => Hr a t Ha) ltac:(lia) E)) as (a & k' & Ek & -> & l' & El & [[I1 I2 I3 _ I5 I6] _ _ Hp _ Hf]).
    destruct (Hf (fun a => Hr a s)) as [v ->]. exists s, v. split; [exact Ek|]. split; [done|].
    split; [exact Hp|]. exists l'. split; [done|]. by split.
  - destruct (vmm_mmap_none (BlockAllocOk0 := ok) phys n is_kernel k l Hinv E) as [e Ek].
    exists 0, (add_log e (m_vmm k)). split; [exact Ek|]. split_and!; [done|by apply lists_log|done].
Qed.
End Quiet.

(** ** Pages *)

(** Page tables that map the first 2 MiB and none of the free pages [l]. *)
Record pages_ok (s : paging PMM.pmm) (l : list span) : Prop := {
  po_tables : exists O, tables_ok s O;
  po_low : mapped_below s HEAP_START;
  po_unmapped : forall p, in_spans l p -> frame s p = None
}.

(** Room in the physical memory for mapping [n] pages, with tables. *)
Definition frames_for (n : Z) (s : paging PMM.pmm) : Prop := ps_avail (supply s) (4 * Z.to_nat n).

Definition frame_range (phys n : Z) : Prop := phys mod 4096 = 0 /\ 0 <= phys /\ phys + n * 4096 <= 2 ^ 52.

Lemma page_of_range s p j : s mod PSZ = 0 -> page_of p = page_of (s + j * PAGE_SIZE) ->
  s + j * PAGE_SIZE <= p < s + (j + 1) * PAGE_SIZE.
Proof.
  unfold page_of, PAGE_SIZE, PSZ. intros Hs E. rewrite !Z.shiftr_div_pow2 in E by lia. change (2 ^ 12) with 4096 in E.
  pose proof (Z.div_mod p 4096 ltac:(lia)). pose proof (Z.mod_pos_bound p 4096 ltac:(lia)).
  pose proof (Z.div_mod s 4096 ltac:(lia)). rewrite Z.div_add in E by lia. lia.
Qed.

Lemma heap_end_small : HEAP_END < 2 ^ 40.
Proof. reflexivity. Qed.

Lemma flags_kernel_ok is_kernel : flags_ok (mmap_flags is_kernel).
Proof. by destruct is_kernel. Qed.

Lemma pages_taken s l n phys a r is_kernel :
  pages_ok s l -> sep (HEAP_START - 1) l HEAP_END -> 0 < n -> first_fit n l = Some (a, r) ->
  frame_range phys n -> frames_for n s ->
  let s' := map_pages (Z.to_nat n) 0 phys a (mmap_flags is_kernel) s in
  pages_ok s' r /\
  (forall m, ps_avail (supply s) (4 * Z.to_nat n + m) -> ps_avail (supply s') m) /\
  (phys ≠ 0 -> forall j, 0 <= j < n -> frame s' (a + j * PAGE_SIZE) = Some (phys + j * PAGE_SIZE)) /\
  (forall w, in_u 48 w -> ~ covers (a, n) w -> frame s' w = frame s w).
Proof.
  intros [[O HO] Hlow Hun] Hsep Hn E (F1 & F2 & F3) Hav s'.
  destruct (first_fit_spec _ _ n _ _ _ Hsep ltac:(lia) E) as [Hr (B1 & B2 & B3) Hset Hdis _].
  pose proof heap_end_small. assert (0 <= a) by (unfold HEAP_START in B1; lia). unfold PSZ in B2.
  assert (forall m, ps_avail (supply s) (4 * Z.to_nat n + m) ->
    range_mapped s s' a 0 (Z.to_nat n) m /\
    (phys ≠ 0 -> forall j, 0 <= j < n -> frame s' (a + j * PAGE_SIZE) = Some (phys + j * PAGE_SIZE))) as Hmap.
  { intros m Hm. destruct (map_pages_spec _ (flags_kernel_ok is_kernel) (Z.to_nat n) 0 phys a s O m)
      as (R & A1 & _); [done|done|done|lia|lia|lia|lia| |done|].
    - intros j Hj. apply Hun, Hset. right. unfold covers, span_end, PAGE_SIZE, PSZ. cbn [fst snd]. lia.
    - split; [exact R|]. intros Hp j Hj. unfold s'. rewrite A1 by lia. f_equal. lia. }
  destruct (Hmap 0%nat) as [[R1 _ _ _ R5] A1]; [by rewrite Nat.add_0_r|].
  assert (forall w, in_u 48 w -> ~ covers (a, n) w -> frame s' w = frame s w) as Hout.
  { intros w Hw Hc. apply R5; [done|]. intros j Hj Ep. apply Hc.
    pose proof (page_of_range a w j B3 Ep). unfold covers, span_end, PAGE_SIZE, PSZ in *. cbn [fst snd]. nia. }
  split_and!; [|intros m Hm; by destruct (Hmap m Hm) as [[] _]|done|done].
  split; [done| |].
  - intros v Hv. rewrite Hout; [by apply Hlow|unfold in_u, HEAP_START in *; lia|].
    unfold covers. cbn [fst]. lia.
  - intros p Hp. pose proof (sep_lower _ _ _ _ Hr Hp). rewrite Hout.
    + apply Hun, Hset. by left.
    + unfold in_u, HEAP_START in *. lia.
    + intros Hc. by apply (Hdis p).
Qed.

(** ** The address space manager as the source of the heap's pages *)

(** A run of pages inside the heap's range that is not free. *)
Definition taken (l : list span) (a n : Z) : Prop :=
  0 < n /\ HEAP_START <= a /\ a mod PSZ = 0 /\ span_end (a, n) <= HEAP_END /\
  forall p, covers (a, n) p -> ~ in_spans l p.

Lemma fit_taken n l a r : sep (HEAP_START - 1) l HEAP_END -> 0 < n -> first_fit n l = Some (a, r) ->
  taken r a n /\ forall b m, taken l b m -> taken r b m /\ clear_of a n b m.
Proof.
  intros Hsep Hn E. destruct (first_fit_spec _ _ n _ _ _ Hsep ltac:(lia) E) as [_ (B1 & B2 & B3) Hset Hdis _].
  split; [split_and!; [done|lia|done|done|done]|].
  intros b m (T1 & T2 & T3 & T4 & T5). split.
  - split_and!; try done. intros p Hc Hp. apply (T5 p Hc), Hset. by left.
  - unfold clear_of. destruct (decide (a + n * 4096 <= b)) as [|N1]; [by left|].
    destruct (decide (b + m * 4096 <= a)) as [|N2]; [by right|]. exfalso.
    apply (T5 (a `max` b)); [|apply Hset; right]; unfold covers, span_end, PSZ in *; cbn [fst snd] in *; lia.
Qed.

Lemma s32_pages st : 0 < st < 2 ^ 20 -> u64 (s32 st) = st.
Proof. intros Hst. rewrite swrap_small by (unfold in_s; lia). apply wrap_small. unfold in_u. lia. Qed.

Definition hooks_ok (d : nat) : @PageHooksOk memory _ (hooks (S d)).
Proof.
  refine {| held := fun k a n => exists l, lists (m_vmm k) l /\ taken l.*2 a n;
    alloc_quiet := fun k st => exists l, lists (m_vmm k) l /\ leaves_rest st l;
    release_quiet := fun _ _ _ => False |}; try done.
  intros k st (l & Hl & Hr) Hst. cbn [hooks liballoc_alloc]. unfold alloc_hook. rewrite s32_pages by done.
  destruct (mmap_quiet (nodes d) k l 0 st true Hl Hr ltac:(lia)) as (a & v & E & Hcase).
  exists a, (put v k). split; [exact E|]. split; [done|].
  destruct (first_fit st l.*2) as [[s r]|] eqn:Ef.
  - destruct Hcase as (-> & _ & l' & <- & Hl').
    destruct (fit_taken st l.*2 s l'.*2 (ls_sep _ _ Hl) ltac:(lia) Ef) as [T0 T1]. split.
    + intros b n (l1 & H1 & Ht). rewrite (lists_unique _ _ _ H1 Hl) in Ht. exists l'. split; [done|].
      by apply T1.
    + right. pose proof T0 as (_ & T2 & _ & T4 & _). pose proof heap_end_small.
      unfold span_end, PSZ, HEAP_START in *. cbn [fst snd] in *. split_and!; [lia|lia|by exists l'|].
      intros b n (l1 & H1 & Ht). rewrite (lists_unique _ _ _ H1 Hl) in Ht. by apply T1.
  - destruct Hcase as (-> & Hl' & _). split; [|by left].
    intros b n (l1 & H1 & Ht). rewrite (lists_unique _ _ _ H1 Hl) in Ht. by exists l.
Defined.

(** ** The invariant
    [L] are the blocks of the heap, [l] the free list, [A] the spans mapped for others. *)
Record memory_ok (k : memory) (L : list amaj) (l : list (Z * (Z * Z))) (A : list span) : Prop := {
  mk_heap : heap_ok (m_heap k) L;
  mk_list : lists (m_vmm k) l;
  mk_pages : pages_ok (pg (m_vmm k)) l.*2;
  mk_part : partition l.*2 (A ++ spans L)
}.

(** A request of [n] pages is served without a call of the heap, from physical memory. *)
Definition can_serve (n : Z) (k : memory) : Prop :=
  (exists l, lists (m_vmm k) l /\ leaves_rest n l) /\ frames_for n (pg (m_vmm k)).

Lemma can_serve_rest n k l : can_serve n k -> lists (m_vmm k) l -> leaves_rest n l.
Proof. intros [(l' & Hl' & Hr) _] Hl. by rewrite (lists_unique _ _ _ Hl Hl'). Qed.

(** What a request of [n] pages may cost: frames for them and their tables, and pages of the
    free list. *)
Definition spends (n : Z) (k k' : memory) : Prop := forall m,
  ps_avail (supply (pg (m_vmm k))) (4 * Z.to_nat n + m) -> ps_avail (supply (pg (m_vmm k'))) m.
Definition shortened (n : Z) (l l' : list (Z * (Z * Z))) : Prop :=
  l' = l \/ exists a, first_fit n l.*2 = Some (a, l'.*2).

Lemma spends_same n k k' : supply (pg (m_vmm k')) = supply (pg (m_vmm k)) -> spends n k k'.
Proof. intros E m Hm. rewrite E. eapply ps_avail_mono; [exact Hm|]. lia. Qed.

Section Steps.
Context (d : nat).
#[local] Instance the_hooks : PageHooks memory := hooks (S d).
#[local] Instance the_hooks_ok : PageHooksOk memory := hooks_ok d.

Lemma memory_inv k L l A : memory_ok k L l A -> inv k L.
Proof.
  intros [H1 H2 _ [P1 _ P3]]. split; [done|]. intros x Hx. exists l. split; [done|].
  assert ((am_addr x, am_pages x) ∈ A ++ spans L) as Hin.
  { apply elem_of_app. right. unfold spans. by apply list_elem_of_fmap_2'  with x. }
  destruct (P1 _ Hin) as (? & ? & ? & ?). split_and!; try done. intros p. by apply P3.
Qed.

(** Taking pages from the list. *)
Lemma take_ok l A n phys a r v is_kernel s :
  pages_ok s l -> partition l A -> sep (HEAP_START - 1) l HEAP_END -> 0 < n ->
  first_fit n l = Some (a, r) -> frame_range phys n -> frames_for n s ->
  pg v = map_pages (Z.to_nat n) 0 phys a (mmap_flags is_kernel) s ->
  pages_ok (pg (v : vmm PMM.pmm)) r /\ partition r ((a, n) :: A) /\ a ≠ 0 /\
  forall m, ps_avail (supply s) (4 * Z.to_nat n + m) -> ps_avail (supply (pg v)) m.
Proof.
  intros Hp Hpt Hsep Hn E F Hav ->.
  destruct (pages_taken s l n phys a r is_kernel Hp Hsep Hn E F Hav) as (Hp' & Hav' & _).
  pose proof (first_fit_spec _ _ n _ _ _ Hsep ltac:(lia) E) as Hfit.
  split; [exact Hp'|]. split; [by eapply partition_mmap|]. split; [|exact Hav'].
  destruct Hfit as [_ (B1 & _) _ _ _]. unfold HEAP_START in B1. lia.
Qed.

Lemma partition_rotate l x A B : partition l (x :: A ++ B) -> partition l (A ++ B ++ [x]).
Proof.
  intros [P1 P2 P3]. rewrite app_assoc. split.
  - intros y Hy. apply P1. set_solver.
  - apply pairwise_mid; [apply _|]. rewrite app_nil_r. cbn in P2. tauto.
  - intros y p Hy. apply P3. set_solver.
Qed.

Lemma kernel_mmap_spec B k L l A phys n is_kernel :
  memory_ok k L l A -> can_serve n k -> 0 < n -> frame_range phys n ->
  exists a k', vmm_mmap (H := B) phys n is_kernel k = Some (a, k') /\
    spends n k k' /\
    ((a = 0 /\ first_fit n l.*2 = None /\ memory_ok k' L l A) \/
     (a ≠ 0 /\ exists l', first_fit n l.*2 = Some (a, l'.*2) /\ memory_ok k' L l' ((a, n) :: A))).
Proof.
  intros [H1 H2 H3 H4] Hs Hn F. pose proof (can_serve_rest _ _ _ Hs H2) as Hr.
  destruct (mmap_quiet B k l phys n is_kernel H2 Hr Hn) as (a & v & E & Hcase).
  exists a, (put v k). split; [exact E|]. destruct (first_fit n l.*2) as [[s r]|] eqn:Ef.
  - destruct Hcase as (-> & Hpg & l' & <- & Hl').
    destruct (take_ok _ _ _ _ _ _ _ _ _ H3 H4 (ls_sep _ _ H2) Hn Ef F (proj2 Hs) Hpg) as (G1 & G2 & G3 & G4).
    split; [exact G4|]. right. split; [done|]. exists l'. by split.
  - destruct Hcase as (-> & Hl' & Hpg). split; [apply spends_same; cbn; by rewrite Hpg|].
    left. split; [done|]. split; [done|]. split; [done|done|cbn; by rewrite Hpg|done].
Qed.

Lemma kernel_malloc_spec k L l A req :
  memory_ok k L l A -> 0 <= req < 2 ^ 31 - 32 -> can_serve (pages_for (req + 32)) k ->
  exists p k', kernel_malloc (S d) req k = Some (p, k') /\
    spends (pages_for (req + 32)) k k' /\
    ((p = 0 /\ first_fit (pages_for (req + 32)) l.*2 = None /\ memory_ok k' L l A) \/
     exists m L' l', allocated (req + 32) req p m L L' /\ shortened (pages_for (req + 32)) l l' /\
       memory_ok k' L' l' A).
Proof.
  intros Hok Hreq Hs. pose proof Hok as [H1 H2 H3 H4]. set (st := pages_for (req + 32)) in *.
  destruct (pages_for_spec (req + 32) ltac:(lia)) as [_ Hst]. fold st in Hst.
  pose proof (can_serve_rest _ _ _ Hs H2) as Hr.
  destruct (wp_run _ _ _ (kmalloc_spec k L req Hreq (memory_inv _ _ _ _ Hok) (ex_intro _ l (conj H2 Hr))))
    as (p & k' & E & Hpost). exists p, k'. split; [exact E|]. fold st in Hpost.
  assert (forall a k', asked st k a k' -> exists v, k' = Mem v (m_heap k') /\
    match first_fit st l.*2 with
    | None => a = 0 /\ lists v l /\ pg v = pg (m_vmm k)
    | Some (s, r) => a = s /\ pg v = map_pages (Z.to_nat st) 0 0 s (mmap_flags true) (pg (m_vmm k)) /\
        exists l', l'.*2 = r /\ lists v l'
    end) as Hask.
  { intros a k2 (h0 & k1 & h & Ea & ->). change (alloc_hook (nodes d) st (put h0 k) = Some (a, k1)) in Ea.
    unfold alloc_hook in Ea. rewrite s32_pages in Ea by done.
    assert (lists (m_vmm (put h0 k)) l) as H2' by exact H2.
    destruct (mmap_quiet (nodes d) (put h0 k) l 0 st true H2' Hr ltac:(lia)) as (a' & v & E' & Hc).
    rewrite E' in Ea. injection Ea as -> <-. by exists v. }
  destruct Hpost as [(-> & [Hh _] & _ & Hk)|(m & L' & Hal & [Hh _] & _ & Hf)].
  - destruct (Hask _ _ Hk) as (v & -> & Hc). fold st.
    destruct (first_fit st l.*2) as [[s r]|] eqn:Ef.
    2: { destruct Hc as (_ & Hl' & Hpg). split; [apply spends_same; cbn; by rewrite Hpg|].
      left. split_and!; [done|done|]. split; [done|done|cbn; by rewrite Hpg|done]. }
    exfalso. destruct Hc as (<- & Hpg & _).
    by destruct (take_ok l.*2 _ st 0 _ _ v true _ H3 H4 (ls_sep _ _ H2) ltac:(lia) Ef
      ltac:(split_and!; [done|lia|lia]) (proj2 Hs) Hpg) as (_ & _ & ? & _).
  - destruct Hf as [(Es & h & ->)|(a & Ha & Es & Hk)].
    + split; [by apply spends_same|]. right. exists m, L', l. split; [done|]. split; [by left|].
      split; [done|done|done|by rewrite Es].
    + destruct (Hask _ _ Hk) as (v & -> & Hc).
      destruct (first_fit st l.*2) as [[s r]|] eqn:Ef; [|by destruct Hc].
      destruct Hc as (-> & Hpg & l' & <- & Hl').
      destruct (take_ok l.*2 _ st 0 _ _ v true _ H3 H4 (ls_sep _ _ H2) ltac:(lia) Ef
        ltac:(split_and!; [done|lia|lia]) (proj2 Hs) Hpg) as (G1 & G2 & _ & G4).
      split; [exact G4|]. right. exists m, L', l'. split; [done|]. split; [right; by exists s|].
      split; [done|done|done|]. rewrite Es. by apply partition_rotate.
Qed.
End Steps.

(** ** The first allocation *)

(** The heap after its first [kmalloc], for the first node of the free list. *)
Definition first_heap : heap :=
  match Liballoc.kmalloc sizeof_free_block bump0 with Some (_, k) => b_heap k | None => heap_start end.
Definition first_blocks : list amaj := [AMaj HEAP_START 16 [(0x200028, (64, 32))]].
Definition first_node : Z := 0x200060.

Lemma first_heap_ok : heap_ok first_heap first_blocks.
Proof.
  split.
  - vm_compute. split_and!; done.
  - intros x ->%list_elem_of_singleton. vm_compute. split_and!; done.
  - intros x ->%list_elem_of_singleton. split; [done|done|done|]. vm_compute. split_and!; done.
  - done.
  - by vm_compute.
  - right. eexists. split; [by apply list_elem_of_singleton|]. by vm_compute.
  - intros x m ->%list_elem_of_singleton Hm. cbn in Hm. apply list_elem_of_singleton in Hm as ->.
    by vm_compute.
Qed.

(** [kmalloc] on the empty heap, when the hook answers with the first pages. *)
Lemma first_malloc (H : PageHooks memory) v v1 :
  liballoc_alloc 16 (Mem v heap_start) = Some (HEAP_START, Mem v1 heap_start) ->
  Liballoc.kmalloc sizeof_free_block (Mem v heap_start) = Some (first_node, Mem v1 first_heap).
Proof.
  intros E. unfold Liballoc.kmalloc. change (_ =? 0) with false. cbv iota beta.
  change (u64 (sizeof_free_block + (ALIGNMENT + ALIGN_INFO))) with 64.
  unfold malloc_sized, sgets, gets, bind at 1. change (l_memRoot (the (Mem v heap_start))) with 0.
  cbn [Z.eqb]. unfold allocate_new_page. change (pages_for (u32 64)) with 16.
  unfold bind at 1 2 3. rewrite E. clear E. vm_compute. reflexivity.
Qed.

(** The state when the free list has been set up. *)
Definition booted (s : paging PMM.pmm) : memory :=
  Mem (MkVmm (map_pages 16 0 0 HEAP_START DIRECTORY_DEFAULTS s)
    {[first_node := MkBlock 0x210000 (MAX_HEAP_SIZE - 16) 0 0]} first_node false false 16
    [Log "[VMM] Mapped fresh pages to %p (%lu pages) (flags: %x)\n" [HEAP_START; 16; DIRECTORY_DEFAULTS]])
    first_heap.
Definition first_list : list (Z * (Z * Z)) := [(first_node, (0x210000, MAX_HEAP_SIZE - 16))].

(** The first [vmm_mmap] of all sets up the list, with a nested [kmalloc] that calls
    [vmm_mmap] again, and goes on as if the list had been there. *)
Lemma first_mmap d s phys n is_kernel :
  kernel_mmap (S d) phys n is_kernel (memory_start s) =
  vmm_mmap (H := nodes (S d)) phys n is_kernel (booted s).
Proof.
  unfold kernel_mmap, vmm_mmap, bind at 1, sgets at 1, gets at 1.
  change (blockchain (the (memory_start s)) =? 0) with true. cbv iota beta.
  unfold bind at 1, mmap_no_list, sgets at 1, gets at 1, bind at 1.
  change (first_alloc (the (memory_start s))) with true. cbv iota beta.
  unfold sgets at 1, gets at 1, bind at 1.
  change (allocating_base (the (memory_start s))) with false. cbn [negb].
  unfold smod at 1, modify at 1, bind at 1.
  change (put _ (memory_start s)) with (Mem (MkVmm s ∅ 0 true true 0 []) heap_start).
  unfold bind at 1. unfold VmmSpace.kmalloc at 1. cbn [nodes].
  erewrite (first_malloc (hooks (S d)) (MkVmm s ∅ 0 true true 0 [])); [|reflexivity].
  unfold bind, sgets, gets, smod, modify, store, ret. reflexivity.
Qed.

Lemma booted_lists s : lists (m_vmm (booted s)) first_list.
Proof.
  split; [apply NoDup_singleton| |done|done|by vm_compute].
  cbn [chain first_list]. split_and!; [done| |done]. apply lookup_singleton_eq.
Qed.

Definition whole_heap : list span := [(HEAP_START, MAX_HEAP_SIZE)].

(** Nothing is mapped yet. *)
Lemma nothing_held : partition whole_heap [].
Proof. split; [by intros x ?%not_elem_of_nil|done|by intros x p ?%not_elem_of_nil]. Qed.

Lemma booted_ok s :
  pages_ok s whole_heap -> frames_for 16 s ->
  memory_ok (booted s) first_blocks first_list [] /\ spends 16 (memory_start s) (booted s).
Proof.
  intros Hp Hav.
  destruct (take_ok whole_heap [] 16 0 HEAP_START first_list.*2 (m_vmm (booted s)) true s Hp nothing_held)
    as (G1 & G2 & _ & G4); [by vm_compute|lia|reflexivity|by split_and!|done|reflexivity|].
  split; [|exact G4]. split; [apply first_heap_ok|apply booted_lists|exact G1|exact G2].
Qed.

(** ** Runs
    A client holds ranges of memory, given by their address and their number of bytes. *)
Definition ranges_apart (h h' : Z * Z) : Prop := h.1 + h.2 <= h'.1 \/ h'.1 + h'.2 <= h.1.
#[export] Instance ranges_apart_sym : Symmetric ranges_apart.
Proof. unfold ranges_apart. intros x y. tauto. Qed.

Inductive memory_step (d : nat) : memory * list (Z * Z) -> memory * list (Z * Z) -> Prop :=
  | step_map k hs phys n is_kernel a k' :
      can_serve n k -> 0 < n -> frame_range phys n ->
      kernel_mmap (S d) phys n is_kernel k = Some (a, k') ->
      memory_step d (k, hs) (k', if a =? 0 then hs else (a, n * 4096) :: hs)
  | step_alloc k hs req p k' :
      can_serve (pages_for (req + 32)) k -> 0 <= req < 2 ^ 31 - 32 ->
      kernel_malloc (S d) req k = Some (p, k') ->
      memory_step d (k, hs) (k', if p =? 0 then hs else (p, req) :: hs).

(** A mapped span, or the memory of a minor block. *)
Definition is_span (A : list span) (h : Z * Z) : Prop := exists a n, (a, n) ∈ A /\ h = (a, n * 4096).
Definition is_block (L : list amaj) (h : Z * Z) : Prop :=
  exists x m, x ∈ L /\ m ∈ am_mins x /\ h = (aligned (m.1 + 40), m.2.2).

Definition holds (k : memory) (l : list (Z * (Z * Z))) (hs : list (Z * Z)) : Prop := exists L A,
  memory_ok k L l A /\ (forall h, h ∈ hs -> is_span A h \/ is_block L h) /\ pairwise ranges_apart hs.

Section Ranges.
Context (k : memory) (L : list amaj) (l : list (Z * (Z * Z))) (A : list span).
Hypothesis Hok : memory_ok k L l A.

Lemma block_inside x m : x ∈ L -> m ∈ am_mins x ->
  m.1 <= aligned (m.1 + 40) /\ aligned (m.1 + 40) + m.2.2 <= min_end m /\
  am_addr x <= m.1 /\ min_end m <= am_end x.
Proof.
  intros Hx Hm. destruct (minor_bounds _ _ (mk_heap _ _ _ _ Hok) x m Hx Hm) as (? & ? & ? & ?).
  pose proof (aligned_spec (m.1 + 40)) as [? _]. unfold min_end in *. lia.
Qed.

(** The pages a range lies in. *)
Lemma range_pages h : is_span A h \/ is_block L h ->
  exists x, x ∈ A ++ spans L /\ x.1 <= h.1 /\ h.1 + h.2 <= span_end x.
Proof.
  intros [(a & n & Ha & ->)|(x & m & Hx & Hm & ->)].
  - exists (a, n). split; [set_solver|]. unfold span_end, PSZ. cbn. lia.
  - exists (am_addr x, am_pages x). split.
    + apply elem_of_app. right. by apply list_elem_of_fmap_2' with x.
    + destruct (block_inside x m Hx Hm) as (? & ? & ? & ?). unfold span_end, PSZ, am_end in *. cbn. lia.
Qed.

Lemma spans_apart x y : x ∈ A ++ spans L -> y ∈ A ++ spans L -> disjoint_spans x y ->
  span_end x <= y.1 \/ span_end y <= x.1.
Proof.
  intros Hx Hy Hd. destruct (pt_inside _ _ (mk_part _ _ _ _ Hok) x Hx) as (_ & ? & _).
  destruct (pt_inside _ _ (mk_part _ _ _ _ Hok) y Hy) as (_ & ? & _).
  destruct (decide (span_end x <= y.1)) as [|N1]; [by left|].
  destruct (decide (span_end y <= x.1)) as [|N2]; [by right|]. exfalso.
  apply (Hd (x.1 `max` y.1)); unfold covers, span_end, PSZ in *; lia.
Qed.

Lemma span_block_apart a n h : (a, n) ∈ A -> is_block L h -> ranges_apart (a, n * 4096) h.
Proof.
  intros Ha (x & m & Hx & Hm & ->). destruct (block_inside x m Hx Hm) as (? & ? & ? & ?).
  assert ((am_addr x, am_pages x) ∈ spans L) as Hs by (by apply list_elem_of_fmap_2' with x).
  assert (disjoint_spans (a, n) (am_addr x, am_pages x)) as Hd.
  { pose proof (pt_pairwise _ _ (mk_part _ _ _ _ Hok)) as Hp. apply list_elem_of_split in Ha as (A1 & A2 & EA).
    rewrite EA, <- app_assoc in Hp. apply (pairwise_mid disjoint_spans) in Hp as [_ Hp].
    rewrite Forall_forall in Hp. apply Hp. set_solver. }
  destruct (spans_apart (a, n) (am_addr x, am_pages x)) as [G|G]; [set_solver..|done| |];
    unfold ranges_apart, span_end, PSZ, am_end in *; cbn [fst snd] in *; lia.
Qed.
End Ranges.

Lemma holds_map B k l hs phys n is_kernel :
  holds k l hs -> can_serve n k -> 0 < n -> frame_range phys n ->
  exists a k' l', vmm_mmap (H := B) phys n is_kernel k = Some (a, k') /\ spends n k k' /\
    holds k' l' (if a =? 0 then hs else (a, n * 4096) :: hs) /\
    match first_fit n l.*2 with None => a = 0 /\ l' = l | Some x => x = (a, l'.*2) /\ a ≠ 0 end.
Proof.
  intros (L & A & Hok & Hh & Hp) Hs Hn F.
  destruct (kernel_mmap_spec B k L l A phys n is_kernel Hok Hs Hn F) as (a & k' & E & Hsp &
    [(-> & -> & Hok')|(Ha & l' & -> & Hok')]).
  - exists 0, k', l. split_and!; try done. by exists L, A.
  - exists a, k', l'. split_and!; try done. destruct (Z.eqb_spec a 0); [done|]. exists L, ((a, n) :: A).
    split; [done|]. split.
    + intros h [->|Hin]%elem_of_cons; [left; exists a, n; set_solver|].
      destruct (Hh h Hin) as [(b & m & Hb & ->)|?]; [left; exists b, m; set_solver|by right].
    + split; [|done]. apply Forall_forall. intros h Hin. destruct (Hh h Hin) as [(b & m & Hb & ->)|Hb].
      * destruct (spans_apart _ _ _ _ Hok' (a, n) (b, m)) as [G|G]; [set_solver..| |unfold ranges_apart, span_end, PSZ in *;
          cbn [fst snd] in *; lia|unfold ranges_apart, span_end, PSZ in *; cbn [fst snd] in *; lia].
        pose proof (pt_pairwise _ _ (mk_part _ _ _ _ Hok')) as [Hq _]. rewrite Forall_forall in Hq.
        apply Hq. set_solver.
      * apply (span_block_apart _ _ _ _ Hok'); [set_solver|done].
Qed.

Lemma holds_alloc d k l hs req :
  holds k l hs -> 0 <= req < 2 ^ 31 - 32 -> can_serve (pages_for (req + 32)) k ->
  exists p k' l', kernel_malloc (S d) req k = Some (p, k') /\ spends (pages_for (req + 32)) k k' /\
    holds k' l' (if p =? 0 then hs else (p, req) :: hs) /\
    ((p = 0 /\ l' = l /\ first_fit (pages_for (req + 32)) l.*2 = None) \/
     (p ≠ 0 /\ shortened (pages_for (req + 32)) l l' /\ p mod 16 = 0)).
Proof.
  intros (L & A & Hok & Hh & Hp) Hreq Hs.
  destruct (kernel_malloc_spec d k L l A req Hok Hreq Hs) as (p & k' & E & Hsp &
    [(-> & Hf & Hok')|(m & L' & l' & Hal & Hsh & Hok')]).
  - exists 0, k', l. split_and!; [done..| |by left]. by exists L, A.
  - pose proof (mk_heap _ _ _ _ Hok') as Hheap.
    destruct (allocated_apart _ _ _ _ _ _ _ Hheap Hal) as (G1 & G2 & G3 & G4 & _).
    destruct (allocated_in _ _ _ _ _ _ Hal) as (x & Hx & Hm & -> & Hold).
    destruct (block_inside _ _ _ _ Hok' x _ Hx Hm) as (I1 & I2 & I3 & _). cbn [fst snd] in *.
    pose proof (major_bounds _ _ Hheap x Hx) as (? & _).
    exists (aligned (m + 40)), k', l'. destruct (Z.eqb_spec (aligned (m + 40)) 0); [lia|].
    split_and!; [done..| |by right]. exists L', A. split; [done|].
    assert (forall h, h ∈ hs -> is_span A h \/ is_block L' h) as Hkept.
    { intros h Hin. destruct (Hh h Hin) as [?|(y & m' & Hy & Hm' & ->)]; [by left|right].
      destruct (Hold y m' Hy Hm') as (y' & ? & _ & _ & ?). by exists y', m'. }
    assert (is_block L' (aligned (m + 40), req)) as Hnew by (by exists x, (m, (req + 32, req))).
    split; [intros h [->|Hin]%elem_of_cons; [by right|by apply Hkept]|].
    split; [|done]. apply Forall_forall. intros h Hin. destruct (Hh h Hin) as [(b & n' & Hb & ->)|(y & m' & Hy & Hm' & ->)].
    + symmetry. by apply (span_block_apart _ _ _ _ Hok').
    + destruct (block_inside _ _ _ _ Hok y m' Hy Hm') as (J1 & J2 & _).
      unfold ranges_apart. cbn [fst snd]. destruct (G4 y m' Hy Hm'); lia.
Qed.

Lemma memory_step_holds d x y : memory_step d x y ->
  (exists l, holds x.1 l x.2) -> exists l, holds y.1 l y.2.
Proof.
  intros Hst (l & Hh). destruct Hst as [k hs phys n isk a k' Hs Hn F E|k hs req p k' Hs Hr E]; cbn [fst snd] in *.
  - destruct (holds_map (nodes (S d)) k l hs phys n isk Hh Hs Hn F) as (a' & k2 & l' & E' & _ & Hh' & _).
    unfold kernel_mmap in E. rewrite E' in E. injection E as -> ->. by exists l'.
  - destruct (holds_alloc d k l hs req Hh Hr Hs) as (p' & k2 & l' & E' & _ & Hh' & _).
    rewrite E' in E. injection E as -> ->. by exists l'.
Qed.

Lemma memory_run_holds d x y : rtc (memory_step d) x y ->
  (exists l, holds x.1 l x.2) -> exists l, holds y.1 l y.2.
Proof. induction 1; eauto using memory_step_holds. Qed.

(** Ranges lie in the heap's pages, apart from the free ones. *)
Lemma holds_inside k l hs h : holds k l hs -> h ∈ hs ->
  HEAP_START <= h.1 /\ h.1 + h.2 <= HEAP_END /\
  forall p, h.1 <= p < h.1 + h.2 -> ~ in_spans l.*2 p.
Proof.
  intros (L & A & Hok & Hh & _) Hin. destruct (range_pages _ _ _ _ Hok h (Hh h Hin)) as (x & Hx & B1 & B2).
  pose proof (mk_part _ _ _ _ Hok) as [P1 _ P3]. destruct (P1 x Hx) as (? & ? & ? & ?).
  split_and!; [lia|lia|]. intros p Hp. apply (P3 x p Hx). unfold covers. lia.
Qed.

(** ** From the start on *)
Lemma frames_split a b s m : 0 <= a -> 0 <= b -> ps_avail (supply s) (4 * Z.to_nat (a + b) + m) ->
  ps_avail (supply s) (4 * Z.to_nat a + (4 * Z.to_nat b + m)).
Proof. intros Ha Hb. by replace (4 * Z.to_nat a + (4 * Z.to_nat b + m))%nat with (4 * Z.to_nat (a + b) + m)%nat by lia. Qed.
Lemma frames_less a b s m : a <= b -> ps_avail (supply s) (4 * Z.to_nat b + m) -> frames_for a s.
Proof. intros Hab H. eapply ps_avail_mono; [exact H|]. lia. Qed.

Lemma booted_holds s : pages_ok s whole_heap -> frames_for 16 s -> holds (booted s) first_list [].
Proof.
  intros Hp Hav. destruct (booted_ok s Hp Hav) as [Hok _]. exists first_blocks, []. split; [done|].
  split; [by intros h ?%not_elem_of_nil|done].
Qed.

(** A free list of one block. *)
Definition one_block (l : list (Z * (Z * Z))) (s N : Z) : Prop := exists a, l = [(a, (s, N))].
Lemma one_block_rest l s N n : one_block l s N -> n < N -> leaves_rest n l.
Proof. intros [a ->] Hn b t Hin. apply list_elem_of_singleton in Hin. simplify_eq. lia. Qed.
Lemma one_block_fit l s N n : one_block l s N -> n < N ->
  first_fit n l.*2 = Some (s, [(s + n * 4096, N - n)]).
Proof.
  intros [a ->] Hn. cbn [fmap list_fmap first_fit snd]. destruct (Z.ltb_spec N n); [lia|].
  by destruct (Z.eqb_spec (N - n) 0); [lia|].
Qed.
Lemma one_block_snd l s N : l.*2 = [(s, N)] -> one_block l s N.
Proof.
  intros E. destruct l as [|[a x] [|]]; cbn in E; [done| |done]. injection E as ->. by exists a.
Qed.
Lemma one_block_shorter l l' s N n : one_block l s N -> n < N -> 0 < n -> shortened n l l' ->
  exists s' N', one_block l' s' N' /\ N - n <= N'.
Proof.
  intros Hl Hn Hn0 [->|(a & E)]; [exists s, N; split; [done|lia]|].
  rewrite (one_block_fit l s N n Hl Hn) in E. injection E as _ E. exists (s + n * 4096), (N - n).
  split; [|lia]. by apply one_block_snd.
Qed.

(** The first mapping. *)
Lemma first_map d s phys n is_kernel m :
  pages_ok s whole_heap -> ps_avail (supply s) (4 * Z.to_nat (16 + n) + m) ->
  0 < n < MAX_HEAP_SIZE - 16 -> frame_range phys n ->
  exists k l, kernel_mmap (S d) phys n is_kernel (memory_start s) = Some (0x210000, k) /\
    holds k l [(0x210000, n * 4096)] /\ one_block l (0x210000 + n * 4096) (MAX_HEAP_SIZE - 16 - n) /\
    ps_avail (supply (pg (m_vmm k))) m.
Proof.
  intros Hp Hav Hn F. assert (frames_for 16 s) as Hav16 by (eapply frames_less; [|exact Hav]; lia).
  destruct (booted_ok s Hp Hav16) as [_ Hsp]. apply frames_split in Hav; [|lia..]. apply Hsp in Hav.
  assert (one_block first_list 0x210000 (MAX_HEAP_SIZE - 16)) as H1 by (by eexists).
  assert (can_serve n (booted s)) as Hcan.
  { split; [exists first_list; split; [apply booted_lists|eapply one_block_rest; [exact H1|lia]]|].
    eapply frames_less; [|exact Hav]. lia. }
  destruct (holds_map (nodes (S d)) (booted s) first_list [] phys n is_kernel (booted_holds s Hp Hav16) Hcan
    ltac:(lia) F) as (a & k & l & E & Hsp1 & Hh & Hfit).
  rewrite (one_block_fit _ _ _ n H1 ltac:(lia)) in Hfit. destruct Hfit as [[= <- El] _].
  exists k, l. rewrite first_mmap. split_and!; [exact E|exact Hh|by apply one_block_snd|by apply Hsp1].
Qed.

(** A further allocation, with room left in the last block. *)
Lemma next_malloc d k l hs req s N m :
  holds k l hs -> one_block l s N -> 0 <= req < 2 ^ 31 - 32 -> pages_for (req + 32) < N ->
  ps_avail (supply (pg (m_vmm k))) (4 * Z.to_nat (pages_for (req + 32)) + m) ->
  exists p k' l' s' N', kernel_malloc (S d) req k = Some (p, k') /\ p ≠ 0 /\ p mod 16 = 0 /\
    holds k' l' ((p, req) :: hs) /\ one_block l' s' N' /\ N - pages_for (req + 32) <= N' /\
    ps_avail (supply (pg (m_vmm k'))) m.
Proof.
  intros Hh Hl Hr Hfit Hav. destruct (pages_for_spec (req + 32) ltac:(lia)) as [_ Hst].
  pose proof Hh as (L & A & Hok & _). assert (can_serve (pages_for (req + 32)) k) as Hcan.
  { split; [|by eapply frames_less; [|exact Hav]].
    exists l. split; [apply (mk_list _ _ _ _ Hok)|]. by eapply one_block_rest. }
  destruct (holds_alloc d k l hs req Hh Hr Hcan) as (p & k' & l' & E & Hsp & Hh' & [(_ & _ & Hn)|(Hp & Hs & Hal)]).
  - by rewrite (one_block_fit _ _ _ _ Hl Hfit) in Hn.
  - destruct (one_block_shorter _ _ _ _ _ Hl Hfit ltac:(lia) Hs) as (s' & N' & Hl' & Hle).
    destruct (Z.eqb_spec p 0); [done|]. exists p, k', l', s', N'. split_and!; try done. by apply Hsp.
Qed.

(** ** The properties *)


(** *** The start of the kernel *)
Import Ports Console ConsoleProps ConsoleLog ConsoleBoot Kernel KernelProps.
Section Boot.
Context {B : Type} `{!PortBus B} `{!PicBus B} (d : nat).
#[export] Instance memory_managers : KernelMemory memory :=
  {| mm_mmap := kernel_mmap (S d); mm_kmalloc := kernel_malloc (S d) |}.

(** Video modes whose three buffers fit into the heap. *)
Definition fb_pages (v : vbe_screen_info) : Z := fb_bytes v / 4096.
Definition copy_pages (v : vbe_screen_info) : Z := pages_for (fb_bytes v + 32).
Record mode_fits (v : vbe_screen_info) : Prop := {
  mf_mode : mode_ok v;
  mf_phys : 0 <= physical_buffer v < 2 ^ 32;
  mf_pages : 0 < fb_pages v;
  mf_size : fb_bytes v < 2 ^ 31 - 32;
  mf_room : fb_pages v + 2 * copy_pages v < MAX_HEAP_SIZE - 16
}.

Lemma page_floor x : x &&& Z.lnot 0xfff = x / 4096 * 4096.
Proof.
  rewrite <- Z.ldiff_land. change 0xfff with (Z.ones 12).
  by rewrite Z.ldiff_ones_r, Z.shiftl_mul_pow2, Z.shiftr_div_pow2 by lia.
Qed.

Lemma mode_fits_range v : mode_fits v -> frame_range (physical_buffer v &&& Z.lnot 0xfff) (fb_pages v).
Proof.
  intros [_ H1 H2 H3 _]. rewrite page_floor. split; [by apply Z.mod_mul|].
  pose proof (Z.mul_div_le (physical_buffer v) 4096 ltac:(lia)).
  pose proof (Z.div_pos (physical_buffer v) 4096 ltac:(lia) ltac:(lia)).
  assert (fb_pages v <= 2 ^ 31 / 4096) by (apply Z.div_le_mono; lia).
  change (2 ^ 31 / 4096) with 524288 in *. lia.
Qed.

(** The three requests of [vga_init]. *)
Lemma screen_memory v s :
  mode_fits v -> pages_ok s whole_heap -> frames_for (16 + fb_pages v + 2 * copy_pages v) s ->
  exists back bg h l, mm_served (screen_requests v 0x210000 back bg) (memory_start s) h /\
    back mod 16 = 0 /\ bg mod 16 = 0 /\
    holds h l [(bg, fb_bytes v); (back, fb_bytes v); (0x210000, fb_pages v * 4096)].
Proof.
  intros Hm Hp Hav. pose proof (mode_fits_range v Hm) as F. destruct Hm as [[M1 M2 _ _ _] _ H2 H3 H4].
  assert (0 <= fb_bytes v < 2 ^ 31 - 32) as Hb by (unfold fb_bytes, Font.FONT_WIDTH, Font.FONT_HEIGHT in *; nia).
  destruct (pages_for_spec (fb_bytes v + 32) ltac:(lia)) as [_ Hq]. fold (copy_pages v) in Hq.
  assert (ps_avail (supply s) (4 * Z.to_nat (16 + fb_pages v) +
    (4 * Z.to_nat (copy_pages v) + (4 * Z.to_nat (copy_pages v) + 0)))) as Hav0
    by (eapply ps_avail_mono; [exact Hav|]; lia).
  destruct (first_map d s _ _ true _ Hp Hav0 ltac:(lia) F) as (k1 & l1 & E1 & Hh1 & Hl1 & Hav1).
  destruct (next_malloc d k1 l1 _ (fb_bytes v) _ _ _ Hh1 Hl1 Hb ltac:(fold (copy_pages v); lia) Hav1)
    as (back & k2 & l2 & s2 & N2 & E2 & _ & Al2 & Hh2 & Hl2 & Hle & Hav2). fold (copy_pages v) in Hle.
  destruct (next_malloc d k2 l2 _ (fb_bytes v) _ _ _ Hh2 Hl2 Hb ltac:(fold (copy_pages v); lia) Hav2)
    as (bg & k3 & l3 & s3 & N3 & E3 & _ & Al3 & Hh3 & _).
  exists back, bg, k3, l3. split; [|split; [exact Al2|split; [exact Al3|exact Hh3]]].
  exists k1. split; [exact E1|]. exists k2. split; [exact E2|]. exists k3. split; [exact E3|reflexivity].
Qed.
(** The machine at [kmain], with the memory managers before their first call. *)
Record machine_start (v : vbe_screen_info) (s : paging PMM.pmm) (k : kernel B memory) : Prop := {
  ms_con : con k = console_start v;
  ms_chips : chips_ok (chips k);
  ms_kbd : k_kbd k = Keyboard.keyboard_start;
  ms_idt : k_idt k = Descriptors.idt_start;
  ms_tasks : k_tasks k = Descriptors.tasks_start;
  ms_mem : k_mem k = memory_start s;
  ms_pages : pages_ok s whole_heap;
  ms_frames : frames_for (16 + fb_pages v + 2 * copy_pages v) s
}.

Lemma range_buffer k l hs a n : holds k l hs -> (a, n) ∈ hs -> a mod 16 = 0 -> buffer_ok n a.
Proof.
  intros Hh Hin Ha. destruct (holds_inside k l hs _ Hh Hin) as (B1 & B2 & _). cbn [fst snd] in *.
  pose proof heap_end_small. unfold buffer_ok, HEAP_START in *. split_and!; [lia|lia|done].
Qed.

Lemma machine_fresh v s k :
  mode_fits v -> fb_bytes v mod 4096 = 0 -> machine_start v s k ->
  exists back bg h, fresh v 0x210000 back bg h k.
Proof.
  intros Hm Hw [S1 S2 S3 S4 S5 S6 S7 S8].
  destruct (screen_memory v s Hm S7 S8) as (back & bg & h & l & Hs & Ab & Ag & Hh).
  assert (fb_pages v * 4096 = fb_bytes v) as Ew.
  { unfold fb_pages. pose proof (Z.div_mod (fb_bytes v) 4096 ltac:(lia)). lia. }
  rewrite Ew in Hh. exists back, bg, h. pose proof Hh as (L & A & Hok & _ & Hpw).
  cbn [pairwise] in Hpw. destruct Hpw as ([P1 [P2 _]%Forall_cons]%Forall_cons & [P3 _]%Forall_cons & _).
  unfold ranges_apart in P1, P2, P3. cbn [fst snd] in P1, P2, P3.
  pose proof (mk_pages _ _ _ _ Hok) as [[O HO] Hlow _].
  split; [exact S1|apply Hm|rewrite S6; exact Hs| | | | |exact S2|exact S3|exact S4|exact S5|].
  - apply (range_buffer h l _ _ _ Hh); [do 2 apply list_elem_of_further; apply list_elem_of_here|reflexivity].
  - apply (range_buffer h l _ _ _ Hh); [apply list_elem_of_further, list_elem_of_here|exact Ab].
  - apply (range_buffer h l _ _ _ Hh); [apply list_elem_of_here|exact Ag].
  - clear - P1 P2 P3. unfold ConsoleBoot.apart. split_and!; lia.
  - exists O. split; [exact HO|exact Hlow].
Qed.

End Boot.

(** The mode the boot loader asks for: 800 by 600 pixels of 32 bits. *)
Definition svga_mode : vbe_screen_info := Vbe 800 600 32 0xfd000000 4 3200 46 88.

(** The requests of [vga_init], one after the other. *)
Definition screen_run (d : nat) (v : vbe_screen_info) : M memory (Z * Z * Z) :=
  let! front := kernel_mmap d (physical_buffer v &&& Z.lnot 0xfff) (fb_bytes v / 4096) true in
  let! back := kernel_malloc d (fb_bytes v) in
  let! bg := kernel_malloc d (fb_bytes v) in
  ret (front, back, bg).



(** ** Concrete runs *)
Lemma boot_pages_ok : pages_ok boot_state whole_heap.
Proof.
  split; [exists (boot_owner 0x24000); apply boot_state_ok|apply boot_state_mapped|].
  intros p (x & ->%list_elem_of_singleton & Hc). apply boot_unmapped. pose proof heap_end_small.
  change (covers (HEAP_START, MAX_HEAP_SIZE) p) with (HEAP_START <= p < HEAP_END) in Hc.
  unfold HEAP_START in Hc. lia.
Qed.
Lemma boot_frames n : 0 <= n <= 8000 -> frames_for n boot_state.
Proof. intros Hn. apply boot_state_avail. lia. Qed.


(** A screen of one page: 32 by 32 pixels. *)
Definition page_mode : vbe_screen_info := Vbe 32 32 32 0xfd000000 4 128 2 1.
Lemma page_mode_fits : mode_fits page_mode.
Proof.
  split; [|cbn; lia|by vm_compute|by vm_compute|by vm_compute].
  split; reflexivity || (cbn; unfold Font.FONT_WIDTH, Font.FONT_HEIGHT; lia).
Qed.
Definition page_kernel : kernel pc memory :=
  MkKernel _ _ pc_bios (console_start page_mode) (Interrupts.Timer 0) Keyboard.keyboard_start
    Descriptors.idt_start Descriptors.tasks_start (memory_start boot_state).
Lemma page_kernel_start : machine_start page_mode boot_state page_kernel.
Proof.
  split; [reflexivity|apply pc_bios_ok|reflexivity..|apply boot_pages_ok|apply boot_frames].
  by vm_compute.
Qed.


End KernelHeap.
