(* ===== verification/Syscalls.v ===== *)
(** System calls (syscalls.c): the kernel's side of [write], [writev], [open], [mmap],
    [ioctl] and [brk], and the dispatcher [handle_syscall].

    User memory is the byte memory [ram] of the console; buffers, paths and I/O vectors are
    read from it where the user's pointers point.  [ssize_t] is [int] (syscalls.h), so counts
    are cut to 32 bits.  The string literal of [open] is at the address [DEV_MEM]. *)
From S2P Require Import Prelude KMonad Font Ports KString KStringProps Console ConsoleProps ConsoleLog ConsoleBoot.
From S2P Require Import Reports Interrupts Kernel.
From Stdlib Require Import Ascii.
Import Font Ports Console ConsoleProps ConsoleLog ConsoleBoot Reports Interrupts Kernel.
#[global] Open Scope Z_scope.

Module Syscalls.
Import KString KStringProps.

(** ** Data *)
Record iovec := Iovec { iov_base : Z; iov_len : Z }.
Record winsize := Winsize { ws_row : Z; ws_col : Z; ws_xpixel : Z; ws_ypixel : Z }.

Definition NR_write : Z := 1.
Definition NR_open : Z := 2.
Definition NR_mmap : Z := 9.
Definition NR_brk : Z := 12.
Definition NR_ioctl : Z := 16.
Definition NR_writev : Z := 20.

(** Little-endian words in memory. *)
Fixpoint load (n : nat) (m : mem) (a : Z) : Z :=
  match n with O => 0 | S n => rd m (u64 a) + 256 * load n m (a + 1) end.
Fixpoint store (n : nat) (a v : Z) (m : mem) : mem :=
  match n with O => m | S n => store n (a + 1) (v / 256) (wr (u64 a) (v mod 256) m) end.
Definition load_iovec (m : mem) (iov i : Z) : iovec :=
  Iovec (load 8 m (iov + 16 * i)) (load 8 m (iov + 16 * i + 8)).
Definition store_winsize (a : Z) (w : winsize) (m : mem) : mem :=
  store 2 (a + 6) (ws_ypixel w) (store 2 (a + 4) (ws_xpixel w)
    (store 2 (a + 2) (ws_col w) (store 2 a (ws_row w) m))).

(** The NUL-terminated string at [p]; [None] when there is no end in sight. *)
Fixpoint load_string (fuel : nat) (m : mem) (p : Z) : option (list Z) :=
  match fuel with
  | O => None
  | S fuel => if rd m p =? 0 then Some [] else l ← load_string fuel m (u64 (p + 1)); Some (rd m p :: l)
  end.

(** A double quote. *)
Definition dq : string := String "034"%char EmptyString.

Section Ops.
Context {K : Type} `{!Has console K} `{!PortBus K} `{!Has ram K} `{!ScreenMemory K}.
Variable fuel : nat.
Variable DEV_MEM : Z.

Definition get_string (p : Z) : M K (list Z) :=
  let! m := sgets ram_bytes in
  match load_string fuel m p with Some l => ret l | None => fault end.

Definition write (fd buf count : Z) : M K Z :=
  log_n buf count ;;;
  ret (s32 count).

Definition ioctl (fd request arg : Z) : M K Z :=
  if u32 request =? 0x5413 then
    let! c := gets con in
    let v := vbe_info c in
    smod (fun r => Ram (store_winsize arg
      (Winsize (u16 (y_cur_max v)) (u16 (x_cur_max v)) (u16 (width v)) (u16 (height v))) (ram_bytes r))) ;;;
    ret 0
  else
    log "Unknown IOCTL request %x\n" [Num request] ;;;
    ret (-1).

Fixpoint writev_loop (n : nat) (fd iov i written : Z) : M K Z :=
  match n with
  | O => ret written
  | S n =>
      let! m := sgets ram_bytes in
      let v := load_iovec m iov i in
      let! _ := write fd (iov_base v) (iov_len v) in
      let! m := sgets ram_bytes in
      writev_loop n fd iov (i + 1) (s32 (written + s32 (iov_len (load_iovec m iov i))))
  end.
Definition writev (fd iov iovcnt : Z) : M K Z := writev_loop (Z.to_nat iovcnt) fd iov 0 0.

Definition brk (addr : Z) : M K Z := ret (-1).

Definition open (pathname flags : Z) : M K Z :=
  let! m := sgets ram_bytes in
  match strcmp fuel m pathname DEV_MEM with
  | None => fault
  | Some r =>
      if truth r then
        let! path := get_string pathname in
        log ("open: pathname must be " +:+ dq +:+ "/dev/mem" +:+ dq +:+ ", got " +:+ dq +:+ "%s" +:+ dq +:+ "\n")
          [Str path] ;;;
        ret (-1)
      else ret (s32 0xdeadbeef)
  end.

Definition mmap (addr len prot flags fd offset : Z) : M K Z :=
  let pages := len / Console.PAGE_SIZE in
  if (fd =? -1) && (addr =? 0) then
    let! addr := vmm_mmap 0 pages false in
    ret (u64 (addr + offset))
  else if negb (addr mod Console.PAGE_SIZE =? 0) then
    log "[VMM] mmap: addr must be page-aligned, got %x\n" [Num addr] ;;;
    ret (u64 (-1))
  else if negb (u32 fd =? 0xdeadbeef) then
    log ("[VMM] mmap: fd must be -1 (malloc) or 0xdeadbeef (" +:+ dq +:+ "/dev/mem" +:+ dq +:+ "), got %x\n") [Num fd] ;;;
    ret (u64 (-1))
  else
    let! c := gets con in
    let physical := physical_buffer (vbe_info c) &&& Z.lnot 0xfff in
    let! addr := (if addr =? 0 then vmm_mmap physical pages false else ret addr) in
    ret (u64 (addr + offset)).

Definition handle_syscall (a b c d e f n : Z) : M K Z :=
  if n =? NR_write then
    log "SYSCALL: [write] %ld bytes to FD %ld\n" [Num c; Num a] ;;;
    let! r := write (s32 a) (u64 b) (u64 c) in ret (s32 r)
  else if n =? NR_ioctl then
    log "SYSCALL: [ioctl] for FD %ld, request %lx\n" [Num a; Num b] ;;;
    ioctl (s32 a) (s32 b) (u64 c)
  else if n =? NR_writev then
    log "SYSCALL: [writev] %ld buffers to FD %ld\n" [Num c; Num a] ;;;
    let! r := writev (s32 a) (u64 b) (s32 c) in ret (s32 r)
  else if n =? NR_open then
    let! path := get_string (u64 a) in
    log "SYSCALL: [open] %s\n" [Str path] ;;;
    open (u64 a) (s32 b)
  else if n =? NR_mmap then
    log "SYSCALL: [mmap] %ld bytes at %lx with offset %ld of file %ld\n" [Num b; Num a; Num f; Num e] ;;;
    let! p := mmap (u64 a) (u64 b) (s32 c) (s32 d) (s32 e) f in ret (s32 p)
  else if n =? NR_brk then
    log "SYSCALL: [brk] %lx\n" [Num a] ;;;
    brk (u64 a)
  else
    log "UNHANDLED SYSCALL %ld with args %ld %ld %ld %ld %ld %ld\n"
      [Num n; Num a; Num b; Num c; Num d; Num e; Num f] ;;;
    ret (-1).
End Ops.

(** ** Memory *)
(** The bytes [l] are at [a], and the range does not wrap around. *)
Definition bytes_at (m : mem) (a : Z) (l : list Z) : Prop :=
  0 <= a /\ a + Z.of_nat (length l) < 2 ^ 64 /\
  forall i ch, l !! i = Some ch -> rd m (a + Z.of_nat i) = ch.

(** The I/O vector at [iov] describes the buffers [ls]. *)
Definition gathers (m : mem) (iov : Z) (ls : list (list Z)) : Prop :=
  forall i l, ls !! i = Some l ->
    let v := load_iovec m iov (Z.of_nat i) in iov_len v = Z.of_nat (length l) /\ bytes_at m (iov_base v) l.

Section Specs.
Context {K : Type} `{!Has console K} `{!PortBus K} `{!ConsoleBus K} `{!Has ram K} `{!RamBus K} `{!ScreenMemory K}.
Implicit Types k : K.
Variable fuel : nat.
Variable DEV_MEM : Z.

Lemma prints_mem k t out k' : prints k t out k' -> mem_of k' = mem_of k.
Proof. intros (c' & -> & _). unfold mem_of at 1. rewrite ram_put. apply mem_sent. Qed.

Lemma write_ok k t fd buf l :
  ready k t -> bytes_at (mem_of k) buf l -> Forall drawable l ->
  wp (write fd buf (Z.of_nat (length l))) k (fun r k' => r = s32 (Z.of_nat (length l)) /\ prints k t l k').
Proof.
  intros [Hs W] (H0 & H1 & Hm) Hd. unfold write. wp1.
  eapply wp_mono; [by apply (log_n_spec k t l buf)|]. intros [] k' (c' & Hk). cbv beta. apply wp_ret.
  split; [done|]. by exists c'.
Qed.

Definition total (ls : list (list Z)) : Z := Z.of_nat (length (concat ls)).

Lemma writev_loop_ok k t out k1 fd iov ls i written :
  ready k t -> prints k t out k1 -> 0 <= i ->
  (forall j l, ls !! j = Some l ->
    let v := load_iovec (mem_of k1) iov (i + Z.of_nat j) in
    iov_len v = Z.of_nat (length l) /\ bytes_at (mem_of k1) (iov_base v) l) ->
  Forall (Forall drawable) ls -> 0 <= written -> written + total ls < 2 ^ 31 ->
  wp (writev_loop (length ls) fd iov i written) k1 (fun r k' =>
    r = written + total ls /\ prints k t (out ++ concat ls) k').
Proof.
  intros Hr. revert out k1 i written. induction ls as [|l ls IH]; intros out k1 i written Hp Hi Hg Hd Hw Ht;
    cbn [writev_loop length concat].
  { apply wp_ret. unfold total. cbn. rewrite app_nil_r. split; [lia|done]. }
  apply Forall_cons in Hd as [Hl Hd]. wp1. apply wp_sgets.
  destruct (Hg 0%nat l eq_refl) as [E1 E2]. cbn [Z.of_nat] in E1, E2. rewrite Z.add_0_r in E1, E2.
  change (ram_bytes (the k1)) with (mem_of k1). cbv zeta. rewrite E1.
  wp1. eapply wp_mono; [apply (write_ok k1 (after k t out)); [|done|done]|].
  { apply prints_ready; [apply Hr|done]. }
  intros r k2 [-> Hp2]. cbv beta. wp1. apply wp_sgets.
  change (ram_bytes (the k2)) with (mem_of k2). rewrite (prints_mem _ _ _ _ Hp2), E1.
  unfold total in Ht. cbn [concat] in Ht. rewrite length_app in Ht.
  rewrite (swrap_small 32 (Z.of_nat (length l))), swrap_small by (unfold in_s; lia).
  eapply wp_mono; [apply (IH (out ++ l)); [by eapply prints_app|lia| |done|lia|unfold total; lia]|].
  - intros j l' Hj. rewrite (prints_mem _ _ _ _ Hp2). destruct (Hg (S j) l' Hj) as [F1 F2].
    replace (i + 1 + Z.of_nat j) with (i + Z.of_nat (S j)) by lia. done.
  - intros r k' [-> Hk]. unfold total. cbn [concat]. rewrite length_app, app_assoc. split; [lia|done].
Qed.

(** C13: [writev] prints its buffers one after the other.  For an I/O vector whose buffers
    hold characters the console can show, of less than 2^31 bytes altogether, the system
    call prints its line of trace and then the concatenation of the buffers, in order and
    nothing else; it returns the number of bytes, and leaves user memory alone. *)
Theorem writev_gathers k (t : term) (fd iov d e f : Z) (ls : list (list Z)) :
  ready k t -> gathers (mem_of k) iov ls -> Forall (Forall drawable) ls ->
  in_u 64 iov -> Z.of_nat (length ls) < 2 ^ 31 -> total ls < 2 ^ 31 ->
  exists hdr k', line_text ("SYSCALL: [writev] %ld buffers to FD %ld\n"%string,
      [Num (Z.of_nat (length ls)); Num fd]) = Some hdr /\
    handle_syscall fuel DEV_MEM fd iov (Z.of_nat (length ls)) d e f NR_writev k = Some (total ls, k') /\
    prints k t (hdr ++ concat ls) k' /\ mem_of k' = mem_of k.
Proof.
  intros Hr Hg Hd Hu Hl Ht. unfold handle_syscall. cbn [Z.eqb Pos.eqb NR_write NR_ioctl NR_writev].
  destruct (log_line k t "SYSCALL: [writev] %ld buffers to FD %ld\n" [Num (Z.of_nat (length ls)); Num fd] Hr eq_refl)
    as (hdr & k1 & E1 & E2 & _ & Hp).
  assert (wp (writev (s32 fd) (u64 iov) (s32 (Z.of_nat (length ls)))) k1 (fun r k' =>
    r = 0 + total ls /\ prints k t (hdr ++ concat ls) k')) as Hw.
  { rewrite (wrap_small 64 iov), (swrap_small 32 (Z.of_nat (length ls))) by (first [done|unfold in_s; lia]).
    unfold writev. rewrite Nat2Z.id.
    apply writev_loop_ok; try done. intros j l Hj. rewrite (prints_mem _ _ _ _ Hp). by apply Hg. }
  destruct (wp_run _ _ _ Hw) as (r & k' & E3 & -> & Hp2).
  exists hdr, k'. split; [done|]. split; [|split; [done|by eapply prints_mem]].
  unfold bind. rewrite E2, E3. unfold ret. rewrite Z.add_0_l, swrap_small by (unfold in_s, total in *; lia). done.
Qed.

(** *** [open] *)
Lemma load_string_cstr m p l n : cstr m p l -> (length l < n)%nat -> load_string n m p = Some l.
Proof.
  revert p l. induction n as [|n IH]; intros p l Hc Hn; [lia|]. cbn [load_string]. destruct l as [|c l].
  - by rewrite (cstr_nil m p Hc).
  - apply cstr_cons in Hc as (-> & Hc & E & Hl). unfold byte_ok in Hc. destruct (Z.eqb_spec c 0); [lia|].
    rewrite E, (IH _ l); [done|done|]. cbn [length] in Hn. lia.
Qed.

Definition open_error (path : list Z) : line :=
  (("open: pathname must be " +:+ dq +:+ "/dev/mem" +:+ dq +:+ ", got " +:+ dq +:+ "%s" +:+ dq +:+ "\n")%string, [Str path]).

Lemma open_lines_fit path :
  Forall drawable path -> (length path <= 400)%nat ->
  fits ("SYSCALL: [open] %s\n"%string, [Str path]) = true /\ fits (open_error path) = true.
Proof.
  intros Hd Hl. assert (drawables path = true) as E by by apply bool_decide_eq_true_2.
  split; unfold fits, open_error; cbn [fst snd]; cbv -[drawables length Nat.ltb Nat.add]; rewrite E;
    cbv -[drawables length Nat.ltb Nat.add]; apply Nat.ltb_lt; lia.
Qed.

(** [open] accepts one path.  For a path of up to 400 characters the console can show, the
    system call prints its line of trace; it returns the descriptor 0xdeadbeef (as a 32-bit
    [int]) and prints nothing more exactly when the path is /dev/mem, and otherwise prints the
    error message with the path in it and returns -1. *)
Theorem open_accepts_dev_mem k (t : term) (a b c d e f : Z) (path : list Z) :
  ready k t -> in_u 64 a -> cstr (mem_of k) a path -> cstr (mem_of k) DEV_MEM (bytes "/dev/mem") ->
  Forall drawable path -> (length path <= 400)%nat -> (400 < fuel)%nat ->
  exists hdr msg k', line_text ("SYSCALL: [open] %s\n"%string, [Str path]) = Some hdr /\
    line_text (open_error path) = Some msg /\
    let ok := bool_decide (path = bytes "/dev/mem") in
    handle_syscall fuel DEV_MEM a b c d e f NR_open k
      = Some (if ok then 0xdeadbeef - 2 ^ 32 else -1, k') /\
    prints k t (if ok then hdr else hdr ++ msg) k'.
Proof.
  intros Hr Hu Hp Hdev Hd Hl Hfuel. destruct (open_lines_fit path Hd Hl) as [F1 F2].
  destruct (log_line k t _ _ Hr F1) as (hdr & k1 & E1 & L1 & _ & P1).
  assert (ready k1 (after k t hdr)) as Hr1 by (apply prints_ready; [apply Hr|done]).
  destruct (log_line k1 _ _ _ Hr1 F2) as (msg & k2 & E2 & L2 & _ & P2).
  pose proof (load_string_cstr _ _ _ fuel Hp ltac:(lia)) as Hls.
  destruct (strcmp_cstr fuel _ _ _ _ _ Hp Hdev ltac:(lia)) as (r & Er & Hrr).
  assert (mem_of k1 = mem_of k) as Em by by eapply prints_mem.
  exists hdr, msg. case_bool_decide as Hpath; [exists k1|exists k2]; (split; [done|]); (split; [done|]); cbv zeta.
  all: split; [|done || by eapply prints_app].
  all: unfold handle_syscall; cbn [Z.eqb Pos.eqb NR_write NR_ioctl NR_writev NR_open].
  all: rewrite (wrap_small 64 a) by done; unfold get_string, sgets, gets, bind.
  all: change (ram_bytes (the k)) with (mem_of k); rewrite Hls; unfold ret; rewrite L1; unfold open, sgets, gets, bind.
  all: change (ram_bytes (the k1)) with (mem_of k1); rewrite Em, Er; unfold truth.
  - rewrite (proj2 Hrr Hpath). done.
  - destruct (Z.eqb_spec r 0); [naive_solver|]. cbn [negb]. unfold get_string, sgets, gets, bind.
    change (ram_bytes (the k1)) with (mem_of k1). rewrite Em, Hls. unfold ret. by rewrite L2.
Qed.

(** *** Calls without a handler *)
Definition unhandled (n : Z) : Prop :=
  n <> NR_write /\ n <> NR_open /\ n <> NR_mmap /\ n <> NR_brk /\ n <> NR_ioctl /\ n <> NR_writev.

(** a system call without a handler is refused.  For every other number, and whatever the
    arguments, [handle_syscall] returns -1, prints one line that names the call and its six
    arguments, and changes nothing else. *)
Theorem unknown_syscall_refused k (t : term) (a b c d e f n : Z) :
  ready k t -> unhandled n ->
  exists msg k', line_text ("UNHANDLED SYSCALL %ld with args %ld %ld %ld %ld %ld %ld\n"%string,
      [Num n; Num a; Num b; Num c; Num d; Num e; Num f]) = Some msg /\
    handle_syscall fuel DEV_MEM a b c d e f n k = Some (-1, k') /\ prints k t msg k' /\ mem_of k' = mem_of k.
Proof.
  intros Hr (N1 & N2 & N3 & N4 & N5 & N6).
  destruct (log_line k t "UNHANDLED SYSCALL %ld with args %ld %ld %ld %ld %ld %ld\n"
    [Num n; Num a; Num b; Num c; Num d; Num e; Num f] Hr eq_refl) as (msg & k' & E1 & E2 & _ & Hp).
  exists msg, k'. split; [done|]. split; [|split; [done|by eapply prints_mem]].
  unfold handle_syscall. rewrite !(proj2 (Z.eqb_neq _ _)) by done. unfold bind. by rewrite E2.
Qed.
End Specs.

(** ** Concrete runs *)
#[export] Instance machine_memory : ScreenMemory machine := {|
  vmm_mmap := fun _ _ _ => ret 0x210000; kmalloc := fun _ => ret 0x220000
|}.

(** Two buffers at 3000 and 3100 and an I/O vector at 4000; the literal at 5000. *)
Definition user_memory : mem :=
  put_string (bytes "/dev/mem") 5000
    (store 8 4024 2 (store 8 4016 3100 (store 8 4008 2 (store 8 4000 3000
      (put_string (bytes "cd") 3100 (put_string (bytes "ab") 3000 ∅)))))).
Definition user_machine : machine := Machine pc_bios small_console (Ram user_memory).

Lemma user_machine_ready : ready user_machine blank.
Proof. split; [apply machine0_shows|reflexivity]. Qed.

Lemma writev_gathers_witness :
  exists hdr k', line_text ("SYSCALL: [writev] %ld buffers to FD %ld\n"%string, [Num 2; Num 1]) = Some hdr /\
    handle_syscall 500 5000 1 4000 2 0 0 0 NR_writev user_machine = Some (4, k') /\
    prints user_machine blank (hdr ++ bytes "abcd") k' /\ mem_of k' = mem_of user_machine.
Proof.
  apply (writev_gathers 500 5000 user_machine blank 1 4000 0 0 0 [bytes "ab"; bytes "cd"] user_machine_ready).
  - intros i l Hi. destruct i as [|[|i]]; [| |done]; injection Hi as <-; (split; [vm_compute; reflexivity|]);
      (split; [vm_compute; done|]); (split; [vm_compute; done|]); intros [|[|j]] ch Hj; try done;
      injection Hj as <-; vm_compute; reflexivity.
  - repeat (apply Forall_cons; split; [|]); try apply Forall_nil_2; left; by vm_compute.
  - unfold in_u. lia.
  - cbn. lia.
  - by vm_compute.
Defined.

Lemma open_accepts_dev_mem_witness :
  exists hdr k', line_text ("SYSCALL: [open] %s\n"%string, [Str (bytes "/dev/mem")]) = Some hdr /\
    handle_syscall 500 5000 5000 0 0 0 0 0 NR_open user_machine = Some (-559038737, k') /\
    prints user_machine blank hdr k'.
Proof.
  assert (cstr (mem_of user_machine) 5000 (bytes "/dev/mem")) as Hc.
  { split_and!; [|vm_compute; reflexivity| |lia|cbn; lia].
    - intros i ch Hi. do 8 (destruct i as [|i]; [injection Hi as <-; vm_compute; reflexivity|]). done.
    - repeat (apply Forall_cons; split; [by vm_compute|]). apply Forall_nil_2. }
  destruct (open_accepts_dev_mem 500 5000 user_machine blank 5000 0 0 0 0 0 (bytes "/dev/mem")
    user_machine_ready ltac:(unfold in_u; lia) Hc Hc) as (hdr & msg & k' & H1 & _ & H2 & H3).
  - repeat (apply Forall_cons; split; [left; by vm_compute|]). apply Forall_nil_2.
  - cbn. lia.
  - lia.
  - exists hdr, k'. exact (conj H1 (conj H2 H3)).
Defined.

Lemma unknown_syscall_refused_witness :
  exists msg k', line_text ("UNHANDLED SYSCALL %ld with args %ld %ld %ld %ld %ld %ld\n"%string,
      [Num 123; Num 10; Num 11; Num 12; Num 13; Num 14; Num 15]) = Some msg /\
    handle_syscall 500 5000 10 11 12 13 14 15 123 user_machine = Some (-1, k') /\
    prints user_machine blank msg k' /\ mem_of k' = mem_of user_machine.
Proof.
  apply (unknown_syscall_refused 500 5000 user_machine blank 10 11 12 13 14 15 123 user_machine_ready).
  by repeat split.
Defined.

End Syscalls.
