(* ===== verification/Os.v ===== *)
(** The user program (os/src/Main.c): the bouncing square of [dvd_bounce].

    The three buffers of 800 by 600 pixels are maps from pixel indices; writing outside a
    buffer is a fault.  [frame] is one round of the endless loop; the busy wait at its end
    has no effect.  [original] is the picture found on the screen. *)
From S2P Require Import Prelude KMonad.
#[global] Open Scope Z_scope.

Module Os.

Definition FB_SIZE : Z := 800 * 600 * 4.
Definition PIXELS : Z := FB_SIZE / 4.

Record dvd := Dvd {
  x : Z; y : Z; dx : Z; dy : Z;
  backbuffer : gmap Z Z;
  screen : gmap Z Z
}.
Definition move (x y dx dy : Z) (d : dvd) : dvd := Dvd x y dx dy (backbuffer d) (screen d).

Section Loop.
Variable original : gmap Z Z.

(** [((uint32_t * ) backbuffer)[i] = v] *)
Definition put_pixel (i v : Z) : M dvd unit := fun d =>
  if (0 <=? i) && (i <? PIXELS)
  then Some (tt, Dvd (x d) (y d) (dx d) (dy d) (<[i := v]> (backbuffer d)) (screen d)) else None.

Definition frame : M dvd unit :=
  modify (fun d => Dvd (x d) (y d) (dx d) (dy d) original (screen d)) ;;;
  let! d := gets id in
  for_to 100 (fun i =>
    for_to 100 (fun j =>
      put_pixel (s32 (s32 ((y d + i) * 800) + (x d + j))) 0x0000FF)) ;;;
  modify (fun d => Dvd (x d) (y d) (dx d) (dy d) (backbuffer d) (backbuffer d)) ;;;
  let! d := gets id in
  let x' := s32 (x d + dx d) in
  let y' := s32 (y d + dy d) in
  let dx' := if (800 <=? s32 (x' + 100)) || (x' <=? 0) then s32 (dx d * -1) else dx d in
  let dy' := if (600 <=? s32 (y' + 100)) || (y' <=? 0) then s32 (dy d * -1) else dy d in
  modify (move x' y' dx' dy').

Fixpoint frames (n : nat) : M dvd unit :=
  match n with O => ret tt | S n => frames n ;;; frame end.

Definition dvd_start : dvd := Dvd 0 0 1 1 ∅ original.

(** ** Position *)

(** A point that moves back and forth on [0, m]. *)
Definition bounce (m n : Z) : Z := let r := n mod (2 * m) in if r <=? m then r else 2 * m - r.
(** The direction it is about to move in. *)
Definition heading (m n : Z) : Z := if n mod (2 * m) <? m then 1 else -1.

Lemma bounce_range m n : 0 < m -> 0 <= bounce m n <= m.
Proof. intros. unfold bounce. pose proof (Z.mod_pos_bound n (2 * m)). case_match; zb; lia. Qed.

Lemma mod_succ a b : 0 < b -> (a + 1) mod b = if a mod b =? b - 1 then 0 else a mod b + 1.
Proof.
  intros Hb. pose proof (Z.div_mod a b ltac:(lia)). pose proof (Z.mod_pos_bound a b Hb).
  destruct (Z.eqb_spec (a mod b) (b - 1)).
  - symmetry. apply (Z.mod_unique_pos _ _ (a / b + 1)); lia.
  - symmetry. apply (Z.mod_unique_pos _ _ (a / b)); lia.
Qed.

Lemma bounce_step m n : 0 < m -> bounce m (n + 1) = bounce m n + heading m n.
Proof.
  intros. unfold bounce, heading. rewrite mod_succ by lia. pose proof (Z.mod_pos_bound n (2 * m)).
  repeat case_match; zb; lia.
Qed.
Lemma heading_step m n : 1 < m ->
  heading m (n + 1) = if (m <=? bounce m (n + 1)) || (bounce m (n + 1) <=? 0) then - heading m n else heading m n.
Proof.
  intros. unfold bounce, heading. rewrite mod_succ by lia. pose proof (Z.mod_pos_bound n (2 * m)).
  repeat case_match; zb; lia.
Qed.

(** ** Drawing *)
Definition in_square (x0 y0 i : Z) : Prop :=
  x0 <= i mod 800 < x0 + 100 /\ y0 <= i / 800 < y0 + 100.
#[global] Instance in_square_dec x0 y0 i : Decision (in_square x0 y0 i).
Proof. unfold in_square. apply _. Defined.

(** The picture with the square at [(x0, y0)]. *)
Definition picture (x0 y0 i : Z) : Z :=
  if decide (in_square x0 y0 i) then 0x0000FF else default 0 (original !! i).
Definition shows (x0 y0 : Z) (p : gmap Z Z) : Prop :=
  forall i, 0 <= i < PIXELS -> default 0 (p !! i) = picture x0 y0 i.

(** Rows before [i], and the first [j] pixels of row [i]. *)
Definition part (x0 y0 i j n : Z) : Prop :=
  x0 <= n mod 800 < x0 + 100 /\ (y0 <= n / 800 < y0 + i \/ n / 800 = y0 + i /\ n mod 800 < x0 + j).
#[local] Instance part_dec x0 y0 i j n : Decision (part x0 y0 i j n).
Proof. unfold part. apply _. Defined.
Definition drawn (x0 y0 i j : Z) (p : gmap Z Z) : Prop :=
  forall n, 0 <= n < PIXELS ->
    default 0 (p !! n) = if decide (part x0 y0 i j n) then 0x0000FF else default 0 (original !! n).

Lemma drawn_ext x0 y0 i j i' j' p :
  (forall n, 0 <= n < PIXELS -> part x0 y0 i j n <-> part x0 y0 i' j' n) -> drawn x0 y0 i j p -> drawn x0 y0 i' j' p.
Proof. intros H Hp n Hn. rewrite Hp by done. specialize (H n Hn). repeat case_decide; naive_solver. Qed.

Lemma index_split n a b : 0 <= b < 800 -> n = a * 800 + b -> n / 800 = a /\ n mod 800 = b.
Proof.
  intros Hb ->. split; symmetry; [apply (Z.div_unique_pos _ _ _ b)|apply (Z.mod_unique_pos _ _ a)]; lia.
Qed.

Section Square.
Variables (x0 y0 : Z) (d0 : dvd).
Hypothesis Hx : 0 <= x0 <= 700.
Hypothesis Hy : 0 <= y0 <= 500.
Notation at_ p := (Dvd (x d0) (y d0) (dx d0) (dy d0) p (screen d0)).

Lemma draw_pixel i j p :
  0 <= i < 100 -> 0 <= j < 100 -> drawn x0 y0 i j p ->
  wp (put_pixel (s32 (s32 ((y0 + i) * 800) + (x0 + j))) 0x0000FF) (at_ p)
    (fun _ d => exists p', d = at_ p' /\ drawn x0 y0 i (j + 1) p').
Proof.
  intros Hi Hj Hp. rewrite (swrap_small 32 ((y0 + i) * 800)) by (unfold in_s; lia).
  rewrite swrap_small by (unfold in_s; lia). set (n := (y0 + i) * 800 + (x0 + j)).
  assert (0 <= n < PIXELS) as Hn by (change PIXELS with 480000; unfold n; lia).
  destruct (index_split n (y0 + i) (x0 + j) ltac:(lia) eq_refl) as [D1 D2].
  unfold wp, put_pixel. destruct (Z.leb_spec 0 n), (Z.ltb_spec n PIXELS); try lia. cbn [andb].
  eexists. split; [reflexivity|]. intros n' Hn'. destruct (decide (n' = n)) as [->|Hne].
  - rewrite lookup_insert_eq. cbn [default]. rewrite decide_True; [done|]. unfold part. rewrite D1, D2. lia.
  - rewrite lookup_insert_ne by done. rewrite Hp by done.
    assert (part x0 y0 i j n' <-> part x0 y0 i (j + 1) n') as Hpp.
    { unfold part. destruct (decide (n' mod 800 = x0 + j /\ n' / 800 = y0 + i)) as [[E1 E2]|]; [|lia].
      exfalso. apply Hne. unfold n. rewrite (Z.div_mod n' 800) by lia. lia. }
    repeat case_decide; naive_solver.
Qed.

Lemma draw_row i p :
  0 <= i < 100 -> drawn x0 y0 i 0 p ->
  wp (for_to 100 (fun j => put_pixel (s32 (s32 ((y0 + i) * 800) + (x0 + j))) 0x0000FF)) (at_ p)
    (fun _ d => exists p', d = at_ p' /\ drawn x0 y0 (i + 1) 0 p').
Proof.
  intros Hi Hp. apply (wp_for_to (fun j d => exists p', d = at_ p' /\ drawn x0 y0 i j p')); [lia| |by exists p|].
  - intros j d Hj (p' & -> & Hp'). by apply draw_pixel.
  - intros d (p' & -> & Hp'). exists p'. split; [done|]. eapply drawn_ext; [|exact Hp'].
    intros n Hn. unfold part. lia.
Qed.

Lemma draw_square p :
  drawn x0 y0 0 0 p ->
  wp (for_to 100 (fun i => for_to 100 (fun j => put_pixel (s32 (s32 ((y0 + i) * 800) + (x0 + j))) 0x0000FF))) (at_ p)
    (fun _ d => exists p', d = at_ p' /\ shows x0 y0 p').
Proof.
  intros Hp. apply (wp_for_to (fun i d => exists p', d = at_ p' /\ drawn x0 y0 i 0 p')); [lia| |by exists p|].
  - intros i d Hi (p' & -> & Hp'). by apply draw_row.
  - intros d (p' & -> & Hp'). exists p'. split; [done|]. intros n Hn. rewrite Hp' by done. unfold picture.
    assert (part x0 y0 100 0 n <-> in_square x0 y0 n) by (unfold part, in_square; lia).
    repeat case_decide; naive_solver.
Qed.
End Square.

(** The state after [n] rounds. *)
Definition after (n : Z) (d : dvd) : Prop :=
  x d = bounce 700 n /\ y d = bounce 500 n /\ dx d = heading 700 n /\ dy d = heading 500 n.

Lemma frame_spec n d :
  after n d -> wp frame d (fun _ d' => after (n + 1) d' /\ shows (bounce 700 n) (bounce 500 n) (screen d')).
Proof.
  intros (Ex & Ey & Edx & Edy). unfold frame. wp1. wp1. wp1. wp1. cbv [id].
  pose proof (bounce_range 700 n ltac:(lia)) as Bx. pose proof (bounce_range 500 n ltac:(lia)) as By.
  wp1. eapply wp_mono.
  { cbn [x y dx dy screen]. rewrite Ex, Ey.
    apply (draw_square (bounce 700 n) (bounce 500 n) (Dvd (bounce 700 n) (bounce 500 n) (dx d) (dy d) original (screen d)) Bx By original).
    intros i Hi. rewrite decide_False; [done|]. unfold part. lia. }
  intros [] d' (p' & -> & Hp). cbv beta. wp1. wp1. wp1. wp1. apply wp_modify. cbn [id x y dx dy backbuffer screen move].
  split; [|done].
  assert (forall m k, m = 700 \/ m = 500 -> s32 (bounce m k + heading m k) = bounce m (k + 1)) as Hs.
  { intros m k Hm. rewrite bounce_step by lia. apply swrap_small; [lia|].
    pose proof (bounce_range m k ltac:(lia)). unfold heading, in_s. case_match; lia. }
  rewrite Edx, Edy, !Hs by lia.
  assert (forall m k, m = 700 \/ m = 500 -> s32 (bounce m (k + 1) + 100) = bounce m (k + 1) + 100) as Hs2.
  { intros m k Hm. apply swrap_small; [lia|]. pose proof (bounce_range m (k + 1) ltac:(lia)). unfold in_s. lia. }
  rewrite !Hs2 by lia.
  assert (forall m k, 1 < m -> (if (m + 100 <=? bounce m (k + 1) + 100) || (bounce m (k + 1) <=? 0)
    then s32 (heading m k * -1) else heading m k) = heading m (k + 1)) as Hh.
  { intros m k Hm. rewrite heading_step by done.
    replace (s32 (heading m k * -1)) with (- heading m k) by (unfold heading; by case_match).
    destruct (Z.leb_spec (m + 100) (bounce m (k + 1) + 100)), (Z.leb_spec m (bounce m (k + 1))); lia || done. }
  unfold after. cbn [x y dx dy]. rewrite <- (Hh 700 n), <- (Hh 500 n) by lia. done.
Qed.

Lemma frames_spec n : wp (frames n) dvd_start (fun _ d => after (Z.of_nat n) d /\
  (0 < n -> shows (bounce 700 (Z.of_nat n - 1)) (bounce 500 (Z.of_nat n - 1)) (screen d))%nat).
Proof.
  induction n as [|n IH]; cbn [frames]; [apply wp_ret; split; [done|lia]|]. wp1. eapply wp_mono; [exact IH|].
  intros [] d [Ha _]. cbv beta. eapply wp_mono; [by apply (frame_spec (Z.of_nat n))|].
  intros [] d' [H1 H2]. replace (Z.of_nat (S n)) with (Z.of_nat n + 1) by lia. split; [done|].
  intros _. by replace (Z.of_nat n + 1 - 1) with (Z.of_nat n) by lia.
Qed.
End Loop.

(** C22: the bouncing square.  However long the loop of [dvd_bounce] runs, it never writes
    outside the back buffer; after [n + 1] rounds the screen shows exactly the original
    picture with the 100 by 100 square at the position of round [n]: a point that runs back
    and forth between the edges, with period 1400 horizontally and 1000 vertically. *)
Theorem dvd_square_bounces (original : gmap Z Z) (n : nat) :
  exists d, frames original (S n) (dvd_start original) = Some (tt, d) /\
    shows original (bounce 700 (Z.of_nat n)) (bounce 500 (Z.of_nat n)) (screen d) /\
    (0 <= x d <= 700 /\ 0 <= y d <= 500) /\
    x d = bounce 700 (Z.of_nat n + 1) /\ y d = bounce 500 (Z.of_nat n + 1).
Proof.
  destruct (wp_run _ _ _ (frames_spec original (S n))) as ([] & d & E & (H1 & H2 & _) & H3).
  specialize (H3 ltac:(lia)). replace (Z.of_nat (S n)) with (Z.of_nat n + 1) in * by lia.
  replace (Z.of_nat n + 1 - 1) with (Z.of_nat n) in H3 by lia. exists d. rewrite H1, H2.
  pose proof (bounce_range 700 (Z.of_nat n + 1)). pose proof (bounce_range 500 (Z.of_nat n + 1)).
  split_and!; [exact E|exact H3|lia|lia|lia|lia|done|done].
Qed.

End Os.
