(* ===== verification/LibcString.v ===== *)
(** String routines of the C library (musl: strlen.c, memchr.c, strnlen.c, strchrnul.c,
    memset.c), which look at a string eight bytes at a time.

    Strings live in the byte memory of [KString].  [word64] is the little-endian load of an
    aligned word; [HASZERO] is the test for a zero byte in it.  The loops over aligned words
    carry fuel; loops bounded by a count do not need it. *)
From S2P Require Import Prelude KString KStringProps.
From Stdlib Require Import Btauto.
#[global] Open Scope Z_scope.

Module LibcString.
Import KString KStringProps.

(** ** Words *)
Fixpoint load (n : nat) (m : mem) (a : Z) : Z :=
  match n with O => 0 | S n => rd m a + 256 * load n m (a + 1) end.
Definition word64 (m : mem) (a : Z) : Z := load 8 m a.

Definition ONES : Z := (2 ^ 64 - 1) / 255.
Definition HIGHS : Z := ONES * (255 / 2 + 1).
Definition HASZERO (x : Z) : bool := truth (u64 (x - ONES) &&& u64 (Z.lnot x) &&& HIGHS).

(** ** strlen.c *)
(** The bytes up to an aligned address; [inl]: the end was found. *)
Fixpoint strlen_head (n : nat) (m : mem) (s : Z) : Z + Z :=
  match n with
  | O => inr s
  | S n => if s mod 8 =? 0 then inr s else if rd m s =? 0 then inl s else strlen_head n m (s + 1)
  end.
Fixpoint strlen_words (fuel : nat) (m : mem) (w : Z) : option Z :=
  match fuel with
  | O => None
  | S fuel => if HASZERO (word64 m w) then Some w else strlen_words fuel m (w + 8)
  end.
Fixpoint strlen_tail (fuel : nat) (m : mem) (s : Z) : option Z :=
  match fuel with
  | O => None
  | S fuel => if rd m s =? 0 then Some s else strlen_tail fuel m (s + 1)
  end.
Definition strlen (fuel : nat) (m : mem) (a : Z) : option Z :=
  match strlen_head 8 m a with
  | inl s => Some (s - a)
  | inr s =>
      w ← strlen_words fuel m s;
      s ← strlen_tail 9 m w;
      Some (s - a)
  end.

(** ** memchr.c, strnlen.c *)
Fixpoint memchr_bytes (k : nat) (aligned : bool) (m : mem) (c s n : Z) : Z * Z :=
  match k with
  | O => (s, n)
  | S k =>
      if (aligned && (s mod 8 =? 0)) || (n =? 0) || (rd m s =? c) then (s, n)
      else memchr_bytes k aligned m c (s + 1) (n - 1)
  end.
Fixpoint memchr_words (k : nat) (m : mem) (pat w n : Z) : Z * Z :=
  match k with
  | O => (w, n)
  | S k =>
      if (8 <=? n) && negb (HASZERO (Z.lxor (word64 m w) pat)) then memchr_words k m pat (w + 8) (n - 8)
      else (w, n)
  end.
Definition memchr (m : mem) (src c n : Z) : Z :=
  let c := u8 c in
  let '(s, n) := memchr_bytes 8 true m c src n in
  let '(s, n) :=
    if negb (n =? 0) && negb (rd m s =? c)
    then memchr_words (Z.to_nat n) m (u64 (ONES * c)) s n else (s, n) in
  let '(s, n) := memchr_bytes (Z.to_nat n) false m c s n in
  if n =? 0 then 0 else s.

Definition strnlen (m : mem) (s n : Z) : Z :=
  let p := memchr m s 0 n in if p =? 0 then n else p - s.

(** ** strchrnul.c *)
Fixpoint strchrnul_head (n : nat) (m : mem) (c s : Z) : Z + Z :=
  match n with
  | O => inr s
  | S n =>
      if s mod 8 =? 0 then inr s
      else if (rd m s =? 0) || (rd m s =? c) then inl s else strchrnul_head n m c (s + 1)
  end.
Fixpoint strchrnul_words (fuel : nat) (m : mem) (pat w : Z) : option Z :=
  match fuel with
  | O => None
  | S fuel =>
      if HASZERO (word64 m w) || HASZERO (Z.lxor (word64 m w) pat) then Some w
      else strchrnul_words fuel m pat (w + 8)
  end.
Fixpoint strchrnul_tail (fuel : nat) (m : mem) (c s : Z) : option Z :=
  match fuel with
  | O => None
  | S fuel => if (rd m s =? 0) || (rd m s =? c) then Some s else strchrnul_tail fuel m c (s + 1)
  end.
Definition strchrnul (fuel : nat) (m : mem) (s c : Z) : option Z :=
  let c := u8 c in
  if c =? 0 then n ← strlen fuel m s; Some (s + n)
  else
    match strchrnul_head 8 m c s with
    | inl s => Some s
    | inr s => w ← strchrnul_words fuel m (u64 (ONES * c)) s; strchrnul_tail 9 m c w
    end.

(** ** memset.c *)
Fixpoint store (n : nat) (a v : Z) (m : mem) : mem :=
  match n with O => m | S n => store n (a + 1) (v / 256) (wr a (v mod 256) m) end.
Definition stores (n : nat) (offs : list Z) (s v : Z) (m : mem) : mem :=
  fold_left (fun m o => store n (s + o) v m) offs m.
Fixpoint memset_words (k : nat) (s n c64 : Z) (m : mem) : mem :=
  match k with
  | O => m
  | S k =>
      if 32 <=? n then memset_words k (s + 32) (n - 32) c64 (stores 8 [0; 8; 16; 24] s c64 m) else m
  end.
Definition memset (dest c n : Z) (m : mem) : mem :=
  let s := dest in
  let b := u8 c in
  if n =? 0 then m else
  let m := stores 1 [0; n - 1] s b m in
  if n <=? 2 then m else
  let m := stores 1 [1; 2; n - 2; n - 3] s b m in
  if n <=? 6 then m else
  let m := stores 1 [3; n - 4] s b m in
  if n <=? 8 then m else
  let k := (- s) mod 2 ^ 64 &&& 3 in
  let s := s + k in
  let n := (n - k) &&& Z.lnot 3 in
  let c32 := (2 ^ 32 - 1) / 255 * b in
  let m := stores 4 [0; n - 4] s c32 m in
  if n <=? 8 then m else
  let m := stores 4 [4; 8; n - 12; n - 8] s c32 m in
  if n <=? 24 then m else
  let m := stores 4 [12; 16; 20; 24; n - 28; n - 24; n - 20; n - 16] s c32 m in
  let k := 24 + (s &&& 4) in
  let s := s + k in
  let n := n - k in
  let c64 := c32 ||| (c32 <<< 32) in
  memset_words (Z.to_nat n) s n c64 m.

(** ** The zero-byte test *)
Fixpoint ones (n : nat) : Z := match n with O => 0 | S n => 1 + 256 * ones n end.
Definition P (n : nat) : Z := 256 ^ Z.of_nat n.
Definition hz (n : nat) (x : Z) : Z := ((x - ones n) mod P n) &&& (Z.lnot x mod P n) &&& (128 * ones n).

Lemma P_S n : P (S n) = 256 * P n.
Proof. unfold P. rewrite Nat2Z.inj_succ, Z.pow_succ_r by lia. done. Qed.
Lemma P_pos n : 0 < P n.
Proof. unfold P. apply Z.pow_pos_nonneg; lia. Qed.

Lemma land_split a b p q :
  0 <= a < 256 -> 0 <= b < 256 -> (a + 256 * p) &&& (b + 256 * q) = (a &&& b) + 256 * (p &&& q).
Proof.
  intros Ha Hb. set (x := a + 256 * p). set (y := b + 256 * q).
  assert (x mod 256 = a /\ x / 256 = p /\ y mod 256 = b /\ y / 256 = q) as (E1 & E2 & E3 & E4).
  { unfold x, y. split_and!; symmetry.
    - apply (Z.mod_unique_pos _ _ p); lia.
    - apply (Z.div_unique_pos _ _ _ a); lia.
    - apply (Z.mod_unique_pos _ _ q); lia.
    - apply (Z.div_unique_pos _ _ _ b); lia. }
  rewrite (Z.div_mod (x &&& y) 256) by lia.
  change 256 with (2 ^ 8) at 1 2. rewrite <- Z.shiftr_div_pow2, Z.shiftr_land, !Z.shiftr_div_pow2 by lia.
  change 256 with (2 ^ 8) at 1. rewrite <- (Z.land_ones _ 8) by lia.
  assert ((x &&& y) &&& Z.ones 8 = (x &&& Z.ones 8) &&& (y &&& Z.ones 8)) as ->.
  { apply Z.bits_inj'. intros i Hi. rewrite !Z.land_spec. btauto. }
  rewrite !Z.land_ones by lia. change (2 ^ 8) with 256. rewrite E1, E2, E3, E4. lia.
Qed.

Lemma mod_split a p n : 0 <= a < 256 -> (a + 256 * p) mod P (S n) = a + 256 * (p mod P n).
Proof.
  intros Ha. rewrite P_S. pose proof (P_pos n). pose proof (Z.mod_pos_bound p (P n) ltac:(lia)).
  symmetry. apply (Z.mod_unique_pos _ _ (p / P n)); [nia|]. pose proof (Z.div_mod p (P n) ltac:(lia)). nia.
Qed.

Lemma hz_nonzero_byte n b y : 1 <= b < 256 -> hz (S n) (b + 256 * y) = 256 * hz n y.
Proof.
  intros Hb. unfold hz. cbn [ones].
  replace (b + 256 * y - (1 + 256 * ones n)) with ((b - 1) + 256 * (y - ones n)) by lia.
  replace (Z.lnot (b + 256 * y)) with ((255 - b) + 256 * Z.lnot y) by (unfold Z.lnot; lia).
  replace (128 * (1 + 256 * ones n)) with (128 + 256 * (128 * ones n)) by lia.
  rewrite !mod_split by lia. rewrite land_split by lia.
  assert (forall b, 1 <= b < 256 -> 0 <= (b - 1) &&& (255 - b) < 256 /\ ((b - 1) &&& (255 - b)) &&& 128 = 0) as Hc.
  { clear. intros b Hb.
    assert (forallb (fun n => let b := Z.of_nat n in
      (0 <=? (b - 1) &&& (255 - b)) && ((b - 1) &&& (255 - b) <? 256) && (((b - 1) &&& (255 - b)) &&& 128 =? 0))
      (seq 1 255) = true) as Hf by (vm_compute; reflexivity).
    rewrite forallb_forall in Hf. specialize (Hf (Z.to_nat b) ltac:(apply in_seq; lia)). cbv zeta in Hf.
    rewrite Z2Nat.id, !andb_true_iff, Z.leb_le, Z.ltb_lt, Z.eqb_eq in Hf by lia. tauto. }
  destruct (Hc b Hb) as [H1 H2]. rewrite land_split by lia. rewrite H2. lia.
Qed.

Lemma hz_zero_byte n y : hz (S n) (256 * y) <> 0.
Proof.
  unfold hz. cbn [ones]. replace (256 * y - (1 + 256 * ones n)) with (255 + 256 * (y - ones n - 1)) by lia.
  replace (Z.lnot (256 * y)) with (255 + 256 * Z.lnot y) by (unfold Z.lnot; lia).
  replace (128 * (1 + 256 * ones n)) with (128 + 256 * (128 * ones n)) by lia.
  rewrite !mod_split by lia. rewrite !land_split by (vm_compute; split; discriminate || done).
  change ((255 &&& 255) &&& 128) with 128. lia.
Qed.

(** Memory of bytes. *)
Definition byte_mem (m : mem) : Prop := forall a, 0 <= rd m a < 256.

Lemma hz_load n m a : byte_mem m -> hz n (load n m a) = 0 <-> forall i, 0 <= i < Z.of_nat n -> rd m (a + i) <> 0.
Proof.
  intros Hm. revert a. induction n as [|n IH]; intros a; cbn [load].
  { split; [intros _ i Hi; lia|done]. }
  pose proof (Hm a) as Ha. destruct (decide (rd m a = 0)) as [E|E].
  - rewrite E, Z.add_0_l. split; [intros H; by apply hz_zero_byte in H|].
    intros H. exfalso. apply (H 0); [lia|]. by rewrite Z.add_0_r.
  - rewrite hz_nonzero_byte by lia. split.
    + intros H i Hi. destruct (decide (i = 0)) as [->|]; [by rewrite Z.add_0_r|].
      replace (a + i) with (a + 1 + (i - 1)) by lia. apply IH; lia.
    + intros H. assert (hz n (load n m (a + 1)) = 0) as ->; [|done]. apply IH. intros i Hi.
      replace (a + 1 + i) with (a + (i + 1)) by lia. apply H. lia.
Qed.

Lemma load_range n m a : byte_mem m -> 0 <= load n m a < P n.
Proof.
  intros Hm. revert a. induction n as [|n IH]; intros a; [done|]. cbn [load]. rewrite P_S.
  specialize (IH (a + 1)). specialize (Hm a). lia.
Qed.

Lemma HASZERO_hz x : HASZERO x = negb (hz 8 x =? 0).
Proof. reflexivity. Qed.

(** [x ^ (ONES * c)] has a zero byte where [x] has the byte [c]. *)
Lemma lxor_split a b p q :
  0 <= a < 256 -> 0 <= b < 256 -> Z.lxor (a + 256 * p) (b + 256 * q) = Z.lxor a b + 256 * Z.lxor p q.
Proof.
  intros Ha Hb. set (x := a + 256 * p). set (y := b + 256 * q).
  assert (x mod 256 = a /\ x / 256 = p /\ y mod 256 = b /\ y / 256 = q) as (E1 & E2 & E3 & E4).
  { unfold x, y. split_and!; symmetry.
    - apply (Z.mod_unique_pos _ _ p); lia.
    - apply (Z.div_unique_pos _ _ _ a); lia.
    - apply (Z.mod_unique_pos _ _ q); lia.
    - apply (Z.div_unique_pos _ _ _ b); lia. }
  rewrite (Z.div_mod (Z.lxor x y) 256) by lia.
  change 256 with (2 ^ 8) at 1 2. rewrite <- Z.shiftr_div_pow2, Z.shiftr_lxor, !Z.shiftr_div_pow2 by lia.
  change 256 with (2 ^ 8) at 1. rewrite <- (Z.land_ones _ 8) by lia.
  assert (Z.lxor x y &&& Z.ones 8 = Z.lxor (x &&& Z.ones 8) (y &&& Z.ones 8)) as ->.
  { apply Z.bits_inj'. intros i Hi. rewrite !Z.land_spec, !Z.lxor_spec, !Z.land_spec. btauto. }
  rewrite !Z.land_ones by lia. change (2 ^ 8) with 256. rewrite E1, E2, E3, E4. lia.
Qed.

Lemma lxor_byte a c : 0 <= a < 256 -> 0 <= c < 256 -> 0 <= Z.lxor a c < 256 /\ (Z.lxor a c = 0 <-> a = c).
Proof.
  intros Ha Hc. split; [|apply Z.lxor_eq_0_iff]. split; [apply Z.lxor_nonneg; lia|].
  destruct (decide (Z.lxor a c = 0)) as [->|]; [lia|].
  apply Z.log2_lt_pow2 with (b := 8); [pose proof (Z.lxor_nonneg a c); lia|].
  eapply Z.le_lt_trans; [apply Z.log2_lxor; lia|].
  assert (forall x, 0 <= x < 256 -> Z.log2 x < 8) as Hl.
  { intros x Hx. destruct (decide (x = 0)) as [->|]; [done|]. apply Z.log2_lt_pow2; lia. }
  pose proof (Hl a Ha). pose proof (Hl c Hc). lia.
Qed.

Lemma hz_load_lxor n m a c : byte_mem m -> 0 <= c < 256 ->
  hz n (Z.lxor (load n m a) (ones n * c)) = 0 <-> forall i, 0 <= i < Z.of_nat n -> rd m (a + i) <> c.
Proof.
  intros Hm Hc. revert a. induction n as [|n IH]; intros a; cbn [load ones].
  { split; [intros _ i Hi; lia|done]. }
  pose proof (Hm a) as Ha. replace ((1 + 256 * ones n) * c) with (c + 256 * (ones n * c)) by lia.
  rewrite lxor_split by done. destruct (lxor_byte (rd m a) c Ha Hc) as [Hr Hz].
  destruct (decide (rd m a = c)) as [E|E].
  - rewrite (proj2 Hz E), Z.add_0_l. split; [intros H; by apply hz_zero_byte in H|].
    intros H. exfalso. apply (H 0); [lia|]. by rewrite Z.add_0_r.
  - rewrite hz_nonzero_byte by (assert (Z.lxor (rd m a) c <> 0) by tauto; lia). split.
    + intros H i Hi. destruct (decide (i = 0)) as [->|]; [by rewrite Z.add_0_r|].
      replace (a + i) with (a + 1 + (i - 1)) by lia. apply IH; lia.
    + intros H. assert (hz n (Z.lxor (load n m (a + 1)) (ones n * c)) = 0) as ->; [|done]. apply IH. intros i Hi.
      replace (a + 1 + i) with (a + (i + 1)) by lia. apply H. lia.
Qed.

Lemma HASZERO_xor m a c : byte_mem m -> 0 <= c < 256 ->
  HASZERO (Z.lxor (word64 m a) (u64 (ONES * c))) = false <-> forall i, 0 <= i < 8 -> rd m (a + i) <> c.
Proof.
  intros Hm Hc. rewrite HASZERO_hz, negb_false_iff, Z.eqb_eq.
  assert (u64 (ONES * c) = ones 8 * c) as ->.
  { change (ones 8) with ONES. apply wrap_small. unfold in_u. change ONES with 72340172838076673. lia. }
  by apply (hz_load_lxor 8).
Qed.
Lemma HASZERO_zero m a : byte_mem m ->
  HASZERO (word64 m a) = false <-> forall i, 0 <= i < 8 -> rd m (a + i) <> 0.
Proof. intros Hm. rewrite HASZERO_hz, negb_false_iff, Z.eqb_eq. by apply (hz_load 8). Qed.

(** ** The routines against byte-by-byte specifications *)

(** No byte from [a] up to [b] is [c]. *)
Definition none (m : mem) (c a b : Z) : Prop := forall x, a <= x < b -> rd m x <> c.

Lemma none_trans m c a b d : none m c a b -> none m c b d -> none m c a d.
Proof. intros H1 H2 x Hx. destruct (decide (x < b)); [apply H1|apply H2]; lia. Qed.
Lemma none_one m c a : rd m a <> c -> none m c a (a + 1).
Proof. intros H x Hx. by replace x with a by lia. Qed.
Lemma none_word m a c : byte_mem m -> 0 <= c < 256 ->
  HASZERO (Z.lxor (word64 m a) (u64 (ONES * c))) = false <-> none m c a (a + 8).
Proof.
  intros Hm Hc. rewrite HASZERO_xor by done. split.
  - intros H x Hx. replace x with (a + (x - a)) by lia. apply H. lia.
  - intros H i Hi. apply H. lia.
Qed.
Lemma none_word0 m a : byte_mem m -> HASZERO (word64 m a) = false <-> none m 0 a (a + 8).
Proof.
  intros Hm. rewrite HASZERO_zero by done. split.
  - intros H x Hx. replace x with (a + (x - a)) by lia. apply H. lia.
  - intros H i Hi. apply H. lia.
Qed.

Lemma next_aligned s : s mod 8 <> 0 -> (- (s + 1)) mod 8 = (- s) mod 8 - 1.
Proof.
  intros Hs. pose proof (Z.div_mod s 8 ltac:(lia)). pose proof (Z.mod_pos_bound s 8 ltac:(lia)).
  rewrite <- (Z.mod_unique_pos (- (s + 1)) 8 (- (s / 8) - 1) (8 - s mod 8 - 1)) by lia.
  rewrite <- (Z.mod_unique_pos (- s) 8 (- (s / 8) - 1) (8 - s mod 8)) by lia. lia.
Qed.

(** *** strlen *)
Section Strlen.
Variables (m : mem) (e : Z).
Hypothesis Hm : byte_mem m.
Hypothesis He : rd m e = 0.

Lemma strlen_head_ok n s :
  (- s) mod 8 < Z.of_nat n -> s <= e -> none m 0 s e ->
  strlen_head n m s = inl e \/ exists s', strlen_head n m s = inr s' /\ s <= s' <= e.
Proof.
  revert s. induction n as [|n IH]; intros s Hn Hs Hz; cbn [strlen_head].
  { pose proof (Z.mod_pos_bound (- s) 8). lia. }
  destruct (Z.eqb_spec (s mod 8) 0); [right; exists s; split; [done|lia]|].
  destruct (Z.eqb_spec (rd m s) 0) as [E|E].
  - left. f_equal. destruct (decide (s = e)); [done|]. exfalso. apply (Hz s); [lia|done].
  - assert (s <> e) by (intros ->; done).
    destruct (IH (s + 1)) as [->|(s' & -> & Hs')].
    + rewrite next_aligned by done. lia.
    + lia.
    + intros x Hx. apply Hz. lia.
    + by left.
    + right. exists s'. split; [done|lia].
Qed.

Lemma strlen_words_ok fuel w :
  w <= e -> none m 0 w e -> e - w < 8 * Z.of_nat fuel ->
  exists w', strlen_words fuel m w = Some w' /\ w <= w' <= e /\ e < w' + 8.
Proof.
  revert w. induction fuel as [|fuel IH]; intros w Hw Hz Hf; [lia|]. cbn [strlen_words].
  destruct (HASZERO (word64 m w)) eqn:E.
  - exists w. split; [done|]. split; [lia|]. destruct (decide (e < w + 8)); [done|]. exfalso.
    assert (HASZERO (word64 m w) = false) as E2; [|congruence]. apply none_word0; [done|]. intros x Hx. apply Hz. lia.
  - apply none_word0 in E; [|done]. assert (w + 8 <= e).
    { destruct (decide (w + 8 <= e)); [done|]. exfalso. apply (E e); [lia|done]. }
    destruct (IH (w + 8)) as (w' & -> & H1 & H2); [lia|intros x Hx; apply Hz; lia|lia|].
    exists w'. split; [done|lia].
Qed.

Lemma strlen_tail_ok fuel s :
  s <= e -> none m 0 s e -> e - s < Z.of_nat fuel -> strlen_tail fuel m s = Some e.
Proof.
  revert s. induction fuel as [|fuel IH]; intros s Hs Hz Hf; [lia|]. cbn [strlen_tail].
  destruct (Z.eqb_spec (rd m s) 0) as [E|E].
  - f_equal. destruct (decide (s = e)); [done|]. exfalso. apply (Hz s); [lia|done].
  - assert (s <> e) by (intros ->; done). apply IH; [lia|intros x Hx; apply Hz; lia|lia].
Qed.
End Strlen.

Lemma strlen_ok m a e fuel :
  byte_mem m -> rd m e = 0 -> a <= e -> none m 0 a e -> e - a < 8 * Z.of_nat fuel ->
  strlen fuel m a = Some (e - a).
Proof.
  intros Hm He Ha Hz Hf. unfold strlen.
  destruct (strlen_head_ok m e He 8 a) as [->|(s & -> & Hs)]; [|done|done|done|].
  { pose proof (Z.mod_pos_bound (- a) 8). lia. }
  destruct (strlen_words_ok m e Hm He fuel s) as (w & -> & H1 & H2); [lia|intros x Hx; apply Hz; lia|lia|].
  cbn [mbind option_bind]. by rewrite (strlen_tail_ok m e He 9 w) by (first [lia|intros x Hx; apply Hz; lia]).
Qed.

(** *** memchr *)
Section Memchr.
Variables (m : mem) (c a n0 : Z).
Hypothesis Hm : byte_mem m.
Hypothesis Hc : 0 <= c < 256.

(** The search has come to [s], with [n] bytes to go. *)
Definition at_ (s n : Z) : Prop := s + n = a + n0 /\ 0 <= n /\ a <= s /\ none m c a s.

Lemma memchr_bytes_ok k (al : bool) s n :
  at_ s n -> (if al then (- s) mod 8 else n) <= Z.of_nat k ->
  let '(s', n') := memchr_bytes k al m c s n in
  at_ s' n' /\ (n' = 0 \/ rd m s' = c \/ al = true /\ s' mod 8 = 0).
Proof.
  revert s n. induction k as [|k IH]; intros s n (H1 & H2 & H3 & H4) Hk; cbn [memchr_bytes].
  - split; [done|]. destruct al; [|left; lia]. right; right. split; [done|].
    pose proof (Z.mod_pos_bound (- s) 8 ltac:(lia)). assert ((- s) mod 8 = 0) as E by lia.
    apply Z.mod_divide in E as [q Hq]; [|lia]. apply Z.mod_divide; [lia|]. exists (- q). lia.
  - destruct (al && (s mod 8 =? 0)) eqn:E1; cbn [orb].
    { split; [done|]. right; right. apply andb_true_iff in E1 as [-> E1]. split; [done|by apply Z.eqb_eq]. }
    destruct (Z.eqb_spec n 0) as [E2|E2]; cbn [orb]; [split; [done|by left]|].
    destruct (Z.eqb_spec (rd m s) c) as [E3|E3]; [split; [done|right; by left]|].
    apply IH.
    + split_and!; [lia..|]. apply (none_trans _ _ _ s); [done|]. by apply none_one.
    + destruct al; [|lia]. cbn [andb] in E1. apply Z.eqb_neq in E1. rewrite next_aligned by done. lia.
Qed.

Lemma memchr_words_ok k w n :
  at_ w n -> n <= 8 * Z.of_nat k -> let '(w', n') := memchr_words k m (u64 (ONES * c)) w n in at_ w' n'.
Proof.
  revert w n. induction k as [|k IH]; intros w n (H1 & H2 & H3 & H4) Hk; cbn [memchr_words]; [done|].
  destruct (Z.leb_spec 8 n); cbn [andb]; [|done].
  destruct (HASZERO _) eqn:E; cbn [negb]; [done|]. apply none_word in E; [|done..]. apply IH; [|lia].
  split_and!; [lia..|]. by apply (none_trans _ _ _ w).
Qed.
End Memchr.

Lemma memchr_ok m a c n :
  byte_mem m -> 0 < a -> 0 <= n ->
  memchr m a c n = 0 /\ none m (u8 c) a (a + n) \/
  exists r, 0 <= r < n /\ memchr m a c n = a + r /\ rd m (a + r) = u8 c /\ none m (u8 c) a (a + r).
Proof.
  intros Hm Ha Hn. pose proof (Z.mod_pos_bound c (2 ^ 8) ltac:(lia)) as Hc. fold (u8 c) in Hc. change (2 ^ 8) with 256 in Hc.
  unfold memchr. set (d := u8 c) in *. clearbody d.
  assert (at_ m d a n a n) as H0 by (split_and!; [lia..|intros x Hx; lia]).
  pose proof (memchr_bytes_ok m d a n 8 true a n H0) as H1.
  destruct (memchr_bytes 8 true m d a n) as [s1 n1].
  destruct H1 as [H1 _]; [pose proof (Z.mod_pos_bound (- a) 8); lia|].
  assert (exists s2 n2, (if negb (n1 =? 0) && negb (rd m s1 =? d)
    then memchr_words (Z.to_nat n1) m (u64 (ONES * d)) s1 n1 else (s1, n1)) = (s2, n2) /\ at_ m d a n s2 n2)
    as (s2 & n2 & -> & H2).
  { destruct (negb (n1 =? 0) && negb (rd m s1 =? d)); [|by exists s1, n1].
    pose proof (memchr_words_ok m d a n Hm Hc (Z.to_nat n1) s1 n1 H1) as H2. destruct (memchr_words _ _ _ _ _) as [s2 n2].
    exists s2, n2. split; [done|]. apply H2. destruct H1 as (_ & ? & _). lia. }
  pose proof (memchr_bytes_ok m d a n (Z.to_nat n2) false s2 n2 H2) as H3.
  destruct (memchr_bytes (Z.to_nat n2) false m d s2 n2) as [s3 n3].
  destruct H3 as [(E1 & E2 & E3 & E4) Hd]; [destruct H2 as (_ & ? & _); lia|].
  destruct (Z.eqb_spec n3 0) as [Hz|Hz].
  - left. split; [done|]. by replace (a + n) with s3 by lia.
  - right. exists (s3 - a). replace (a + (s3 - a)) with s3 by lia. split_and!; [lia..|done| |done].
    destruct Hd as [?|[?|[? _]]]; done.
Qed.

(** [strnlen] is the length of the string, cut at [n]. *)
Lemma strnlen_ok m a n e :
  byte_mem m -> 0 < a -> 0 <= n -> a <= e -> rd m e = 0 -> none m 0 a e -> strnlen m a n = Z.min n (e - a).
Proof.
  intros Hm Ha Hn He Hz Hno. unfold strnlen.
  destruct (memchr_ok m a 0 n Hm Ha Hn) as [[-> H]|(r & Hr & -> & H1 & H2)]; change (u8 0) with 0 in *.
  - cbn. destruct (decide (e < a + n)); [|lia]. exfalso. apply (H e); [lia|done].
  - destruct (Z.eqb_spec (a + r) 0); [lia|]. assert (a + r = e); [|lia].
    destruct (decide (a + r < e)); [exfalso; apply (Hno (a + r)); [lia|done]|].
    destruct (decide (e < a + r)); [exfalso; apply (H2 e); [lia|done]|]. lia.
Qed.

(** *** strchrnul *)
Section Strchrnul.
Variables (m : mem) (c e : Z).
Hypothesis Hm : byte_mem m.
Hypothesis Hc : 0 <= c < 256.
Hypothesis He : rd m e = 0 \/ rd m e = c.

Definition neither (a b : Z) : Prop := none m 0 a b /\ none m c a b.

Lemma neither_sub a b a' b' : neither a b -> a <= a' -> b' <= b -> neither a' b'.
Proof. intros [H1 H2] ? ?. split; intros x Hx; [apply H1|apply H2]; lia. Qed.
Lemma stops s : neither s e -> s <= e -> (rd m s =? 0) || (rd m s =? c) = bool_decide (s = e).
Proof.
  intros [H1 H2] Hs. destruct (decide (s = e)) as [->|Hne].
  - rewrite bool_decide_eq_true_2 by done. destruct He as [->| ->]; [done|]. by rewrite Z.eqb_refl, orb_true_r.
  - rewrite bool_decide_eq_false_2 by done. apply orb_false_iff. split; apply Z.eqb_neq; [apply H1|apply H2]; lia.
Qed.

Lemma strchrnul_head_ok n s :
  (- s) mod 8 < Z.of_nat n -> s <= e -> neither s e ->
  strchrnul_head n m c s = inl e \/ exists s', strchrnul_head n m c s = inr s' /\ s <= s' <= e.
Proof.
  revert s. induction n as [|n IH]; intros s Hn Hs Hz; cbn [strchrnul_head].
  { pose proof (Z.mod_pos_bound (- s) 8). lia. }
  destruct (Z.eqb_spec (s mod 8) 0); [right; exists s; split; [done|lia]|].
  rewrite stops by done. case_bool_decide as E; [left; by rewrite E|].
  destruct (IH (s + 1)) as [->|(s' & -> & Hs')]; [rewrite next_aligned by done; lia|lia| |by left|].
  - eapply neither_sub; [exact Hz|lia..].
  - right. exists s'. split; [done|lia].
Qed.

Lemma strchrnul_words_ok fuel w :
  w <= e -> neither w e -> e - w < 8 * Z.of_nat fuel ->
  exists w', strchrnul_words fuel m (u64 (ONES * c)) w = Some w' /\ w <= w' <= e /\ e < w' + 8.
Proof.
  revert w. induction fuel as [|fuel IH]; intros w Hw Hz Hf; [lia|]. cbn [strchrnul_words].
  destruct (HASZERO (word64 m w) || HASZERO (Z.lxor (word64 m w) (u64 (ONES * c)))) eqn:E.
  - exists w. split; [done|]. split; [lia|]. destruct (decide (e < w + 8)); [done|]. exfalso.
    assert (HASZERO (word64 m w) = false) as E1 by (apply none_word0; [done|]; intros x Hx; apply Hz; lia).
    assert (HASZERO (Z.lxor (word64 m w) (u64 (ONES * c))) = false) as E2
      by (apply none_word; [done..|]; intros x Hx; apply Hz; lia).
    rewrite E1, E2 in E. done.
  - apply orb_false_iff in E as [E1 E2]. apply none_word0 in E1; [|done]. apply none_word in E2; [|done..].
    assert (w + 8 <= e).
    { destruct (decide (w + 8 <= e)); [done|]. exfalso. destruct He; [apply (E1 e)|apply (E2 e)]; done || lia. }
    destruct (IH (w + 8)) as (w' & -> & H1 & H2); [lia|eapply neither_sub; [exact Hz|lia..]|lia|].
    exists w'. split; [done|lia].
Qed.

Lemma strchrnul_tail_ok fuel s :
  s <= e -> neither s e -> e - s < Z.of_nat fuel -> strchrnul_tail fuel m c s = Some e.
Proof.
  revert s. induction fuel as [|fuel IH]; intros s Hs Hz Hf; [lia|]. cbn [strchrnul_tail].
  rewrite stops by done. case_bool_decide as E; [by rewrite E|].
  apply IH; [lia|eapply neither_sub; [exact Hz|lia..]|lia].
Qed.
End Strchrnul.

Lemma strchrnul_ok m a c e fuel :
  byte_mem m -> a <= e -> rd m e = 0 \/ rd m e = u8 c -> none m 0 a e -> none m (u8 c) a e ->
  e - a < 8 * Z.of_nat fuel -> strchrnul fuel m a c = Some e.
Proof.
  intros Hm Ha He H1 H2 Hf. pose proof (Z.mod_pos_bound c (2 ^ 8) ltac:(lia)) as Hc. fold (u8 c) in Hc.
  change (2 ^ 8) with 256 in Hc. unfold strchrnul. set (d := u8 c) in *. clearbody d.
  destruct (Z.eqb_spec d 0) as [->|Hd].
  - rewrite (strlen_ok m a e fuel) by (first [done|by destruct He]). cbn. f_equal. lia.
  - destruct (strchrnul_head_ok m d e He 8 a) as [->|(s & -> & Hs)]; [|done|done|done|].
    { pose proof (Z.mod_pos_bound (- a) 8). lia. }
    destruct (strchrnul_words_ok m d e Hm Hc He fuel s) as (w & -> & W1 & W2);
      [lia|split; intros x Hx; [apply H1|apply H2]; lia|lia|].
    cbn [mbind option_bind]. apply strchrnul_tail_ok; [done|lia| |lia].
    split; intros x Hx; [apply H1|apply H2]; lia.
Qed.

(** *** memset *)

(** From [m0] to [m]: the bytes in [D] are [b], all others are as they were. *)
Definition wrote (m0 : mem) (b : Z) (D : Z -> Prop) (m : mem) : Prop :=
  forall x, (D x -> rd m x = b) /\ (~ D x -> rd m x = rd m0 x).
(** Each of the [n] bytes of [v] is [b]. *)
Definition rep (n : nat) (v b : Z) : Prop := forall i, (i < n)%nat -> (v / 256 ^ Z.of_nat i) mod 256 = b.

Lemma rep_S n v b : rep (S n) v b -> v mod 256 = b /\ rep n (v / 256) b.
Proof.
  intros H. split.
  - specialize (H 0%nat ltac:(lia)). by rewrite Z.div_1_r in H.
  - intros i Hi. rewrite Z.div_div by (try apply Z.pow_pos_nonneg; lia). rewrite <- Z.pow_succ_r by lia.
    rewrite <- Nat2Z.inj_succ. apply H. lia.
Qed.

Lemma wrote_weaken m0 b (D D' : Z -> Prop) m : (forall x, D x <-> D' x) -> wrote m0 b D m -> wrote m0 b D' m.
Proof. intros H Hw x. rewrite <- H. apply Hw. Qed.

Lemma wrote_store n m0 b D m a v :
  0 <= b < 256 -> rep n v b -> wrote m0 b D m ->
  wrote m0 b (fun x => D x \/ a <= x < a + Z.of_nat n) (store n a v m).
Proof.
  intros Hb. revert D m a v. induction n as [|n IH]; intros D m a v Hr Hw; cbn [store].
  - eapply wrote_weaken; [|exact Hw]. intros x. cbn beta. intuition lia.
  - destruct (rep_S _ _ _ Hr) as [E Hr']. rewrite E. eapply wrote_weaken; [|apply (IH (fun x => D x \/ x = a)); [done|]].
    + intros x. cbn beta. intuition lia.
    + intros x. specialize (Hw x) as [W1 W2]. unfold rd, wr. destruct (decide (x = a)) as [->|Hne].
      * rewrite lookup_insert_eq. cbn [default]. rewrite (wrap_small 8) by (unfold in_u; lia). split; [done|]. intros H. tauto.
      * rewrite lookup_insert_ne by done. split; [intros [H|H]; [by apply W1|done]|]. intros H. apply W2. tauto.
Qed.

Lemma wrote_stores n offs m0 b D m s v :
  0 <= b < 256 -> rep n v b -> wrote m0 b D m ->
  wrote m0 b (fun x => D x \/ Exists (fun o => s + o <= x < s + o + Z.of_nat n) offs) (stores n offs s v m).
Proof.
  intros Hb Hr. revert D m. induction offs as [|o offs IH]; intros D m Hw; unfold stores; cbn [fold_left].
  - eapply wrote_weaken; [|exact Hw]. intros x. rewrite Exists_nil. tauto.
  - eapply wrote_weaken; [|apply (IH (fun x => D x \/ s + o <= x < s + o + Z.of_nat n)); by apply wrote_store].
    intros x. rewrite Exists_cons. tauto.
Qed.

Lemma memset_words_ok k s n m0 b D m v :
  0 <= b < 256 -> rep 8 v b -> n <= 32 * Z.of_nat k -> 0 <= n -> wrote m0 b D m ->
  exists t, n - 32 < 32 * t <= n /\ 0 <= t /\ wrote m0 b (fun x => D x \/ s <= x < s + 32 * t) (memset_words k s n v m).
Proof.
  intros Hb Hr. revert D s n m. induction k as [|k IH]; intros D s n m Hn H0 Hw; cbn [memset_words].
  { exists 0. split; [lia|]. split; [lia|]. eapply wrote_weaken; [|exact Hw]. intros x. cbn beta. intuition lia. }
  destruct (Z.leb_spec 32 n).
  - destruct (IH _ (s + 32) (n - 32) _ ltac:(lia) ltac:(lia)
      (wrote_stores 8 [0; 8; 16; 24] m0 b D m s v Hb Hr Hw)) as (t & T1 & T2 & T3).
    exists (1 + t). split; [lia|]. split; [lia|]. eapply wrote_weaken; [|exact T3]. intros x. cbn beta.
    rewrite !Exists_cons, Exists_nil.
    assert (s <= x < s + 32 * (1 + t) <-> s <= x < s + 32 \/ s + 32 <= x < s + 32 + 32 * t) as -> by lia.
    assert (s <= x < s + 32 <-> s + 0 <= x < s + 0 + Z.of_nat 8 \/ s + 8 <= x < s + 8 + Z.of_nat 8 \/
      s + 16 <= x < s + 16 + Z.of_nat 8 \/ s + 24 <= x < s + 24 + Z.of_nat 8) as -> by lia. tauto.
  - exists 0. split; [lia|]. split; [lia|]. eapply wrote_weaken; [|exact Hw]. intros x. cbn beta. intuition lia.
Qed.

Lemma rep_byte b : 0 <= b < 256 -> rep 1 b b /\ rep 4 ((2 ^ 32 - 1) / 255 * b) b /\
  rep 8 ((2 ^ 32 - 1) / 255 * b ||| (((2 ^ 32 - 1) / 255 * b) <<< 32)) b.
Proof.
  intros Hb.
  assert (forallb (fun n => let b := Z.of_nat n in
    forallb (fun i => (b / 256 ^ Z.of_nat i) mod 256 =? b) (seq 0 1) &&
    forallb (fun i => ((2 ^ 32 - 1) / 255 * b / 256 ^ Z.of_nat i) mod 256 =? b) (seq 0 4) &&
    forallb (fun i => (((2 ^ 32 - 1) / 255 * b ||| (((2 ^ 32 - 1) / 255 * b) <<< 32)) / 256 ^ Z.of_nat i) mod 256 =? b)
      (seq 0 8)) (seq 0 256) = true) as Hf by (vm_compute; reflexivity).
  rewrite forallb_forall in Hf. specialize (Hf (Z.to_nat b) ltac:(apply in_seq; lia)). cbv zeta in Hf.
  rewrite Z2Nat.id, !andb_true_iff, !forallb_forall in Hf by lia. destruct Hf as [[H1 H2] H3].
  split_and!; intros i Hi; apply Z.eqb_eq; [apply H1|apply H2|apply H3]; apply in_seq; lia.
Qed.

(** The alignment steps. *)
Lemma align_up4 d : 0 <= (- d) mod 2 ^ 64 &&& 3 <= 3.
Proof.
  assert ((- d) mod 2 ^ 64 &&& 3 = ((- d) mod 2 ^ 64) mod 2 ^ 2) as -> by (apply (land_mask_mod _ 2); lia).
  pose proof (Z.mod_pos_bound ((- d) mod 2 ^ 64) (2 ^ 2) ltac:(lia)). lia.
Qed.
Lemma round_down4 x : exists q, x &&& Z.lnot 3 = q * 4 /\ x - 3 <= q * 4 <= x.
Proof.
  exists (x / 4). pose proof (Z.div_mod x 4 ltac:(lia)). pose proof (Z.mod_pos_bound x 4 ltac:(lia)). split; [|lia].
  change 3 with (Z.ones 2). rewrite <- Z.ldiff_land, Z.ldiff_ones_r, Z.shiftr_div_pow2, Z.shiftl_mul_pow2 by lia. done.
Qed.
Lemma land4 s : s &&& 4 = 0 \/ s &&& 4 = 4.
Proof.
  destruct (Z.testbit s 2) eqn:E; [right|left]; apply Z.bits_inj'; intros i Hi;
    rewrite Z.land_spec; change 4 with (2 ^ 2); rewrite ?Z.bits_0, !Z.pow2_bits_eqb by lia;
    destruct (Z.eqb_spec 2 i) as [<-|]; rewrite ?E, ?andb_false_r; done.
Qed.

Lemma memset_ok dest c n m :
  0 <= dest -> 0 <= n -> dest + n <= 2 ^ 64 ->
  wrote m (u8 c) (fun x => dest <= x < dest + n) (memset dest c n m).
Proof.
  intros Hd Hn Hw. pose proof (Z.mod_pos_bound c (2 ^ 8) ltac:(lia)) as Hc. fold (u8 c) in Hc.
  change (2 ^ 8) with 256 in Hc. unfold memset. set (b := u8 c) in *. clearbody b.
  destruct (rep_byte b Hc) as (R1 & R4 & R8).
  set (c32 := (2 ^ 32 - 1) / 255 * b) in *. clearbody c32.
  set (c64 := c32 ||| (c32 <<< 32)) in *. clearbody c64.
  assert (wrote m b (fun x => False) m) as W0 by done.
  destruct (Z.eqb_spec n 0) as [->|Hn0]; [eapply wrote_weaken; [|exact W0]; intros x; cbn beta; lia|].
  apply (wrote_stores 1 [0; n - 1] m b _ m dest b Hc R1) in W0. set (m1 := stores 1 _ _ _ _) in *. clearbody m1.
  destruct (Z.leb_spec n 2) as [H2|H2].
  { eapply wrote_weaken; [|exact W0]. intros x. cbn beta. rewrite !Exists_cons, Exists_nil. lia. }
  apply (wrote_stores 1 [1; 2; n - 2; n - 3] m b _ m1 dest b Hc R1) in W0. set (m2 := stores 1 _ _ _ _) in *. clearbody m2.
  destruct (Z.leb_spec n 6) as [H6|H6].
  { eapply wrote_weaken; [|exact W0]. intros x. cbn beta. rewrite !Exists_cons, !Exists_nil. lia. }
  apply (wrote_stores 1 [3; n - 4] m b _ m2 dest b Hc R1) in W0. set (m3 := stores 1 _ _ _ _) in *. clearbody m3.
  destruct (Z.leb_spec n 8) as [H8|H8].
  { eapply wrote_weaken; [|exact W0]. intros x. cbn beta. rewrite !Exists_cons, !Exists_nil. lia. }
  (* the head and the tail of four bytes each *)
  eapply (wrote_weaken _ _ _ (fun x => dest <= x < dest + 4 \/ dest + n - 4 <= x < dest + n)) in W0;
    [|intros x; cbn beta; rewrite !Exists_cons, !Exists_nil; lia].
  pose proof (align_up4 dest) as Hk. set (k := (- dest) mod 2 ^ 64 &&& 3) in *.
  destruct (round_down4 (n - k)) as (q & Hq & Hn'). set (n' := (n - k) &&& Z.lnot 3) in *. rewrite <- Hq in Hn'.
  clearbody n' k. remember (dest + k) as s eqn:Es.
  apply (wrote_stores 4 [0; n' - 4] m b _ m3 s c32 Hc R4) in W0. set (m4 := stores 4 _ _ _ _) in *. clearbody m4.
  destruct (Z.leb_spec n' 8) as [H9|H9].
  { eapply wrote_weaken; [|exact W0]. intros x. cbn beta. rewrite !Exists_cons, !Exists_nil. lia. }
  apply (wrote_stores 4 [4; 8; n' - 12; n' - 8] m b _ m4 s c32 Hc R4) in W0. set (m5 := stores 4 _ _ _ _) in *. clearbody m5.
  destruct (Z.leb_spec n' 24) as [H10|H10].
  { eapply wrote_weaken; [|exact W0]. intros x. cbn beta. rewrite !Exists_cons, !Exists_nil. lia. }
  apply (wrote_stores 4 [12; 16; 20; 24; n' - 28; n' - 24; n' - 20; n' - 16] m b _ m5 s c32 Hc R4) in W0.
  set (m6 := stores 4 _ _ _ _) in *. clearbody m6.
  eapply (wrote_weaken _ _ _ (fun x => dest <= x < s + 28 \/ s + n' - 28 <= x < dest + n)) in W0.
  2: { intros x. cbn beta. rewrite !Exists_cons, !Exists_nil. lia. }
  pose proof (land4 s) as Hk2. remember (24 + (s &&& 4)) as k2 eqn:Ek2.
  destruct (memset_words_ok (Z.to_nat (n' - k2)) (s + k2) (n' - k2) m b _ m6 c64 Hc R8 ltac:(lia) ltac:(lia) W0)
    as (t & T1 & T2 & T3).
  eapply wrote_weaken; [|exact T3]. intros x. cbn beta. lia.
Qed.

(** *** The routines on strings *)
Fixpoint index_of (c : Z) (l : list Z) : nat :=
  match l with [] => 0 | x :: l => if x =? c then 0 else S (index_of c l) end.

Lemma index_of_le c l : (index_of c l <= length l)%nat.
Proof. induction l as [|x l IH]; cbn; [lia|]. case_match; lia. Qed.
Lemma index_of_before c l i x : (i < index_of c l)%nat -> l !! i = Some x -> x <> c.
Proof.
  revert i. induction l as [|y l IH]; intros i Hi Hx; [done|]. cbn in Hi. destruct (Z.eqb_spec y c); [lia|].
  destruct i as [|i]; [by injection Hx as <-|]. apply (IH i); [lia|done].
Qed.
Lemma index_of_here c l : (index_of c l < length l)%nat -> l !! index_of c l = Some c.
Proof.
  induction l as [|y l IH]; cbn; [lia|]. destruct (Z.eqb_spec y c) as [->|]; [done|]. intros H. apply IH. lia.
Qed.

Lemma cstr_none m a l c k :
  cstr m a l -> (k <= index_of c l)%nat -> none m c a (a + Z.of_nat k) /\ none m 0 a (a + Z.of_nat k).
Proof.
  intros (H1 & H2 & H3 & H4 & H5) Hk. pose proof (index_of_le c l).
  assert (forall x, a <= x < a + Z.of_nat k -> exists ch, l !! Z.to_nat (x - a) = Some ch /\ rd m x = ch) as Hl.
  { intros x Hx. destruct (lookup_lt_is_Some_2 l (Z.to_nat (x - a))) as [ch Hch]; [lia|].
    exists ch. split; [done|]. rewrite <- (H1 _ _ Hch). f_equal. lia. }
  split; intros x Hx; destruct (Hl x Hx) as (ch & E & ->).
  - eapply index_of_before; [|exact E]. lia.
  - rewrite Forall_forall in H3. pose proof (H3 ch ltac:(by eapply list_elem_of_lookup_2)) as Hb.
    unfold byte_ok in Hb. lia.
Qed.

(** C34: the string routines that work on eight bytes at a time agree with their byte-by-byte
    meaning, for every alignment of the string.  On a memory of bytes with the string [l] at
    [a], [strlen] is the length of [l], [strnlen] is the length cut at [n], and [strchrnul]
    is the address of the first [c] in [l] or of its terminator; on any [n] bytes, [memchr]
    returns the address of the first [c], or null when there is none. *)
Theorem libc_string_scans (m : mem) (a c n : Z) (l : list Z) (fuel : nat) :
  byte_mem m -> cstr m a l -> 0 < a -> 0 <= n -> Z.of_nat (length l) < 8 * Z.of_nat fuel ->
  strlen fuel m a = Some (Z.of_nat (length l)) /\
  strnlen m a n = Z.min n (Z.of_nat (length l)) /\
  strchrnul fuel m a c = Some (a + Z.of_nat (index_of (u8 c) l)) /\
  (memchr m a c n = 0 /\ none m (u8 c) a (a + n) \/
   exists r, 0 <= r < n /\ memchr m a c n = a + r /\ rd m (a + r) = u8 c /\ none m (u8 c) a (a + r)).
Proof.
  intros Hm Hc Ha Hn Hf. pose proof Hc as (H1 & H2 & H3 & H4 & H5). set (e := a + Z.of_nat (length l)) in *.
  assert (none m 0 a e) as Hz.
  { intros x Hx. destruct (lookup_lt_is_Some_2 l (Z.to_nat (x - a))) as [ch Hch]; [lia|].
    replace x with (a + Z.of_nat (Z.to_nat (x - a))) by lia. rewrite (H1 _ _ Hch).
    rewrite Forall_forall in H3. pose proof (H3 ch ltac:(by eapply list_elem_of_lookup_2)) as Hb. unfold byte_ok in Hb. lia. }
  split_and!.
  - rewrite (strlen_ok m a e fuel) by (done || lia). f_equal. lia.
  - rewrite (strnlen_ok m a n e) by (done || lia). lia.
  - pose proof (index_of_le (u8 c) l) as Hi. destruct (cstr_none m a l (u8 c) (index_of (u8 c) l) Hc ltac:(lia)) as [N1 N2].
    apply strchrnul_ok; [done|lia| |done|done|lia].
    destruct (decide (index_of (u8 c) l < length l)%nat) as [Hlt|Hge].
    + right. apply H1. by apply index_of_here.
    + left. replace (index_of (u8 c) l) with (length l) by lia. exact H2.
  - by apply memchr_ok.
Qed.

Definition sample : mem := put_string (bytes "eight by eight bytes") 1003 ∅.
Lemma libc_string_scans_witness :
  strlen 4 sample 1003 = Some 20 /\ strnlen sample 1003 7 = 7 /\
  strchrnul 4 sample 1003 121 = Some 1010 /\ memchr sample 1003 98 20 = 1009.
Proof.
  assert (byte_mem sample) as Hb.
  { intros a. unfold rd. destruct (sample !! a) as [x|] eqn:E; [|cbn; lia].
    assert (map_Forall (fun _ x => 0 <= x < 256) sample) as Hf
      by (refine (bool_decide_unpack _ _); vm_compute; exact I). exact (Hf _ _ E). }
  assert (cstr sample 1003 (bytes "eight by eight bytes")) as Hc.
  { split_and!; [|vm_compute; reflexivity| |lia|cbn; lia].
    - intros i ch Hi. do 20 (destruct i as [|i]; [injection Hi as <-; vm_compute; reflexivity|]). done.
    - repeat (apply Forall_cons; split; [by vm_compute|]). apply Forall_nil_2. }
  destruct (libc_string_scans sample 1003 121 7 _ 4 Hb Hc ltac:(lia) ltac:(lia) ltac:(cbn; lia)) as (H1 & H2 & H3 & _).
  split; [exact H1|]. split; [exact H2|]. split; [exact H3|]. vm_compute. reflexivity.
Defined.

(** [memset] fills exactly its range.  For every address, length and alignment, the
    sequence of overlapping stores of head, tail and aligned words sets each of the [n] bytes
    from [dest] on to [c], and no other byte of memory changes. *)
Theorem memset_fills (m : mem) (dest c n : Z) :
  0 <= dest -> 0 <= n -> dest + n <= 2 ^ 64 ->
  forall x, rd (memset dest c n m) x = if decide (dest <= x < dest + n) then u8 c else rd m x.
Proof.
  intros H1 H2 H3 x. destruct (memset_ok dest c n m H1 H2 H3 x) as [W1 W2]. by case_decide; [apply W1|apply W2].
Qed.
Lemma memset_fills_witness :
  rd (memset 1001 0x141 77 ∅) 1040 = 0x41 /\ rd (memset 1001 0x141 77 ∅) 1078 = 0.
Proof.
  split; [exact (memset_fills ∅ 1001 0x141 77 ltac:(lia) ltac:(lia) ltac:(lia) 1040)
         |exact (memset_fills ∅ 1001 0x141 77 ltac:(lia) ltac:(lia) ltac:(lia) 1078)].
Defined.

End LibcString.
