(* ===== verification/Utf8.v ===== *)
(** Multibyte characters of the C library (musl: multibyte/wcrtomb.c, mbrtowc.c, internal.c).

    [utf8] is the locale: true where [MB_CUR_MAX] is 4, false in the byte locale where it is 1.
    The decoder's state is one 32-bit word: the bits of the character read so far, above them a
    tag bit that leaves the word with the last byte, and for the first continuation byte an
    offset for its range check. *)
From S2P Require Import Prelude.
#[global] Open Scope Z_scope.

Module Utf8.

(** ** internal.h, internal.c *)
Definition R (a b : Z) : Z := u32 (u32 (if a =? 0x80 then 0x40 - b else 0 - a) <<< 23).
Definition OOB (c b : Z) : bool := truth ((((b >>> 3) - 0x10) ||| ((b >>> 3) + (s32 c >>> 26))) &&& Z.lnot 7).
Definition SA : Z := 0xc2.
Definition SB : Z := 0xf4.
Definition CODEUNIT (c : Z) : Z := 0xdfff &&& s8 c.
Definition IS_CODEUNIT (c : Z) : bool := u32 (u32 c - 0xdf80) <? 0x80.

Definition C (x : Z) : Z := if x <? 2 then u32 (-1) else R 0x80 0xc0 ||| x.
Definition D (x : Z) : Z := C (x + 16).
Definition E (x : Z) : Z :=
  (if x =? 0 then R 0xa0 0xc0 else if x =? 0xd then R 0x80 0xa0 else R 0x80 0xc0)
  ||| (R 0x80 0xc0 >>> 6) ||| x.
Definition F (x : Z) : Z :=
  (if 5 <=? x then 0 else if x =? 0 then R 0x90 0xc0 else if x =? 4 then R 0x80 0x90 else R 0x80 0xc0)
  ||| (R 0x80 0xc0 >>> 6) ||| (R 0x80 0xc0 >>> 12) ||| x.
Definition bittab : list Z :=
  (C <$> seqZ 2 14) ++ (D <$> seqZ 0 16) ++ (E <$> seqZ 0 16) ++ (F <$> seqZ 0 5).

(** ** wcrtomb.c: the bytes, or [None] for [EILSEQ] *)
Definition wcrtomb (utf8 : bool) (wc : Z) : option (list Z) :=
  if u32 wc <? 0x80 then Some [u8 wc]
  else if negb utf8 then if negb (IS_CODEUNIT wc) then None else Some [u8 wc]
  else if u32 wc <? 0x800 then Some [u8 (0xc0 ||| (wc >>> 6)); u8 (0x80 ||| (wc &&& 0x3f))]
  else if (u32 wc <? 0xd800) || (u32 (u32 wc - 0xe000) <? 0x2000) then
    Some [u8 (0xe0 ||| (wc >>> 12)); u8 (0x80 ||| ((wc >>> 6) &&& 0x3f)); u8 (0x80 ||| (wc &&& 0x3f))]
  else if u32 (u32 wc - 0x10000) <? 0x100000 then
    Some [u8 (0xf0 ||| (wc >>> 18)); u8 (0x80 ||| ((wc >>> 12) &&& 0x3f)); u8 (0x80 ||| ((wc >>> 6) &&& 0x3f));
          u8 (0x80 ||| (wc &&& 0x3f))]
  else None.

(** ** mbrtowc.c
    The result of the call: what it returns, the state it leaves, the character it stores. *)
Record conv := Conv { returned : Z; state : Z; stored : option Z }.
Definition ilseq : conv := Conv (u64 (-1)) 0 None.
Definition more (c : Z) : conv := Conv (u64 (-2)) c None.

(** From the label [loop] on; [s] are the bytes from [*s] on. *)
Fixpoint mb_loop (s : list Z) (c n N : Z) : conv :=
  match s with
  | [] => more c
  | b :: s =>
      let c := u32 ((c <<< 6) ||| (b - 0x80)) in
      let n := n - 1 in
      if negb (truth (c &&& (1 <<< 31))) then Conv (u64 (N - n)) 0 (Some c)
      else if n =? 0 then more c
      else if 0x40 <=? u32 (default 0 (s !! 0%nat) - 0x80) then ilseq
      else mb_loop s c n N
  end.

(** [s] is [None] for a null pointer, and has at least [n] bytes or ends in what is read. *)
Definition mbrtowc (utf8 : bool) (c : Z) (s : option (list Z)) (n : Z) : conv :=
  let N := u32 n in
  match s with
  | None => if truth c then ilseq else Conv 0 c None
  | Some s =>
      if n =? 0 then Conv (u64 (-2)) c None else
      let b := default 0 (s !! 0%nat) in
      if c =? 0 then
        if b <? 0x80 then Conv (if b =? 0 then 0 else 1) c (Some b)
        else if negb utf8 then Conv 1 c (Some (CODEUNIT b))
        else if (b <? SA) || (SB <? b) then ilseq
        else
          let c := default 0 (bittab !! Z.to_nat (b - SA)) in
          let s := drop 1 s in
          let n := n - 1 in
          if n =? 0 then more c
          else if OOB c (default 0 (s !! 0%nat)) then ilseq
          else mb_loop s c n N
      else if OOB c b then ilseq else mb_loop s c n N
  end.

Definition mb_example (wc : Z) : option conv :=
  l ← wcrtomb true wc; Some (mbrtowc true 0 (Some l) (Z.of_nat (length l))).
Example euro : mb_example 0x20ac = Some (Conv 3 0 (Some 0x20ac)).
Proof. vm_compute. reflexivity. Qed.
Example clef : mb_example 0x1d11e = Some (Conv 4 0 (Some 0x1d11e)).
Proof. vm_compute. reflexivity. Qed.

(** ** The encoder in digits of base 64 *)
Lemma tag a k x : 0 <= k -> a mod 2 ^ k = 0 -> 0 <= x < 2 ^ k -> 0 <= a -> a + x < 256 -> u8 (a ||| x) = a + x.
Proof.
  intros Hk Ha Hx H0 H1. rewrite (lor_aligned_add k) by (done || unfold in_u; lia). apply wrap_small. unfold in_u. lia.
Qed.
Lemma low6 v : v &&& 0x3f = v mod 64.
Proof. change 0x3f with (2 ^ 6 - 1). by rewrite land_mask_mod by lia. Qed.
Lemma digit q r : 0 <= r < 64 -> (64 * q + r) / 64 = q /\ (64 * q + r) mod 64 = r.
Proof.
  intros. split; symmetry; [apply (Z.div_unique_pos _ _ _ r)|apply (Z.mod_unique_pos _ _ q)]; lia.
Qed.

Lemma enc1 wc : 0 <= wc < 0x80 -> wcrtomb true wc = Some [wc].
Proof.
  intros H. unfold wcrtomb. rewrite (wrap_small 32) by (unfold in_u; lia). destruct (Z.ltb_spec wc 0x80); [|lia].
  by rewrite (wrap_small 8) by (unfold in_u; lia).
Qed.
Lemma enc2 x y : 2 <= x < 32 -> 0 <= y < 64 -> wcrtomb true (64 * x + y) = Some [0xc0 + x; 0x80 + y].
Proof.
  intros Hx Hy. unfold wcrtomb. rewrite (wrap_small 32) by (unfold in_u; lia).
  destruct (Z.ltb_spec (64 * x + y) 0x80); [lia|]. cbn [negb]. destruct (Z.ltb_spec (64 * x + y) 0x800); [|lia].
  destruct (digit x y Hy) as [D1 D2]. rewrite Z.shiftr_div_pow2, low6, D2 by lia. change (2 ^ 6) with 64. rewrite D1.
  by rewrite (tag 0xc0 5), (tag 0x80 6) by (done || lia).
Qed.
Lemma enc3 x y z : 0 <= x < 16 -> 0 <= y < 64 -> 0 <= z < 64 ->
  (0x20 <= y \/ x <> 0) -> (y < 0x20 \/ x <> 0xd) ->
  wcrtomb true (4096 * x + 64 * y + z) = Some [0xe0 + x; 0x80 + y; 0x80 + z].
Proof.
  intros Hx Hy Hz V1 V2. unfold wcrtomb. set (wc := 4096 * x + 64 * y + z).
  assert (0x800 <= wc < 0x10000) as Hr by (unfold wc; lia).
  rewrite (wrap_small 32 wc) by (unfold in_u; lia).
  destruct (Z.ltb_spec wc 0x80); [lia|]. cbn [negb]. destruct (Z.ltb_spec wc 0x800); [lia|].
  assert ((wc <? 0xd800) || (u32 (wc - 0xe000) <? 0x2000) = true) as ->.
  { apply orb_true_iff. destruct (decide (wc < 0xd800)); [left; by apply Z.ltb_lt|right].
    apply Z.ltb_lt. rewrite wrap_small by (unfold in_u, wc in *; lia). lia. }
  assert (wc = 64 * (64 * x + y) + z) as Ew by (unfold wc; lia).
  destruct (digit (64 * x + y) z Hz) as [D1 D2]. destruct (digit x y Hy) as [D3 D4].
  rewrite !Z.shiftr_div_pow2, !low6 by lia. change (2 ^ 12) with (64 * 64). change (2 ^ 6) with 64.
  rewrite <- Z.div_div, Ew, D1, D2, D3, D4 by lia.
  by rewrite (tag 0xe0 4), !(tag 0x80 6) by (done || lia).
Qed.
Lemma enc4 x y z t : 0 <= x <= 4 -> 0 <= y < 64 -> 0 <= z < 64 -> 0 <= t < 64 ->
  (0x10 <= y \/ x <> 0) -> (y < 0x10 \/ x <> 4) ->
  wcrtomb true (262144 * x + 4096 * y + 64 * z + t) = Some [0xf0 + x; 0x80 + y; 0x80 + z; 0x80 + t].
Proof.
  intros Hx Hy Hz Ht V1 V2. unfold wcrtomb. set (wc := 262144 * x + 4096 * y + 64 * z + t).
  assert (0x10000 <= wc < 0x110000) as Hr by (unfold wc; lia).
  rewrite (wrap_small 32 wc) by (unfold in_u; lia).
  destruct (Z.ltb_spec wc 0x80); [lia|]. cbn [negb]. destruct (Z.ltb_spec wc 0x800); [lia|].
  destruct (Z.ltb_spec wc 0xd800); [lia|]. cbn [orb].
  rewrite !(wrap_small 32) by (unfold in_u; lia).
  destruct (Z.ltb_spec (wc - 0xe000) 0x2000); [lia|]. destruct (Z.ltb_spec (wc - 0x10000) 0x100000); [|lia].
  assert (wc = 64 * (64 * (64 * x + y) + z) + t) as Ew by (unfold wc; lia).
  destruct (digit (64 * (64 * x + y) + z) t Ht) as [D1 D2]. destruct (digit (64 * x + y) z Hz) as [D3 D4].
  destruct (digit x y Hy) as [D5 D6].
  rewrite !Z.shiftr_div_pow2, !low6 by lia. change (2 ^ 18) with (64 * 64 * 64). change (2 ^ 12) with (64 * 64). change (2 ^ 6) with 64.
  rewrite <- !Z.div_div, Ew, D1, D2, D3, D4, D5, D6 by lia.
  by rewrite (tag 0xf0 3), !(tag 0x80 6) by (done || lia).
Qed.

(** ** The decoder, byte by byte *)
Lemma shift_in c y : 0 <= c < 2 ^ 32 -> 0 <= y < 64 -> u32 ((c <<< 6) ||| y) = (c mod 2 ^ 26) * 64 + y.
Proof.
  intros Hc Hy. rewrite Z.shiftl_mul_pow2 by lia. rewrite (lor_aligned_add 6).
  - pose proof (Z.div_mod c (2 ^ 26) ltac:(lia)) as E. pose proof (Z.mod_pos_bound c (2 ^ 26) ltac:(lia)).
    unfold wrap. symmetry. apply (Z.mod_unique_pos _ _ (c / 2 ^ 26)); lia.
  - lia.
  - apply Z.mod_mul. lia.
  - unfold in_u. lia.
Qed.
Lemma tag_bit c : 0 <= c < 2 ^ 32 -> truth (c &&& (1 <<< 31)) = (2 ^ 31 <=? c).
Proof.
  intros Hc. rewrite truth_bit by lia.
  rewrite Z.testbit_odd, Z.shiftr_div_pow2 by lia. destruct (Z.leb_spec (2 ^ 31) c).
  - by rewrite <- (Z.div_unique_pos c (2 ^ 31) 1 (c - 2 ^ 31)) by lia.
  - by rewrite Z.div_small by lia.
Qed.

(** A continuation byte. *)
Definition cont (b : Z) : bool := (0x80 <=? b) && (b <? 0xc0).

Lemma cont_ok y : 0 <= y < 64 -> cont (0x80 + y) = true.
Proof. intros H. unfold cont. apply andb_true_iff. split; zb; lia. Qed.

Lemma mb_step c n N y s :
  0 <= c < 2 ^ 32 -> 0 <= y < 64 -> Forall (fun b => 0 <= b < 256) s ->
  let c' := (c mod 2 ^ 26) * 64 + y in
  mb_loop (0x80 + y :: s) c n N =
    if c' <? 2 ^ 31 then Conv (u64 (N - (n - 1))) 0 (Some c')
    else if n =? 1 then more c'
    else if cont (default 0 (s !! 0%nat)) then mb_loop s c' (n - 1) N else ilseq.
Proof.
  intros Hc Hy Hs c'. cbn [mb_loop]. replace (0x80 + y - 0x80) with y by lia. rewrite shift_in by done. fold c'.
  pose proof (Z.mod_pos_bound c (2 ^ 26) ltac:(lia)). rewrite tag_bit by (unfold c'; lia).
  rewrite <- Z.ltb_antisym. destruct (c' <? 2 ^ 31); [done|].
  replace (n - 1 =? 0) with (n =? 1) by (destruct (Z.eqb_spec n 1), (Z.eqb_spec (n - 1) 0); lia || done).
  destruct (n =? 1); [done|]. unfold cont.
  assert (0 <= default 0 (s !! 0%nat) < 256) as Hb.
  { destruct s as [|b s]; [cbn; lia|]. by apply Forall_cons in Hs as [? _]. }
  set (b := default 0 (s !! 0%nat)) in *. clearbody b. unfold wrap.
  destruct (Z.leb_spec 0x80 b); cbn [andb].
  - rewrite Z.mod_small by lia. destruct (Z.leb_spec 0x40 (b - 0x80)), (Z.ltb_spec b 0xc0); lia || done.
  - rewrite <- (Z.mod_unique_pos (b - 0x80) (2 ^ 32) (-1) (b - 0x80 + 2 ^ 32)) by lia.
    destruct (Z.leb_spec 0x40 (b - 0x80 + 2 ^ 32)); [done|lia].
Qed.

(** The bytes that may follow a lead byte, and what its table entry holds. *)
Definition second_ok (lead b : Z) : bool :=
  ((if lead =? 0xe0 then 0xa0 else if lead =? 0xf0 then 0x90 else 0x80) <=? b) &&
  (b <? if lead =? 0xed then 0xa0 else if lead =? 0xf4 then 0x90 else 0xc0).
Definition entry (lead : Z) : Z := default 0 (bittab !! Z.to_nat (lead - SA)).
Definition payload (lead : Z) : Z :=
  if lead <? 0xe0 then lead - 0xc0 else if lead <? 0xf0 then 0x3000000 + (lead - 0xe0) else 0x30C0000 + (lead - 0xf0).

Lemma table_ok : forallb (fun lead =>
    (0 <=? entry lead) && (entry lead <? 2 ^ 32) && (entry lead mod 2 ^ 26 =? payload lead) &&
    forallb (fun b => Bool.eqb (OOB (entry lead) b) (negb (second_ok lead b))) (seqZ 0 256)) (seqZ 0xc2 51) = true.
Proof. vm_compute. reflexivity. Qed.

Lemma lead_entry lead b : 0xc2 <= lead <= 0xf4 -> 0 <= b < 256 ->
  0 <= entry lead < 2 ^ 32 /\ entry lead mod 2 ^ 26 = payload lead /\ OOB (entry lead) b = negb (second_ok lead b).
Proof.
  intros Hl Hb. pose proof table_ok as H. rewrite forallb_forall in H.
  specialize (H lead ltac:(apply list_elem_of_In, elem_of_seqZ; lia)).
  rewrite !andb_true_iff, Z.leb_le, Z.ltb_lt, Z.eqb_eq, forallb_forall in H. destruct H as [[[H1 H2] H3] H4].
  specialize (H4 b ltac:(apply list_elem_of_In, elem_of_seqZ; lia)). apply Bool.eqb_prop in H4. done.
Qed.

Definition bytes_ok (s : list Z) : Prop := Forall (fun b => 0 <= b < 256) s.

Lemma head_ok s : bytes_ok s -> 0 <= default 0 (s !! 0%nat) < 256.
Proof. intros Hs. destruct s as [|b s]; [cbn; lia|]. by apply Forall_cons in Hs as [? _]. Qed.

Lemma dec_lead lead s n :
  0xc2 <= lead <= 0xf4 -> bytes_ok s -> 1 <= n ->
  mbrtowc true 0 (Some (lead :: s)) n =
    if n =? 1 then more (entry lead)
    else if second_ok lead (default 0 (s !! 0%nat)) then mb_loop s (entry lead) (n - 1) (u32 n) else ilseq.
Proof.
  intros Hl Hs Hn. pose proof (head_ok s Hs) as Hb. destruct (lead_entry lead _ Hl Hb) as (_ & _ & Ho).
  unfold mbrtowc. destruct (Z.eqb_spec n 0); [lia|].
  change (default 0 ((lead :: s) !! 0%nat)) with lead. change (drop 1 (lead :: s)) with s. cbn [Z.eqb].
  unfold SA, SB. destruct (Z.ltb_spec lead 0x80); [lia|]. cbn [negb].
  destruct (Z.ltb_spec lead 0xc2), (Z.ltb_spec 0xf4 lead); try lia. cbn [orb].
  replace (n - 1 =? 0) with (n =? 1) by (destruct (Z.eqb_spec n 1), (Z.eqb_spec (n - 1) 0); lia || done).
  change (default 0 (bittab !! Z.to_nat (lead - 0xc2))) with (entry lead). destruct (n =? 1); [done|].
  rewrite Ho. by destruct (second_ok lead (default 0 (s !! 0%nat))).
Qed.

Section Dec.
Variables (s : list Z) (n : Z).
Hypothesis Hs : bytes_ok s.
Hypothesis Hn : n < 2 ^ 32.

Lemma dec2 x y : 2 <= x < 32 -> 0 <= y < 64 -> 2 <= n ->
  mbrtowc true 0 (Some (0xc0 + x :: 0x80 + y :: s)) n = Conv 2 0 (Some (64 * x + y)).
Proof.
  intros Hx Hy H2. rewrite dec_lead by (try lia; by apply Forall_cons; split; [lia|]).
  destruct (Z.eqb_spec n 1); [lia|]. cbn [lookup list_lookup default id].
  destruct (lead_entry (0xc0 + x) 0 ltac:(lia) ltac:(lia)) as (E1 & E2 & _).
  assert (second_ok (0xc0 + x) (0x80 + y) = true) as ->.
  { unfold second_ok. repeat (case_match; zb; try lia). }
  rewrite mb_step by done. unfold payload in E2. destruct (Z.ltb_spec (0xc0 + x) 0xe0); [|lia].
  cbv zeta. rewrite E2. destruct (Z.ltb_spec ((0xc0 + x - 0xc0) * 64 + y) (2 ^ 31)); [|lia].
  rewrite (wrap_small 32), (wrap_small 64) by (unfold in_u; lia). f_equal; [lia|f_equal; lia].
Qed.

Lemma dec3 x y z : 0 <= x < 16 -> 0 <= y < 64 -> 0 <= z < 64 -> second_ok (0xe0 + x) (0x80 + y) = true -> 3 <= n ->
  mbrtowc true 0 (Some (0xe0 + x :: 0x80 + y :: 0x80 + z :: s)) n = Conv 3 0 (Some (4096 * x + 64 * y + z)).
Proof.
  intros Hx Hy Hz Hok H3. rewrite dec_lead by (try lia; repeat (apply Forall_cons; split; [lia|]); done).
  destruct (Z.eqb_spec n 1); [lia|]. cbn [lookup list_lookup default id].
  destruct (lead_entry (0xe0 + x) 0 ltac:(lia) ltac:(lia)) as (E1 & E2 & _). rewrite Hok.
  unfold payload in E2. destruct (Z.ltb_spec (0xe0 + x) 0xe0), (Z.ltb_spec (0xe0 + x) 0xf0); try lia.
  rewrite mb_step by (done || (apply Forall_cons; split; [lia|done])). cbv zeta. rewrite E2.
  set (c1 := (0x3000000 + (0xe0 + x - 0xe0)) * 64 + y). destruct (Z.ltb_spec c1 (2 ^ 31)); [lia|].
  destruct (Z.eqb_spec (n - 1) 1); [lia|]. cbn [lookup list_lookup default id].
  rewrite cont_ok by done.
  rewrite mb_step by (done || (unfold c1; lia)). cbv zeta.
  assert (c1 mod 2 ^ 26 = 64 * x + y) as ->
    by (symmetry; apply (Z.mod_unique_pos _ _ 48); unfold c1; lia).
  destruct (Z.ltb_spec ((64 * x + y) * 64 + z) (2 ^ 31)); [|lia].
  rewrite (wrap_small 32), (wrap_small 64) by (unfold in_u; lia). f_equal; [lia|f_equal; lia].
Qed.

Lemma dec4 x y z t : 0 <= x <= 4 -> 0 <= y < 64 -> 0 <= z < 64 -> 0 <= t < 64 ->
  second_ok (0xf0 + x) (0x80 + y) = true -> 4 <= n ->
  mbrtowc true 0 (Some (0xf0 + x :: 0x80 + y :: 0x80 + z :: 0x80 + t :: s)) n
  = Conv 4 0 (Some (262144 * x + 4096 * y + 64 * z + t)).
Proof.
  intros Hx Hy Hz Ht Hok H4. rewrite dec_lead by (try lia; repeat (apply Forall_cons; split; [lia|]); done).
  destruct (Z.eqb_spec n 1); [lia|]. cbn [lookup list_lookup default id].
  destruct (lead_entry (0xf0 + x) 0 ltac:(lia) ltac:(lia)) as (E1 & E2 & _). rewrite Hok.
  unfold payload in E2. destruct (Z.ltb_spec (0xf0 + x) 0xe0), (Z.ltb_spec (0xf0 + x) 0xf0); try lia.
  rewrite mb_step by (done || (repeat (apply Forall_cons; split; [lia|]); done)). cbv zeta. rewrite E2.
  set (c1 := (0x30C0000 + (0xf0 + x - 0xf0)) * 64 + y). destruct (Z.ltb_spec c1 (2 ^ 31)); [lia|].
  destruct (Z.eqb_spec (n - 1) 1); [lia|]. cbn [lookup list_lookup default id]. rewrite cont_ok by done.
  rewrite mb_step by (done || (unfold c1; lia) || (apply Forall_cons; split; [lia|done])). cbv zeta.
  assert (c1 mod 2 ^ 26 = 0x3000000 + 64 * x + y) as ->
    by (symmetry; apply (Z.mod_unique_pos _ _ 48); unfold c1; lia).
  set (c2 := (0x3000000 + 64 * x + y) * 64 + z). destruct (Z.ltb_spec c2 (2 ^ 31)); [lia|].
  destruct (Z.eqb_spec (n - 1 - 1) 1); [lia|]. cbn [lookup list_lookup default id]. rewrite cont_ok by done.
  rewrite mb_step by (done || (unfold c2; lia)). cbv zeta.
  assert (c2 mod 2 ^ 26 = 4096 * x + 64 * y + z) as ->
    by (symmetry; apply (Z.mod_unique_pos _ _ 48); unfold c2; lia).
  destruct (Z.ltb_spec ((4096 * x + 64 * y + z) * 64 + t) (2 ^ 31)); [|lia].
  rewrite (wrap_small 32), (wrap_small 64) by (unfold in_u; lia). f_equal; [lia|f_equal; lia].
Qed.
End Dec.

(** The characters that have an encoding. *)
Definition scalar (wc : Z) : Prop := 0 <= wc < 0xd800 \/ 0xe000 <= wc < 0x110000.

Lemma second_ok_3 x y : 0 <= x < 16 -> 0 <= y < 64 ->
  second_ok (0xe0 + x) (0x80 + y) = true <-> (0x20 <= y \/ x <> 0) /\ (y < 0x20 \/ x <> 0xd).
Proof.
  intros. unfold second_ok. rewrite andb_true_iff, Z.leb_le, Z.ltb_lt. repeat (case_match; zb); lia.
Qed.
Lemma second_ok_4 x y : 0 <= x <= 4 -> 0 <= y < 64 ->
  second_ok (0xf0 + x) (0x80 + y) = true <-> (0x10 <= y \/ x <> 0) /\ (y < 0x10 \/ x <> 4).
Proof.
  intros. unfold second_ok. rewrite andb_true_iff, Z.leb_le, Z.ltb_lt. repeat (case_match; zb); lia.
Qed.

(** C32: round trip of the multibyte encoding.  Every character that is not a surrogate has an
    encoding of one to four bytes, and decoding these bytes from the initial state, whatever
    follows them, gives the character back, the number of bytes (0 for the null character)
    and the initial state. *)
Theorem utf8_roundtrip (wc n : Z) (rest : list Z) :
  scalar wc -> bytes_ok rest ->
  exists l, wcrtomb true wc = Some l /\ (1 <= length l <= 4)%nat /\
    (Z.of_nat (length l) <= n < 2 ^ 32 ->
     mbrtowc true 0 (Some (l ++ rest)) n = Conv (if wc =? 0 then 0 else Z.of_nat (length l)) 0 (Some wc)).
Proof.
  intros Hwc Hr. unfold scalar in Hwc.
  pose proof (Z.div_mod wc 64 ltac:(lia)) as D1. pose proof (Z.mod_pos_bound wc 64 ltac:(lia)) as B1.
  set (q := wc / 64) in *. set (d := wc mod 64) in *.
  pose proof (Z.div_mod q 64 ltac:(lia)) as D2. pose proof (Z.mod_pos_bound q 64 ltac:(lia)) as B2.
  set (q2 := q / 64) in *. set (e := q mod 64) in *.
  pose proof (Z.div_mod q2 64 ltac:(lia)) as D3. pose proof (Z.mod_pos_bound q2 64 ltac:(lia)) as B3.
  set (q3 := q2 / 64) in *. set (f := q2 mod 64) in *. clearbody q d q2 e q3 f.
  destruct (decide (wc < 0x80)); [|destruct (decide (wc < 0x800)); [|destruct (decide (wc < 0x10000))]].
  - exists [wc]. rewrite enc1 by lia. split; [done|]. split; [cbn; lia|]. intros Hn. cbn [app length].
    unfold mbrtowc. cbn in Hn. destruct (Z.eqb_spec n 0); [lia|]. cbn [lookup list_lookup default id Z.eqb].
    destruct (Z.ltb_spec wc 0x80); [|lia]. by destruct (wc =? 0).
  - exists [0xc0 + q; 0x80 + d]. rewrite D1, enc2 by lia. split; [done|]. split; [cbn; lia|]. intros Hn. cbn in Hn.
    cbn [app length]. rewrite dec2 by (done || lia). destruct (Z.eqb_spec (64 * q + d) 0); [lia|done].
  - exists [0xe0 + q2; 0x80 + e; 0x80 + d].
    replace wc with (4096 * q2 + 64 * e + d) by lia. rewrite enc3 by lia. split; [done|]. split; [cbn; lia|].
    intros Hn. cbn in Hn. cbn [app length]. rewrite dec3 by (done || lia || (apply second_ok_3; lia)).
    destruct (Z.eqb_spec (4096 * q2 + 64 * e + d) 0); [lia|done].
  - exists [0xf0 + q3; 0x80 + f; 0x80 + e; 0x80 + d].
    replace wc with (262144 * q3 + 4096 * f + 64 * e + d) by lia. rewrite enc4 by lia. split; [done|]. split; [cbn; lia|].
    intros Hn. cbn in Hn. cbn [app length]. rewrite dec4 by (done || lia || (apply second_ok_4; lia)).
    destruct (Z.eqb_spec (262144 * q3 + 4096 * f + 64 * e + d) 0); [lia|done].
Qed.
Lemma utf8_roundtrip_witness :
  exists l, wcrtomb true 0x1d11e = Some l /\ mbrtowc true 0 (Some (l ++ [0x41])) 5 = Conv 4 0 (Some 0x1d11e).
Proof.
  destruct (utf8_roundtrip 0x1d11e 5 [0x41]) as (l & H1 & H2 & H3); [right; lia|repeat constructor; lia|].
  exists l. assert (l = [0xf0; 0x9d; 0x84; 0x9e]) as -> by (vm_compute in H1; congruence).
  split; [exact H1|]. apply H3. cbn. lia.
Defined.

End Utf8.
