(* ===== verification/Stdio.v ===== *)
(** Output streams of the C library the user program is linked with (musl: fwrite.c,
    __towrite.c, __stdio_write.c, __stdout_write.c, the back end of vsnprintf.c).

    A [FILE] keeps what the write side uses.  Its buffer is a list: [pending] holds the bytes
    from [wbase] to [wpos], [buf_size] bounds its length, and [wready] says that [wend] is not
    null; [wbase] is [buf] whenever it is.  Data to be written is passed as the list of its
    bytes.  The system calls are the class [Sys] over the state [W] of the kernel behind them;
    a [writev] may write less than it was given.  The loop over it may run once for each byte, and
    [fuel] times more for calls that write nothing. *)
From S2P Require Import Prelude KMonad KString.
#[global] Open Scope Z_scope.

Module Stdio.

Definition F_PERM : Z := 1.
Definition F_NORD : Z := 4.
Definition F_NOWR : Z := 8.
Definition F_ERR : Z := 32.
Definition F_SVB : Z := 64.
Definition EOF : Z := -1.
Definition BUFSIZ : Z := 1024.
Definition TIOCGWINSZ : Z := 0x5413.

(** The function behind [f->write]; [cookie] of vsnprintf.c: where to write, and how much. *)
Inductive writer := Stdout_write | Stdio_write | Sn_write (c_s c_n : Z).

Record FILE := File {
  flags : Z; mode : Z; lbf : Z; fd : Z; buf_size : Z;
  wready : bool; pending : list Z; write_ : writer
}.
Definition set_flags x f := File x (mode f) (lbf f) (fd f) (buf_size f) (wready f) (pending f) (write_ f).
Definition set_mode x f := File (flags f) x (lbf f) (fd f) (buf_size f) (wready f) (pending f) (write_ f).
Definition set_lbf x f := File (flags f) (mode f) x (fd f) (buf_size f) (wready f) (pending f) (write_ f).
Definition set_buf x f := File (flags f) (mode f) (lbf f) (fd f) x (wready f) (pending f) (write_ f).
Definition set_wbuf r p f := File (flags f) (mode f) (lbf f) (fd f) (buf_size f) r p (write_ f).
Definition set_write x f := File (flags f) (mode f) (lbf f) (fd f) (buf_size f) (wready f) (pending f) x.

Definition stdout_FILE : FILE := File (Z.lor F_PERM F_NORD) 0 10 1 BUFSIZ false [] Stdout_write.

(** The system calls. *)
Class Sys (W : Type) := {
  sys_writev : Z -> list (list Z) -> W -> Z * W;
  sys_ioctl : Z -> Z -> W -> Z * W
}.

Record libc {W : Type} := Libc { file : FILE; lmem : KString.mem; errno : Z; world : W }.
Arguments libc : clear implicits.
Arguments Libc {W}.

Section Ops.
Context {W : Type} `{!Sys W}.
Variable fuel : nat.
Notation L := (libc W).
Implicit Types k : L.

Definition upd_file (g : FILE -> FILE) : M L unit :=
  modify (fun k => Libc (g (file k)) (lmem k) (errno k) (world k)).
Definition upd_mem (g : KString.mem -> KString.mem) : M L unit :=
  modify (fun k => Libc (file k) (g (lmem k)) (errno k) (world k)).
Definition set_errno (e : Z) : M L unit := modify (fun k => Libc (file k) (lmem k) e (world k)).

Definition syscall_ret (r : Z) : M L Z :=
  if u64 (-4096) <? u64 r then set_errno (s32 (- r)) ;;; ret (-1) else ret (s64 r).
Definition writev (fd : Z) (iov : list (list Z)) : M L Z := fun k =>
  let '(r, w) := sys_writev fd iov (world k) in
  syscall_ret r (Libc (file k) (lmem k) (errno k) w).

Definition len (l : list Z) : Z := Z.of_nat (length l).

Definition towrite : M L Z :=
  upd_file (fun f => set_mode (Z.lor (mode f) (mode f - 1)) f) ;;;
  let! f := gets file in
  if truth (flags f &&& F_NOWR) then
    upd_file (set_flags (flags f ||| F_ERR)) ;;;
    ret EOF
  else
    upd_file (set_wbuf true []) ;;;
    ret 0.

(** The loop of [__stdio_write]: [iov] is the rest of the vector, [rem] what is left. *)
Fixpoint stdio_loop (n : nat) (iov : list (list Z)) (rem len_ : Z) : M L Z :=
  match n with
  | O => fault
  | S n =>
      let! f := gets file in
      let! cnt := writev (fd f) iov in
      if cnt =? rem then
        upd_file (set_wbuf true []) ;;;
        ret len_
      else if cnt <? 0 then
        upd_file (fun f => set_flags (flags f ||| F_ERR) (set_wbuf false [] f)) ;;;
        ret (if Z.of_nat (length iov) =? 2 then 0 else len_ - len (default [] (iov !! 0%nat)))
      else
        let rem := rem - cnt in
        let iov0 := default [] (iov !! 0%nat) in
        let '(iov, cnt) := if len iov0 <? cnt then (drop 1 iov, cnt - len iov0) else (iov, cnt) in
        stdio_loop n (drop (Z.to_nat cnt) (default [] (iov !! 0%nat)) :: drop 1 iov) rem len_
  end.
Definition stdio_write (buf : list Z) : M L Z :=
  let! f := gets file in
  let rem := len (pending f) + len buf in
  stdio_loop (fuel + S (Z.to_nat rem)) [pending f; buf] rem (len buf).

Definition stdout_write (buf : list Z) : M L Z :=
  upd_file (set_write Stdio_write) ;;;
  let! f := gets file in
  (if negb (truth (flags f &&& F_SVB)) then
     (fun k => let '(r, w) := sys_ioctl (fd f) TIOCGWINSZ (world k) in
        Some (tt, Libc (if truth r then set_lbf (-1) (file k) else file k) (lmem k) (errno k) w))
   else ret tt) ;;;
  stdio_write buf.

(** [memcpy] of a list of bytes. *)
Fixpoint copy_out (l : list Z) (a : Z) (m : KString.mem) : KString.mem :=
  match l with [] => m | c :: l => copy_out l (u64 (a + 1)) (KString.wr a (u8 c) m) end.

Definition sn_write (c_s c_n : Z) (s : list Z) : M L Z :=
  let! f := gets file in
  let k := Z.min c_n (len (pending f)) in
  upd_mem (copy_out (take (Z.to_nat k) (pending f)) c_s) ;;;
  let '(c_s, c_n) := (u64 (c_s + k), c_n - k) in
  let k := Z.min c_n (len s) in
  upd_mem (copy_out (take (Z.to_nat k) s) c_s) ;;;
  let '(c_s, c_n) := (u64 (c_s + k), c_n - k) in
  upd_mem (KString.wr c_s 0) ;;;
  upd_file (fun f => set_write (Sn_write c_s c_n) (set_wbuf (wready f) [] f)) ;;;
  ret (len s).

(** [f->write (f, s, l)] *)
Definition fwrite_fn (s : list Z) : M L Z :=
  let! f := gets file in
  match write_ f with
  | Stdout_write => stdout_write s
  | Stdio_write => stdio_write s
  | Sn_write c_s c_n => sn_write c_s c_n s
  end.

(** The length of the part of [s] up to its last newline. *)
Fixpoint through_newline (s : list Z) : nat :=
  match s with
  | [] => 0
  | c :: s => match through_newline s with O => if c =? 10 then 1 else 0 | n => S n end
  end.

(** [__fwritex], once the stream is in its writing state. *)
Definition fwritex_ready (s : list Z) : M L Z :=
  let! f := gets file in
  if buf_size f - len (pending f) <? len s then fwrite_fn s
  else
    let i := if 0 <=? lbf f then through_newline s else 0%nat in
    let! n := (if (0 <? i)%nat then fwrite_fn (take i s) else ret 0) in
    if (0 <? i)%nat && (n <? Z.of_nat i) then ret n
    else
      let s := drop i s in
      upd_file (fun f => set_wbuf (wready f) (pending f ++ s) f) ;;;
      ret (len s + Z.of_nat i).
Definition fwritex (s : list Z) : M L Z :=
  let! f := gets file in
  let! r := (if negb (wready f) then towrite else ret 0) in
  if truth r then ret 0 else fwritex_ready s.

Definition fwrite (src : list Z) (size nmemb : Z) : M L Z :=
  let l := u64 (size * nmemb) in
  let nmemb := if size =? 0 then 0 else nmemb in
  let! k := fwritex (take (Z.to_nat l) src) in
  if k =? l then ret nmemb else if size =? 0 then fault else ret (k / size).
End Ops.

End Stdio.
