(* ===== verification/StdioProps.v ===== *)
(** Correctness of the output streams.

    [Sink P bad R] is what a stream promises to its clients: [P T] says that the stream has taken
    the text [T] so far and has no error, [__fwritex] appends to it or leaves it [bad], with its
    error flag set, and the memory at the addresses in [R] is not written.  [SysOk] is what a stream asks of the system: a [writev]
    delivers a part of what it was given, not an empty one if there was something to write, or it
    fails, if the system can fail; [tty] says that descriptors are terminals.  [stdout] is a sink for any such system; the string of [snprintf] is one for any. *)
From S2P Require Import Prelude KMonad KString KStringProps LibcString Stdio.
#[global] Open Scope Z_scope.

Module StdioProps.
Import Stdio.

Definition err {W} (k : libc W) : bool := truth (flags (file k) &&& F_ERR).

(** The memory is as before at the addresses in [R], and still holds bytes. *)
Definition untouched (R : Z -> Prop) (m m' : KString.mem) : Prop :=
  (forall a, R a -> KString.rd m' a = KString.rd m a) /\ (LibcString.byte_mem m -> LibcString.byte_mem m').
Lemma untouched_refl R m : untouched R m m.
Proof. done. Qed.
Lemma untouched_trans R m1 m2 m3 : untouched R m1 m2 -> untouched R m2 m3 -> untouched R m1 m3.
Proof. intros [H1 H2] [H3 H4]. split; [|auto]. intros a Ha. rewrite H3; auto. Qed.

Section Interface.
Context {W : Type} `{!Sys W}.
Variable fuel : nat.

Class Sink (P : list Z -> libc W -> Prop) (bad : libc W -> Prop) (R : Z -> Prop) := {
  sink_live : forall T k, P T k -> err k = false;
  sink_bad : forall k, bad k -> err k = true;
  sink_write : forall T s k, P T k -> len s < 2 ^ 31 ->
    wp (fwritex fuel s) k (fun _ k' => (P (T ++ s) k' \/ bad k') /\ untouched R (lmem k) (lmem k'))
}.
End Interface.

Class SysOk (W : Type) `{!Sys W} := {
  delivered : W -> list Z;
  can_fail : Prop;
  tty : Prop;
  writev_delivers : forall fd iov w, len (concat iov) < 2 ^ 63 ->
    let '(r, w') := sys_writev fd iov w in
    (0 <= r <= len (concat iov) /\ (0 < len (concat iov) -> 0 < r) /\
       delivered w' = delivered w ++ take (Z.to_nat r) (concat iov)) \/
    (can_fail /\ -4095 <= r <= -1 /\ delivered w' = delivered w);
  ioctl_quiet : forall fd c w, delivered (snd (sys_ioctl fd c w)) = delivered w;
  ioctl_tty : tty -> forall fd w, fst (sys_ioctl fd TIOCGWINSZ w) = 0
}.

Lemma len_app (a b : list Z) : len (a ++ b) = len a + len b.
Proof. unfold len. rewrite length_app. lia. Qed.
Lemma len_nonneg (a : list Z) : 0 <= len a.
Proof. unfold len. lia. Qed.
Lemma len_drop n (a : list Z) : 0 <= n <= len a -> len (drop (Z.to_nat n) a) = len a - n.
Proof. unfold len. rewrite length_drop. lia. Qed.
Lemma len_take n (a : list Z) : 0 <= n <= len a -> len (take (Z.to_nat n) a) = n.
Proof. unfold len. intros. rewrite length_take_le by lia. lia. Qed.

(** A step on the state of the library. *)
Ltac wpl := first [wp1 | apply wp_modify; cbv beta].

(** ** The system behind the stream *)
Section System.
Context {W : Type} `{!Sys W, !SysOk W}.
Notation L := (libc W).

Lemma u64_neg x : - 2 ^ 64 <= x < 0 -> u64 x = x + 2 ^ 64.
Proof. intros H. unfold wrap. symmetry. apply (Z.mod_unique_pos _ _ (-1)); lia. Qed.
Lemma syscall_ret_ok r : 0 <= r < 2 ^ 63 -> @syscall_ret W r = ret r.
Proof.
  intros H. unfold syscall_ret. rewrite (u64_neg (-4096)), (wrap_small 64 r) by (unfold in_u; lia).
  destruct (Z.ltb_spec (-4096 + 2 ^ 64) r); [lia|]. by rewrite swrap_small by (unfold in_s; lia).
Qed.
Lemma syscall_ret_err r : -4095 <= r <= -1 -> @syscall_ret W r = (set_errno (s32 (- r)) ;;; ret (-1)).
Proof.
  intros H. unfold syscall_ret. rewrite !u64_neg by lia.
  by destruct (Z.ltb_spec (-4096 + 2 ^ 64) (r + 2 ^ 64)); [|lia].
Qed.

(** A result of [writev] at the stream: the world has moved on, nothing else but [errno]. *)
Lemma writev_ok fd iov (k : L) :
  len (concat iov) < 2 ^ 63 ->
  wp (writev fd iov) k (fun r k' => file k' = file k /\ lmem k' = lmem k /\
    ((0 <= r <= len (concat iov) /\ (0 < len (concat iov) -> 0 < r) /\
        delivered (world k') = delivered (world k) ++ take (Z.to_nat r) (concat iov)) \/ can_fail /\ r = -1)).
Proof.
  intros Hl. unfold wp, writev. pose proof (writev_delivers fd iov (world k) Hl) as Hw.
  destruct (sys_writev fd iov (world k)) as [r w'].
  destruct Hw as [(Hr & Hp & Hd)|(Hc & Hr & Hd)].
  - rewrite syscall_ret_ok by lia. split; [done|]. split; [done|]. by left.
  - rewrite syscall_ret_err by lia. split; [done|]. split; [done|]. by right.
Qed.

Lemma err_set (k : L) x : flags (file k) = x ||| F_ERR -> err k = true.
Proof.
  intros Hf. unfold err. rewrite Hf. unfold truth, F_ERR. apply negb_true_iff, Z.eqb_neq. intros E.
  assert (Z.testbit ((x ||| 32) &&& 32) 5 = true) as Hb
    by (rewrite Z.land_spec, Z.lor_spec; change (Z.testbit 32 5) with true; by rewrite orb_true_r).
  by rewrite E in Hb.
Qed.

(** The vector after [r] of its bytes are written. *)
Lemma advance iov a b r :
  iov = [a; b] \/ iov = [b] -> 0 < r <= len (concat iov) ->
  exists iov' a' b',
    (let '(i2, c2) := if len (default [] (iov !! 0%nat)) <? r
       then (drop 1 iov, r - len (default [] (iov !! 0%nat))) else (iov, r) in
     drop (Z.to_nat c2) (default [] (i2 !! 0%nat)) :: drop 1 i2) = iov' /\
    (iov' = [a'; b'] \/ iov' = [b']) /\ concat iov' = drop (Z.to_nat r) (concat iov).
Proof.
  intros [->| ->] Hr; cbn [concat lookup list_lookup default id drop] in *; rewrite ?app_nil_r in *.
  - pose proof (len_nonneg a). destruct (Z.ltb_spec (len a) r) as [Hl|Hl]; cbn [lookup list_lookup default id drop].
    + exists [drop (Z.to_nat (r - len a)) b], a, (drop (Z.to_nat (r - len a)) b). split; [done|]. split; [by right|].
      cbn [concat]. rewrite app_nil_r, drop_app_ge by (unfold len in *; lia). f_equal. unfold len in *; lia.
    + exists [drop (Z.to_nat r) a; b], (drop (Z.to_nat r) a), b. split; [done|]. split; [by left|].
      cbn [concat]. rewrite app_nil_r, drop_app_le by (unfold len in *; lia). done.
  - destruct (Z.ltb_spec (len b) r) as [Hl|Hl]; [lia|]. cbn [lookup list_lookup default id drop].
    exists [drop (Z.to_nat r) b], [], (drop (Z.to_nat r) b). split; [done|]. split; [by right|].
    cbn [concat]. by rewrite app_nil_r.
Qed.

(** A write has failed: the error flag is set. *)
Definition failed (k : L) : Prop := can_fail /\ err k = true.
Definition wrote (len_ : Z) (all : list Z) (k : L) (r : Z) (k' : L) : Prop :=
  r = len_ /\ delivered (world k') = delivered (world k) ++ all /\ file k' = set_wbuf true [] (file k).

Lemma loop_wrote n a b iov len_ (k : L) :
  iov = [a; b] \/ iov = [b] -> len (concat iov) < 2 ^ 63 -> len (concat iov) < Z.of_nat n ->
  wp (stdio_loop n iov (len (concat iov)) len_) k (fun r k' =>
    lmem k' = lmem k /\ (wrote len_ (concat iov) k r k' \/ failed k')).
Proof.
  revert iov a b k. induction n as [|n IH]; intros iov a b k Hiov Hl Hn; [pose proof (len_nonneg (concat iov)); lia|].
  cbn [stdio_loop]. do 2 wp1. apply wp_bind. eapply wp_mono; [by apply writev_ok|]. cbv beta.
  intros r k1 (Hf & Hm & Hr). destruct (Z.eqb_spec r (len (concat iov))) as [->|Hne].
  { do 3 wpl. split; [done|left]. split; [done|]. cbn [world file]. rewrite <- Hf. split; [|done].
    destruct Hr as [(_ & _ & ->)|[_ ?]]; [|pose proof (len_nonneg (concat iov)); lia].
    f_equal. apply take_ge. unfold len. lia. }
  destruct (Z.ltb_spec r 0) as [Hneg|Hpos].
  { do 3 wpl. split; [done|right]. split; [by destruct Hr as [?|[? _]]; [lia|]|by eapply err_set]. }
  destruct Hr as [(Hr & Hp & Hd)|[_ ?]]; [|lia].
  assert (0 < r) as H0 by (apply Hp; lia).
  destruct (advance iov a b r Hiov ltac:(lia)) as (iov' & a' & b' & E & Hiov' & Hc).
  revert E. destruct (if len _ <? r then _ else _) as [i2 c2]. intros E. rewrite E.
  replace (len (concat iov) - r) with (len (concat iov')) by (rewrite Hc; apply len_drop; lia).
  eapply wp_mono; [apply (IH iov' a' b' k1 Hiov')|]; rewrite ?Hc, ?len_drop by lia; [lia|lia|].
  cbv beta. intros r' k' [Hm' Hk']. split; [congruence|]. destruct Hk' as [(-> & Hd' & Hf')|?]; [left|by right].
  split; [done|]. rewrite Hd', Hd, <- app_assoc, take_drop, Hf', Hf. done.
Qed.

(** ** [stdout] *)
Record stdout_ok (f : FILE) : Prop := {
  so_size : 0 <= buf_size f < 2 ^ 31;
  so_fits : len (pending f) <= buf_size f;
  so_idle : wready f = false -> pending f = [];
  so_lines : 0 <= lbf f -> 10 ∉ pending f;
  so_writes : truth (flags f &&& F_NOWR) = false;
  so_write : write_ f = Stdout_write \/ write_ f = Stdio_write
}.
(** What the stream has taken since [base] was delivered to the system. *)
Definition stdout_taken (base T : list Z) (k : L) : Prop :=
  delivered (world k) ++ pending (file k) = base ++ T /\ stdout_ok (file k).

(** After a write the buffer is empty, and all of it and of [s] is delivered. *)
Definition flushed (s : list Z) (k : L) (r : Z) (k' : L) : Prop :=
  r = len s /\ delivered (world k') = delivered (world k) ++ pending (file k) ++ s /\
  pending (file k') = [] /\ wready (file k') = true /\ buf_size (file k') = buf_size (file k) /\
  (lbf (file k') = lbf (file k) \/ lbf (file k') = -1 /\ ~ tty) /\ flags (file k') = flags (file k) /\ stdout_ok (file k').

Variable fuel : nat.

Lemma stdio_write_flushes s (k : L) :
  stdout_ok (file k) -> write_ (file k) = Stdio_write -> len s < 2 ^ 31 ->
  wp (stdio_write fuel s) k (fun r k' => lmem k' = lmem k /\ (flushed s k r k' \/ failed k')).
Proof.
  intros [H1 H2 H3 Hln H4 H5] Hw Hs. unfold stdio_write. do 2 wp1. cbv zeta.
  pose proof (len_nonneg s). pose proof (len_nonneg (pending (file k))).
  assert (len (concat [pending (file k); s]) = len (pending (file k)) + len s) as El.
  { cbn [concat]. by rewrite app_nil_r, len_app. }
  rewrite <- El. eapply wp_mono; [apply (loop_wrote _ (pending (file k)) s); [by left|lia|lia]|].
  cbv beta. intros r k' [Hm Hk]. split; [done|]. destruct Hk as [(-> & Hd & Hf)|?]; [left|by right].
  cbn [concat] in Hd. rewrite app_nil_r in Hd. unfold flushed. rewrite Hf. do 5 (split; [done|]).
  split; [by left|]. split; [done|].
  split; cbn [buf_size pending wready flags write_ set_wbuf lbf]; try done; [change (len []) with 0; lia|].
  intros _. apply not_elem_of_nil.
Qed.

Lemma stdout_flushes s (k : L) :
  stdout_ok (file k) -> len s < 2 ^ 31 ->
  wp (fwrite_fn fuel s) k (fun r k' => lmem k' = lmem k /\ (flushed s k r k' \/ failed k')).
Proof.
  intros Hok Hs. unfold fwrite_fn. do 2 wp1. destruct (so_write _ Hok) as [E|E]; rewrite E.
  2:{ by apply stdio_write_flushes. }
  unfold stdout_write. do 2 wpl. do 2 wp1. cbn [file].
  assert (stdout_ok (set_lbf (-1) (set_write Stdio_write (file k)))) as Hok2
    by (destruct Hok; split; cbn; auto; lia).
  assert (stdout_ok (set_write Stdio_write (file k))) as Hok1 by (destruct Hok; split; cbn; auto).
  apply wp_bind.
  assert (forall k1 : L, lmem k1 = lmem k -> delivered (world k1) = delivered (world k) ->
    pending (file k1) = pending (file k) -> buf_size (file k1) = buf_size (file k) -> flags (file k1) = flags (file k) ->
    stdout_ok (file k1) -> write_ (file k1) = Stdio_write ->
    lbf (file k1) = lbf (file k) \/ lbf (file k1) = -1 /\ ~ tty ->
    wp (stdio_write fuel s) k1 (fun r k' => lmem k' = lmem k /\ (flushed s k r k' \/ failed k'))) as Hgo.
  { intros k1 E1 E2 E3 E4 E5 E6 E7 E8. eapply wp_mono; [by apply stdio_write_flushes|]. cbv beta. unfold flushed.
    rewrite E1, E2, E3, E4, E5. intros r k' [? [(? & ? & ? & ? & ? & Hl & ? & ?)|?]]; (split; [done|]); [left|by right].
    split_and!; try done. destruct Hl as [->|?]; [done|by right]. }
  destruct (negb _).
  - unfold wp at 1. cbn [world file lmem errno].
    pose proof (ioctl_quiet (fd (set_write Stdio_write (file k))) TIOCGWINSZ (world k)) as Hq.
    pose proof (fun H => ioctl_tty H (fd (set_write Stdio_write (file k))) (world k)) as Ht.
    destruct (sys_ioctl _ _ _) as [r w]. cbn [fst snd] in Hq, Ht. destruct (truth r) eqn:Er; apply Hgo; cbn [file lmem world]; auto.
    right. split; [done|]. intros H. by rewrite (Ht H) in Er.
  - wp1. apply Hgo; cbn [file lmem world]; auto.
Qed.

Lemma through_newline_none s : 10 ∉ drop (through_newline s) s.
Proof.
  induction s as [|c s IH]; [apply not_elem_of_nil|]. cbn [through_newline].
  destruct (through_newline s) eqn:E; [|exact IH]. rewrite drop_0 in IH. destruct (Z.eqb_spec c 10); [exact IH|].
  rewrite drop_0. apply not_elem_of_cons. done.
Qed.
Lemma through_newline_le s : (through_newline s <= length s)%nat.
Proof.
  induction s as [|c s IH]; [done|]. cbn [through_newline length]. destruct (through_newline s); [|lia].
  case_match; lia.
Qed.

(** The state after a write of [s]: the text grows, the rest of the stream stays as it was. *)
Definition took (base T s : list Z) (k k' : L) : Prop :=
  stdout_taken base (T ++ s) k' /\ err k' = err k /\ buf_size (file k') = buf_size (file k) /\
  (lbf (file k') = lbf (file k) \/ lbf (file k') = -1 /\ ~ tty).

Lemma stdout_ready base T s (k : L) :
  stdout_taken base T k -> wready (file k) = true -> len s < 2 ^ 31 ->
  wp (fwritex_ready fuel s) k (fun _ k' => lmem k' = lmem k /\ (took base T s k k' \/ failed k')).
Proof.
  intros [HT Hok] Hr Hs. unfold fwritex_ready. do 2 wp1. destruct (Z.ltb_spec (buf_size (file k) - len (pending (file k))) (len s)).
  { eapply wp_mono; [by apply stdout_flushes|]. cbv beta. intros r k' [Hm Hk]. split; [done|].
    destruct Hk as [(_ & Hd & Hp & _ & Hb & Hl & Hf & Hok')|?]; [left|by right]. unfold took, err. rewrite Hf.
    split; [|done]. split; [|done]. by rewrite Hd, Hp, app_nil_r, !app_assoc, HT. }
  cbv zeta. set (i := if 0 <=? lbf (file k) then through_newline s else 0%nat).
  assert (i <= length s)%nat as Hi by (pose proof (through_newline_le s); unfold i; case_match; lia).
  assert (0 <= lbf (file k) -> 10 ∉ drop i s) as Hnl.
  { intros Hl. unfold i. rewrite (proj2 (Z.leb_le _ _) Hl). apply through_newline_none. }
  clearbody i. apply wp_bind. destruct (Nat.ltb_spec 0 i) as [Hpos|Hz]; cbn [andb].
  - eapply wp_mono; [apply stdout_flushes; [done|]; unfold len in *; rewrite length_take; lia|]. cbv beta.
    intros n k1 [Hm Hk]. destruct Hk as [(-> & Hd & Hp & Hw & Hb & Hl & Hf & Hok')|He].
    + unfold len at 1. rewrite length_take_le by lia. rewrite Z.ltb_irrefl. do 3 wpl. split; [done|left].
      unfold took, err. cbn [file world pending set_wbuf flags buf_size lbf]. rewrite Hf. split; [|done].
      split; cbn [file world pending set_wbuf].
      * rewrite Hd, Hp. cbn [app]. rewrite <- app_assoc, <- app_assoc, take_drop, app_assoc, HT. by rewrite app_assoc.
      * destruct Hok'. split; cbn [file buf_size pending wready flags write_ set_wbuf lbf]; try done; [|congruence|].
        -- rewrite Hp, Hb. cbn [app]. pose proof (len_nonneg (pending (file k))). unfold len in *. rewrite length_drop. lia.
        -- rewrite Hp. cbn [app]. intros Hl'. apply Hnl. destruct Hl as [<-|[E _]]; [done|lia].
    + wp1; repeat wpl; (split; [done|by right]).
  - wp1. replace i with 0%nat in * by lia. rewrite drop_0 in *. do 3 wpl. split; [done|left].
    split; [|split; [done|split; [done|by left]]]. split; cbn [file world pending set_wbuf].
    + by rewrite !app_assoc, HT.
    + destruct Hok. split; cbn [file buf_size pending wready flags write_ set_wbuf lbf]; try done; [|congruence|].
      * rewrite len_app. lia.
      * intros Hl. apply not_elem_of_app. auto.
Qed.

Lemma towrite_taken base T (k : L) :
  stdout_taken base T k ->
  wp (if negb (wready (file k)) then towrite else ret 0) k (fun r k' =>
    r = 0 /\ lmem k' = lmem k /\ stdout_taken base T k' /\ wready (file k') = true /\ err k' = err k /\
    buf_size (file k') = buf_size (file k) /\ lbf (file k') = lbf (file k)).
Proof.
  intros [HT Hok]. destruct (wready (file k)) eqn:Er; cbn [negb]; [by wp1|].
  unfold towrite. do 2 wpl. do 2 wp1. cbn [file flags set_mode]. rewrite (so_writes _ Hok). do 3 wpl.
  do 2 (split; [done|]). split; [|done].
  split; [|destruct Hok; split; cbn; auto; [change (len []) with 0; lia|intros _; apply not_elem_of_nil]].
  rewrite <- HT. by rewrite (so_idle _ Hok Er).
Qed.

(** The stream [f0] in use: without errors, and line-buffered as it was, if it is a terminal. *)
Definition stdout_live (f0 : FILE) (base T : list Z) (k : L) : Prop :=
  stdout_taken base T k /\ err k = false /\ buf_size (file k) = buf_size f0 /\
  (lbf (file k) = lbf f0 \/ lbf (file k) = -1 /\ ~ tty).
#[export] Instance stdout_sink f0 base : Sink fuel (stdout_live f0 base) failed (fun _ => True).
Proof.
  split; [by intros T k (_ & ? & _)|by intros k [_ ?]|]. intros T s k (HT & Herr & Hb & Hl) Hs. unfold fwritex. do 2 wp1.
  apply wp_bind. eapply wp_mono; [by apply towrite_taken|]. cbv beta.
  intros r k1 (-> & Hm & HT1 & Hw & He & Hb1 & Hl1). change (truth 0) with false. cbn [negb].
  eapply wp_mono; [by apply (stdout_ready base T s)|]. cbv beta. intros _ k' [Hm' Hk']. rewrite Hm', Hm.
  split; [|apply untouched_refl]. destruct Hk' as [(HT' & He' & Hb' & Hl')|?]; [left|by right].
  split_and!; [done|congruence..|]. destruct Hl' as [->|?]; [by rewrite Hl1|by right].
Qed.

(** A terminal has been given every line that was written in full. *)
Lemma stdout_line f0 base T (k : L) :
  tty -> 0 <= lbf f0 -> stdout_live f0 base (T ++ [10]) k -> pending (file k) = [] /\ delivered (world k) = base ++ T ++ [10].
Proof.
  intros Ht Hl ((HT & Hok) & _ & _ & Hlbf). destruct Hlbf as [Hlbf|[_ ?]]; [|done].
  pose proof (so_lines _ Hok ltac:(lia)) as Hn. destruct (pending (file k)) as [|c p _] eqn:E using rev_ind.
  { by rewrite app_nil_r in HT. }
  exfalso. rewrite !app_assoc in HT. apply app_inj_tail in HT as [_ ->]. apply Hn. apply elem_of_app. right. by left.
Qed.
End System.

(** ** The string of [snprintf] *)
(** The bytes of [l] are in memory from [a] on. *)
Definition holds (m : KString.mem) (a : Z) (l : list Z) : Prop :=
  forall i c, l !! i = Some c -> KString.rd m (a + Z.of_nat i) = u8 c.

Lemma copy_out_other l a m b :
  0 <= a -> a + len l <= 2 ^ 64 -> b < a \/ a + len l <= b -> KString.rd (copy_out l a m) b = KString.rd m b.
Proof.
  revert a m. induction l as [|c l IH]; intros a m H0 H1 Hb; cbn [copy_out]; [done|].
  change (c :: l) with ([c] ++ l) in *. rewrite len_app in *. change (len [c]) with 1 in *.
  pose proof (len_nonneg l). destruct l as [|c' l].
  - cbn [copy_out]. rewrite KStringProps.rd_write_ne by lia. done.
  - assert (len (c' :: l) = 1 + len l) as E by (unfold len; cbn [length]; lia). pose proof (len_nonneg l).
    rewrite wrap_small by (unfold in_u; lia). rewrite IH by lia. rewrite KStringProps.rd_write_ne by lia. done.
Qed.
Lemma copy_out_holds l a m : 0 <= a -> a + len l <= 2 ^ 64 -> holds (copy_out l a m) a l.
Proof.
  revert a m. induction l as [|c l IH]; intros a m H0 H1 i x Hi; [done|].
  change (c :: l) with ([c] ++ l) in H1. rewrite len_app in H1. change (len [c]) with 1 in *. cbn [copy_out].
  destruct i as [|i].
  - cbn in Hi. simplify_eq. rewrite Z.add_0_r. destruct l as [|c' l].
    + cbn [copy_out]. rewrite KStringProps.rd_write_eq. apply wrap_wrap. lia.
    + assert (len (c' :: l) = 1 + len l) as E by (unfold len; cbn [length]; lia). pose proof (len_nonneg l).
      rewrite wrap_small by (unfold in_u; lia). rewrite copy_out_other by lia.
      rewrite KStringProps.rd_write_eq. apply wrap_wrap. lia.
  - cbn in Hi. pose proof (lookup_lt_Some _ _ _ Hi). rewrite wrap_small by (unfold in_u, len in *; lia).
    replace (a + Z.of_nat (S i)) with (a + 1 + Z.of_nat i) by lia. apply IH; [lia|lia|done].
Qed.

Lemma byte_mem_wr a v m : LibcString.byte_mem m -> LibcString.byte_mem (KString.wr a v m).
Proof.
  intros H b. rewrite KStringProps.rd_wr. case_decide; [|apply H]. apply (wrap_range 8). lia.
Qed.
Lemma byte_mem_copy_out l a m : LibcString.byte_mem m -> LibcString.byte_mem (copy_out l a m).
Proof. revert a m. induction l as [|c l IH]; intros a m H; cbn [copy_out]; auto using byte_mem_wr. Qed.

Lemma holds_app m a l1 l2 : holds m a l1 -> holds m (a + len l1) l2 -> holds m a (l1 ++ l2).
Proof.
  intros H1 H2 i c Hi. apply lookup_app_Some in Hi as [Hi|[Hge Hi]]; [by apply H1|].
  apply H2 in Hi. rewrite <- Hi. f_equal. unfold len. lia.
Qed.
Lemma holds_prefix m a l1 l2 : holds m a (l1 ++ l2) -> holds m a l1.
Proof. intros H i c Hi. apply H. by apply lookup_app_l_Some. Qed.
Lemma holds_frame m m' a l :
  holds m a l -> (forall b, a <= b < a + len l -> KString.rd m' b = KString.rd m b) -> holds m' a l.
Proof.
  intros H Hm i c Hi. rewrite Hm; [by apply H|]. pose proof (lookup_lt_Some _ _ _ Hi). unfold len. lia.
Qed.
Lemma copy_after m a l1 l2 :
  0 <= a -> a + len l1 + len l2 <= 2 ^ 64 -> holds m a l1 -> holds (copy_out l2 (a + len l1) m) a (l1 ++ l2).
Proof.
  intros H0 H1 Hl. pose proof (len_nonneg l1). pose proof (len_nonneg l2). apply holds_app.
  - eapply holds_frame; [done|]. intros b Hb. apply copy_out_other; lia.
  - apply copy_out_holds; lia.
Qed.

Section Snprintf.
Context {W : Type} `{!Sys W}.
Notation L := (libc W).
Variables (fuel : nat) (s0 : Z) (n0 : nat) (w0 : W).
Hypothesis H0 : 0 <= s0 /\ s0 + Z.of_nat n0 < 2 ^ 64.

(** [l] has gone to the string, as far as there is room; the rest of the text is pending. *)
Record sn_ok (l : list Z) (k : L) : Prop := {
  sn_lbf : lbf (file k) = -1;
  sn_size : buf_size (file k) = 80;
  sn_fits : len (pending (file k)) <= 80;
  sn_ready : wready (file k) = true;
  sn_flags : flags (file k) = 0;
  sn_cookie : write_ (file k) = Sn_write (s0 + len (take n0 l)) (Z.of_nat n0 - len (take n0 l));
  sn_mem : holds (lmem k) s0 (take n0 l ++ [0]);
  sn_world : world k = w0
}.
Definition sn_taken (T : list Z) (k : L) : Prop := exists l, T = l ++ pending (file k) /\ sn_ok l k.
Definition sn_outside (a : Z) : Prop := a < s0 \/ s0 + Z.of_nat n0 < a.

Lemma take_room (l t : list Z) :
  take (Z.to_nat (Z.min (Z.of_nat n0 - len (take n0 l)) (len t))) t = take (n0 - length l) t.
Proof.
  unfold len. rewrite length_take. destruct (decide (n0 - length l <= length t)%nat).
  - f_equal. lia.
  - rewrite !take_ge by lia. done.
Qed.
Lemma len_take_app (l t : list Z) : len (take n0 (l ++ t)) = len (take n0 l) + len (take (n0 - length l) t).
Proof. by rewrite take_app, len_app. Qed.

Lemma sn_write_ok l s (k : L) :
  sn_ok l k ->
  match write_ (file k) with
  | Sn_write c_s c_n => wp (sn_write c_s c_n s) k (fun r k' => r = len s /\
      sn_ok (l ++ pending (file k) ++ s) k' /\ pending (file k') = [] /\ untouched sn_outside (lmem k) (lmem k'))
  | _ => False
  end.
Proof.
  intros [E1 E2 E3 E4 E5 E6 E7 E8]. rewrite E6. unfold sn_write. do 2 wp1. cbv zeta.
  set (pend := pending (file k)) in *. rewrite take_room.
  pose proof (len_take_app l pend) as HA. pose proof (len_take_app (l ++ pend) s) as HB.
  assert (forall t, len (take n0 t) <= Z.of_nat n0) as HL by (intros; unfold len; rewrite length_take; lia).
  pose proof (HL (l ++ pend)). pose proof (HL ((l ++ pend) ++ s)). pose proof (HL l).
  assert (forall t : list Z, 0 <= len t) as HN by apply len_nonneg.
  pose proof (HN (take n0 l)). pose proof (HN (take (n0 - length l) pend)). pose proof (HN (take (n0 - length (l ++ pend)) s)).
  assert (Z.min (Z.of_nat n0 - len (take n0 l)) (len pend) = len (take (n0 - length l) pend)) as Ek
    by (unfold len; rewrite !length_take; lia).
  rewrite Ek, (wrap_small 64) by (unfold in_u; lia).
  replace (s0 + len (take n0 l) + len (take (n0 - length l) pend)) with (s0 + len (take n0 (l ++ pend))) by lia.
  replace (Z.of_nat n0 - len (take n0 l) - len (take (n0 - length l) pend)) with (Z.of_nat n0 - len (take n0 (l ++ pend))) by lia.
  rewrite take_room.
  assert (Z.min (Z.of_nat n0 - len (take n0 (l ++ pend))) (len s) = len (take (n0 - length (l ++ pend)) s)) as Ek2
    by (unfold len; rewrite !length_take; lia).
  rewrite Ek2, (wrap_small 64) by (unfold in_u; lia).
  do 9 wpl. split; [done|]. cbn [file lmem].
  set (m1 := copy_out _ _ (lmem k)). set (m2 := copy_out _ _ m1).
  assert (holds m1 s0 (take n0 (l ++ pend))) as Hm1.
  { rewrite take_app. apply copy_after; [lia|lia|]. by apply holds_prefix in E7. }
  assert (holds m2 s0 (take n0 ((l ++ pend) ++ s))) as Hm2.
  { rewrite (take_app (l ++ pend)). apply copy_after; [lia|lia|done]. }
  replace (s0 + len (take n0 (l ++ pend)) + len (take (n0 - length (l ++ pend)) s))
    with (s0 + len (take n0 ((l ++ pend) ++ s))) by lia.
  replace (Z.of_nat n0 - len (take n0 (l ++ pend)) - len (take (n0 - length (l ++ pend)) s))
    with (Z.of_nat n0 - len (take n0 ((l ++ pend) ++ s))) by lia.
  rewrite (app_assoc l). split; [split; try done|].
  - cbn [lmem]. apply holds_app.
    + eapply holds_frame; [exact Hm2|]. intros b Hb. apply KStringProps.rd_write_ne. lia.
    + intros [|i] c Hc; [|done]. cbn in Hc. simplify_eq. rewrite Z.add_0_r. apply KStringProps.rd_write_eq.
  - split; [done|]. split; [|intros; by repeat (apply byte_mem_wr || apply byte_mem_copy_out)].
    intros a Ha. unfold sn_outside in Ha. cbn [lmem]. rewrite KStringProps.rd_write_ne by lia.
    unfold m2, m1. rewrite !copy_out_other by lia. done.
Qed.

#[export] Instance sn_sink : Sink fuel sn_taken (fun _ => False) sn_outside.
Proof.
  split; [intros T k (l & _ & Hok); unfold err; by rewrite (sn_flags _ _ Hok)|done|].
  intros T s k (l & -> & Hok) Hs. unfold fwritex. do 2 wp1. rewrite (sn_ready _ _ Hok). cbn [negb]. do 2 wp1.
  change (truth 0) with false. cbn [negb]. unfold fwritex_ready. do 2 wp1. wp1.
  - pose proof (sn_write_ok l s k Hok) as Hw. unfold fwrite_fn. do 2 wp1.
    destruct (write_ (file k)); [done..|]. eapply wp_mono; [exact Hw|]. cbv beta.
    intros r k' (_ & Hok' & Hp & Hm). split; [left|done]. exists (l ++ pending (file k) ++ s). split; [|done].
    by rewrite Hp, app_nil_r, app_assoc.
  - rewrite (sn_lbf _ _ Hok). cbn [Z.leb Z.compare Nat.ltb Nat.leb andb]. do 5 wpl. rewrite drop_0.
    split; [left|done]. exists l. cbn [file pending set_wbuf]. split; [by rewrite app_assoc|].
    destruct Hok. split; try done. cbn [file pending set_wbuf]. rewrite len_app. zb. lia.
Qed.
End Snprintf.
End StdioProps.
