(* ===== verification/Printf.v ===== *)
(** Formatted output of the C library (musl: vfprintf.c, vsnprintf.c, snprintf.c, printf.c).

    The format is the list of its bytes before the terminating null, and a pointer into it is the
    list from there on: [at_ s i] is [s[i]].  A conversion's text between [a] and [z] is a list
    too.  Strings behind [%s] and [%ls] are read from, and [%n] is stored to, the memory of the
    process.  [goto inval], [goto overflow] and [return] are the exceptions of [E].

    Arguments are queues, one for each way of passing them: a read past the end of one is a
    fault.  Values of type [long double] are of a type [F], and the routine [fmt_fp] that prints
    them and the messages of [strerror] are parameters. *)
From S2P Require Import Prelude KMonad KString LibcString Utf8 Stdio.
#[global] Open Scope Z_scope.

Module Printf.
Import Stdio.

Definition INT_MAX : Z := 2147483647.
Definition EINVAL : Z := 22.
Definition EOVERFLOW : Z := 75.
Definition EILSEQ : Z := 84.
Definition NL_ARGMAX : Z := 9.

Definition ALT_FORM : Z := 1 <<< 3.
Definition ZERO_PAD : Z := 1 <<< 16.
Definition LEFT_ADJ : Z := 1 <<< 13.
Definition PAD_POS : Z := 1 <<< 0.
Definition MARK_POS : Z := 1 <<< 11.
Definition GROUPED : Z := 1 <<< 7.
Definition FLAGMASK : Z := ALT_FORM ||| ZERO_PAD ||| LEFT_ADJ ||| PAD_POS ||| MARK_POS ||| GROUPED.

(** The states of the specifier automaton; from [STOP] on, the argument types. *)
Inductive st_ :=
  | BARE | LPRE | LLPRE | HPRE | HHPRE | BIGLPRE | ZTPRE | JPRE | STOP
  | PTR | INT | UINT | ULLONG | LONG | ULONG | SHORT | USHORT | CHAR | UCHAR
  | LLONG | SIZET | IMAX | UMAX | PDIFF | UIPTR | DBL | LDBL | NOARG.
#[export] Instance st_eq_dec : EqDecision st_.
Proof. solve_decision. Defined.

Definition chars (s : string) : list Z := KString.chr <$> String.list_ascii_of_string s.

(** A row of the table: the characters with an entry, and the entry. *)
Definition row := list (string * st_).
Definition states (st : st_) : row :=
  match st with
  | BARE =>
      [("di", INT); ("ouxX", UINT); ("efgaEFGA", DBL); ("c", CHAR); ("C", INT); ("sSn", PTR); ("p", UIPTR);
       ("m", NOARG); ("l", LPRE); ("h", HPRE); ("L", BIGLPRE); ("zt", ZTPRE); ("j", JPRE)]
  | LPRE => [("di", LONG); ("ouxX", ULONG); ("efgaEFGA", DBL); ("c", INT); ("sn", PTR); ("l", LLPRE)]
  | LLPRE => [("di", LLONG); ("ouxX", ULLONG); ("n", PTR)]
  | HPRE => [("di", SHORT); ("ouxX", USHORT); ("n", PTR); ("h", HHPRE)]
  | HHPRE => [("di", CHAR); ("ouxX", UCHAR); ("n", PTR)]
  | BIGLPRE => [("efgaEFGA", LDBL); ("n", PTR)]
  | ZTPRE => [("di", PDIFF); ("ouxX", SIZET); ("n", PTR)]
  | JPRE => [("di", IMAX); ("ouxX", UMAX); ("n", PTR)]
  | _ => []
  end%string.
(** [states[st]S(c)]; [None] is the entry 0. *)
Definition entry_of (r : row) (c : Z) : option st_ :=
  snd <$> head (filter (fun e => c ∈ chars (fst e)) r).
Definition prefix_state (st : st_) : bool :=
  match st with LPRE | LLPRE | HPRE | HHPRE | BIGLPRE | ZTPRE | JPRE => true | _ => false end.
Definition OOB (c : Z) : bool := 57 <? u32 (c - 65).

Definition at_ (s : list Z) (i : nat) : Z := default 0 (s !! i).
Definition isdigit (c : Z) : bool := u32 (c - 48) <? 10.

(** ** The digits, written downwards from [z] *)
Definition xdigits : list Z := chars "0123456789ABCDEF".
Fixpoint digits_down (n : nat) (digit : Z -> Z) (next : Z -> Z) (x : Z) (s : list Z) : option (list Z) :=
  match n with
  | O => None
  | S n => if x =? 0 then Some s else digits_down n digit next (next x) (digit x :: s)
  end.
Definition fmt_x (x : Z) (s : list Z) (lower : Z) : option (list Z) :=
  digits_down 65 (fun x => nthZ xdigits (x &&& 15) ||| lower) (fun x => x >>> 4) x s.
Definition fmt_o (x : Z) (s : list Z) : option (list Z) :=
  digits_down 65 (fun x => 48 + (x &&& 7)) (fun x => x >>> 3) x s.
Definition fmt_u (x : Z) (s : list Z) : option (list Z) :=
  digits_down 65 (fun x => 48 + x mod 10) (fun x => x / 10) x s.

(** [getint]: the number and the rest of the format. *)
Fixpoint getint_loop (i : Z) (s : list Z) : Z * list Z :=
  match s with
  | [] => (i, [])
  | c :: s' =>
      if isdigit c then
        getint_loop (if (INT_MAX / 10 <? u32 i) || (INT_MAX - 10 * i <? c - 48) then -1 else 10 * i + (c - 48)) s'
      else (i, s)
  end.
Definition getint (s : list Z) : Z * list Z := getint_loop 0 s.

(** ** Literal text: what [out] gets, and the rest of the format *)
Fixpoint percents (s : list Z) : list Z * list Z :=
  match s with
  | c :: d :: s' => if (c =? 37) && (d =? 37) then let '(a, r) := percents s' in (37 :: a, r) else ([], s)
  | _ => ([], s)
  end.
Fixpoint literal (s : list Z) : list Z * list Z :=
  match s with
  | [] => ([], [])
  | c :: s' => if c =? 37 then percents s else let '(a, r) := literal s' in (c :: a, r)
  end.

Definition flag_char (c : Z) : bool := (u32 (c - 32) <? 32) && truth (FLAGMASK &&& (1 <<< (c - 32))).
Fixpoint modifier_flags (fl : Z) (s : list Z) : Z * list Z :=
  match s with
  | c :: s' => if flag_char c then modifier_flags (fl ||| (1 <<< (c - 32))) s' else (fl, s)
  | [] => (fl, [])
  end.

Section Core.
Context {W : Type} `{!Sys W}.
Context {F : Type}.
Notation L := (libc W).
Variable fuel : nat.
Variable utf8 : bool.
Variable strerror : Z -> list Z.
Variable fmt_fp : F -> Z -> Z -> Z -> Z -> M L Z.

(** ** Arguments *)
Inductive arg := ArgI (i : Z) | ArgF (f : F).
Record va_list := Va { gp : list Z; fp : list F; ld : list F }.

(** [va_arg]: the next argument passed in a general register. *)
Definition va_gp (ap : va_list) : M L (Z * va_list) :=
  match gp ap with x :: r => ret (x, Va r (fp ap) (ld ap)) | [] => fault end.

Definition pop_arg (type : st_) (ap : va_list) : M L (arg * va_list) :=
  let int (conv : Z -> Z) := let! p := va_gp ap in ret (ArgI (u64 (conv (fst p))), snd p) in
  match type with
  | PTR | ULONG | ULLONG | SIZET | UMAX | UIPTR => int u64
  | INT => int s32
  | UINT => int u32
  | LONG | LLONG | IMAX | PDIFF => int s64
  | SHORT => int (swrap 16)
  | USHORT => int u16
  | CHAR => int s8
  | UCHAR => int u8
  | DBL => match fp ap with x :: r => ret (ArgF x, Va (gp ap) r (ld ap)) | [] => fault end
  | LDBL => match ld ap with x :: r => ret (ArgF x, Va (gp ap) (fp ap) r) | [] => fault end
  | _ => fault
  end.

(** ** Output *)
Definition out (s : list Z) : M L unit :=
  let! f := gets file in
  if negb (truth (flags f &&& F_ERR)) then fwritex fuel s ;;; ret tt else ret tt.

Fixpoint pad_loop (n : nat) (c l : Z) : M L unit :=
  match n with
  | O => fault
  | S n => if 256 <=? l then out (repeat c 256) ;;; pad_loop n c (l - 256) else out (repeat c (Z.to_nat l))
  end.
Definition pad (c w l fl : Z) : M L unit :=
  if truth (fl &&& (LEFT_ADJ ||| ZERO_PAD)) || (w <=? l) then ret tt
  else pad_loop (S (Z.to_nat ((w - l) / 256))) c (w - l).

(** ** The ways out of [printf_core] *)
Inductive stop := Inval | Overflow | Return (r : Z).
Definition E (A : Type) : Type := M L (stop + A).
Definition throw {A} (e : stop) : E A := ret (inl e).
Definition pure {A} (a : A) : E A := ret (inr a).
Definition lift {A} (m : M L A) : E A := let! a := m in pure a.
Definition ebind {A B} (m : E A) (g : A -> E B) : E B :=
  let! r := m in match r with inl e => throw e | inr a => g a end.

(** What the passes over the format thread: the rest of it, [l10n], [ap], [nl_arg], [nl_type]. *)
Record scan := Scan {
  s_ : list Z; l10n : bool; ap : va_list; nl_arg : list arg; nl_type : list (option st_)
}.
Definition go (n : nat) (x : scan) : scan := Scan (drop n (s_ x)) (l10n x) (ap x) (nl_arg x) (nl_type x).
Definition with_s (s : list Z) (x : scan) : scan := Scan s (l10n x) (ap x) (nl_arg x) (nl_type x).
Definition with_ap (a : va_list) (x : scan) : scan := Scan (s_ x) (l10n x) a (nl_arg x) (nl_type x).
Definition with_l10n (x : scan) : scan := Scan (s_ x) true (ap x) (nl_arg x) (nl_type x).
Definition mark (i : Z) (t : st_) (x : scan) : scan :=
  Scan (s_ x) (l10n x) (ap x) (nl_arg x) (<[Z.to_nat i := Some t]> (nl_type x)).
Definition arg_i (a : arg) : Z := match a with ArgI i => i | ArgF _ => 0 end.
Definition nl_get (i : Z) (x : scan) : arg := default (ArgI 0) (nl_arg x !! Z.to_nat i).
Definition positional (s : list Z) (i : nat) : bool := isdigit (at_ s i) && (at_ s (S i) =? 36).

(** [f ? va_arg(ap, int) : 0] *)
Definition va_int (f : bool) (x : scan) : E (Z * scan) :=
  if f then lift (let! p := va_gp (ap x) in ret (s32 (fst p), with_ap (snd p) x)) else pure (0, x).

Definition position (x : scan) : Z * scan :=
  if positional (s_ x) 1 then (at_ (s_ x) 1 - 48, go 3 (with_l10n x)) else (-1, go 1 x).

Definition field_width (f : bool) (fl : Z) (x : scan) : E (Z * Z * scan) :=
  if at_ (s_ x) 0 =? 42 then
    ebind
      (if positional (s_ x) 1 then
         let i := at_ (s_ x) 1 - 48 in
         let x := mark i INT (with_l10n x) in
         pure (s32 (arg_i (nl_get i x)), go 3 x)
       else if negb (l10n x) then ebind (va_int f x) (fun '(w, x) => pure (w, go 1 x))
       else throw Inval)
      (fun '(w, x) => if w <? 0 then pure (fl ||| LEFT_ADJ, s32 (- w), x) else pure (fl, w, x))
  else
    let '(w, s) := getint (s_ x) in
    if w <? 0 then throw Overflow else pure (fl, w, with_s s x).

(** The precision [p] and whether it was given, [xp]. *)
Definition precision (f : bool) (x : scan) : E (Z * bool * scan) :=
  if (at_ (s_ x) 0 =? 46) && (at_ (s_ x) 1 =? 42) then
    ebind
      (if positional (s_ x) 2 then
         let i := at_ (s_ x) 2 - 48 in
         let x := mark i INT x in
         pure (s32 (arg_i (nl_get i x)), go 4 x)
       else if negb (l10n x) then ebind (va_int f x) (fun '(p, x) => pure (p, go 2 x))
       else throw Inval)
      (fun '(p, x) => pure (p, 0 <=? p, x))
  else if at_ (s_ x) 0 =? 46 then
    let '(p, s) := getint (drop 1 (s_ x)) in pure (p, true, with_s s x)
  else pure (-1, false, x).

(** The automaton: the last prefix state, the type, and the conversion character. *)
Fixpoint specifier (st : st_) (s : list Z) : option (st_ * st_ * Z * list Z) :=
  match s with
  | [] => None
  | c :: s =>
      if OOB c then None
      else
        match entry_of (states st) c with
        | None => None
        | Some st' => if prefix_state st' then specifier st' s else Some (st, st', c, s)
        end
  end.

(** [None]: [return 0] from the first pass. *)
Definition argument (f : bool) (argpos : Z) (st : st_) (x : scan) : E (arg * scan) :=
  if bool_decide (st = NOARG) then
    if 0 <=? argpos then throw Inval else pure (ArgI 0, x)
  else if 0 <=? argpos then let x := mark argpos st x in pure (nl_get argpos x, x)
  else if f then lift (let! p := pop_arg st (ap x) in ret (fst p, with_ap (snd p) x))
  else throw (Return 0).

(** ** Conversions *)
(** What is printed: the flags, the precision, the prefix and the text from [a] to [z]. *)
Record field := Field { fl : Z; p : Z; prefix : list Z; text : list Z }.
Definition prefixes : list Z := chars "-+   0X0x".
Definition prefix_at (i pl : Z) : list Z := take (Z.to_nat pl) (drop (Z.to_nat i) prefixes).

(** The size of the object [arg.p] points to for [%n]. *)
Definition n_size (ps : st_) : nat :=
  match ps with
  | BARE => 4 | LPRE => 8 | LLPRE => 8 | HPRE => 2 | HHPRE => 1 | ZTPRE => 8 | JPRE => 8 | _ => 0
  end.
Definition store_count (ps : st_) (a cnt : Z) : M L unit :=
  upd_mem (LibcString.store (n_size ps) a cnt).

(** From the label 'x' (or 'o', 'd', 'u') to the end of the integer conversions. *)
Definition int_tail (fl p : Z) (xp : bool) (prefix a : list Z) (i : Z) : stop + field :=
  if xp && (p <? 0) then inl Overflow
  else
    let fl := if xp then fl &&& Z.lnot ZERO_PAD else fl in
    if (i =? 0) && (p =? 0) then inr (Field fl p prefix [])
    else inr (Field fl (Z.max p (len a + (if i =? 0 then 1 else 0))) prefix a).
Definition some {A B} (o : option A) (g : A -> stop + B) : option (stop + B) := g <$> o.

Definition hex_field (t fl p : Z) (xp : bool) (i : Z) : option (stop + field) :=
  some (fmt_x i [] (t &&& 32)) (fun a =>
    int_tail fl p xp (if truth i && truth (fl &&& ALT_FORM) then prefix_at (t >>> 4) 2 else []) a i).
Definition oct_field (fl p : Z) (xp : bool) (i : Z) : option (stop + field) :=
  some (fmt_o i []) (fun a =>
    int_tail fl (if truth (fl &&& ALT_FORM) && (p <? len a + 1) then len a + 1 else p) xp [] a i).
Definition uns_field (fl p : Z) (xp : bool) (i : Z) (prefix : list Z) : option (stop + field) :=
  some (fmt_u i []) (fun a => int_tail fl p xp prefix a i).
Definition dec_field (fl p : Z) (xp : bool) (i : Z) : option (stop + field) :=
  if 2 ^ 63 - 1 <? i then uns_field fl p xp (u64 (- i)) (prefix_at 0 1)
  else if truth (fl &&& MARK_POS) then uns_field fl p xp i (prefix_at 1 1)
  else if truth (fl &&& PAD_POS) then uns_field fl p xp i (prefix_at 2 1)
  else uns_field fl p xp i [].
(** [MAX(p, 2*sizeof(void* ))] compares as [size_t]. *)
Definition ptr_precision (p : Z) : Z := s32 (Z.max (u64 p) 16).

(** The bytes behind [%s]: a pointer, or a literal. *)
Fixpoint read_bytes (n : nat) (m : KString.mem) (a : Z) : list Z :=
  match n with O => [] | S n => KString.rd m a :: read_bytes n m (a + 1) end.
Inductive cstring := InMem (a : Z) | Lit (l : list Z).
(** [a] to [z = a + strnlen(a, n)], and [*z]. *)
Definition take_string (m : KString.mem) (a : cstring) (n : Z) : list Z * Z :=
  match a with
  | InMem a => let k := LibcString.strnlen m a n in (read_bytes (Z.to_nat k) m a, KString.rd m (a + k))
  | Lit l => (take (Z.to_nat n) l, at_ l (Z.to_nat n))
  end.
Definition str_field (fl p : Z) (a : cstring) : E field :=
  let! m := gets lmem in
  let '(t, z) := take_string m a (if p <? 0 then INT_MAX else p) in
  if (p <? 0) && truth z then throw Overflow
  else pure (Field (fl &&& Z.lnot ZERO_PAD) (len t) [] t).

(** [ws]: an array of wide characters in memory, or the local [wc] of [%C]. *)
Inductive wstring := WMem (a : Z) | WOne (c : Z).
Definition wchar (m : KString.mem) (ws : wstring) (j : nat) : Z :=
  match ws with
  | WMem a => s32 (LibcString.load 4 m (a + 4 * Z.of_nat j))
  | WOne c => if (j =? 0)%nat then s32 c else 0
  end.
(** [wctomb(mb, c)]: the bytes; [None] is -1 with [EILSEQ]. *)
Definition wctomb (c : Z) : option (list Z) := Utf8.wcrtomb utf8 c.

(** The first loop: the number of bytes that fit, in [i]; [None] is [return -1]. *)
Fixpoint wide_count (n : nat) (ws : wstring) (j : nat) (i p : Z) : M L (option Z) :=
  match n with
  | O => fault
  | S n =>
      let! m := gets lmem in
      if negb (i <? u64 p) || (wchar m ws j =? 0) then ret (Some i)
      else
        match wctomb (wchar m ws j) with
        | None => set_errno EILSEQ ;;; ret None
        | Some mb => if len mb <=? u64 (p - i) then wide_count n ws (S j) (i + len mb) p else ret (Some i)
        end
  end.
(** The second: the bytes go out. *)
Fixpoint wide_out (n : nat) (ws : wstring) (j : nat) (i p : Z) : M L unit :=
  match n with
  | O => fault
  | S n =>
      let! m := gets lmem in
      if negb (i <? p) || (wchar m ws j =? 0) then ret tt
      else
        match wctomb (wchar m ws j) with
        | None => fault
        | Some mb => if i + len mb <=? p then out mb ;;; wide_out n ws (S j) (i + len mb) p else ret tt
        end
  end.
Definition wide (fl w p : Z) (ws : wstring) : E Z :=
  ebind (lift (wide_count fuel ws 0 0 p)) (fun i =>
    match i with
    | None => throw (Return (-1))
    | Some i =>
        if INT_MAX <? i then throw Overflow
        else
          let p := i in
          lift (pad 32 w p fl ;;; wide_out fuel ws 0 0 p ;;; pad 32 w p (Z.lxor fl LEFT_ADJ)) ;;;
          pure (if p <? w then w else p)
    end).

(** The end of the loop body: the field goes out; the result is [l]. *)
Definition put_field (cnt w : Z) (x : field) : E Z :=
  let p := if p x <? len (text x) then len (text x) else p x in
  let pl := len (prefix x) in
  if INT_MAX - pl <? p then throw Overflow
  else
    let w := if w <? pl + p then pl + p else w in
    if INT_MAX - cnt <? w then throw Overflow
    else
      pad 32 w (pl + p) (fl x) ;;;
      out (prefix x) ;;;
      pad 48 w (pl + p) (Z.lxor (fl x) ZERO_PAD) ;;;
      pad 48 p (len (text x)) 0 ;;;
      out (text x) ;;;
      pad 32 w (pl + p) (Z.lxor (fl x) LEFT_ADJ) ;;;
      pure w.

Definition put_int (cnt w : Z) (o : option (stop + field)) : E Z :=
  match o with None => fault | Some r => ebind (ret r) (put_field cnt w) end.

(** The [switch]; [t] is the conversion character after the transformation of [ls], [lc]. *)
Definition wide_char (ps : st_) (t : Z) : Z :=
  if negb (bool_decide (ps = BARE)) && (t &&& 15 =? 3) then t &&& Z.lnot 32 else t.
Definition convert (cnt fl w p : Z) (xp : bool) (ps : st_) (t : Z) (a : arg) : E Z :=
  let t := wide_char ps t in
  let fl := if truth (fl &&& LEFT_ADJ) then fl &&& Z.lnot ZERO_PAD else fl in
  let i := arg_i a in
  if t =? 110 then lift (store_count ps i cnt) ;;; pure 0
  else if t =? 112 then put_int cnt w (hex_field 120 (fl ||| ALT_FORM) (ptr_precision p) xp i)
  else if (t =? 120) || (t =? 88) then put_int cnt w (hex_field t fl p xp i)
  else if t =? 111 then put_int cnt w (oct_field fl p xp i)
  else if (t =? 100) || (t =? 105) then put_int cnt w (dec_field fl p xp i)
  else if t =? 117 then put_int cnt w (uns_field fl p xp i [])
  else if t =? 99 then put_field cnt w (Field (fl &&& Z.lnot ZERO_PAD) 1 [] [u8 i])
  else if t =? 109 then
    let! e := gets errno in ebind (str_field fl p (Lit (strerror e))) (put_field cnt w)
  else if t =? 115 then
    ebind (str_field fl p (if i =? 0 then Lit (chars "(null)") else InMem i)) (put_field cnt w)
  else if t =? 67 then wide fl w (-1) (WOne i)
  else if t =? 83 then wide fl w p (WMem i)
  else
    match a with
    | ArgI _ => fault
    | ArgF v =>
        if xp && (p <? 0) then throw Overflow
        else ebind (lift (fmt_fp v w p fl t)) (fun l => if l <? 0 then throw Overflow else pure l)
    end.

(** From the percent sign to the end of the loop body; the result is [l]. *)
Definition directive (f : bool) (cnt : Z) (x : scan) : E (Z * scan) :=
  let '(argpos, x) := position x in
  let '(fl, s) := modifier_flags 0 (s_ x) in
  ebind (field_width f fl (with_s s x)) (fun '(fl, w, x) =>
  ebind (precision f x) (fun '(p, xp, x) =>
  match specifier BARE (s_ x) with
  | None => throw Inval
  | Some (ps, st, t, s) =>
      ebind (argument f argpos st (with_s s x)) (fun '(a, x) =>
      if negb f then pure (0, x)
      else ebind (convert cnt fl w p xp ps t a) (fun l => pure (l, x)))
  end)).

(** The loop; it ends with [cnt] at the end of the format. *)
Fixpoint core_loop (n : nat) (f : bool) (cnt l : Z) (x : scan) : E (Z * scan) :=
  match n with
  | O => fault
  | S n =>
      if INT_MAX - cnt <? l then throw Overflow
      else
        let cnt := cnt + l in
        match s_ x with
        | [] => pure (cnt, x)
        | s =>
            let '(a, s) := literal s in
            if INT_MAX - cnt <? len a then throw Overflow
            else
              (if f then out a else ret tt) ;;;
              if truth (len a) then core_loop n f cnt (len a) (with_s s x)
              else ebind (directive f cnt (with_s s x)) (fun '(l, x) => core_loop n f cnt l x)
        end
  end.

(** The arguments of a format with positions, in order; then no type is left. *)
Fixpoint pop_positional (n : nat) (i : Z) (x : scan) : M L (Z * scan) :=
  match n with
  | O => ret (i, x)
  | S n =>
      match mjoin (nl_type x !! Z.to_nat i) with
      | None => ret (i, x)
      | Some t =>
          let! p := pop_arg t (ap x) in
          pop_positional n (i + 1)
            (Scan (s_ x) (l10n x) (snd p) (<[Z.to_nat i := fst p]> (nl_arg x)) (nl_type x))
      end
  end.
Definition finish (f : bool) (cnt : Z) (x : scan) : E (Z * scan) :=
  if f then pure (cnt, x)
  else if negb (l10n x) then pure (0, x)
  else
    let! r := pop_positional (Z.to_nat NL_ARGMAX) 1 x in
    let '(i, x) := r in
    if bool_decide (Forall (fun t => t = None) (drop (Z.to_nat i) (nl_type x))) then pure (1, x) else throw Inval.

(** The result with the arguments left, or with [x] as it was where the function gave up. *)
Definition printf_core (f : bool) (x : scan) : M L (Z * scan) :=
  let! r := ebind (core_loop (S (S (length (s_ x)))) f 0 0 x) (fun '(cnt, x) => finish f cnt x) in
  match r with
  | inr y => ret y
  | inl Inval => set_errno EINVAL ;;; ret (-1, x)
  | inl Overflow => set_errno EOVERFLOW ;;; ret (-1, x)
  | inl (Return r) => ret (r, x)
  end.

(** ** vfprintf *)
Definition start (fmt : list Z) (ap : va_list) : scan :=
  Scan fmt false ap (repeat (ArgI 0) (Z.to_nat (NL_ARGMAX + 1))) (repeat None (Z.to_nat (NL_ARGMAX + 1))).
Definition second_pass (fmt : list Z) (x : scan) : scan := Scan fmt false (ap x) (nl_arg x) (nl_type x).
Definition err_bit (k : L) : Z := flags (file k) &&& F_ERR.

(** The output pass, between [FLOCK] and [FUNLOCK]; [x] is what the first pass left. *)
Definition print_out (fmt : list Z) (x : scan) : M L Z :=
  let! olderr := gets err_bit in
  upd_file (fun f => if mode f <? 1 then set_flags (flags f &&& Z.lnot F_ERR) f else f) ;;;
  let! saved := gets (fun k => buf_size (file k) =? 0) in
  when saved (upd_file (fun f => set_buf 80 (set_wbuf false [] f))) ;;;
  let! f := gets file in
  let! e := (if negb (wready f) then towrite else ret 0) in
  let! r := (if truth e then ret (-1) else let! y := printf_core true (second_pass fmt x) in ret (fst y)) in
  let! r := (if saved then
               fwrite_fn fuel [] ;;;
               let! f := gets file in
               upd_file (fun f => set_buf 0 (set_wbuf false [] f)) ;;;
               ret (if wready f then r else -1)
             else ret r) in
  let! err := gets err_bit in
  upd_file (fun f => set_flags (flags f ||| olderr) f) ;;;
  ret (if truth err then -1 else r).

Definition vfprintf (fmt : list Z) (ap : va_list) : M L Z :=
  let! y := printf_core false (start fmt ap) in
  if fst y <? 0 then ret (-1) else print_out fmt (snd y).

(** [printf]: the stream of the state is [stdout]. *)
Definition printf (fmt : list Z) (ap : va_list) : M L Z := vfprintf fmt ap.

(** ** vsnprintf: [dummy] is the address of the local of that name *)
Definition sn_FILE (c_s c_n : Z) : FILE := File 0 0 EOF 0 0 false [] (Sn_write c_s c_n).
(** A function run on a local [FILE]: the state's own stream is as before after it. *)
Definition on_file {A} (f : FILE) (m : M L A) : M L A :=
  let! saved := gets file in
  upd_file (fun _ => f) ;;;
  let! r := m in
  upd_file (fun _ => saved) ;;;
  ret r.
Definition vsnprintf (dummy s n : Z) (fmt : list Z) (ap : va_list) : M L Z :=
  let c_s := if truth n then s else dummy in
  let c_n := if truth n then n - 1 else 0 in
  if INT_MAX <? n then set_errno EOVERFLOW ;;; ret (-1)
  else
    upd_mem (KString.wr c_s 0) ;;;
    on_file (sn_FILE c_s c_n) (vfprintf fmt ap).
Definition snprintf (dummy s n : Z) (fmt : list Z) (ap : va_list) : M L Z := vsnprintf dummy s n fmt ap.
Definition sprintf (dummy s : Z) (fmt : list Z) (ap : va_list) : M L Z := vsnprintf dummy s INT_MAX fmt ap.
End Core.

(** ** Examples *)
Module Demo.
(** A terminal that takes everything. *)
#[export] Instance tty : Sys (list Z) := {|
  sys_writev := fun _ iov w => (len (concat iov), w ++ concat iov);
  sys_ioctl := fun _ _ w => (0, w)
|}.
Definition k0 : libc (list Z) := Libc stdout_FILE ∅ 0 [].
Definition run (fmt : string) (args : list Z) : option (Z * list Z) :=
  '(r, k) ← printf 100 false (fun _ => []) (fun (_ : Empty_set) _ _ _ _ => fault) (chars fmt) (Va args [] []) k0;
  Some (r, world k ++ pending (file k)).
Definition shows (fmt : string) (args : list Z) (res : string) : bool :=
  bool_decide (run fmt args = Some (len (chars res), chars res)).

Example demo1 : shows "[%5d|%-5d|%05d|%+d|% d|%.3d]" [42; 42; 42; 42; 42; 7] "[   42|42   |00042|+42| 42|007]" = true.
Proof. vm_compute. reflexivity. Qed.
Example demo2 : shows "%#x %#X %#o %p %u%%" [255; 255; 8; 4096; -1] "0xff 0XFF 010 0x1000 4294967295%" = true.
Proof. vm_compute. reflexivity. Qed.
Example demo3 : shows "%2$d %1$d" [1; 2] "2 1" = true.
Proof. vm_compute. reflexivity. Qed.
Example demo4 : shows "%*d%hhd %s" [-4; 9; 255; 0] "9   -1 (null)" = true.
Proof. lazy. reflexivity. Qed.
Example demo5 : run "%y" [] = Some (-1, []).
Proof. vm_compute. reflexivity. Qed.
End Demo.
End Printf.
