(* ===== verification/PrintfProps.v ===== *)
(** What [printf] prints.

    A format is a list of [piece]s: characters and conversions of integers, characters, strings
    and pointers, with flags, a width and a precision (written out or [*]) and a length modifier.
    [unparse] is the format string, [spec] the text the C standard asks for, given the arguments.
    [printf_core] puts the text into any [Sink] and returns its length; so [printf] puts it on
    [stdout], and [vsnprintf] into the string as far as there is room. *)
From S2P Require Import Prelude KMonad KString KStringProps LibcString Stdio StdioProps Printf.
#[global] Open Scope Z_scope.

Module PrintfProps.
Import Stdio StdioProps Printf.

(** ** The text of a field *)
Definition fill (c n : Z) : list Z := repeat c (Z.to_nat n).
Definition justify (left zero : bool) (w : Z) (prefix body : list Z) : list Z :=
  let n := w - len prefix - len body in
  if left then prefix ++ body ++ fill 32 n
  else if zero then prefix ++ fill 48 n ++ body
  else fill 32 n ++ prefix ++ body.

Lemma len_fill c n : len (fill c n) = Z.max 0 n.
Proof. unfold len, fill. rewrite repeat_length. lia. Qed.
Lemma len_justify left zero w prefix body : len (justify left zero w prefix body) = Z.max w (len prefix + len body).
Proof. unfold justify. destruct left, zero; rewrite !len_app, len_fill; lia. Qed.

(** ** Flags are bits *)
Lemma truth_lor fl a b : truth (fl &&& (a ||| b)) = truth (fl &&& a) || truth (fl &&& b).
Proof.
  unfold truth. rewrite Z.land_lor_distr_r. destruct (Z.eqb_spec (fl &&& a) 0) as [E|E]; cbn [negb orb].
  - rewrite E, Z.lor_0_l. done.
  - apply negb_true_iff, Z.eqb_neq. rewrite Z.lor_eq_0_iff. tauto.
Qed.
Definition left_ (fl : Z) : bool := Z.testbit fl 13.
Definition zero_ (fl : Z) : bool := Z.testbit fl 16.
Lemma pad_flags fl : truth (fl &&& (LEFT_ADJ ||| ZERO_PAD)) = left_ fl || zero_ fl.
Proof. rewrite truth_lor. unfold LEFT_ADJ, ZERO_PAD. by rewrite !truth_bit. Qed.

Lemma bit_clear fl i j : 0 <= i -> 0 <= j -> Z.testbit (fl &&& Z.lnot (1 <<< i)) j = Z.testbit fl j && negb (i =? j).
Proof. intros. rewrite Z.land_spec, Z.lnot_spec, Z.shiftl_1_l, Z.pow2_bits_eqb by lia. done. Qed.
Lemma bit_flip fl i j : 0 <= i -> 0 <= j -> Z.testbit (Z.lxor fl (1 <<< i)) j = xorb (Z.testbit fl j) (i =? j).
Proof. intros. rewrite Z.lxor_spec, Z.shiftl_1_l, Z.pow2_bits_eqb by lia. done. Qed.
Lemma bit_add fl i j : 0 <= i -> 0 <= j -> Z.testbit (fl ||| (1 <<< i)) j = Z.testbit fl j || (i =? j).
Proof. intros. rewrite Z.lor_spec, Z.shiftl_1_l, Z.pow2_bits_eqb by lia. done. Qed.

(** ** Numerals *)
Definition numeral (base x : Z) : list Z := KStringProps.digits 64 base x.
Definition upper (c : Z) : Z := if 97 <=? c then c - 32 else c.

Lemma digits_down_ok up base digit next k x s :
  2 <= base -> (forall x, 0 <= x -> digit x = up (KString.digit_char (x mod base)) /\ next x = x / base) ->
  0 <= x < 2 ^ Z.of_nat k -> digits_down (S k) digit next x s = Some ((up <$> KStringProps.digits k base x) ++ s).
Proof.
  intros Hb Hd. revert x s. induction k as [|k IH]; intros x s Hx.
  { replace x with 0 by (cbn in Hx; lia). done. }
  change (digits_down (S (S k)) digit next x s) with
    (if x =? 0 then Some s else digits_down (S k) digit next (next x) (digit x :: s)).
  cbn [KStringProps.digits]. destruct (Z.eqb_spec x 0) as [->|Hne]; [done|]. destruct (Z.ltb_spec 0 x); [|lia].
  destruct (Hd x ltac:(lia)) as [-> ->]. rewrite IH by (apply KStringProps.div_half; lia).
  rewrite fmap_app. cbn. by rewrite <- app_assoc.
Qed.

Lemma xdigit_ok d : 0 <= d < 16 ->
  nthZ xdigits d ||| 32 = KString.digit_char d /\ nthZ xdigits d ||| 0 = upper (KString.digit_char d).
Proof.
  intros Hd. assert (forallb (fun d => (nthZ xdigits d ||| 32 =? KString.digit_char d) &&
    (nthZ xdigits d ||| 0 =? upper (KString.digit_char d))) (seqZ 0 16) = true) as H by reflexivity.
  rewrite forallb_forall in H. specialize (H d ltac:(apply list_elem_of_In, elem_of_seqZ; lia)).
  by apply andb_true_iff in H as [->%Z.eqb_eq ->%Z.eqb_eq].
Qed.

Lemma fmt_u_ok x : 0 <= x < 2 ^ 64 -> fmt_u x [] = Some (numeral 10 x).
Proof.
  intros Hx. unfold fmt_u. rewrite (digits_down_ok id 10).
  - by rewrite list_fmap_id, app_nil_r.
  - lia.
  - intros y Hy. split; [|done]. unfold id, KString.digit_char. pose proof (Z.mod_pos_bound y 10). zcase; [done|lia].
  - done.
Qed.
Lemma fmt_o_ok x : 0 <= x < 2 ^ 64 -> fmt_o x [] = Some (numeral 8 x).
Proof.
  intros Hx. unfold fmt_o. rewrite (digits_down_ok id 8).
  - by rewrite list_fmap_id, app_nil_r.
  - lia.
  - intros y Hy. rewrite Z.shiftr_div_pow2 by lia. split; [|done]. change 7 with (2 ^ 3 - 1). rewrite land_mask_mod by lia.
    unfold id, KString.digit_char. pose proof (Z.mod_pos_bound y 8). change (2 ^ 3) with 8. zcase; [done|lia].
  - done.
Qed.
Lemma fmt_x_ok x : 0 <= x < 2 ^ 64 ->
  fmt_x x [] 32 = Some (numeral 16 x) /\ fmt_x x [] 0 = Some (upper <$> numeral 16 x).
Proof.
  intros Hx. unfold fmt_x. split; [rewrite (digits_down_ok id 16)|rewrite (digits_down_ok upper 16)].
  all: rewrite ?list_fmap_id, ?app_nil_r; try done.
  all: intros y Hy; rewrite Z.shiftr_div_pow2 by lia; split; [|done]; change 15 with (2 ^ 4 - 1); rewrite land_mask_mod by lia;
    change (2 ^ 4) with 16; apply xdigit_ok; apply Z.mod_pos_bound; lia.
Qed.
Lemma numeral_nil base x : 0 <= x -> len (numeral base x) = 0 <-> x = 0.
Proof.
  intros Hx. unfold numeral. split; [|by intros ->]. intros H. destruct (decide (x = 0)); [done|].
  pose proof (KStringProps.digits_nonempty 63 base x ltac:(lia)). unfold len in H. lia.
Qed.

(** ** Formats and what they mean *)
Inductive lenmod := MNone | Mhh | Mh | Ml | Mll | Mj | Mz | Mt.
Inductive dconv := Cd | Ci | Cu | Co | Cx | CX | Cc | Cs | Cp.
Inductive width := WNone | WLit (ds : list Z) | WStar.
Inductive prec := PNone | PLit (ds : list Z) | PStar.
Inductive piece := Chr (c : Z) | Conv (flags : list Z) (w : width) (p : prec) (m : lenmod) (c : dconv).

(** An argument: a number, or the address of a string with the bytes of the string. *)
Inductive varg := Num (v : Z) | Str (a : Z) (l : list Z).
Definition slot (x : varg) : Z := match x with Num v => v | Str a _ => a end.

Definition mod_chars (m : lenmod) : list Z :=
  match m with
  | MNone => [] | Mhh => [104; 104] | Mh => [104] | Ml => [108] | Mll => [108; 108] | Mj => [106] | Mz => [122] | Mt => [116]
  end.
Definition conv_char (c : dconv) : Z :=
  match c with
  | Cd => 100 | Ci => 105 | Cu => 117 | Co => 111 | Cx => 120 | CX => 88 | Cc => 99 | Cs => 115 | Cp => 112
  end.
Definition width_chars (w : width) : list Z := match w with WNone => [] | WLit ds => ds | WStar => [42] end.
Definition prec_chars (p : prec) : list Z := match p with PNone => [] | PLit ds => 46 :: ds | PStar => [46; 42] end.
Definition unparse1 (x : piece) : list Z :=
  match x with
  | Chr c => if c =? 37 then [37; 37] else [c]
  | Conv flags w p m c => 37 :: flags ++ width_chars w ++ prec_chars p ++ mod_chars m ++ [conv_char c]
  end.
Definition unparse (l : list piece) : list Z := concat (unparse1 <$> l).

(** Flags, the width and the precision of a conversion. *)
Record opts := Opts { left : bool; zero : bool; plus : bool; space : bool; alt : bool }.
Definition has (c : Z) (flags : list Z) : bool := existsb (Z.eqb c) flags.
Definition opts_of (flags : list Z) : opts := Opts (has 45 flags) (has 48 flags) (has 43 flags) (has 32 flags) (has 35 flags).
Definition set_left (o : opts) : opts := Opts true (zero o) (plus o) (space o) (alt o).
Definition number (ds : list Z) : Z := fold_left (fun i c => 10 * i + (c - 48)) ds 0.

(** At least so many digits, one where no precision is given. *)
Definition at_least (p : option Z) (ds : list Z) : list Z := fill 48 (default 1 p - len ds) ++ ds.
(** The flag 0 has no effect where a precision is given. *)
Definition number_text (o : opts) (given : bool) (w : Z) (p : option Z) (prefix ds : list Z) : list Z :=
  justify (left o) (zero o && negb given) w prefix (at_least p ds).
Definition sign (o : opts) (v : Z) : list Z :=
  if v <? 0 then [45] else if plus o then [43] else if space o then [32] else [].
Definition mod_width (m : lenmod) : Z := match m with MNone => 32 | Mhh => 8 | Mh => 16 | _ => 64 end.

Definition conv_text (o : opts) (w : Z) (p : option Z) (m : lenmod) (c : dconv) (a : varg) : list Z :=
  let s := swrap (mod_width m) (slot a) in
  let u := wrap (mod_width m) (slot a) in
  let given := bool_decide (is_Some p) in
  match c with
  | Cd | Ci => number_text o given w p (sign o s) (numeral 10 (Z.abs s))
  | Cu => number_text o given w p [] (numeral 10 u)
  | Co => number_text o given w (if alt o then Some (Z.max (default 1 p) (len (numeral 8 u) + 1)) else p) [] (numeral 8 u)
  | Cx => number_text o given w p (if alt o && truth u then [48; 120] else []) (numeral 16 u)
  | CX => number_text o given w p (if alt o && truth u then [48; 88] else []) (upper <$> numeral 16 u)
  | Cp => let v := u64 (slot a) in
          number_text o given w (Z.max 16 <$> p) (if truth v then [48; 120] else []) (numeral 16 v)
  | Cc => justify (left o) false w [] [u8 (slot a)]
  | Cs => let l := match a with Str _ l => l | Num _ => chars "(null)" end in
          justify (left o) false w [] (match p with Some n => take (Z.to_nat n) l | None => l end)
  end.

Definition arg_for (c : dconv) (a : varg) : bool := match c, a with Cs, Num v => u64 v =? 0 | _, _ => true end.

(** The text of a format, with the arguments left. *)
Definition width_spec (w : width) (o : opts) (args : list varg) : option (opts * Z * list varg) :=
  match w, args with
  | WNone, _ => Some (o, 0, args)
  | WLit ds, _ => Some (o, number ds, args)
  | WStar, Num v :: args => let w := s32 v in Some (if w <? 0 then set_left o else o, Z.abs w, args)
  | WStar, _ => None
  end.
Definition prec_spec (p : prec) (args : list varg) : option (option Z * list varg) :=
  match p, args with
  | PNone, _ => Some (None, args)
  | PLit ds, _ => Some (Some (number ds), args)
  | PStar, Num v :: args => let p := s32 v in Some (if p <? 0 then None else Some p, args)
  | PStar, _ => None
  end.
Fixpoint spec (l : list piece) (args : list varg) : option (list Z * list varg) :=
  match l with
  | [] => Some ([], args)
  | Chr c :: l => '(t, args) ← spec l args; Some (c :: t, args)
  | Conv flags w p m c :: l =>
      '(o, w, args) ← width_spec w (opts_of flags) args;
      '(p, args) ← prec_spec p args;
      match args with
      | [] => None
      | a :: args =>
          if arg_for c a then '(t, args) ← spec l args; Some (conv_text o w p m c a ++ t, args) else None
      end
  end.

(** Formats that are written correctly. *)
Definition mod_ok (m : lenmod) (c : dconv) : bool :=
  match c, m with Cc, MNone | Cs, MNone | Cp, MNone => true | Cc, _ | Cs, _ | Cp, _ => false | _, _ => true end.
Definition digit_ok (c : Z) : bool := (48 <=? c) && (c <=? 57).
Definition lit_ok (ds : list Z) : bool := forallb digit_ok ds && (number ds <=? INT_MAX).
Definition piece_ok (x : piece) : bool :=
  match x with
  | Chr c => (0 <? c) && (c <? 256)
  | Conv flags w p m c =>
      forallb flag_char flags &&
      match w with WLit (d :: ds) => negb (d =? 48) && lit_ok (d :: ds) | WLit [] => false | _ => true end &&
      match p with PLit ds => lit_ok ds | _ => true end &&
      mod_ok m c
  end.
(** Strings are in memory, where nothing is written; a null pointer is the number 0. *)
Definition arg_ok (R : Z -> Prop) (m : KString.mem) (a : varg) : Prop :=
  match a with
  | Num v => True
  | Str a l => 0 < a /\ KStringProps.cstr m a l /\ forall b, a <= b <= a + len l -> R b
  end.

(** ** Programs that emit a text
    [emits m s Q]: from any state of the sink, [m] returns something that [Q] holds of, and the
    sink has taken [s] more; the memory outside the sink stays as [m0] has it. *)
Section Emits.
Context {W : Type} `{!Sys W} {F : Type}.
Notation L := (libc W).
Variable fuel : nat.
Variables (P : list Z -> L -> Prop) (bad : L -> Prop) (R : Z -> Prop).
Context `{!Sink fuel P bad R}.
Variable m0 : KString.mem.

Definition good (T : list Z) (k : L) : Prop := P T k \/ bad k.
Definition agrees (k : L) : Prop := (forall a, R a -> KString.rd (lmem k) a = KString.rd m0 a) /\ LibcString.byte_mem (lmem k).
Definition emits {A} (m : M L A) (s : list Z) (Q : A -> Prop) : Prop :=
  forall T k, good T k -> agrees k -> wp m k (fun r k' => Q r /\ good (T ++ s) k' /\ agrees k').

Lemma emits_ret {A} (a : A) (Q : A -> Prop) : Q a -> emits (ret a) [] Q.
Proof. intros HQ T k HT Hk. wp1. rewrite app_nil_r. done. Qed.
Lemma emits_bind {A B} (m : M L A) (f : A -> M L B) s1 s2 (Q1 : A -> Prop) Q2 :
  emits m s1 Q1 -> (forall a, Q1 a -> emits (f a) s2 Q2) -> emits (bind m f) (s1 ++ s2) Q2.
Proof.
  intros Hm Hf T k HT Hk. wp1. eapply wp_mono; [by apply Hm|]. cbv beta. intros a k' (Ha & HT' & Hk').
  eapply wp_mono; [by apply Hf|]. cbv beta. by rewrite app_assoc.
Qed.
Lemma emits_bind_nil {A B} (m : M L A) (f : A -> M L B) s (Q1 : A -> Prop) Q2 :
  emits m s Q1 -> (forall a, Q1 a -> emits (f a) [] Q2) -> emits (bind m f) s Q2.
Proof. intros Hm Hf. rewrite <- (app_nil_r s). by eapply emits_bind. Qed.
Lemma emits_pure {A B} (m : M L A) (f : A -> M L B) a s Q :
  emits m [] (fun x => x = a) -> emits (f a) s Q -> emits (bind m f) s Q.
Proof. intros Hm Hf. apply (emits_bind m f [] s _ _ Hm). by intros x ->. Qed.
Lemma emits_then {A B} (m : M L A) (m' : M L B) s1 s2 Q :
  emits m s1 (fun _ => True) -> emits m' s2 Q -> emits (bind m (fun _ => m')) (s1 ++ s2) Q.
Proof. intros H1 H2. eapply emits_bind; [exact H1|]. by intros _ _. Qed.

Lemma emits_out s : len s < 2 ^ 31 -> emits (out fuel s) s (fun _ => True).
Proof.
  intros Hs T k HT [Hk Hb]. unfold out. do 2 wp1. fold (err k). destruct HT as [HT|HT].
  - rewrite (sink_live fuel T k HT). cbn [negb]. wp1. eapply wp_mono; [by apply (sink_write fuel T s k)|]. cbv beta.
    intros _ k' [HT' [Hm Hb']]. wp1. split; [done|]. split; [exact HT'|]. split; [|auto]. intros a Ha. rewrite Hm; auto.
  - rewrite (sink_bad fuel k HT). cbn [negb]. wp1. split; [done|]. split; [by right|done].
Qed.

Lemma emits_pad_loop n c l : 0 <= l < 2 ^ 31 -> l < 256 * Z.of_nat n -> emits (pad_loop fuel n c l) (fill c l) (fun _ => True).
Proof.
  revert l. induction n as [|n IH]; intros l Hl Hn; [lia|]. cbn [pad_loop]. destruct (Z.leb_spec 256 l).
  - replace (fill c l) with (repeat c 256 ++ fill c (l - 256)).
    2:{ unfold fill. rewrite <- repeat_app. f_equal. lia. }
    apply emits_then; [|apply IH; lia]. apply emits_out. unfold len. rewrite repeat_length. lia.
  - apply emits_out. change (len (fill c l) < 2 ^ 31). rewrite len_fill. lia.
Qed.
Lemma emits_pad c w l fl :
  w - l < 2 ^ 31 -> emits (pad fuel c w l fl) (if left_ fl || zero_ fl then [] else fill c (w - l)) (fun _ => True).
Proof.
  intros Hw. unfold pad. rewrite pad_flags. destruct (left_ fl || zero_ fl); cbn [orb]; [by apply emits_ret|].
  destruct (Z.leb_spec w l).
  - replace (fill c (w - l)) with (@nil Z) by (unfold fill; by replace (Z.to_nat (w - l)) with 0%nat by lia).
    by apply emits_ret.
  - apply emits_pad_loop; [lia|]. pose proof (Z.div_mod (w - l) 256 ltac:(lia)).
    pose proof (Z.mod_pos_bound (w - l) 256 ltac:(lia)). pose proof (Z.div_pos (w - l) 256 ltac:(lia) ltac:(lia)). lia.
Qed.

Lemma emits_put_field cnt w (x : field) :
  let total := len (prefix x) + Z.max (p x) (len (text x)) in
  0 <= cnt -> left_ (fl x) && zero_ (fl x) = false -> total <= INT_MAX -> Z.max w total <= INT_MAX - cnt ->
  emits (put_field fuel cnt w x)
    (justify (left_ (fl x)) (zero_ (fl x)) w (prefix x) (fill 48 (p x - len (text x)) ++ text x))
    (fun r => r = inr (Z.max w total)).
Proof.
  intros total Hc Hf Ht Hw. unfold put_field. destruct x as [f q pre t]. cbn [fl p prefix text] in *. unfold INT_MAX in *.
  set (q' := if q <? len t then len t else q). assert (q' = Z.max q (len t)) as Eq by (unfold q'; zcase; lia).
  clearbody q'. subst q'. pose proof (len_nonneg pre). pose proof (len_nonneg t).
  destruct (Z.ltb_spec (2147483647 - len pre) (Z.max q (len t))); [lia|].
  set (w' := if w <? _ then _ else w). assert (w' = Z.max w total) as -> by (unfold w', total; zcase; lia).
  destruct (Z.ltb_spec (2147483647 - cnt) (Z.max w total)); [lia|]. fold total.
  set (W' := Z.max w total). set (pads := fill 48 (q - len t)).
  set (nn := w - len pre - len (pads ++ t)).
  assert (len (pads ++ t) = Z.max q (len t)) as El by (unfold pads; rewrite len_app, len_fill; lia).
  assert (W' - total = Z.max 0 nn) as En by (unfold W', nn, total; lia).
  assert (forall c, fill c (W' - total) = fill c nn) as Ef by (intros; rewrite En; unfold fill; f_equal; lia).
  assert (fill 48 (Z.max q (len t) - len t) = pads) as Ep by (unfold pads, fill; f_equal; lia).
  replace (justify (left_ f) (zero_ f) w pre (pads ++ t)) with
    ((if left_ f || zero_ f then [] else fill 32 (W' - total)) ++ pre ++
     (if left_ (Z.lxor f ZERO_PAD) || zero_ (Z.lxor f ZERO_PAD) then [] else fill 48 (W' - total)) ++
     (if left_ 0 || zero_ 0 then [] else pads) ++ t ++
     (if left_ (Z.lxor f LEFT_ADJ) || zero_ (Z.lxor f LEFT_ADJ) then [] else fill 32 (W' - total)) ++ []).
  2:{ unfold justify. fold nn. unfold left_, zero_, LEFT_ADJ, ZERO_PAD in *. rewrite !bit_flip by lia. rewrite !Ef, !Z.bits_0.
      destruct (Z.testbit f 13), (Z.testbit f 16); try done; cbn; by rewrite ?app_nil_r, <- ?app_assoc. }
  rewrite <- Ep. unfold INT_MAX in *.
  repeat (apply emits_then; [first [apply emits_pad; unfold W', total in *; lia|apply emits_out; unfold total in *; lia]|]).
  by apply emits_ret.
Qed.

(** *** Conversions *)
Definition bits_of (f : Z) : opts :=
  Opts (Z.testbit f 13) (Z.testbit f 16) (Z.testbit f 11) (Z.testbit f 0) (Z.testbit f 3).
Definition prec_of (p : Z) : option Z := if p <? 0 then None else Some p.

Lemma len_at_least p ds : len (at_least p ds) = Z.max (default 1 p) (len ds).
Proof. unfold at_least. rewrite len_app, len_fill. lia. Qed.

(** The end of the integer conversions. *)
Lemma emits_int cnt w f p xp pre a i (res : option (stop + field)) :
  let txt := justify (left_ f) (zero_ f && negb xp) w pre (at_least (prec_of p) a) in
  res = Some (int_tail f p xp pre a i) ->
  (len a = 0 <-> i = 0) -> (xp = true -> 0 <= p) -> 0 <= cnt -> left_ f && zero_ f = false -> len txt <= INT_MAX - cnt ->
  emits (put_int fuel cnt w res) txt (fun r => r = inr (len txt)).
Proof.
  intros txt -> Ha Hxp Hc Hf Ht. cbn [put_int]. unfold int_tail.
  replace (xp && (p <? 0)) with false by (destruct xp; [|done]; symmetry; apply Z.ltb_ge; auto).
  set (f' := if xp then f &&& Z.lnot ZERO_PAD else f).
  assert (left_ f' = left_ f /\ zero_ f' = zero_ f && negb xp) as [E1 E2].
  { unfold f', left_, zero_, ZERO_PAD. destruct xp; [|by rewrite andb_true_r]. rewrite !bit_clear by lia. cbn. by rewrite andb_true_r. }
  set (x := if (i =? 0) && (p =? 0) then Field f' p pre [] else Field f' (Z.max p (len a + (if i =? 0 then 1 else 0))) pre a).
  assert ((if (i =? 0) && (p =? 0) then inr (Field f' p pre [])
           else inr (Field f' (Z.max p (len a + (if i =? 0 then 1 else 0))) pre a)) = @inr stop field x) as ->
    by (unfold x; by destruct ((i =? 0) && (p =? 0))).
  assert (fl x = f' /\ prefix x = pre) as [E3 E4] by (unfold x; by destruct ((i =? 0) && (p =? 0))).
  assert (fill 48 (Printf.p x - len (text x)) ++ text x = at_least (prec_of p) a) as E5.
  { unfold x, at_least, prec_of, default, id. pose proof (len_nonneg a).
    destruct (Z.eqb_spec i 0) as [Hi|Hi], (Z.eqb_spec p 0) as [Hp|Hp]; cbn [andb Printf.p text];
      destruct (Z.ltb_spec p 0); try lia;
      try (assert (a = []) as -> by (apply length_zero_iff_nil; apply Ha in Hi; unfold len in Hi; lia); change (len []) with 0);
      unfold fill; f_equal; f_equal; try lia; subst p; done. }
  assert (len txt = Z.max w (len pre + Z.max (Printf.p x) (len (text x)))) as E6.
  { unfold txt. rewrite len_justify, <- E5, len_app, len_fill. f_equal. f_equal. lia. }
  pose proof (emits_put_field cnt w x) as H. cbv zeta in H. rewrite E3, E4, E5, E1, E2, <- E6 in H.
  unfold ebind. eapply emits_pure; [by apply emits_ret|]. cbv beta. apply H; [done| |lia|lia].
  by destruct (left_ f), (zero_ f), xp.
Qed.

Lemma prec_given p : bool_decide (is_Some (prec_of p)) = (0 <=? p).
Proof.
  unfold prec_of. rewrite Z.leb_antisym. destruct (p <? 0); [|by apply bool_decide_eq_true_2; eauto].
  apply bool_decide_eq_false_2. by intros [].
Qed.
Lemma justify_left l z g w pre b : justify l (z && negb l && g) w pre b = justify l (z && g) w pre b.
Proof. unfold justify. destruct l; [done|]. by rewrite andb_true_r. Qed.

(** The flags of the switch: the left flag takes the zero flag away. *)
Definition switch_flags (f : Z) : Z := if truth (f &&& LEFT_ADJ) then f &&& Z.lnot ZERO_PAD else f.
Lemma switch_bits f i : 0 <= i ->
  Z.testbit (switch_flags f) i = Z.testbit f i && negb ((16 =? i) && left_ f).
Proof.
  intros Hi. unfold switch_flags, LEFT_ADJ, ZERO_PAD. rewrite truth_bit by lia. unfold left_.
  destruct (Z.testbit f 13); [rewrite bit_clear by lia|]; by rewrite ?andb_false_r, ?andb_true_r.
Qed.
Lemma switch_left f : left_ (switch_flags f) = left_ f.
Proof. unfold left_ at 1. rewrite switch_bits by lia. by rewrite andb_true_r. Qed.
Lemma switch_zero f : zero_ (switch_flags f) = zero_ f && negb (left_ f).
Proof. unfold zero_ at 1. by rewrite switch_bits by lia. Qed.
Lemma switch_excl f : left_ (switch_flags f) && zero_ (switch_flags f) = false.
Proof. rewrite switch_left, switch_zero. by destruct (left_ f), (zero_ f). Qed.

(** A numeral with its prefix, as a number of the specification. *)
Lemma emits_number cnt w f f' p p' xp pre a i (res : option (stop + field)) :
  let txt := number_text (bits_of f) xp w (prec_of p') pre a in
  left_ f' = left_ f -> zero_ f' = zero_ f && negb (left_ f) ->
  res = Some (int_tail f' p' xp pre a i) -> xp = (0 <=? p) -> p <= p' ->
  (len a = 0 <-> i = 0) -> 0 <= cnt -> len txt <= INT_MAX - cnt ->
  emits (put_int fuel cnt w res) txt (fun r => r = inr (len txt)).
Proof.
  intros txt El Ez Hres Hxp Hp Ha Hc Ht.
  assert (txt = justify (left_ f') (zero_ f' && negb xp) w pre (at_least (prec_of p') a)) as Etxt.
  { rewrite El, Ez, justify_left. done. }
  clearbody txt. subst txt. eapply emits_int; [exact Hres|done| |done| |done].
  - rewrite Hxp. intros ?%Z.leb_le. lia.
  - rewrite El, Ez. by destruct (left_ f), (zero_ f).
Qed.

Lemma emits_dec cnt w f p xp v :
  let txt := number_text (bits_of f) xp w (prec_of p) (sign (bits_of f) v) (numeral 10 (Z.abs v)) in
  in_s 64 v -> xp = (0 <=? p) -> 0 <= cnt -> len txt <= INT_MAX - cnt ->
  emits (put_int fuel cnt w (dec_field (switch_flags f) p xp (u64 v))) txt (fun r => r = inr (len txt)).
Proof.
  intros txt Hv Hxp Hc Ht. unfold in_s in Hv. change (2 ^ (64 - 1)) with (2 ^ 63) in Hv.
  assert (exists i, i = Z.abs v /\ dec_field (switch_flags f) p xp (u64 v)
    = uns_field (switch_flags f) p xp i (sign (bits_of f) v)) as (i & -> & ->).
  { exists (Z.abs v). split; [done|]. unfold dec_field, sign, bits_of. cbn [plus space].
    unfold MARK_POS, PAD_POS. rewrite !truth_bit, !switch_bits by lia. cbn [andb negb Z.eqb Pos.eqb]. rewrite !andb_true_r.
    destruct (Z.ltb_spec v 0).
    - rewrite u64_neg by lia. destruct (Z.ltb_spec (2 ^ 63 - 1) (v + 2 ^ 64)); [|lia]. f_equal.
      rewrite u64_neg by lia. lia.
    - rewrite wrap_small by (unfold in_u; lia). destruct (Z.ltb_spec (2 ^ 63 - 1) v); [lia|].
      rewrite Z.abs_eq by lia. by destruct (Z.testbit f 11), (Z.testbit f 0). }
  eapply emits_number; [apply switch_left|apply switch_zero| |done|done| |done|done].
  - unfold uns_field, some. by rewrite fmt_u_ok by lia.
  - apply numeral_nil. lia.
Qed.

Lemma emits_uns cnt w f p xp v :
  let txt := number_text (bits_of f) xp w (prec_of p) [] (numeral 10 v) in
  0 <= v < 2 ^ 64 -> xp = (0 <=? p) -> 0 <= cnt -> len txt <= INT_MAX - cnt ->
  emits (put_int fuel cnt w (uns_field (switch_flags f) p xp v [])) txt (fun r => r = inr (len txt)).
Proof.
  intros txt Hv Hxp Hc Ht. eapply emits_number; [apply switch_left|apply switch_zero| |done|done| |done|done].
  - unfold uns_field, some. by rewrite fmt_u_ok by lia.
  - apply numeral_nil. lia.
Qed.

Lemma emits_oct cnt w f p xp v :
  let txt := number_text (bits_of f) xp w
    (if alt (bits_of f) then Some (Z.max (default 1 (prec_of p)) (len (numeral 8 v) + 1)) else prec_of p) [] (numeral 8 v) in
  0 <= v < 2 ^ 64 -> xp = (0 <=? p) -> 0 <= cnt -> len txt <= INT_MAX - cnt ->
  emits (put_int fuel cnt w (oct_field (switch_flags f) p xp v)) txt (fun r => r = inr (len txt)).
Proof.
  intros txt Hv Hxp Hc Ht. unfold oct_field, some. rewrite fmt_o_ok by done. cbn [fmap option_fmap option_map].
  unfold ALT_FORM. rewrite truth_bit, switch_bits by lia. cbn [andb negb Z.eqb Pos.eqb]. rewrite andb_true_r.
  set (p' := if Z.testbit f 3 && _ then _ else p). pose proof (len_nonneg (numeral 8 v)).
  assert (txt = number_text (bits_of f) xp w (prec_of p') [] (numeral 8 v)) as Etxt.
  { unfold txt, p', bits_of. cbn [alt]. destruct (Z.testbit f 3); [|done]. f_equal. cbn [andb]. unfold prec_of, default, id.
    destruct (Z.ltb_spec p 0), (Z.ltb_spec p (len (numeral 8 v) + 1)); zcase; try lia; f_equal; lia. }
  clearbody txt. subst txt. eapply emits_number; [apply switch_left|apply switch_zero|done|done| |apply numeral_nil; lia|done|done].
  unfold p'. destruct (Z.testbit f 3); cbn [andb]; [zcase; lia|lia].
Qed.

Lemma emits_hex cnt w f f' p p' xp v t pre ds :
  let txt := number_text (bits_of f) xp w (prec_of p') (if Z.testbit f' 3 && truth v then pre else []) ds in
  left_ f' = left_ f -> zero_ f' = zero_ f && negb (left_ f) ->
  fmt_x v [] (t &&& 32) = Some ds -> prefix_at (t >>> 4) 2 = pre -> (len ds = 0 <-> v = 0) ->
  xp = (0 <=? p) -> p <= p' -> 0 <= cnt -> len txt <= INT_MAX - cnt ->
  emits (put_int fuel cnt w (hex_field t f' p' xp v)) txt (fun r => r = inr (len txt)).
Proof.
  intros txt El Ez Hx Hpre Hn Hxp Hp Hc Ht. unfold hex_field, some. rewrite Hx. cbn [fmap option_fmap option_map].
  unfold ALT_FORM. rewrite truth_bit, Hpre by lia. rewrite (andb_comm (truth v)). by eapply emits_number.
Qed.

Lemma emits_gets_agrees {A B} (g : L -> A) (h : A -> M L B) s Q :
  (forall k, agrees k -> emits (h (g k)) s Q) -> emits (bind (gets g) h) s Q.
Proof. intros H T k HT Hk. do 2 wp1. by apply H. Qed.

(** A piece of text with no numeral in it. *)
Lemma emits_plain cnt w f t :
  let txt := justify (left_ f) false w [] t in
  0 <= cnt -> len txt <= INT_MAX - cnt ->
  emits (put_field fuel cnt w (Field (switch_flags f &&& Z.lnot ZERO_PAD) (len t) [] t)) txt (fun r => r = inr (len txt)).
Proof.
  intros txt Hc Ht. set (x := Field _ (len t) [] t).
  assert (left_ (fl x) = left_ f /\ zero_ (fl x) = false) as [E1 E2].
  { cbn [fl x]. unfold ZERO_PAD, zero_. rewrite <- (switch_left f). unfold left_. rewrite !bit_clear by lia.
    by rewrite andb_true_r, andb_false_r. }
  assert (len txt = Z.max w (len [] + Z.max (len t) (len t))) as El
    by (unfold txt; rewrite len_justify; change (len []) with 0; lia).
  pose proof (emits_put_field cnt w x) as H. cbv zeta in H. rewrite E1, E2 in H. cbn [x fl p prefix text] in H.
  rewrite <- El, Z.sub_diag in H. apply H; [done|by rewrite andb_false_r| |lia].
  change (len []) with 0 in *. lia.
Qed.

Lemma read_bytes_take m a (l : list Z) n :
  (forall i c, l !! i = Some c -> KString.rd m (a + Z.of_nat i) = c) -> (n <= length l)%nat -> read_bytes n m a = take n l.
Proof.
  revert a l. induction n as [|n IH]; intros a l Hl Hn; [done|]. destruct l as [|c l]; [cbn in Hn; lia|].
  cbn [read_bytes take]. f_equal.
  - rewrite <- (Hl 0%nat c eq_refl). f_equal. lia.
  - apply IH; [|cbn in Hn; lia]. intros i x Hi. rewrite <- (Hl (S i) x Hi). f_equal. lia.
Qed.

Definition str_text (p : Z) (l : list Z) : list Z := match prec_of p with Some n => take (Z.to_nat n) l | None => l end.
Lemma len_str_text p l : p < 0 -> str_text p l = l.
Proof. intros H. unfold str_text, prec_of. by destruct (Z.ltb_spec p 0); [|lia]. Qed.

(** [strnlen] and the text of a string in memory. *)
Lemma take_string_mem m a l p :
  LibcString.byte_mem m -> KStringProps.cstr m a l -> 0 < a -> (p < 0 -> len l <= INT_MAX) ->
  exists z, take_string m (InMem a) (if p <? 0 then INT_MAX else p) = (str_text p l, z) /\ (p < 0 -> z = 0).
Proof.
  intros Hb (H1 & H2 & H3 & H4 & H5) Ha Hl. cbn [take_string].
  set (n := if p <? 0 then INT_MAX else p). assert (0 <= n) as Hn by (unfold n, INT_MAX; zcase; lia).
  assert (LibcString.none m 0 a (a + len l)) as Hno.
  { intros b Hb'. destruct (lookup_lt_is_Some_2 l (Z.to_nat (b - a))) as [c Hc]; [unfold len in *; lia|].
    pose proof (H1 _ _ Hc) as E. replace (a + Z.of_nat (Z.to_nat (b - a))) with b in E by lia. rewrite E.
    rewrite Forall_lookup in H3. specialize (H3 _ _ Hc). unfold KStringProps.byte_ok in H3. lia. }
  pose proof (len_nonneg l).
  rewrite (LibcString.strnlen_ok m a n (a + len l)) by (done || lia). replace (a + len l - a) with (len l) by lia.
  eexists. split; [f_equal|].
  - rewrite (read_bytes_take m a l) by (done || (unfold len in *; lia)). unfold str_text, prec_of, n.
    destruct (Z.ltb_spec p 0).
    + rewrite Z.min_r by lia. apply take_ge. unfold len. lia.
    + destruct (decide (p <= len l)); [by rewrite Z.min_l by lia|]. rewrite Z.min_r, !take_ge by (unfold len in *; lia). done.
  - intros Hp. unfold n. destruct (Z.ltb_spec p 0); [|lia]. rewrite Z.min_r by lia. exact H2.
Qed.
Lemma take_string_lit m l p :
  len l <= INT_MAX -> exists z, take_string m (Lit l) (if p <? 0 then INT_MAX else p) = (str_text p l, z) /\ (p < 0 -> z = 0).
Proof.
  intros Hl. cbn [take_string]. unfold str_text, prec_of. eexists. split; [f_equal|].
  - destruct (Z.ltb_spec p 0); [|done]. apply take_ge. unfold len in Hl. lia.
  - intros Hp. destruct (Z.ltb_spec p 0); [|lia]. unfold at_. rewrite lookup_ge_None_2; [done|]. unfold len in Hl. lia.
Qed.

Lemma emits_string cnt w f p src l :
  let txt := justify (left_ f) false w [] (str_text p l) in
  (forall k, agrees k -> exists z, take_string (lmem k) src (if p <? 0 then INT_MAX else p) = (str_text p l, z) /\ (p < 0 -> z = 0)) ->
  0 <= cnt -> len txt <= INT_MAX - cnt ->
  emits (ebind (str_field (switch_flags f) p src) (put_field fuel cnt w)) txt (fun r => r = inr (len txt)).
Proof.
  intros txt Hs Hc Ht. unfold ebind, str_field. eapply emits_pure.
  - apply emits_gets_agrees. intros k Hk. destruct (Hs k Hk) as (z & -> & Hz).
    replace ((p <? 0) && truth z) with false by (destruct (Z.ltb_spec p 0); [by rewrite Hz|done]).
    by apply emits_ret.
  - by apply emits_plain.
Qed.
Lemma cstr_agrees k a l : agrees k -> KStringProps.cstr m0 a l -> (forall b, a <= b <= a + len l -> R b) -> KStringProps.cstr (lmem k) a l.
Proof.
  intros [Hk _] (H1 & H2 & H3 & H4 & H5) HR. split_and!; [|rewrite Hk; [done|apply HR; unfold len; lia]|done..].
  intros i c Hi. pose proof (lookup_lt_Some _ _ _ Hi). rewrite Hk; [by apply H1|]. apply HR. unfold len. lia.
Qed.

(** The value [pop_arg] gives for a conversion, and the state the automaton was in. *)
Definition arg_val (m : lenmod) (c : dconv) (v : Z) : Z :=
  match c with
  | Cd | Ci => u64 (swrap (mod_width m) v)
  | Cu | Co | Cx | CX => wrap (mod_width m) v
  | Cc => u64 (s8 v)
  | Cs | Cp => u64 v
  end.
Definition mod_state (m : lenmod) : st_ :=
  match m with MNone => BARE | Mhh => HHPRE | Mh => HPRE | Ml => LPRE | Mll => LLPRE | Mj => JPRE | Mz | Mt => ZTPRE end.

Lemma mod_width_cases m : mod_width m = 8 \/ mod_width m = 16 \/ mod_width m = 32 \/ mod_width m = 64.
Proof. destruct m; cbn; auto. Qed.
Lemma swrap_in_s64 m v : in_s 64 (swrap (mod_width m) v).
Proof.
  destruct (mod_width_cases m) as [E|[E|[E|E]]]; rewrite E;
    [pose proof (swrap_range 8 v)|pose proof (swrap_range 16 v)|pose proof (swrap_range 32 v)|pose proof (swrap_range 64 v)];
    unfold in_s in *; lia.
Qed.
Lemma wrap_in_64 m v : 0 <= wrap (mod_width m) v < 2 ^ 64.
Proof.
  destruct (mod_width_cases m) as [E|[E|[E|E]]]; rewrite E;
    [pose proof (wrap_range 8 v)|pose proof (wrap_range 16 v)|pose proof (wrap_range 32 v)|pose proof (wrap_range 64 v)];
    unfold in_u in *; lia.
Qed.
Lemma u8_s8 v : u8 (u64 (s8 v)) = u8 v.
Proof.
  rewrite <- (wrap_swrap 8 v) by lia. unfold wrap at 1 2. rewrite Z.mod_mod_divide; [done|]. by exists (2 ^ 56).
Qed.
Lemma ptr_precision_ok p : - 2 ^ 31 <= p < 2 ^ 31 -> ptr_precision p = (if p <? 0 then p else Z.max 16 p).
Proof.
  intros Hp. unfold ptr_precision. destruct (Z.ltb_spec p 0).
  - rewrite u64_neg by lia. rewrite Z.max_l by lia. unfold swrap, wrap.
    rewrite <- (Z.mod_unique_pos (p + 2 ^ 64) (2 ^ 32) (2 ^ 32 - 1) (p + 2 ^ 32)) by lia.
    destruct (Z.ltb_spec (p + 2 ^ 32) (2 ^ (32 - 1))); [lia|]. lia.
  - rewrite wrap_small by (unfold in_u; lia). rewrite swrap_small by (unfold in_s; lia). lia.
Qed.

Variable utf8 : bool.
Variable strerror : Z -> list Z.
Variable fmt_fp : F -> Z -> Z -> Z -> Z -> M L Z.

Lemma emits_convert cnt f w p xp m c x :
  let txt := conv_text (bits_of f) w (prec_of p) m c x in
  mod_ok m c = true -> arg_for c x = true -> arg_ok R m0 x -> xp = (0 <=? p) -> - 2 ^ 31 <= p < 2 ^ 31 ->
  0 <= cnt -> len txt <= INT_MAX - cnt ->
  emits (convert fuel utf8 strerror fmt_fp cnt f w p xp (mod_state m) (conv_char c) (ArgI (arg_val m c (slot x))))
    txt (fun r => r = inr (len txt)).
Proof.
  intros txt Hm Ha Hx Hxp Hp Hc Ht. unfold convert. cbv zeta. fold (switch_flags f).
  assert (wide_char (mod_state m) (conv_char c) = conv_char c) as -> by (by destruct c, m).
  unfold txt, conv_text in *. rewrite prec_given, <- Hxp in *.
  pose proof (wrap_in_64 m (slot x)) as Hw. set (u := wrap (mod_width m) (slot x)) in *.
  destruct (fmt_x_ok u Hw) as [Fx FX]. assert (len (numeral 16 u) = 0 <-> u = 0) as Hn by (apply numeral_nil; lia).
  destruct c; cbn [conv_char Z.eqb Pos.eqb orb arg_i arg_val] in *.
  - apply emits_dec; [apply swrap_in_s64|done..].
  - apply emits_dec; [apply swrap_in_s64|done..].
  - by apply emits_uns.
  - by apply emits_oct.
  - pose proof (emits_hex cnt w f (switch_flags f) p p xp u 120 [48; 120] (numeral 16 u)) as H. cbv zeta in H.
    rewrite (switch_bits f 3), andb_true_r in H by lia.
    apply H; [apply switch_left|apply switch_zero|exact Fx|reflexivity|exact Hn|done|lia|done|done].
  - pose proof (emits_hex cnt w f (switch_flags f) p p xp u 88 [48; 88] (upper <$> numeral 16 u)) as H. cbv zeta in H.
    rewrite (switch_bits f 3), andb_true_r in H by lia.
    apply H; [apply switch_left|apply switch_zero|exact FX|reflexivity| |done|lia|done|done].
    unfold len. by rewrite length_fmap.
  - rewrite u8_s8. by apply (emits_plain cnt w f [u8 (slot x)]).
  - destruct x as [v|a l]; cbn [slot arg_for arg_ok] in *.
    + rewrite Ha. apply emits_string; [|done|done]. intros k Hk. apply take_string_lit. by apply Z.leb_le.
    + destruct Hx as (H0 & Hcs & HR). pose proof Hcs as (_ & _ & _ & _ & Hb).
      rewrite wrap_small by (unfold in_u; lia). destruct (Z.eqb_spec a 0); [lia|].
      apply emits_string; [|done|done]. intros k Hk. apply take_string_mem; [by apply Hk| |done|].
      * by apply cstr_agrees.
      * intros Hneg. rewrite len_justify in Ht. fold (str_text p l) in Ht. rewrite len_str_text in Ht by done.
        change (len []) with 0 in Ht. lia.
  - assert (prec_of (ptr_precision p) = Z.max 16 <$> prec_of p /\ p <= ptr_precision p) as [Ep Hpp].
    { rewrite ptr_precision_ok by done. unfold prec_of. destruct (Z.ltb_spec p 0) as [H|H].
      - destruct (Z.ltb_spec p 0); [|lia]. split; [done|lia].
      - destruct (Z.ltb_spec (Z.max 16 p) 0); [lia|]. split; [done|lia]. }
    pose proof (wrap_range 64 (slot x) ltac:(lia)) as Hv. unfold in_u in Hv. destruct (fmt_x_ok _ Hv) as [Fv _].
    pose proof (emits_hex cnt w f (switch_flags f ||| ALT_FORM) p (ptr_precision p) xp (u64 (slot x)) 120 [48; 120]
      (numeral 16 (u64 (slot x)))) as H. cbv zeta in H. rewrite Ep in H. unfold ALT_FORM, left_, zero_ in H.
    rewrite !bit_add in H by lia. cbn [andb Z.eqb Pos.eqb] in H. rewrite !orb_false_r, orb_true_r in H. cbn [andb] in H.
    apply H; [apply switch_left|apply switch_zero|exact Fv|reflexivity|apply numeral_nil; lia|done|done|done|done].
Qed.

(** *** Parsing a conversion *)
Definition first_is (t : Z -> bool) (s : list Z) : bool := match s with c :: _ => t c | [] => false end.
Definition letter (c : Z) : bool := (65 <=? c) && (c <=? 122).
(** What can follow the flags, and what can follow the width. *)
Definition after_width (c : Z) : bool := letter c || (c =? 46).
Definition after_flags (c : Z) : bool := after_width c || (c =? 42) || ((49 <=? c) && (c <=? 57)).

Lemma isdigit_ok c : 0 <= c < 256 -> isdigit c = digit_ok c.
Proof.
  intros Hc. unfold isdigit, digit_ok. destruct (Z.leb_spec 48 c); cbn [andb].
  - rewrite wrap_small by (unfold in_u; lia). destruct (Z.ltb_spec (c - 48) 10), (Z.leb_spec c 57); lia || done.
  - unfold wrap. rewrite <- (Z.mod_unique_pos (c - 48) (2 ^ 32) (-1) (c - 48 + 2 ^ 32)) by lia. apply Z.ltb_ge. lia.
Qed.
Lemma after_flags_byte c : after_flags c = true -> 42 <= c <= 122.
Proof. unfold after_flags, after_width, letter. rewrite !orb_true_iff, !andb_true_iff, !Z.leb_le, !Z.eqb_eq. lia. Qed.
Lemma after_width_digit c : after_width c = true -> isdigit c = false /\ c <> 42 /\ c <> 36.
Proof.
  intros H. pose proof (after_flags_byte c) as Hb. unfold after_flags in Hb. rewrite H in Hb. specialize (Hb eq_refl).
  rewrite isdigit_ok by lia. unfold digit_ok, after_width, letter in *.
  rewrite !orb_true_iff, !andb_true_iff, !Z.leb_le, !Z.eqb_eq in H. split; [|lia]. apply andb_false_iff. rewrite !Z.leb_gt. lia.
Qed.
Lemma after_flags_flag c : after_flags c = true -> flag_char c = false.
Proof.
  intros H. pose proof (after_flags_byte c H) as Hb.
  assert (forallb (fun c => negb (after_flags c && flag_char c)) (seqZ 0 256) = true) as E by reflexivity.
  rewrite forallb_forall in E. specialize (E c ltac:(apply list_elem_of_In, elem_of_seqZ; lia)).
  rewrite H in E. by destruct (flag_char c).
Qed.

Lemma flag_pos c : flag_char c = true -> 0 <= c - 32.
Proof.
  unfold flag_char. intros [_ H]%andb_true_iff. destruct (decide (0 <= c - 32)); [done|].
  pose proof (Z.pow_gt_1 2 (- (c - 32)) ltac:(lia)).
  rewrite Z.shiftl_div_pow2, Z.div_small, Z.land_0_r in H by lia. done.
Qed.
Lemma modifier_flags_ok f flags rest :
  forallb flag_char flags = true -> first_is after_flags rest = true ->
  exists f', modifier_flags f (flags ++ rest) = (f', rest) /\
    forall j, 0 <= j -> Z.testbit f' j = Z.testbit f j || has (j + 32) flags.
Proof.
  revert f. induction flags as [|c flags IH]; intros f Hf Hr; cbn [app modifier_flags].
  - destruct rest as [|c rest]; [done|]. cbn [first_is] in Hr. cbn [modifier_flags]. rewrite after_flags_flag by done.
    exists f. split; [done|]. intros j Hj. cbn. by rewrite orb_false_r.
  - cbn [forallb] in Hf. apply andb_true_iff in Hf as [Hc Hf]. rewrite Hc.
    destruct (IH (f ||| (1 <<< (c - 32))) Hf Hr) as (f' & -> & Hb). exists f'. split; [done|]. intros j Hj.
    rewrite Hb, bit_add by (done || by apply flag_pos). unfold has. cbn [existsb]. rewrite orb_assoc. f_equal. f_equal.
    destruct (Z.eqb_spec (c - 32) j), (Z.eqb_spec (j + 32) c); lia || done.
Qed.
Lemma bits_of_flags flags f :
  (forall j, 0 <= j -> Z.testbit f j = Z.testbit 0 j || has (j + 32) flags) -> bits_of f = opts_of flags.
Proof. intros H. unfold bits_of. by rewrite !H by lia. Qed.

Lemma number_mono i ds : 0 <= i -> forallb digit_ok ds = true -> i <= fold_left (fun i c => 10 * i + (c - 48)) ds i.
Proof.
  revert i. induction ds as [|c ds IH]; intros i Hi Hd; cbn [fold_left]; [lia|].
  cbn [forallb] in Hd. apply andb_true_iff in Hd as [Hc Hd]. unfold digit_ok in Hc. rewrite andb_true_iff, !Z.leb_le in Hc.
  etransitivity; [|apply IH; [lia|done]]. lia.
Qed.
Lemma getint_ok i ds rest :
  0 <= i -> forallb digit_ok ds = true -> fold_left (fun i c => 10 * i + (c - 48)) ds i <= INT_MAX ->
  first_is after_width rest = true -> getint_loop i (ds ++ rest) = (fold_left (fun i c => 10 * i + (c - 48)) ds i, rest).
Proof.
  revert i. induction ds as [|c ds IH]; intros i Hi Hd Hn Hr; cbn [app getint_loop fold_left].
  - destruct rest as [|c rest]; [done|]. cbn [first_is] in Hr. destruct (after_width_digit c Hr) as [E _].
    cbn [getint_loop]. by rewrite E.
  - cbn [forallb] in Hd. apply andb_true_iff in Hd as [Hc Hd]. pose proof Hc as Hc'. unfold digit_ok in Hc.
    rewrite andb_true_iff, !Z.leb_le in Hc. rewrite isdigit_ok, Hc' by lia. cbn [fold_left] in Hn.
    pose proof (number_mono (10 * i + (c - 48)) ds ltac:(lia) Hd). unfold INT_MAX in *.
    rewrite wrap_small by (unfold in_u; lia). change (2147483647 / 10) with 214748364.
    destruct (Z.ltb_spec 214748364 i); [lia|]. destruct (Z.ltb_spec (2147483647 - 10 * i) (c - 48)); [lia|]. cbn [orb].
    apply IH; [lia|done|done|done].
Qed.

(** The scan of a format without positions: only the rest of it and the arguments change. *)
Variables (fps lds : list F) (na : list (@arg F)) (nt : list (option st_)).
Definition sc (s : list Z) (args : list varg) : scan := Scan s false (Va (slot <$> args) fps lds) na nt.

Lemma emits_ebind {A B} (m : E A) (g : A -> E B) a s Q :
  emits m [] (fun r => r = inr a) -> emits (g a) s Q -> emits (ebind m g) s Q.
Proof. intros Hm Hg. unfold ebind. by eapply emits_pure. Qed.

Lemma emits_va_int s x args : emits (va_int true (sc s (Num x :: args))) [] (fun r => r = inr (s32 x, sc s args)).
Proof.
  unfold va_int, lift. apply (emits_pure _ _ (s32 x, sc s args)); [|by apply emits_ret].
  apply (emits_pure _ _ (x, Va (slot <$> args) fps lds)); by apply emits_ret.
Qed.

Lemma emits_width f w s args o v args' :
  width_spec w (bits_of f) args = Some (o, v, args') ->
  match w with WLit (d :: ds) => negb (d =? 48) && lit_ok (d :: ds) | WLit [] => false | _ => true end = true ->
  v <= INT_MAX -> first_is after_width s = true ->
  exists f', bits_of f' = o /\ 0 <= v /\
    emits (field_width true f (sc (width_chars w ++ s) args)) [] (fun r => r = inr (f', v, sc s args')).
Proof.
  intros Hw Hok Hv Hs. unfold field_width. destruct w as [|[|d ds]|]; cbn [width_chars width_spec app s_ sc] in *.
  - simplify_eq. exists f. split; [done|]. split; [lia|]. destruct s as [|c s]; [done|]. cbn [first_is] in Hs.
    destruct (after_width_digit c Hs) as (Hd & H42 & _). change (at_ (c :: s) 0) with c.
    destruct (Z.eqb_spec c 42); [done|]. unfold getint. cbn [getint_loop]. rewrite Hd. by apply emits_ret.
  - done.
  - simplify_eq. apply andb_true_iff in Hok as [Hd Hok]. unfold lit_ok in Hok. apply andb_true_iff in Hok as [Hds Hn].
    apply Z.leb_le in Hn. pose proof (number_mono 0 (d :: ds) ltac:(lia) Hds) as H0.
    exists f. split; [done|]. split; [exact H0|]. change (at_ (d :: ds ++ s) 0) with d.
    cbn [forallb] in Hds. pose proof Hds as [Hd' _]%andb_true_iff. unfold digit_ok in Hd'. rewrite andb_true_iff, !Z.leb_le in Hd'.
    destruct (Z.eqb_spec d 42); [lia|]. unfold getint.
    change (d :: ds ++ s) with ((d :: ds) ++ s). rewrite getint_ok by done. fold (number (d :: ds)).
    unfold number in *. destruct (Z.ltb_spec (fold_left (fun i c => 10 * i + (c - 48)) (d :: ds) 0) 0); [lia|]. by apply emits_ret.
  - destruct args as [|[x|] args]; try done. simplify_eq. set (x' := s32 x) in *.
    exists (if x' <? 0 then f ||| LEFT_ADJ else f). split.
    { destruct (x' <? 0); [|done]. unfold bits_of, set_left, LEFT_ADJ. cbn [left zero plus space alt].
      rewrite !bit_add by lia. by rewrite !orb_false_r, orb_true_r. }
    split; [lia|]. change (at_ (42 :: s) 0) with 42. cbn [Z.eqb Pos.eqb].
    assert (positional (42 :: s) 1 = false) as ->.
    { destruct s as [|c s]; [done|]. unfold positional. change (at_ (42 :: c :: s) 1) with c.
      cbn [first_is] in Hs. by destruct (after_width_digit c Hs) as [-> _]. }
    cbn [l10n sc negb]. eapply emits_ebind.
    + apply (emits_ebind _ _ (x', sc (42 :: s) args')); [apply emits_va_int|by apply emits_ret].
    + cbn beta iota. change (go 1 (sc (42 :: s) args')) with (sc s args').
      pose proof (swrap_range 32 x ltac:(lia)) as Hr. fold x' in Hr. unfold in_s in Hr. change (2 ^ (32 - 1)) with (2 ^ 31) in Hr.
      unfold INT_MAX in *. destruct (Z.ltb_spec x' 0).
      * replace (s32 (- x')) with (Z.abs x') by (rewrite swrap_small by (unfold in_s; lia); lia). by apply emits_ret.
      * rewrite Z.abs_eq by lia. by apply emits_ret.
Qed.

Lemma emits_prec p s args po args' :
  prec_spec p args = Some (po, args') -> match p with PLit ds => lit_ok ds | _ => true end = true ->
  first_is letter s = true ->
  exists v, po = prec_of v /\ - 2 ^ 31 <= v < 2 ^ 31 /\
    emits (precision true (sc (prec_chars p ++ s) args)) [] (fun r => r = inr (v, 0 <=? v, sc s args')).
Proof.
  intros Hp Hok Hs. assert (first_is after_width s = true) as Hs'.
  { destruct s as [|c s]; [done|]. cbn [first_is] in *. unfold after_width. by rewrite Hs. }
  destruct s as [|c s]; [done|]. cbn [first_is] in Hs. pose proof Hs as Hc. unfold letter in Hc.
  rewrite andb_true_iff, !Z.leb_le in Hc. unfold precision.
  destruct p as [|ds|]; cbn [prec_chars prec_spec app s_ sc] in *.
  - simplify_eq. exists (-1). split; [done|]. split; [lia|]. change (at_ (c :: s) 0) with c.
    destruct (Z.eqb_spec c 46); [lia|]. cbn [andb]. by apply emits_ret.
  - simplify_eq. unfold lit_ok in Hok. apply andb_true_iff in Hok as [Hds Hn].
    apply Z.leb_le in Hn. pose proof (number_mono 0 ds ltac:(lia) Hds) as H0. fold (number ds) in H0.
    exists (number ds). unfold INT_MAX in *. split; [unfold prec_of; by destruct (Z.ltb_spec (number ds) 0); [lia|]|]. split; [lia|].
    change (at_ (46 :: ds ++ c :: s) 0) with 46. cbn [Z.eqb Pos.eqb andb].
    assert ((at_ (46 :: ds ++ c :: s) 1 =? 42) = false) as ->.
    { apply Z.eqb_neq. destruct ds as [|d ds]; [change (c <> 42); lia|]. change (d <> 42).
      cbn [forallb] in Hds. apply andb_true_iff in Hds as [Hd _]. unfold digit_ok in Hd. rewrite andb_true_iff, !Z.leb_le in Hd. lia. }
    change (drop 1 (46 :: ds ++ c :: s)) with (ds ++ c :: s). unfold getint. rewrite getint_ok by done.
    fold (number ds). destruct (Z.leb_spec 0 (number ds)); [|lia]. by apply emits_ret.
  - destruct args as [|[x|] args]; try done. simplify_eq. exists (s32 x). split; [done|].
    pose proof (swrap_range 32 x ltac:(lia)) as Hr. unfold in_s in Hr. change (2 ^ (32 - 1)) with (2 ^ 31) in Hr. split; [lia|].
    change (at_ (46 :: 42 :: c :: s) 0) with 46. change (at_ (46 :: 42 :: c :: s) 1) with 42. cbn [Z.eqb Pos.eqb andb].
    assert (positional (46 :: 42 :: c :: s) 2 = false) as ->.
    { unfold positional. change (at_ (46 :: 42 :: c :: s) 2) with c. by destruct (after_width_digit c Hs') as [-> _]. }
    cbn [l10n sc negb]. apply (emits_ebind _ _ (s32 x, sc (c :: s) args')); [|by apply emits_ret].
    apply (emits_ebind _ _ (s32 x, sc (46 :: 42 :: c :: s) args')); [apply emits_va_int|by apply emits_ret].
Qed.

Definition type_of (m : lenmod) (c : dconv) : st_ :=
  match c with
  | Cd | Ci =>
      match m with
      | MNone => INT | Mhh => CHAR | Mh => SHORT | Ml => LONG | Mll => LLONG | Mj => IMAX | Mz | Mt => PDIFF
      end
  | Cu | Co | Cx | CX =>
      match m with
      | MNone => UINT | Mhh => UCHAR | Mh => USHORT | Ml => ULONG | Mll => ULLONG | Mj => UMAX | Mz | Mt => SIZET
      end
  | Cc => CHAR | Cs => PTR | Cp => UIPTR
  end.
Lemma specifier_ok m c rest : mod_ok m c = true ->
  specifier BARE (mod_chars m ++ conv_char c :: rest) = Some (mod_state m, type_of m c, conv_char c, rest).
Proof. by destruct m, c. Qed.
Lemma conv_first m c rest : first_is letter (mod_chars m ++ conv_char c :: rest) = true.
Proof. by destruct m, c. Qed.

Lemma pop_type m c v gps : mod_ok m c = true ->
  @pop_arg W F (type_of m c) (Va (v :: gps) fps lds) = ret (ArgI (arg_val m c v), Va gps fps lds).
Proof.
  intros Hm. assert (forall w, 0 < w <= 64 -> u64 (wrap w v) = wrap w v) as Hu.
  { intros w Hw. apply wrap_small. pose proof (wrap_range w v ltac:(lia)) as H. unfold in_u in *.
    pose proof (Z.pow_le_mono_r 2 w 64 ltac:(lia) ltac:(lia)). lia. }
  destruct m, c; try done; unfold pop_arg, type_of, va_gp; cbn [gp]; cbv zeta; unfold bind, ret; cbn [fst snd arg_val mod_width];
    rewrite ?Hu by lia; done.
Qed.
Lemma emits_argument m c a s args : mod_ok m c = true ->
  emits (argument true (-1) (type_of m c) (sc s (a :: args))) [] (fun r => r = inr (ArgI (arg_val m c (slot a)), sc s args)).
Proof.
  intros Hm. unfold argument. rewrite bool_decide_eq_false_2 by (by destruct m, c). cbn [Z.leb Z.compare].
  unfold lift. apply (emits_pure _ _ (ArgI (arg_val m c (slot a)), sc s args)); [|by apply emits_ret].
  cbn [ap sc fmap list_fmap]. rewrite (pop_type m c) by done.
  apply (emits_pure _ _ (ArgI (arg_val m c (slot a)), Va (slot <$> args) fps lds)); by apply emits_ret.
Qed.

(** A conversion has no position: no character of it is a dollar sign. *)
Lemma not_positional pre c rest : Forall (fun d => d <> 36 /\ d <> 37) pre -> letter c = true -> positional (37 :: pre ++ c :: rest) 1 = false.
Proof.
  intros Hp Hc. assert (after_width c = true) as Hw by (unfold after_width; by rewrite Hc).
  destruct (after_width_digit c Hw) as (Hd & _ & H36). unfold positional. apply andb_false_iff.
  destruct pre as [|d [|e pre]]; [left; exact Hd|right; by apply Z.eqb_neq|right].
  apply Forall_cons in Hp as [_ [[He _] _]%Forall_cons]. by apply Z.eqb_neq.
Qed.
Lemma digits_not_36 ds : forallb digit_ok ds = true -> Forall (fun d => d <> 36 /\ d <> 37) ds.
Proof.
  rewrite forallb_forall, Forall_forall. intros H d Hd%list_elem_of_In%H. unfold digit_ok in Hd.
  rewrite andb_true_iff, !Z.leb_le in Hd. lia.
Qed.
Lemma flags_not_36 flags : forallb flag_char flags = true -> Forall (fun d => d <> 36 /\ d <> 37) flags.
Proof. rewrite forallb_forall, Forall_forall. intros H d Hd%list_elem_of_In%H.
  split; intros ->; by vm_compute in Hd.
Qed.
Lemma conv_not_36 flags w p m c :
  piece_ok (Conv flags w p m c) = true -> Forall (fun d => d <> 36 /\ d <> 37) (flags ++ width_chars w ++ prec_chars p ++ mod_chars m).
Proof.
  cbn [piece_ok]. rewrite !andb_true_iff. intros [[[Hf Hw] Hp] _]. rewrite !Forall_app. split_and!.
  - by apply flags_not_36.
  - destruct w as [|[|d ds]|]; cbn [width_chars]; [constructor|done| |by repeat constructor].
    unfold lit_ok in Hw. rewrite !andb_true_iff in Hw. apply digits_not_36. apply Hw.
  - destruct p as [|ds|]; cbn [prec_chars]; [constructor| |by repeat constructor].
    unfold lit_ok in Hp. rewrite !andb_true_iff in Hp. constructor; [done|]. apply digits_not_36, Hp.
  - destruct m; by repeat constructor.
Qed.

Lemma first_width p m c rest : first_is after_width (prec_chars p ++ mod_chars m ++ conv_char c :: rest) = true.
Proof. destruct p; try done. by destruct m, c. Qed.
Lemma first_flags w p m c rest :
  match w with WLit (d :: ds) => negb (d =? 48) && lit_ok (d :: ds) | WLit [] => false | _ => true end = true ->
  first_is after_flags (width_chars w ++ prec_chars p ++ mod_chars m ++ conv_char c :: rest) = true.
Proof.
  intros Hw. destruct w as [|[|d ds]|]; cbn [width_chars app]; [|done| |done].
  - pose proof (first_width p m c rest) as H. destruct (prec_chars p ++ _) as [|x l]; [done|]. cbn [first_is] in *.
    unfold after_flags. by rewrite H.
  - cbn [first_is]. unfold lit_ok in Hw. cbn [forallb] in Hw. rewrite !andb_true_iff, negb_true_iff, Z.eqb_neq in Hw.
    destruct Hw as (Hne & (Hd & _) & _). unfold digit_ok in Hd. rewrite andb_true_iff, !Z.leb_le in Hd.
    unfold after_flags. apply orb_true_iff. right. rewrite andb_true_iff, !Z.leb_le. lia.
Qed.
Lemma conv_assoc flags w p m c rest :
  unparse1 (Conv flags w p m c) ++ rest = 37 :: flags ++ width_chars w ++ prec_chars p ++ mod_chars m ++ conv_char c :: rest.
Proof. cbn [unparse1]. by rewrite <- app_comm_cons, <- !app_assoc. Qed.

Lemma emits_directive cnt flags w p m c rest a args args1 args2 o v po :
  let txt := conv_text o v po m c a in
  piece_ok (Conv flags w p m c) = true ->
  width_spec w (opts_of flags) args = Some (o, v, args1) -> prec_spec p args1 = Some (po, a :: args2) ->
  arg_for c a = true -> arg_ok R m0 a -> 0 <= cnt -> v <= INT_MAX -> len txt <= INT_MAX - cnt ->
  emits (directive fuel utf8 strerror fmt_fp true cnt (sc (unparse1 (Conv flags w p m c) ++ rest) args))
    txt (fun r => r = inr (len txt, sc rest args2)).
Proof.
  intros txt Hok Hw Hp Ha Haok Hc Hv Ht. pose proof (conv_not_36 _ _ _ _ _ Hok) as H36.
  cbn [piece_ok] in Hok. rewrite !andb_true_iff in Hok. destruct Hok as [[[Hf Hwl] Hpl] Hm].
  rewrite conv_assoc. set (s0 := flags ++ width_chars w ++ prec_chars p ++ mod_chars m ++ conv_char c :: rest).
  unfold directive, position. cbn [s_ sc].
  assert (positional (37 :: s0) 1 = false) as ->.
  { assert (s0 = (flags ++ width_chars w ++ prec_chars p ++ mod_chars m) ++ conv_char c :: rest) as ->
      by (unfold s0; by rewrite <- !app_assoc).
    apply not_positional; [done|]. by destruct c. }
  change (go 1 (sc (37 :: s0) args)) with (sc s0 args). cbn [s_ sc]. unfold s0.
  destruct (modifier_flags_ok 0 flags _ Hf (first_flags w p m c rest Hwl)) as (f & -> & Hb).
  apply bits_of_flags in Hb. rewrite <- Hb in Hw.
  destruct (emits_width f w _ args o v args1 Hw Hwl Hv (first_width p m c rest)) as (f' & Ho & Hv0 & Hew).
  destruct (emits_prec p _ args1 po (a :: args2) Hp Hpl (conv_first m c rest)) as (q & Hq & Hqr & Hep).
  eapply emits_ebind; [exact Hew|]. cbn beta iota. eapply emits_ebind; [exact Hep|]. cbn beta iota. cbn [s_ sc].
  rewrite specifier_ok by done. eapply emits_ebind; [by apply emits_argument|]. cbn beta iota. cbn [negb].
  unfold ebind. subst o po. eapply emits_bind_nil; [by apply emits_convert|].
  cbv beta. intros r ->. by apply emits_ret.
Qed.

(** *** Literal text *)
Lemma conv_head flags w p m c rest : piece_ok (Conv flags w p m c) = true ->
  exists d t, unparse1 (Conv flags w p m c) ++ rest = 37 :: d :: t /\ d <> 37.
Proof.
  intros Hok. pose proof (conv_not_36 _ _ _ _ _ Hok) as H. rewrite conv_assoc.
  replace (flags ++ width_chars w ++ prec_chars p ++ mod_chars m ++ conv_char c :: rest)
    with ((flags ++ width_chars w ++ prec_chars p ++ mod_chars m) ++ conv_char c :: rest) by (by rewrite <- !app_assoc).
  destruct (flags ++ width_chars w ++ prec_chars p ++ mod_chars m) as [|d t].
  - exists (conv_char c), rest. split; [done|]. by destruct c.
  - exists d, (t ++ conv_char c :: rest). split; [done|]. apply Forall_cons in H as [[_ H] _]. done.
Qed.
Definition is_conv (x : piece) : bool := match x with Conv _ _ _ _ _ => true | Chr _ => false end.

Lemma percents_not c s : c <> 37 -> percents (c :: s) = ([], c :: s).
Proof. intros H. destruct s as [|d s]; [done|]. cbn [percents]. by destruct (Z.eqb_spec c 37). Qed.
Lemma percents_none d s : d <> 37 -> percents (37 :: d :: s) = ([], 37 :: d :: s).
Proof. intros H. cbn [percents]. destruct (Z.eqb_spec d 37); [done|]. by rewrite andb_false_r. Qed.

Lemma percents_ok l : forallb piece_ok l = true ->
  exists pre post, l = (Chr <$> pre) ++ post /\ percents (unparse l) = (pre, unparse post).
Proof.
  induction l as [|x l IH]; intros Hok; [by exists [], []|].
  cbn [forallb] in Hok. apply andb_true_iff in Hok as [Hx Hok]. change (unparse (x :: l)) with (unparse1 x ++ unparse l).
  destruct x as [c|flags w p m c].
  - cbn [unparse1]. destruct (Z.eqb_spec c 37) as [->|Hc].
    + destruct (IH Hok) as (pre & post & -> & E). exists (37 :: pre), post. split; [done|].
      cbn [app percents Z.eqb Pos.eqb andb]. by rewrite E.
    + exists [], (Chr c :: l). split; [done|]. change (unparse (Chr c :: l)) with (unparse1 (Chr c) ++ unparse l).
      cbn [unparse1]. destruct (Z.eqb_spec c 37); [done|]. by apply percents_not.
  - exists [], (Conv flags w p m c :: l). split; [done|].
    change (unparse (Conv flags w p m c :: l)) with (unparse1 (Conv flags w p m c) ++ unparse l).
    destruct (conv_head flags w p m c (unparse l) Hx) as (d & t & -> & Hd). by apply percents_none.
Qed.
Lemma literal_ok l : forallb piece_ok l = true ->
  exists pre post, l = (Chr <$> pre) ++ post /\ literal (unparse l) = (pre, unparse post) /\
    (pre = [] -> match post with x :: _ => is_conv x | [] => true end = true).
Proof.
  induction l as [|x l IH]; intros Hok; [by exists [], []|].
  pose proof (percents_ok (x :: l) Hok) as Hper.
  cbn [forallb] in Hok. apply andb_true_iff in Hok as [Hx Hok]. destruct x as [c|flags w p m c].
  - change (unparse (Chr c :: l)) with (unparse1 (Chr c) ++ unparse l) in *. cbn [unparse1] in *.
    destruct (Z.eqb_spec c 37) as [->|Hc].
    + destruct Hper as (pre & post & E1 & E2). exists pre, post. split; [done|]. split; [exact E2|].
      intros ->. cbn [fmap list_fmap app] in E1. subst post. cbn [app percents Z.eqb Pos.eqb andb] in E2. by destruct (percents (unparse l)).
    + destruct (IH Hok) as (pre & post & -> & E & _). exists (c :: pre), post. split; [done|]. split; [|done].
      cbn [app literal]. destruct (Z.eqb_spec c 37); [done|]. by rewrite E.
  - exists [], (Conv flags w p m c :: l). split; [done|]. split; [|done].
    change (unparse (Conv flags w p m c :: l)) with (unparse1 (Conv flags w p m c) ++ unparse l).
    destruct (conv_head flags w p m c (unparse l) Hx) as (d & t & -> & Hd).
    cbn [literal Z.eqb Pos.eqb]. by apply percents_none.
Qed.

(** *** The loop *)
Lemma conv_text_width o w p m c a : w <= len (conv_text o w p m c a).
Proof. unfold conv_text, number_text. destruct c; rewrite len_justify; lia. Qed.
Lemma spec_chars pre post args t args' :
  spec ((Chr <$> pre) ++ post) args = Some (t, args') -> exists t', t = pre ++ t' /\ spec post args = Some (t', args').
Proof.
  revert t. induction pre as [|c pre IH]; intros t H; [by exists t|]. cbn [fmap list_fmap app spec] in H.
  destruct (spec ((Chr <$> pre) ++ post) args) as [[t1 a1]|] eqn:E; [|done]. cbn in H. simplify_eq.
  destruct (IH t1 eq_refl) as (t' & -> & Ht'). by exists t'.
Qed.
Lemma unparse_pos x : (1 <= length (unparse1 x))%nat.
Proof. destruct x as [c|]; cbn [unparse1]; [destruct (c =? 37)|]; cbn; lia. Qed.
Lemma length_unparse l : (length l <= length (unparse l))%nat.
Proof.
  induction l as [|x l IH]; [done|]. change (unparse (x :: l)) with (unparse1 x ++ unparse l).
  rewrite length_app. pose proof (unparse_pos x). cbn. lia.
Qed.
Lemma width_args w o args r : width_spec w o args = Some r -> Forall (arg_ok R m0) args -> Forall (arg_ok R m0) (snd r).
Proof.
  destruct w; cbn; [by intros [= <-]|by intros [= <-]|]. destruct args as [|[]]; try done. intros [= <-] H.
  by apply Forall_cons in H as [_ H].
Qed.
Lemma prec_args p args r : prec_spec p args = Some r -> Forall (arg_ok R m0) args -> Forall (arg_ok R m0) (snd r).
Proof.
  destruct p; cbn; [by intros [= <-]|by intros [= <-]|]. destruct args as [|[]]; try done. intros [= <-] H.
  by apply Forall_cons in H as [_ H].
Qed.

Lemma emits_loop n l args cnt l0 t args' :
  forallb piece_ok l = true -> Forall (arg_ok R m0) args -> spec l args = Some (t, args') -> (length l < n)%nat ->
  0 <= cnt -> 0 <= l0 -> cnt + l0 + len t <= INT_MAX ->
  emits (core_loop fuel utf8 strerror fmt_fp n true cnt l0 (sc (unparse l) args)) t
    (fun r => r = inr (cnt + l0 + len t, sc [] args')).
Proof.
  revert l args cnt l0 t. induction n as [|n IH]; intros l args cnt l0 t Hok Hargs Hs Hn Hc Hl Ht; [lia|].
  cbn [core_loop]. pose proof (len_nonneg t). unfold INT_MAX in *. destruct (Z.ltb_spec (2147483647 - cnt) l0); [lia|]. cbv zeta. cbn [s_ sc].
  destruct (unparse l) as [|c0 s0] eqn:Eu.
  { assert (l = []) as -> by (pose proof (length_unparse l) as H1; rewrite Eu in H1; destruct l; [done|cbn in H1; lia]).
    cbn in Hs. simplify_eq. change (len []) with 0. rewrite Z.add_0_r. by apply emits_ret. }
  assert (unparse l <> []) as Hne by (by rewrite Eu).
  rewrite <- Eu. destruct (literal_ok l Hok) as (pre & post & -> & E & Hpost). rewrite E. clear Eu.
  destruct (spec_chars _ _ _ _ _ Hs) as (t' & -> & Hs'). rewrite forallb_app in Hok. apply andb_true_iff in Hok as [_ Hok].
  rewrite len_app in *. pose proof (len_nonneg pre). pose proof (len_nonneg t').
  destruct (Z.ltb_spec (2147483647 - (cnt + l0)) (len pre)); [lia|].
  rewrite length_app, length_fmap in Hn. apply emits_then; [apply emits_out; lia|].
  destruct (truth (len pre)) eqn:Hpre.
  - change (with_s (unparse post) (sc _ args)) with (sc (unparse post) args).
    unfold truth in Hpre. rewrite negb_true_iff, Z.eqb_neq in Hpre. unfold len in Hpre.
    intros T k HT Hk. eapply wp_mono; [apply (IH post args (cnt + l0) (len pre) t'); try done; lia|]. cbv beta. intros r k' [-> ?]. split; [|done]. f_equal. f_equal. lia.
  - unfold truth in Hpre. rewrite negb_false_iff, Z.eqb_eq in Hpre.
    assert (pre = []) as -> by (apply length_zero_iff_nil; unfold len in Hpre; lia). specialize (Hpost eq_refl).
    change (with_s (unparse post) (sc _ args)) with (sc (unparse post) args).
    destruct post as [|[|flags w p m c] post]; [done|done|]. clear Hpost E Hne. cbn [app] in *.
    cbn [forallb] in Hok. apply andb_true_iff in Hok as [Hx Hok]. cbn [spec] in Hs'.
    destruct (width_spec w (opts_of flags) args) as [[[o v] args1]|] eqn:Ew; [|done]. cbn [mbind option_bind] in Hs'.
    destruct (prec_spec p args1) as [[po args2]|] eqn:Ep; [|done]. cbn [mbind option_bind] in Hs'.
    apply width_args in Ew as Ha1; [|done]. apply prec_args in Ep as Ha2; [|done]. cbn [snd] in Ha1, Ha2.
    destruct args2 as [|a args2]; [done|]. apply Forall_cons in Ha2 as [Ha Ha2].
    destruct (arg_for c a) eqn:Hfor; [|done]. destruct (spec post args2) as [[t2 args3]|] eqn:Es; [|done].
    cbn [mbind option_bind] in Hs'. simplify_eq. rewrite len_app in *. pose proof (conv_text_width o v po m c a).
    pose proof (len_nonneg (conv_text o v po m c a)). pose proof (len_nonneg t2). cbn in Hn.
    change (unparse (Conv flags w p m c :: post)) with (unparse1 (Conv flags w p m c) ++ unparse post).
    unfold ebind. eapply emits_bind; [eapply emits_directive; try done; unfold INT_MAX; lia|]. cbv beta. intros r ->.
    intros T k HT Hk. eapply wp_mono; [apply (IH post args2 (cnt + l0) _ t2); try done; lia|]. cbv beta.
    intros r k' [-> ?]. split; [|done]. f_equal. f_equal. change (len []) with 0. lia.
Qed.

(** *** The first pass: it changes nothing *)
Definition still {A} (m : M L A) (r : A) : Prop := forall k, m k = Some (r, k).
Lemma still_bind {A B} (m : M L A) (f : A -> M L B) a b : still m a -> still (f a) b -> still (bind m f) b.
Proof. intros Hm Hf k. unfold bind. by rewrite Hm. Qed.
Lemma still_ebind {A B} (m : E A) (g : A -> E B) a b : still m (inr a) -> still (g a) b -> still (ebind m g) b.
Proof. intros Hm Hg. unfold ebind. by eapply still_bind. Qed.

Lemma still_width f w s args :
  match w with WLit (d :: ds) => negb (d =? 48) && lit_ok (d :: ds) | WLit [] => false | _ => true end = true ->
  first_is after_width s = true ->
  exists f' v, still (field_width false f (sc (width_chars w ++ s) args)) (inr (f', v, sc s args)).
Proof.
  intros Hok Hs. unfold field_width. destruct w as [|[|d ds]|]; cbn [width_chars app s_ sc] in *.
  - exists f, 0. destruct s as [|c s]; [done|]. cbn [first_is] in Hs.
    destruct (after_width_digit c Hs) as (Hd & H42 & _). change (at_ (c :: s) 0) with c.
    destruct (Z.eqb_spec c 42); [done|]. unfold getint. cbn [getint_loop]. by rewrite Hd.
  - done.
  - apply andb_true_iff in Hok as [Hd Hok]. unfold lit_ok in Hok. apply andb_true_iff in Hok as [Hds Hn].
    apply Z.leb_le in Hn. pose proof (number_mono 0 (d :: ds) ltac:(lia) Hds) as H0.
    exists f, (number (d :: ds)). change (at_ (d :: ds ++ s) 0) with d.
    cbn [forallb] in Hds. pose proof Hds as [Hd' _]%andb_true_iff. unfold digit_ok in Hd'. rewrite andb_true_iff, !Z.leb_le in Hd'.
    destruct (Z.eqb_spec d 42); [lia|]. unfold getint.
    change (d :: ds ++ s) with ((d :: ds) ++ s). rewrite getint_ok by done.
    unfold number in *. by destruct (Z.ltb_spec (fold_left (fun i c => 10 * i + (c - 48)) (d :: ds) 0) 0); [lia|].
  - exists f, 0. change (at_ (42 :: s) 0) with 42. cbn [Z.eqb Pos.eqb].
    assert (positional (42 :: s) 1 = false) as ->.
    { destruct s as [|c s]; [done|]. unfold positional. change (at_ (42 :: c :: s) 1) with c.
      cbn [first_is] in Hs. by destruct (after_width_digit c Hs) as [-> _]. }
    done.
Qed.
Lemma still_prec p s args :
  match p with PLit ds => lit_ok ds | _ => true end = true -> first_is letter s = true ->
  exists v xp, still (precision false (sc (prec_chars p ++ s) args)) (inr (v, xp, sc s args)).
Proof.
  intros Hok Hs. destruct p as [|ds|].
  - exists (-1), false.
    unfold precision. destruct s as [|c s]; [done|]. cbn [prec_chars app s_ sc first_is] in *. change (at_ (c :: s) 0) with c.
    unfold letter in Hs. rewrite andb_true_iff, !Z.leb_le in Hs. by destruct (Z.eqb_spec c 46); [lia|].
  - exists (number ds), true. unfold precision. cbn [prec_chars app s_ sc].
    assert (first_is after_width s = true) as Hs'.
    { destruct s as [|c s]; [done|]. cbn [first_is] in *. unfold after_width. by rewrite Hs. }
    unfold lit_ok in Hok. apply andb_true_iff in Hok as [Hds Hn]. apply Z.leb_le in Hn.
    change (at_ (46 :: ds ++ s) 0) with 46. cbn [Z.eqb Pos.eqb andb].
    assert ((at_ (46 :: ds ++ s) 1 =? 42) = false) as ->.
    { apply Z.eqb_neq. destruct ds as [|d ds].
      - destruct s as [|c s]; [done|]. change (c <> 42). cbn [first_is] in Hs. unfold letter in Hs.
        rewrite andb_true_iff, !Z.leb_le in Hs. lia.
      - change (d <> 42). cbn [forallb] in Hds. apply andb_true_iff in Hds as [Hd _]. unfold digit_ok in Hd.
        rewrite andb_true_iff, !Z.leb_le in Hd. lia. }
    change (drop 1 (46 :: ds ++ s)) with (ds ++ s). unfold getint. by rewrite getint_ok by done.
  - exists 0, true. unfold precision. cbn [prec_chars app s_ sc].
    change (at_ (46 :: 42 :: s) 0) with 46. change (at_ (46 :: 42 :: s) 1) with 42. cbn [Z.eqb Pos.eqb andb].
    assert (positional (46 :: 42 :: s) 2 = false) as ->; [|done].
    destruct s as [|c s]; [done|]. unfold positional. change (at_ (46 :: 42 :: c :: s) 2) with c. cbn [first_is] in Hs.
    assert (after_width c = true) as Hw by (unfold after_width; by rewrite Hs). by destruct (after_width_digit c Hw) as [-> _].
Qed.
Lemma still_directive cnt flags w p m c rest args :
  piece_ok (Conv flags w p m c) = true ->
  still (directive fuel utf8 strerror fmt_fp false cnt (sc (unparse1 (Conv flags w p m c) ++ rest) args)) (inl (Return 0)).
Proof.
  intros Hok. pose proof (conv_not_36 _ _ _ _ _ Hok) as H36.
  cbn [piece_ok] in Hok. rewrite !andb_true_iff in Hok. destruct Hok as [[[Hf Hwl] Hpl] Hm].
  rewrite conv_assoc. set (s0 := flags ++ width_chars w ++ prec_chars p ++ mod_chars m ++ conv_char c :: rest).
  unfold directive, position. cbn [s_ sc].
  assert (positional (37 :: s0) 1 = false) as ->.
  { assert (s0 = (flags ++ width_chars w ++ prec_chars p ++ mod_chars m) ++ conv_char c :: rest) as ->
      by (unfold s0; by rewrite <- !app_assoc).
    apply not_positional; [done|]. by destruct c. }
  change (go 1 (sc (37 :: s0) args)) with (sc s0 args). cbn [s_ sc]. unfold s0.
  destruct (modifier_flags_ok 0 flags _ Hf (first_flags w p m c rest Hwl)) as (f & -> & _).
  destruct (still_width f w _ args Hwl (first_width p m c rest)) as (f' & v & Hw).
  destruct (still_prec p _ args Hpl (conv_first m c rest)) as (q & xp & Hp).
  eapply still_ebind; [exact Hw|]. cbn beta iota. eapply still_ebind; [exact Hp|]. cbn beta iota. cbn [s_ sc].
  rewrite specifier_ok by done. unfold ebind. apply (still_bind _ _ (inl (Return 0))); [|done].
  unfold argument. rewrite bool_decide_eq_false_2 by (by destruct m, c). done.
Qed.

Lemma still_loop n l args0 args cnt l0 t args' :
  forallb piece_ok l = true -> spec l args0 = Some (t, args') -> (length l < n)%nat ->
  0 <= cnt -> 0 <= l0 -> cnt + l0 + len t <= INT_MAX ->
  exists r, still (core_loop fuel utf8 strerror fmt_fp n false cnt l0 (sc (unparse l) args)) r /\
    (r = inl (Return 0) \/ exists c, r = inr (c, sc [] args)).
Proof.
  revert l cnt l0 t. induction n as [|n IH]; intros l cnt l0 t Hok Hs Hn Hc Hl Ht; [lia|].
  cbn [core_loop]. pose proof (len_nonneg t). unfold INT_MAX in *. destruct (Z.ltb_spec (2147483647 - cnt) l0); [lia|]. cbv zeta. cbn [s_ sc].
  destruct (unparse l) as [|c0 s0] eqn:Eu; [eexists; split; [done|by eauto]|].
  assert (unparse l <> []) as Hne by (by rewrite Eu).
  rewrite <- Eu. destruct (literal_ok l Hok) as (pre & post & -> & E & Hpost). rewrite E. clear Eu.
  destruct (spec_chars _ _ _ _ _ Hs) as (t' & -> & Hs'). rewrite forallb_app in Hok. apply andb_true_iff in Hok as [_ Hok].
  rewrite len_app in *. pose proof (len_nonneg pre). pose proof (len_nonneg t').
  destruct (Z.ltb_spec (2147483647 - (cnt + l0)) (len pre)); [lia|].
  rewrite length_app, length_fmap in Hn.
  change (with_s (unparse post) (sc _ args)) with (sc (unparse post) args).
  destruct (truth (len pre)) eqn:Hpre.
  - unfold truth in Hpre. rewrite negb_true_iff, Z.eqb_neq in Hpre. unfold len in Hpre.
    destruct (IH post (cnt + l0) (len pre) t') as (r & Hr & Hcase); [done|done|lia|lia|done|lia|].
    exists r. split; [|done]. by apply (still_bind _ _ tt).
  - unfold truth in Hpre. rewrite negb_false_iff, Z.eqb_eq in Hpre.
    assert (pre = []) as -> by (apply length_zero_iff_nil; unfold len in Hpre; lia). specialize (Hpost eq_refl).
    destruct post as [|[|flags w p m c] post]; [done|done|]. exists (inl (Return 0)). split; [|by left].
    cbn [forallb] in Hok. apply andb_true_iff in Hok as [Hx Hok].
    apply (still_bind _ _ tt); [done|]. unfold ebind. apply (still_bind _ _ (inl (Return 0))); [|done]. by apply still_directive.
Qed.

(** *** Both passes *)
Lemma emits_core l args t args' :
  forallb piece_ok l = true -> Forall (arg_ok R m0) args -> spec l args = Some (t, args') -> len t <= INT_MAX ->
  emits (printf_core fuel utf8 strerror fmt_fp true (sc (unparse l) args)) t (fun r => fst r = len t).
Proof.
  intros Hok Hargs Hs Ht. unfold printf_core.
  apply (emits_bind_nil _ _ _ (fun r => r = inr (len t, sc [] args'))).
  - unfold ebind. eapply emits_bind_nil.
    + apply (emits_loop _ l args 0 0 t args'); try done. cbn [s_ sc]. pose proof (length_unparse l). lia.
    + cbv beta. intros r ->. cbn [finish]. by apply emits_ret.
  - cbv beta. intros r ->. by apply emits_ret.
Qed.
Lemma still_core l args t args' :
  forallb piece_ok l = true -> spec l args = Some (t, args') -> len t <= INT_MAX ->
  exists y, still (printf_core fuel utf8 strerror fmt_fp false (sc (unparse l) args)) (0, y) /\
    second_pass (unparse l) y = sc (unparse l) args.
Proof.
  intros Hok Hs Ht. pose proof (length_unparse l) as Hlen.
  destruct (still_loop (S (S (length (unparse l)))) l args args 0 0 t args') as (r & Hr & Hcase); [done|done|lia|done|done|done|].
  destruct Hcase as [->|[c ->]].
  - exists (sc (unparse l) args). split; [|done]. unfold printf_core.
    apply (still_bind _ _ (inl (Return 0))); [|done]. unfold ebind. by apply (still_bind _ _ (inl (Return 0))).
  - exists (sc [] args). split; [|done]. unfold printf_core.
    apply (still_bind _ _ (inr (0, sc [] args))); [|done]. unfold ebind. by apply (still_bind _ _ (inr (c, sc [] args))).
Qed.
End Emits.
End PrintfProps.
