(* ===== verification/PrintfText.v ===== *)
(** [printf] on the stream [stdout], and [vsnprintf] into a string. *)
From S2P Require Import Prelude KMonad KString KStringProps LibcString Stdio StdioProps Printf PrintfProps.
#[global] Open Scope Z_scope.

Module PrintfText.
Import Stdio StdioProps Printf PrintfProps.

Lemma err_land {W} (k : libc W) : err k = false -> flags (file k) &&& F_ERR = 0.
Proof. unfold err, truth. by intros H%negb_false_iff%Z.eqb_eq. Qed.
Lemma clear_err x : x &&& F_ERR = 0 -> x &&& Z.lnot F_ERR = x.
Proof.
  intros H. apply Z.bits_inj'. intros i Hi. rewrite Z.land_spec, Z.lnot_spec by lia.
  assert (Z.testbit (x &&& F_ERR) i = false) as Hb by (by rewrite H, Z.bits_0). rewrite Z.land_spec in Hb.
  by destruct (Z.testbit x i), (Z.testbit F_ERR i).
Qed.

(** The state of a call: a format and its arguments, as queues. *)
Definition call {F} (args : list varg) : @va_list F := Va (slot <$> args) [] [].

Section Text.
Context {W : Type} `{!Sys W} {F : Type}.
Notation L := (libc W).
Variables (fuel : nat) (utf8 : bool) (strerror : Z -> list Z) (fmt_fp : F -> Z -> Z -> Z -> Z -> M L Z).
Notation vfprintf := (vfprintf fuel utf8 strerror fmt_fp).
Notation print_out := (print_out fuel utf8 strerror fmt_fp).

Lemma vfprintf_first l args t args' k Q :
  forallb piece_ok l = true -> spec l args = Some (t, args') -> len t <= INT_MAX ->
  (forall x, second_pass (unparse l) x = start (unparse l) (call args) -> wp (print_out (unparse l) x) k Q) ->
  wp (vfprintf (unparse l) (call args)) k Q.
Proof.
  intros Hok Hs Ht HQ. unfold Printf.vfprintf.
  destruct (still_core fuel utf8 strerror fmt_fp [] [] (repeat (ArgI 0) 10) (repeat None 10) l args t args' Hok Hs Ht)
    as (y & Hy & Hy2).
  change (start (unparse l) (call args)) with (sc (F := F) [] [] (repeat (ArgI 0) 10) (repeat None 10) (unparse l) args).
  wp1. unfold wp at 1. rewrite (Hy k). cbn [fst snd Z.ltb Z.compare]. by apply HQ.
Qed.

(** ** [stdout] *)
Section Stdout.
Context `{!SysOk W}.

Lemma print_out_stdout f0 base T l args t args' (k : L) x :
  stdout_live f0 base T k -> 0 < buf_size f0 -> LibcString.byte_mem (lmem k) ->
  forallb piece_ok l = true -> Forall (arg_ok (fun _ => True) (lmem k)) args -> spec l args = Some (t, args') -> len t <= INT_MAX ->
  second_pass (unparse l) x = start (unparse l) (call args) ->
  wp (print_out (unparse l) x) k (fun r k' =>
    (r = len t /\ stdout_live f0 base (T ++ t) k' \/ r = -1 /\ failed k') /\ untouched (fun _ => True) (lmem k) (lmem k')).
Proof.
  intros (HT & He & Hbs & Hl) Hb Hm Hok Hargs Hs Ht Hx. pose proof (err_land k He) as Hz. unfold Printf.print_out. do 2 wp1.
  unfold err_bit. rewrite Hz. do 2 wpl.
  set (k1 := Libc _ (lmem k) (errno k) (world k)).
  assert (k1 = k) as ->.
  { unfold k1. destruct k as [f m e w]. cbn [file lmem errno world] in *. f_equal. rewrite clear_err by done.
    destruct f. cbn. by destruct (_ <? 1). }
  do 2 wp1. destruct (Z.eqb_spec (buf_size (file k)) 0); [lia|]. unfold when. do 2 wp1. do 2 wp1.
  apply wp_bind. eapply wp_mono; [by apply towrite_taken|]. cbv beta.
  intros e k2 (-> & Hm2 & HT2 & Hw2 & He2 & Hb2 & Hl2). change (truth 0) with false. cbn [negb].
  apply wp_bind. apply wp_bind. rewrite Hx.
  assert (agrees (fun _ => True) (lmem k) k2) as Hag by (split; rewrite Hm2; done).
  assert (good (stdout_live f0 base) failed T k2) as Hgood.
  { left. split_and!; [done|congruence..|]. by rewrite Hl2. }
  eapply wp_mono; [apply (emits_core fuel (stdout_live f0 base) failed (fun _ => True) (lmem k)
    utf8 strerror fmt_fp [] [] (repeat (ArgI 0) 10) (repeat None 10) l args t args' Hok Hargs Hs Ht T k2 Hgood Hag)|].
  cbv beta. intros r k3 (Hr & Hg3 & Hag3 & Hbm3). wp1. rewrite Hr. do 2 wp1. do 2 wp1. do 3 wpl.
  cbn [lmem]. split; [|by split; auto]. unfold err_bit. fold (err k3).
  set (k4 := Libc _ (lmem k3) (errno k3) (world k3)).
  assert (k4 = k3) as ->.
  { unfold k4. destruct k3 as [f m e w]. cbn [file lmem errno world]. f_equal. rewrite Z.lor_0_r. by destruct f. }
  destruct Hg3 as [Hlive|Hf]; [left|right].
  - pose proof Hlive as (_ & He3 & _). by rewrite He3.
  - pose proof Hf as [_ He3]. by rewrite He3.
Qed.

Lemma printf_live f0 base T l args t args' (k : L) :
  stdout_live f0 base T k -> 0 < buf_size f0 -> LibcString.byte_mem (lmem k) ->
  forallb piece_ok l = true -> Forall (arg_ok (fun _ => True) (lmem k)) args -> spec l args = Some (t, args') -> len t <= INT_MAX ->
  wp (printf fuel utf8 strerror fmt_fp (unparse l) (call args)) k (fun r k' =>
    (r = len t /\ stdout_live f0 base (T ++ t) k' \/ r = -1 /\ failed k') /\ untouched (fun _ => True) (lmem k) (lmem k')).
Proof. intros. unfold printf. eapply vfprintf_first; [done..|]. intros x Hx. by eapply print_out_stdout. Qed.

(** C29: [printf].  On a stream without errors, [printf] with a correct format and matching
    arguments returns, and either it returns the length of the text that the standard gives for
    them, and what the stream has delivered to the system and what it keeps in its buffer is what
    it was followed by exactly this text; or it returns -1, which it does only if a write failed,
    and the stream's error flag is set.  The memory is as before. *)
Theorem printf_prints base T l args t args' (k : L) :
  stdout_taken base T k -> err k = false -> 0 < buf_size (file k) -> LibcString.byte_mem (lmem k) ->
  forallb piece_ok l = true -> Forall (arg_ok (fun _ => True) (lmem k)) args -> spec l args = Some (t, args') -> len t <= INT_MAX ->
  wp (printf fuel utf8 strerror fmt_fp (unparse l) (call args)) k (fun r k' =>
    (r = len t /\ stdout_taken base (T ++ t) k' \/ r = -1 /\ can_fail /\ err k' = true) /\
    forall a, KString.rd (lmem k') a = KString.rd (lmem k) a).
Proof.
  intros HT He Hb Hm Hok Hargs Hs Ht. eapply wp_mono.
  - apply (printf_live (file k) base T l args t args' k); try done. split_and!; try done. by left.
  - cbv beta. intros r k' [Hc [Hu _]]. split; [|auto]. destruct Hc as [[-> [? _]]|?]; [by left|by right].
Qed.
End Stdout.

(** ** The string of [snprintf] *)
Section String.
Variables (s0 : Z) (n0 : nat).
Hypothesis H0 : 0 <= s0 /\ s0 + Z.of_nat n0 < 2 ^ 64.
Notation outside := (sn_outside s0 n0).

Lemma vfprintf_string l args t args' (k : L) :
  file k = sn_FILE s0 (Z.of_nat n0) -> holds (lmem k) s0 [0] -> LibcString.byte_mem (lmem k) ->
  forallb piece_ok l = true -> Forall (arg_ok outside (lmem k)) args -> spec l args = Some (t, args') -> len t <= INT_MAX ->
  wp (vfprintf (unparse l) (call args)) k (fun r k' =>
    r = len t /\ holds (lmem k') s0 (take n0 t ++ [0]) /\ untouched outside (lmem k) (lmem k') /\ world k' = world k).
Proof.
  intros Hf Hmem Hm Hok Hargs Hs Ht. eapply vfprintf_first; [done..|]. intros x Hx.
  destruct k as [f m e w]. cbn [file lmem world] in *. subst f. unfold Printf.print_out. do 2 wp1.
  change (err_bit _) with 0 at 1. do 2 wpl. cbn [file lmem errno world].
  change (if mode _ <? 1 then _ else _) with (sn_FILE s0 (Z.of_nat n0)).
  do 2 wp1. change (buf_size _ =? 0) with true at 1. unfold when at 1. do 2 wpl. cbn [file lmem errno world].
  do 2 wp1. cbn [file]. apply wp_bind.
  change (negb (wready _)) with true. cbn iota. unfold towrite. do 2 wpl. cbn [file lmem errno world]. do 2 wp1. cbn [file].
  change (truth (flags _ &&& F_NOWR)) with false. cbn iota. do 3 wpl. cbn [file lmem errno world].
  change (truth 0) with false. cbn iota. apply wp_bind. apply wp_bind. rewrite Hx.
  set (k1 := Libc _ m e w).
  assert (sn_ok s0 n0 w [] k1) as Hok1.
  { split; try done; cbn [file lmem pending k1]; rewrite take_nil; change (len []) with 0; [|done].
    cbn. rewrite Z.add_0_r, Z.sub_0_r. done. }
  assert (good (sn_taken s0 n0 w) (fun _ => False) [] k1) as Hgood by (left; by exists []).
  assert (agrees outside m k1) as Hag by done. pose proof (sn_sink fuel s0 n0 w H0) as Hsink.
  eapply wp_mono; [apply (emits_core fuel (sn_taken s0 n0 w) (fun _ => False) outside m
    utf8 strerror fmt_fp [] [] (repeat (ArgI 0) 10) (repeat None 10) l args t args' Hok Hargs Hs Ht [] k1 Hgood Hag)|].
  cbv beta. intros r k3 (Hr & Hg3 & Hag3). wp1. rewrite Hr. destruct Hg3 as [(l3 & E3 & Hok3)|[]]. cbn [app] in E3.
  apply wp_bind. apply wp_bind. unfold fwrite_fn. do 2 wp1.
  pose proof (sn_write_ok s0 n0 w H0 l3 [] k3 Hok3) as Hw. destruct (write_ (file k3)); [done..|].
  eapply wp_mono; [exact Hw|]. cbv beta. intros r4 k4 (_ & Hok4 & Hp4 & Hu4). rewrite app_nil_r, <- E3 in Hok4.
  do 2 wp1. do 2 wpl. wp1. rewrite (sn_ready _ _ _ _ _ Hok4). do 2 wp1. cbn [file].
  do 3 wpl. unfold err_bit. cbn [lmem world file]. change (flags (set_buf 0 (set_wbuf false [] (file k4)))) with (flags (file k4)).
  rewrite (sn_flags _ _ _ _ _ Hok4). split; [done|]. split; [by apply (sn_mem _ _ _ _ _ Hok4)|].
  split; [|by apply (sn_world _ _ _ _ _ Hok4)].
  destruct Hag3 as [Ha3 Hb3], Hu4 as [Ha4 Hb4]. split; [intros a Ha; by rewrite Ha4, Ha3|auto].
Qed.
End String.

Lemma arg_ok_frame (R : Z -> Prop) m m' a : (forall b, R b -> KString.rd m' b = KString.rd m b) -> arg_ok R m a -> arg_ok R m' a.
Proof.
  intros Hm. destruct a as [v|a l]; [done|]. intros (H0 & (H1 & H2 & H3) & HR). split; [done|]. split; [|done].
  split; [|split; [rewrite Hm; [done|apply HR; unfold len; lia]|done]].
  intros i c Hi. pose proof (lookup_lt_Some _ _ _ Hi). rewrite Hm; [by apply H1|]. apply HR. unfold len. lia.
Qed.

Lemma vsnprintf_ok dummy s n l args t args' (k : L) :
  let s0 := if truth n then s else dummy in
  let n0 := Z.to_nat (n - 1) in
  0 <= n <= INT_MAX -> 0 <= s0 -> s0 + Z.of_nat n0 < 2 ^ 64 -> LibcString.byte_mem (lmem k) ->
  forallb piece_ok l = true -> Forall (arg_ok (sn_outside s0 n0) (lmem k)) args -> spec l args = Some (t, args') -> len t <= INT_MAX ->
  wp (vsnprintf fuel utf8 strerror fmt_fp dummy s n (unparse l) (call args)) k (fun r k' =>
    r = len t /\ holds (lmem k') s0 (take n0 t ++ [0]) /\
    untouched (sn_outside s0 n0) (lmem k) (lmem k') /\ file k' = file k /\ world k' = world k).
Proof.
  intros s0 n0 Hn Hs0 Hs1 Hm Hok Hargs Hs Ht. unfold vsnprintf. fold s0.
  assert ((if truth n then n - 1 else 0) = Z.of_nat n0) as ->.
  { unfold n0, truth. destruct (Z.eqb_spec n 0) as [->|]; [done|]. cbn [negb]. lia. }
  destruct (Z.ltb_spec INT_MAX n); [lia|]. do 2 wpl. unfold on_file. do 2 wp1. do 2 wpl. cbn [file lmem errno world].
  assert (forall a, sn_outside s0 n0 a -> KString.rd (KString.wr s0 0 (lmem k)) a = KString.rd (lmem k) a) as Hout.
  { intros a Ha. unfold sn_outside in Ha. apply KStringProps.rd_write_ne. lia. }
  apply wp_bind. eapply wp_mono; [apply (vfprintf_string s0 n0 (conj Hs0 Hs1) l args t args'); try done; cbn [lmem]|].
  - intros [|i] c Hc; [|done]. cbn in Hc. simplify_eq. rewrite Z.add_0_r. apply KStringProps.rd_write_eq.
  - by apply byte_mem_wr.
  - eapply Forall_impl; [exact Hargs|]. intros a. by apply arg_ok_frame.
  - cbv beta. intros r k' (-> & Hh & [Hu Hb] & Hw). do 3 wpl. split_and!; try done. cbn [lmem] in *.
    split; [intros a Ha; by rewrite Hu, Hout|]. auto using byte_mem_wr.
Qed.

(** C30: [vsnprintf], and [snprintf] with it.  Given room for [n] bytes at [s], a correct format
    and matching arguments, [vsnprintf] returns the length of the whole text that the standard
    gives for them; the memory at [s] then holds as much of the text as fits before a terminating
    null byte (for [n] = 0 nothing is stored at [s]), and no other memory, no stream and nothing
    outside the process has changed. *)
Theorem vsnprintf_fills dummy s n l args t args' (k : L) :
  let s0 := if truth n then s else dummy in
  let n0 := Z.to_nat (n - 1) in
  0 <= n <= INT_MAX -> 0 <= s0 -> s0 + Z.of_nat n0 < 2 ^ 64 -> LibcString.byte_mem (lmem k) ->
  forallb piece_ok l = true -> Forall (arg_ok (sn_outside s0 n0) (lmem k)) args -> spec l args = Some (t, args') -> len t <= INT_MAX ->
  wp (vsnprintf fuel utf8 strerror fmt_fp dummy s n (unparse l) (call args)) k (fun r k' =>
    r = len t /\ holds (lmem k') s0 (take n0 t ++ [0]) /\
    (forall a, sn_outside s0 n0 a -> KString.rd (lmem k') a = KString.rd (lmem k) a) /\ file k' = file k /\ world k' = world k).
Proof.
  intros s0 n0 Hn Hs0 Hs1 Hm Hok Hargs Hs Ht.
  eapply wp_mono; [by apply (vsnprintf_ok dummy s n l args t args' k Hn Hs0 Hs1)|]. cbv beta.
  intros r k' (? & ? & [? _] & ? & ?). done.
Qed.
End Text.

(** ** A terminal that takes everything *)
Import Printf.Demo.
#[export] Instance tty_ok : SysOk (list Z).
Proof.
  refine {| delivered := fun w => w; can_fail := False; StdioProps.tty := True |}; [|done|done]. intros fd iov w _. cbn. left. unfold len. split; [lia|].
  split; [lia|]. by rewrite Nat2Z.id, take_ge.
Defined.
Definition demo_call : list piece :=
  (Chr <$> chars "Got: ") ++ [Conv [45] (WLit [53]) PNone MNone Cd] ++ (Chr <$> chars " from %") ++
  [Conv [] WNone (PLit [51]) MNone Cs; Conv [35] WNone PNone Ml Cx; Chr 10].
Definition demo_mem : KString.mem := KString.wr 3000 97 (KString.wr 3001 98 (KString.wr 3002 99 (KString.wr 3003 100 ∅))).
Definition demo_args : list varg := [Num (-38); Str 3000 (chars "abcd"); Num 255].
Definition demo_text : list Z := chars "Got: -38   from %abc0xff" ++ [10].
Example demo_unparse : unparse demo_call = chars "Got: %-5d from %%%.3s%#lx" ++ [10].
Proof. reflexivity. Qed.
Lemma demo_mem_ok : LibcString.byte_mem demo_mem.
Proof. repeat apply byte_mem_wr. intros a. unfold KString.rd. rewrite lookup_empty. cbn. lia. Qed.
Lemma demo_args_ok (R : Z -> Prop) : (forall b, 3000 <= b <= 3004 -> R b) -> Forall (arg_ok R demo_mem) demo_args.
Proof.
  intros HR. repeat constructor; try done. by intros [|[|[|[|]]]] c [= <-].
Qed.
Notation demo_printf := (printf 5 false (fun _ => []) (fun (_ : Empty_set) _ _ _ _ => fault)).
Notation demo_vsnprintf := (vsnprintf 5 false (fun _ => []) (fun (_ : Empty_set) _ _ _ _ => fault)).
Definition demo_k : libc (list Z) := Libc stdout_FILE demo_mem 0 [].

Lemma printf_prints_witness :
  wp (demo_printf (unparse demo_call) (call demo_args)) demo_k (fun r k' =>
    r = len demo_text /\ stdout_taken [] demo_text k' /\ forall a, KString.rd (lmem k') a = KString.rd demo_mem a).
Proof.
  eapply wp_mono.
  - apply (printf_prints 5 false (fun _ => []) (fun (_ : Empty_set) _ _ _ _ => fault) [] [] demo_call demo_args demo_text [] demo_k);
      [|reflexivity|reflexivity|apply demo_mem_ok|reflexivity|by apply demo_args_ok|reflexivity|by vm_compute].
    split; [reflexivity|]. split; try done; [intros _; apply not_elem_of_nil|by left].
  - cbv beta. intros r k' [[[-> ?]|(_ & [] & _)] ?]. done.
Defined.
(** Ten bytes of room: nine of the text, and the null byte. *)
Lemma vsnprintf_fills_witness :
  wp (demo_vsnprintf 2000 1000 10 (unparse demo_call) (call demo_args)) demo_k (fun r k' =>
    r = len demo_text /\ holds (lmem k') 1000 (chars "Got: -38 " ++ [0]) /\
    (forall a, sn_outside 1000 9 a -> KString.rd (lmem k') a = KString.rd demo_mem a) /\ file k' = stdout_FILE /\ world k' = []).
Proof.
  apply (vsnprintf_fills 5 false (fun _ => []) (fun (_ : Empty_set) _ _ _ _ => fault) 2000 1000 10 demo_call demo_args demo_text [] demo_k);
    [unfold INT_MAX; lia|cbn; lia|cbn; lia|apply demo_mem_ok|reflexivity| |reflexivity|by vm_compute].
  apply demo_args_ok. intros b Hb. right. cbn. lia.
Defined.
End PrintfText.
