(* ===== verification/OsMain.v ===== *)
(** The user program's entry (os/src/Main.c, [os_main]) on top of the C library: what reaches
    the kernel before the endless loop of [dvd_bounce] starts.

    Strings of the program are at the addresses [lit_printf] and [lit_writev], its local buffer
    is at [buf].  [OsSys] adds the two other system calls it makes to those of the streams. *)
From S2P Require Import Prelude KMonad KString KStringProps LibcString Stdio StdioProps Printf PrintfProps PrintfText.
#[global] Open Scope Z_scope.

Module OsMain.
Import Stdio StdioProps Printf PrintfProps PrintfText.

Class OsSys (W : Type) := {
  os_sys :: Sys W;
  sys_write : Z -> list Z -> W -> Z * W;
  sys_other : Z -> list Z -> W -> Z * W
}.

Definition sending : list Z := chars "Sending a syscall without a handler..." ++ [10; 10].
Definition got : list Z := chars "Got: %d from syscall 9" ++ [10; 10].
Definition fun_fact : list Z := chars "Fun fact: musl's [%s] uses [%s]" ++ [10].

Section Main.
Context {W : Type} `{!OsSys W} {F : Type}.
Notation L := (libc W).
Variables (fuel : nat) (utf8 : bool) (strerror : Z -> list Z) (fmt_fp : F -> Z -> Z -> Z -> Z -> M L Z).
Variables (buf dummy lit_printf lit_writev : Z).

(** A system call with the library's treatment of its result. *)
Definition call_kernel (g : W -> Z * W) : M L Z := fun k =>
  let '(r, w) := g (world k) in syscall_ret r (Libc (file k) (lmem k) (errno k) w).
Definition syscall (n : Z) (args : list Z) : M L Z := call_kernel (sys_other n args).
Definition write (fd a count : Z) : M L Z :=
  let! m := gets lmem in call_kernel (sys_write fd (read_bytes (Z.to_nat count) m a)).

(** [char buf[100] = {0}], and the call of [snprintf]. *)
Definition fill_buf (r : Z) : M L Z :=
  upd_mem (copy_out (repeat 0 100) buf) ;;;
  snprintf fuel utf8 strerror fmt_fp dummy buf 100 got (Va [r] [] []).

Definition os_main : M L unit :=
  printf fuel utf8 strerror fmt_fp sending (Va [] [] []) ;;;
  let! r := syscall 123 [10; 11; 12; 13; 14; 15] in
  fill_buf (s32 r) ;;;
  let! m := gets lmem in
  match LibcString.strlen fuel m buf with
  | None => fault
  | Some n =>
      write 1 buf n ;;;
      printf fuel utf8 strerror fmt_fp fun_fact (Va [lit_printf; lit_writev] [] []) ;;;
      ret tt
  end.

(** What the program asks of the system: terminals, writes that go through, and a refusal of
    what has no handler. *)
Class OsOk := {
  os_ok :: SysOk W;
  os_tty : tty;
  os_sure : ~ can_fail;
  write_delivers : forall l w, len l < 2 ^ 31 ->
    exists w', sys_write 1 l w = (len l, w') /\ delivered w' = delivered w ++ l;
  other_refused : forall l w, exists w', sys_other 123 l w = (-1, w') /\ delivered w' = delivered w
}.

Definition got_text : list Z := chars "Got: -1 from syscall 9" ++ [10; 10].
Definition fun_text : list Z := chars "Fun fact: musl's [printf] uses [the 'writev' syscall]" ++ [10].

Definition sending_pieces : list piece := Chr <$> sending.
Definition got_pieces : list piece := (Chr <$> chars "Got: ") ++ [Conv [] WNone PNone MNone Cd] ++ (Chr <$> chars " from syscall 9" ++ [10; 10]).
Definition fun_pieces : list piece :=
  (Chr <$> chars "Fun fact: musl's [") ++ [Conv [] WNone PNone MNone Cs] ++ (Chr <$> chars "] uses [") ++
  [Conv [] WNone PNone MNone Cs] ++ (Chr <$> chars "]" ++ [10]).

Context `{!OsOk}.

(** Between two calls: nothing is pending. *)
Definition idle (k : L) : Prop :=
  stdout_ok (file k) /\ err k = false /\ buf_size (file k) = BUFSIZ /\ lbf (file k) = 10 /\ pending (file k) = [] /\
  LibcString.byte_mem (lmem k).
Lemma idle_live (k : L) : idle k -> stdout_live stdout_FILE (delivered (world k)) [] k.
Proof. intros (Hok & He & Hb & Hl & Hp & _). split_and!; [|done|done|by left]. split; [|done]. by rewrite Hp. Qed.
Lemma idle_with (k : L) m e w : idle k -> LibcString.byte_mem m -> idle (Libc (file k) m e w).
Proof. intros (? & ? & ? & ? & ? & _) ?. done. Qed.

(** A call of [printf] whose text ends a line. *)
Lemma say l args t args' (k : L) :
  idle k -> forallb piece_ok l = true -> Forall (arg_ok (fun _ => True) (lmem k)) args ->
  spec l args = Some (t ++ [10], args') -> len (t ++ [10]) <= INT_MAX ->
  wp (printf fuel utf8 strerror fmt_fp (unparse l) (call args)) k (fun _ k' =>
    idle k' /\ delivered (world k') = delivered (world k) ++ t ++ [10] /\
    forall a, KString.rd (lmem k') a = KString.rd (lmem k) a).
Proof.
  intros Hi Hok Ha Hs Ht. pose proof (idle_live k Hi) as Hl. pose proof Hi as (_ & _ & _ & _ & _ & Hm).
  eapply wp_mono; [by apply (printf_live fuel utf8 strerror fmt_fp stdout_FILE _ [] l args (t ++ [10]) args' k Hl)|]. cbv beta.
  intros r k' [Hc [Hu Hb]]. destruct Hc as [[_ Hlive]|[_ [Hf _]]]; [|by destruct (os_sure Hf)]. cbn [app] in Hlive.
  destruct (stdout_line stdout_FILE _ t k' os_tty ltac:(done) Hlive) as [Hp Hd].
  destruct Hlive as ((_ & Hok') & He' & Hb' & Hl'). destruct Hl' as [Hl'|[_ Hn]]; [|by destruct (Hn os_tty)].
  split; [|by auto]. split_and!; auto.
Qed.

Lemma wp_syscall (k : L) l :
  idle k -> wp (syscall 123 l) k (fun r k' => r = -1 /\ idle k' /\ delivered (world k') = delivered (world k) /\ lmem k' = lmem k).
Proof.
  intros Hi. unfold syscall, call_kernel, wp. destruct (other_refused l (world k)) as (w' & -> & Hd).
  rewrite syscall_ret_err by lia. cbn. split; [done|]. split; [|done]. apply idle_with; [done|apply Hi].
Qed.
Lemma wp_write (k : L) a n : idle k -> 0 <= n < 2 ^ 31 ->
  wp (write 1 a n) k (fun r k' => idle k' /\ lmem k' = lmem k /\
    delivered (world k') = delivered (world k) ++ read_bytes (Z.to_nat n) (lmem k) a).
Proof.
  intros Hi Hn. unfold write. do 2 wp1. unfold wp, call_kernel. set (l := read_bytes _ _ _).
  assert (len l = n) as El.
  { unfold l, len. generalize a. intros b. enough (forall j b, length (read_bytes j (lmem k) b) = j) as -> by lia.
    induction j as [|j IH]; intros c; cbn; [done|]. by rewrite IH. }
  destruct (write_delivers l (world k) ltac:(lia)) as (w' & -> & Hd). rewrite syscall_ret_ok by lia. cbn.
  split; [|done]. apply idle_with; [done|apply Hi].
Qed.

Hypothesis Hbuf : 0 < buf /\ buf + 100 < 2 ^ 64.
Notation outside := (sn_outside buf 99).

(** The formatted number in the buffer. *)
Lemma got_buffer (k : L) :
  idle k ->
  wp (fill_buf (s32 (-1))) k (fun _ k' =>
    idle k' /\ world k' = world k /\ KStringProps.cstr (lmem k') buf got_text /\
    forall a, outside a -> KString.rd (lmem k') a = KString.rd (lmem k) a).
Proof.
  intros Hi. pose proof Hi as (_ & _ & _ & _ & _ & Hm). unfold fill_buf. do 2 wpl. unfold snprintf.
  change got with (unparse got_pieces). change (Va [s32 (-1)] [] []) with (call (F := F) [Num (-1)]).
  eapply wp_mono; [apply (vsnprintf_ok fuel utf8 strerror fmt_fp dummy buf 100 got_pieces [Num (-1)] got_text [])|].
  - unfold INT_MAX. lia.
  - change (if truth 100 then buf else dummy) with buf. lia.
  - change (if truth 100 then buf else dummy) with buf. change (Z.of_nat (Z.to_nat (100 - 1))) with 99. lia.
  - cbn [lmem]. by apply byte_mem_copy_out.
  - reflexivity.
  - by repeat constructor.
  - reflexivity.
  - by vm_compute.
  - cbv beta. change (if truth 100 then buf else dummy) with buf. change (Z.to_nat (100 - 1)) with 99%nat.
    change (take 99 got_text) with got_text. cbn [file world lmem].
    intros r k' (_ & Hh & [Hu Hb] & Hf & Hw). split; [|split; [done|split]].
    + destruct k' as [f m e w]. cbn [file lmem world] in *. subst f. apply idle_with; [done|]. by apply Hb, byte_mem_copy_out.
    + assert (Forall KStringProps.byte_ok got_text) as Hg.
      { apply (bool_decide_unpack (Forall (fun c => 0 < c < 256) got_text)). by vm_compute. }
      split_and!; [| |done|lia|change (length got_text) with 24%nat; lia].
      * intros i c Hc. rewrite (Hh i c); [|by apply lookup_app_l_Some]. rewrite Forall_lookup in Hg.
        specialize (Hg i c Hc). unfold KStringProps.byte_ok in Hg. apply wrap_small. unfold in_u. lia.
      * by rewrite (Hh (length got_text) 0).
    + intros a Ha. rewrite Hu by done. apply copy_out_other; [lia|change (len (repeat 0 100)) with 100; lia|].
      unfold sn_outside in Ha. change (len (repeat 0 100)) with 100. lia.
Qed.

End Main.

(** ** A kernel that keeps what it is given *)
#[export] Instance log_sys : OsSys (list Z) := {|
  os_sys := Demo.tty;
  sys_write := fun _ l w => (len l, w ++ l);
  sys_other := fun _ _ w => (-1, w)
|}.
#[export] Instance log_ok : OsOk (W := list Z).
Proof.
  refine {| os_ok := tty_ok |}; [done|by intros []| |].
  - intros l w _. by exists (w ++ l).
  - intros l w. by exists w.
Defined.
Definition os_mem : KString.mem :=
  KStringProps.put_string (chars "printf") 5000 (KStringProps.put_string (chars "the 'writev' syscall") 6000 ∅).
Definition os_start : libc (list Z) := Libc stdout_FILE os_mem 0 [].

Lemma put_string_bytes l a m : LibcString.byte_mem m -> LibcString.byte_mem (KStringProps.put_string l a m).
Proof. revert a. induction l as [|c l IH]; intros a H; cbn [KStringProps.put_string]; auto using byte_mem_wr. Qed.
Lemma os_mem_ok : LibcString.byte_mem os_mem.
Proof. do 2 apply put_string_bytes. intros a. unfold KString.rd. rewrite lookup_empty. cbn. lia. Qed.
Lemma os_strings :
  arg_ok (sn_outside 1000 99) os_mem (Str 5000 (chars "printf")) /\
  arg_ok (sn_outside 1000 99) os_mem (Str 6000 (chars "the 'writev' syscall")).
Proof.
  destruct (KStringProps.put_string_spec (chars "printf") 5000 (KStringProps.put_string (chars "the 'writev' syscall") 6000 ∅))
    as [C1 F1]; [by apply KStringProps.bytes_ok|done|done|].
  destruct (KStringProps.put_string_spec (chars "the 'writev' syscall") 6000 ∅) as [C2 _];
    [by apply KStringProps.bytes_ok|done|done|].
  split; (split; [done|]); (split; [|intros b Hb; right; cbn; lia]); [exact C1|].
  eapply KStringProps.cstr_frame; [exact C2|]. intros b Hb. apply F1. right. change (length (chars "printf")) with 6%nat. lia.
Qed.

End OsMain.
