(* ===== verification/Calendar.v ===== *)
(** Calendar time of the C library (musl: time/__secs_to_tm.c, __tm_to_secs.c,
    __year_to_secs.c, __month_to_secs.c, gmtime_r.c, timegm.c).

    Division and remainder are C's ([Z.quot], [Z.rem]); assignments to [int] are cut to 32
    bits.  The time zone fields of [struct tm], and [tm_isdst], are constants here and left out. *)
From S2P Require Import Prelude.
#[global] Open Scope Z_scope.

Module Calendar.

Record tm := Tm {
  tm_sec : Z; tm_min : Z; tm_hour : Z; tm_mday : Z; tm_mon : Z; tm_year : Z; tm_wday : Z; tm_yday : Z
}.

Definition LEAPOCH : Z := 946684800 + 86400 * (31 + 29).
Definition DAYS_PER_400Y : Z := 365 * 400 + 97.
Definition DAYS_PER_100Y : Z := 365 * 100 + 24.
Definition DAYS_PER_4Y : Z := 365 * 4 + 1.
Definition INT_MAX : Z := 2147483647.
Definition INT_MIN : Z := -2147483648.
Definition days_in_month : list Z := [31; 30; 31; 30; 31; 31; 30; 31; 30; 31; 31; 29].

(** [for (months=0; days_in_month[months] <= remdays; months++)]; [None]: past the table. *)
Fixpoint month_loop (tab : list Z) (months remdays : Z) : option (Z * Z) :=
  match tab with
  | [] => None
  | d :: tab => if d <=? remdays then month_loop tab (months + 1) (remdays - d) else Some (months, remdays)
  end.

(** Quotient and remainder adjusted to a remainder that is not negative. *)
Definition floored (a b : Z) : Z * Z :=
  let r := Z.rem a b in if r <? 0 then (Z.quot a b - 1, r + b) else (Z.quot a b, r).
(** [n = d / u; if (n == lim) n--; d -= n * u;] *)
Definition capped (d u lim : Z) : Z * Z :=
  let n := Z.quot d u in let n := if n =? lim then n - 1 else n in (n, d - n * u).

(** The result of [__secs_to_tm]: [Some None] is -1. *)
Definition secs_to_tm (t : Z) : option (option tm) :=
  if (t <? INT_MIN * 31622400) || (INT_MAX * 31622400 <? t) then Some None
  else
    let secs := t - LEAPOCH in
    let '(days, remsecs) := floored secs 86400 in
    let wday := Z.rem (3 + days) 7 in
    let wday := if wday <? 0 then wday + 7 else wday in
    let '(qc_cycles, remdays) := floored days DAYS_PER_400Y in
    let qc_cycles := s32 qc_cycles in
    let '(c_cycles, remdays) := capped remdays DAYS_PER_100Y 4 in
    let '(q_cycles, remdays) := capped remdays DAYS_PER_4Y 25 in
    let '(remyears, remdays) := capped remdays 365 4 in
    let leap := if (remyears =? 0) && (truth q_cycles || (c_cycles =? 0)) then 1 else 0 in
    let yday := remdays + 31 + 28 + leap in
    let yday := if 365 + leap <=? yday then yday - (365 + leap) else yday in
    let years := remyears + 4 * q_cycles + 100 * c_cycles + 400 * qc_cycles in
    '(months, remdays) ← month_loop days_in_month 0 remdays;
    let '(months, years) := if 10 <=? months then (months - 12, years + 1) else (months, years) in
    if (INT_MAX <? years + 100) || (years + 100 <? INT_MIN) then Some None
    else Some (Some (Tm (Z.rem remsecs 60) (Z.rem (Z.quot remsecs 60) 60) (Z.quot remsecs 3600)
                        (remdays + 1) (months + 2) (years + 100) wday yday)).

(** The seconds up to the start of the year, and whether it is a leap year. *)
Definition year_to_secs (year : Z) : Z * bool :=
  if u64 (year - 2) <=? 136 then
    let y := s32 year in
    let leaps := (y - 68) >>> 2 in
    let leap := (y - 68) &&& 3 =? 0 in
    (s32 (31536000 * (y - 70) + 86400 * (if leap then leaps - 1 else leaps)), leap)
  else
    let '(cycles, rem) := floored (year - 100) 400 in
    let '(leap, centuries, leaps) :=
      if rem =? 0 then (true, 0, 0)
      else
        let '(centuries, rem) :=
          if 200 <=? rem then if 300 <=? rem then (3, rem - 300) else (2, rem - 200)
          else if 100 <=? rem then (1, rem - 100) else (0, rem) in
        if rem =? 0 then (false, centuries, 0) else (Z.rem rem 4 =? 0, centuries, Z.quot rem 4) in
    let leaps := s32 (leaps + (97 * cycles + 24 * centuries - (if leap then 1 else 0))) in
    ((year - 100) * 31536000 + leaps * 86400 + 946684800 + 86400, leap).

Definition secs_through_month : list Z :=
  (fun d => d * 86400) <$> [0; 31; 59; 90; 120; 151; 181; 212; 243; 273; 304; 334].
Definition month_to_secs (month : Z) (is_leap : bool) : Z :=
  let t := nthZ secs_through_month month in if is_leap && (2 <=? month) then t + 86400 else t.

Definition tm_to_secs (x : tm) : Z :=
  let year := tm_year x in
  let month := tm_mon x in
  let '(year, month) :=
    if (12 <=? month) || (month <? 0) then let '(adj, month) := floored month 12 in (year + adj, month)
    else (year, month) in
  let '(t, is_leap) := year_to_secs year in
  t + month_to_secs month is_leap + 86400 * (tm_mday x - 1) + 3600 * tm_hour x + 60 * tm_min x + tm_sec x.

(** [None] inside: a null pointer, with [EOVERFLOW]. *)
Definition gmtime_r (t : Z) : option (option tm) := secs_to_tm t.
(** The result and the normalised time; [None] inside: -1, with [EOVERFLOW]. *)
Definition timegm (x : tm) : option (option (Z * tm)) :=
  let t := tm_to_secs x in
  match secs_to_tm t with None => None | Some None => Some None | Some (Some y) => Some (Some (t, y)) end.

Example epoch : gmtime_r 0 = Some (Some (Tm 0 0 0 1 0 70 4 0)).
Proof. vm_compute. reflexivity. Qed.
Example y2038 : gmtime_r 2147483647 = Some (Some (Tm 7 14 3 19 0 138 2 18)).
Proof. vm_compute. reflexivity. Qed.
Example leap_day : gmtime_r 951782400 = Some (Some (Tm 0 0 0 29 1 100 2 59)).
Proof. vm_compute. reflexivity. Qed.
Example before : gmtime_r (-1) = Some (Some (Tm 59 59 23 31 11 69 3 364)).
Proof. vm_compute. reflexivity. Qed.
Example back : tm_to_secs (Tm 7 14 3 19 0 138 2 18) = 2147483647.
Proof. vm_compute. reflexivity. Qed.

(** ** Days of the proleptic Gregorian calendar
    [march y] is the number of days from 1 March 2000 to 1 March of the year 2000 + [y]. *)
Definition march (y : Z) : Z := 365 * y + y / 4 - y / 100 + y / 400.
Definition leap_year (y : Z) : bool := (y mod 4 =? 0) && (negb (y mod 100 =? 0) || (y mod 400 =? 0)).
(** 1 January of that year. *)
Definition january (y : Z) : Z := march (y - 1) + 306.

Ltac euclid := Z.to_euclidean_division_equations; lia.

Lemma january_march y : march y = january y + 59 + (if leap_year y then 1 else 0).
Proof. unfold january, march, leap_year. repeat (case_match; zb); try discriminate; euclid. Qed.

(** ** Arithmetic *)
Lemma floored_ok a b : 0 < b -> floored a b = (a / b, a mod b).
Proof.
  intros Hb. unfold floored. pose proof (Z.quot_rem' a b) as E. pose proof (Z.rem_bound_abs a b ltac:(lia)) as Hr.
  destruct (Z.ltb_spec (Z.rem a b) 0); f_equal.
  - apply (Z.div_unique_pos _ _ _ (Z.rem a b + b)); lia.
  - apply (Z.mod_unique_pos _ _ (Z.quot a b - 1)); lia.
  - apply (Z.div_unique_pos _ _ _ (Z.rem a b)); lia.
  - apply (Z.mod_unique_pos _ _ (Z.quot a b)); lia.
Qed.
Lemma capped_ok d u lim n r : 0 < u -> 0 <= d -> capped d u lim = (n, r) ->
  d = u * n + r /\ (n = d / u /\ n <> lim \/ n = lim - 1 /\ d / u = lim).
Proof.
  intros Hu Hd. unfold capped. rewrite Z.quot_div_nonneg by lia. intros [= <- <-]. split; [ring|].
  destruct (Z.eqb_spec (d / u) lim); [right|left]; lia.
Qed.

(** The counts of a day in a cycle of 400 years. *)
Lemma cycle_parts rd c r1 q r2 y r3 :
  0 <= rd < DAYS_PER_400Y ->
  capped rd DAYS_PER_100Y 4 = (c, r1) -> capped r1 DAYS_PER_4Y 25 = (q, r2) -> capped r2 365 4 = (y, r3) ->
  rd = 36524 * c + 1461 * q + 365 * y + r3 /\ 0 <= c <= 3 /\ 0 <= q <= 24 /\ 0 <= y <= 3 /\ 0 <= r3 <= 365 /\
  (r3 = 365 -> y = 3 /\ (q < 24 \/ c = 3)).
Proof.
  unfold DAYS_PER_400Y, DAYS_PER_100Y, DAYS_PER_4Y. intros Hrd H1 H2 H3.
  apply capped_ok in H1 as [E1 D1]; [|lia..].
  assert (0 <= c <= 3 /\ 0 <= r1 <= 36524 /\ (c < 3 -> r1 < 36524)) as (Hc & Hr1 & Hr1') by euclid.
  apply capped_ok in H2 as [E2 D2]; [|lia..].
  assert (0 <= q <= 24 /\ 0 <= r2 <= 1460 /\ (q = 24 -> c < 3 -> r2 < 1460)) as (Hq & Hr2 & Hr2') by euclid.
  apply capped_ok in H3 as [E3 D3]; [|lia..].
  assert (0 <= y <= 3 /\ 0 <= r3 <= 365 /\ (r3 = 365 -> r2 = 1460)) as (Hy & Hr3 & Hr3') by euclid.
  split_and!; lia.
Qed.

Lemma year_parts k c q y : 0 <= c <= 3 -> 0 <= q <= 24 -> 0 <= y <= 3 ->
  let Y := y + 4 * q + 100 * c + 400 * k in
  Y / 4 = q + 25 * c + 100 * k /\ Y / 100 = c + 4 * k /\ Y / 400 = k.
Proof. intros Hc Hq Hy Y. unfold Y. split_and!; euclid. Qed.
Lemma march_parts k c q y : 0 <= c <= 3 -> 0 <= q <= 24 -> 0 <= y <= 3 ->
  march (y + 4 * q + 100 * c + 400 * k) = 146097 * k + 36524 * c + 1461 * q + 365 * y.
Proof.
  intros Hc Hq Hy. destruct (year_parts k c q y Hc Hq Hy) as (E1 & E2 & E3). unfold march. rewrite E1, E2, E3. ring.
Qed.

(** Months, counted from March. *)
Definition month_days (m : Z) : Z := nthZ [0; 31; 61; 92; 122; 153; 184; 214; 245; 275; 306; 337] m.
Lemma month_loop_ok d : 0 <= d <= 365 -> exists m r, month_loop days_in_month 0 d = Some (m, r) /\
  0 <= m <= 11 /\ d = month_days m + r /\ 0 <= r < nthZ days_in_month m.
Proof.
  intros Hd. unfold days_in_month at 1. cbn [month_loop].
  repeat match goal with |- exists m r, (if ?a <=? ?b then _ else _) = _ /\ _ => destruct (Z.leb_spec a b) end.
  1: lia. all: do 2 eexists; (split; [reflexivity|]); unfold month_days;
    repeat match goal with |- context [nthZ ?l ?m] => let v := eval vm_compute in (nthZ l m) in change (nthZ l m) with v end; lia.
Qed.

(** ** Years *)
Definition century_part (rem : Z) : bool * Z * Z :=
  if rem =? 0 then (true, 0, 0)
  else
    let '(centuries, rem) :=
      if 200 <=? rem then if 300 <=? rem then (3, rem - 300) else (2, rem - 200)
      else if 100 <=? rem then (1, rem - 100) else (0, rem) in
    if rem =? 0 then (false, centuries, 0) else (Z.rem rem 4 =? 0, centuries, Z.quot rem 4).
Lemma century_table : forallb (fun r =>
    let '(leap, centuries, leaps) := century_part r in
    Bool.eqb leap (leap_year r) && (0 <=? leaps) && (leaps <=? 24) && (0 <=? centuries) && (centuries <=? 3) &&
    (365 * r + leaps + 24 * centuries - (if leap then 1 else 0) + 10958 =? january r + 11017)) (seqZ 0 400) = true.
Proof. vm_compute. reflexivity. Qed.
Lemma short_table : forallb (fun y =>
    let leap := (y - 68) &&& 3 =? 0 in
    let leaps := (y - 68) >>> 2 in
    Bool.eqb leap (leap_year (y - 100)) &&
    (s32 (31536000 * (y - 70) + 86400 * (if leap then leaps - 1 else leaps)) =? 86400 * (january (y - 100) + 11017)))
  (seqZ 2 137) = true.
Proof. vm_compute. reflexivity. Qed.
Lemma march_400 y k : march (y + 400 * k) = march y + 146097 * k.
Proof.
  unfold march. rewrite <- (Z.div_unique_pos (y + 400 * k) 4 (y / 4 + 100 * k) (y mod 4)) by euclid.
  rewrite <- (Z.div_unique_pos (y + 400 * k) 100 (y / 100 + 4 * k) (y mod 100)) by euclid.
  rewrite <- (Z.div_unique_pos (y + 400 * k) 400 (y / 400 + k) (y mod 400)) by euclid. ring.
Qed.
Lemma leap_400 y k : leap_year (y + 400 * k) = leap_year y.
Proof.
  unfold leap_year. rewrite <- (Z.mod_unique_pos (y + 400 * k) 4 (y / 4 + 100 * k) (y mod 4)) by euclid.
  rewrite <- (Z.mod_unique_pos (y + 400 * k) 100 (y / 100 + 4 * k) (y mod 100)) by euclid.
  by rewrite <- (Z.mod_unique_pos (y + 400 * k) 400 (y / 400 + k) (y mod 400)) by euclid.
Qed.

Lemma year_to_secs_ok y : - 2 ^ 32 <= y <= 2 ^ 32 -> year_to_secs (y + 100) = (86400 * (january y + 11017), leap_year y).
Proof.
  intros Hy. unfold year_to_secs. destruct (Z.leb_spec (u64 (y + 100 - 2)) 136) as [Hs|Hs].
  - assert (-98 <= y <= 38) as Hy'.
    { unfold wrap in Hs. destruct (decide (-98 <= y)); [rewrite Z.mod_small in Hs by lia; lia|].
      rewrite <- (Z.mod_unique_pos (y + 100 - 2) (2 ^ 64) (-1) (y + 98 + 2 ^ 64)) in Hs by lia. lia. }
    pose proof short_table as H. rewrite forallb_forall in H.
    specialize (H (y + 100) ltac:(apply list_elem_of_In, elem_of_seqZ; lia)). replace (y + 100 - 100) with y in H by lia.
    rewrite (swrap_small 32 (y + 100)) by (unfold in_s; lia). apply andb_true_iff in H as [H1%Bool.eqb_prop H2%Z.eqb_eq].
    cbv zeta. by rewrite H2, H1.
  - replace (y + 100 - 100) with y by lia. rewrite floored_ok by lia.
    pose proof (Z.div_mod y 400 ltac:(lia)) as E. pose proof (Z.mod_pos_bound y 400 ltac:(lia)) as Hr.
    set (k := y / 400) in *. set (r := y mod 400) in *. clearbody k r. subst y. fold (century_part r).
    pose proof century_table as H. rewrite forallb_forall in H.
    specialize (H r ltac:(apply list_elem_of_In, elem_of_seqZ; lia)).
    destruct (century_part r) as [[leap centuries] leaps]. rewrite !andb_true_iff in H.
    destruct H as [[[[[H1%Bool.eqb_prop H2%Z.leb_le] H3%Z.leb_le] H4%Z.leb_le] H5%Z.leb_le] H6%Z.eqb_eq].
    rewrite swrap_small by (unfold in_s; destruct leap; lia).
    replace (400 * k + r) with (r + 400 * k) by lia. rewrite leap_400, <- H1. f_equal.
    unfold january in *. replace (r + 400 * k - 1) with (r - 1 + 400 * k) by lia. rewrite march_400. destruct leap; lia.
Qed.

(** ** Dates *)
(** The days of a year before a month of it. *)
Definition before_month (mon : Z) (leap : bool) : Z :=
  nthZ [0; 31; 59; 90; 120; 151; 181; 212; 243; 273; 304; 334] mon + (if leap && (2 <=? mon) then 1 else 0).
Definition month_length (mon : Z) (leap : bool) : Z :=
  if mon =? 1 then (if leap then 29 else 28) else nthZ [31; 28; 31; 30; 31; 30; 31; 31; 30; 31; 30; 31] mon.

(** The day [day] after 1 March 2000 is the day [d] (from 0) of the month [mon] of the year 2000 + [y]. *)
Record date (day y mon d : Z) : Prop := {
  date_day : day = january y + before_month mon (leap_year y) + d;
  date_mon : 0 <= mon < 12;
  date_d : 0 <= d < month_length mon (leap_year y)
}.

Lemma month_cases (P : Z -> Prop) (m : Z) :
  0 <= m <= 11 -> P 0 -> P 1 -> P 2 -> P 3 -> P 4 -> P 5 -> P 6 -> P 7 -> P 8 -> P 9 -> P 10 -> P 11 -> P m.
Proof.
  intros Hm. assert (m = 0 \/ m = 1 \/ m = 2 \/ m = 3 \/ m = 4 \/ m = 5 \/ m = 6 \/ m = 7 \/ m = 8 \/ m = 9 \/ m = 10 \/ m = 11) as H by lia.
  intros. repeat (destruct H as [->|H]; [done|]). by subst.
Qed.

(** From years that start in March to years that start in January. *)
Lemma date_of_march Y m r : 0 <= m <= 11 -> 0 <= r < nthZ days_in_month m ->
  (month_days m + r = 365 -> leap_year (Y + 1) = true) ->
  let y := if 10 <=? m then Y + 1 else Y in
  let mon := (if 10 <=? m then m - 12 else m) + 2 in
  date (march Y + month_days m + r) y mon r.
Proof.
  intros Hm Hr Hl y mon. pose proof (january_march Y) as HJ.
  assert (january (Y + 1) = march Y + 306) as HJ' by (unfold january; f_equal; f_equal; lia).
  unfold y, mon. clear y mon. revert Hr Hl.
  refine (month_cases (fun m => _) m Hm _ _ _ _ _ _ _ _ _ _ _ _); intros Hr Hl.
  all: split; unfold before_month, month_length, month_days in *;
    repeat match goal with |- context [nthZ ?l ?m] => let v := eval vm_compute in (nthZ l m) in change (nthZ l m) with v end;
    repeat match goal with H : context [nthZ ?l ?m] |- _ => let v := eval vm_compute in (nthZ l m) in change (nthZ l m) with v in H end;
    cbn -[leap_year january march Z.add Z.lt Z.le] in *.
  all: repeat match goal with
    | |- context [?a <=? ?b] => let v := eval vm_compute in (a <=? b) in change (a <=? b) with v
    | |- context [?a =? ?b] => let v := eval vm_compute in (a =? b) in change (a =? b) with v
    end; rewrite ?andb_true_r, ?andb_false_r; try lia.
  destruct (leap_year (Y + 1)); [lia|]. assert (r <> 28) by (intros ->; by specialize (Hl eq_refl)). lia.
Qed.

(** The leap years of a cycle. *)
Lemma leap_parts k c q y : 0 <= c <= 3 -> 0 <= q <= 24 -> 0 <= y <= 3 ->
  leap_year (y + 4 * q + 100 * c + 400 * k) = (y =? 0) && (truth q || (c =? 0)).
Proof.
  intros Hc Hq Hy. unfold leap_year. rewrite <- (Z.mod_unique_pos (y + 4 * q + 100 * c + 400 * k) 4 (q + 25 * c + 100 * k) y) by lia.
  rewrite <- (Z.mod_unique_pos (y + 4 * q + 100 * c + 400 * k) 100 (c + 4 * k) (y + 4 * q)) by lia.
  rewrite <- (Z.mod_unique_pos (y + 4 * q + 100 * c + 400 * k) 400 k (y + 4 * q + 100 * c)) by lia. unfold truth.
  destruct (Z.eqb_spec y 0); cbn [andb]; [|done].
  destruct (Z.eqb_spec (y + 4 * q) 0), (Z.eqb_spec q 0); cbn [negb orb]; [|lia|lia|done].
  destruct (Z.eqb_spec (y + 4 * q + 100 * c) 0), (Z.eqb_spec c 0); lia || done.
Qed.
Lemma last_day_leap k c q : 0 <= c <= 3 -> 0 <= q <= 24 -> q < 24 \/ c = 3 ->
  leap_year (3 + 4 * q + 100 * c + 400 * k + 1) = true.
Proof.
  intros Hc Hq Hd. destruct (decide (q < 24)).
  - replace (3 + 4 * q + 100 * c + 400 * k + 1) with (0 + 4 * (q + 1) + 100 * c + 400 * k) by lia.
    rewrite leap_parts by lia. unfold truth. by destruct (Z.eqb_spec (q + 1) 0); [lia|].
  - replace (3 + 4 * q + 100 * c + 400 * k + 1) with (0 + 4 * 0 + 100 * 0 + 400 * (k + 1)) by lia. by rewrite leap_parts by lia.
Qed.

Lemma month_turn m r : 0 <= m <= 11 -> 0 <= r < nthZ days_in_month m ->
  if 10 <=? m then 306 <= month_days m + r else month_days m + r < 306.
Proof.
  intros Hm. refine (month_cases (fun m => _) m Hm _ _ _ _ _ _ _ _ _ _ _ _); intros Hr; cbn [Z.leb Z.compare Pos.compare Pos.compare_cont].
  all: unfold month_days; repeat match goal with |- context [nthZ ?l ?m] =>
      let v := eval vm_compute in (nthZ l m) in change (nthZ l m) with v end;
    match type of Hr with context [nthZ ?l ?m] =>
      let v := eval vm_compute in (nthZ l m) in change (nthZ l m) with v in Hr end; lia.
Qed.

Definition tm_of (t y mon d : Z) : tm :=
  let rs := t mod 86400 in
  let day := t / 86400 in
  Tm (rs mod 60) (rs / 60 mod 60) (rs / 3600) (d + 1) mon (y + 100) ((day + 4) mod 7) (day - 11017 - january y).

Lemma secs_to_tm_date t : INT_MIN * 31622400 <= t <= INT_MAX * 31622400 ->
  exists y mon d, date (t / 86400 - 11017) y mon d /\
    secs_to_tm t = if (INT_MAX <? y + 100) || (y + 100 <? INT_MIN) then Some None else Some (Some (tm_of t y mon d)).
Proof.
  intros Ht. unfold secs_to_tm. unfold INT_MIN, INT_MAX in Ht.
  replace ((t <? INT_MIN * 31622400) || (INT_MAX * 31622400 <? t)) with false
    by (symmetry; apply orb_false_iff; split; apply Z.ltb_ge; unfold INT_MIN, INT_MAX; lia).
  cbv zeta. rewrite (floored_ok (t - LEAPOCH)) by lia.
  assert ((t - LEAPOCH) / 86400 = t / 86400 - 11017 /\ (t - LEAPOCH) mod 86400 = t mod 86400) as [Ed Er].
  { unfold LEAPOCH. pose proof (Z.div_mod t 86400 ltac:(lia)). pose proof (Z.mod_pos_bound t 86400 ltac:(lia)).
    split; symmetry; [apply (Z.div_unique_pos _ _ _ (t mod 86400))|apply (Z.mod_unique_pos _ _ (t / 86400 - 11017))]; lia. }
  rewrite Ed, Er. set (day := t / 86400 - 11017). rewrite floored_ok by (unfold DAYS_PER_400Y; lia).
  assert (- 2 ^ 40 <= day <= 2 ^ 40) as Hday by (unfold day; euclid).
  pose proof (Z.div_mod day DAYS_PER_400Y ltac:(done)) as Ek. pose proof (Z.mod_pos_bound day DAYS_PER_400Y ltac:(done)) as Hrd.
  set (k := day / DAYS_PER_400Y) in *. set (rd := day mod DAYS_PER_400Y) in *.
  assert (- 2 ^ 24 <= k <= 2 ^ 24) as Hk by (unfold DAYS_PER_400Y in *; lia).
  rewrite (swrap_small 32 k) by (unfold in_s; lia).
  destruct (capped rd DAYS_PER_100Y 4) as [c r1] eqn:E1. destruct (capped r1 DAYS_PER_4Y 25) as [q r2] eqn:E2.
  destruct (capped r2 365 4) as [y r3] eqn:E3.
  destruct (cycle_parts rd c r1 q r2 y r3 Hrd E1 E2 E3) as (Hsum & Hc & Hq & Hy & Hr3 & Hlast).
  destruct (month_loop_ok r3 Hr3) as (m & r & -> & Hm & Hmr & Hr). cbn [mbind option_bind].
  set (Y := y + 4 * q + 100 * c + 400 * k).
  assert (day = march Y + month_days m + r) as Eday.
  { unfold Y. rewrite march_parts by done. unfold DAYS_PER_400Y in Ek. lia. }
  assert (month_days m + r = 365 -> leap_year (Y + 1) = true) as Hl.
  { intros H. rewrite <- Hmr in H. destruct (Hlast H) as [-> Hd]. by apply last_day_leap. }
  pose proof (date_of_march Y m r Hm Hr Hl) as Hdate. cbv zeta in Hdate. rewrite <- Eday in Hdate.
  exists (if 10 <=? m then Y + 1 else Y), ((if 10 <=? m then m - 12 else m) + 2), r. split; [done|].
  set (L := if (y =? 0) && (truth q || (c =? 0)) then 1 else 0).
  assert (L = if leap_year Y then 1 else 0) as EL by (unfold L, Y; by rewrite leap_parts).
  assert (if 10 <=? m then 306 <= r3 else r3 < 306) as H306 by (rewrite Hmr; by apply month_turn).
  assert ((if 365 + L <=? r3 + 31 + 28 + L then r3 + 31 + 28 + L - (365 + L) else r3 + 31 + 28 + L)
    = t / 86400 - 11017 - january (if 10 <=? m then Y + 1 else Y)) as Eyday.
  { fold day. pose proof (january_march Y) as HJ. rewrite <- EL in HJ.
    assert (january (Y + 1) = march Y + 306) as HJ' by (unfold january; f_equal; f_equal; lia).
    destruct (10 <=? m), (Z.leb_spec (365 + L) (r3 + 31 + 28 + L)); lia. }
  assert ((if Z.rem (3 + day) 7 <? 0 then Z.rem (3 + day) 7 + 7 else Z.rem (3 + day) 7) = (t / 86400 + 4) mod 7) as Ewday.
  { replace ((t / 86400 + 4) mod 7) with ((3 + day) mod 7) by (unfold day; euclid).
    pose proof (floored_ok (3 + day) 7 ltac:(lia)) as Hf. unfold floored in Hf.
    destruct (Z.rem (3 + day) 7 <? 0); by injection Hf. }
  rewrite Eyday, Ewday. unfold tm_of. pose proof (Z.mod_pos_bound t 86400 ltac:(lia)) as Hrs.
  rewrite !Z.rem_mod_nonneg, !Z.quot_div_nonneg by (try lia; apply Z.quot_pos; lia).
  by destruct (10 <=? m).
Qed.

Lemma january_mono a b : a <= b -> january a <= january b.
Proof. intros H. unfold january, march. euclid. Qed.
Lemma date_bounds day y mon d : date day y mon d -> january y <= day < january (y + 1).
Proof.
  intros [E Hm Hd]. pose proof (january_march y) as HJ.
  assert (january (y + 1) = march y + 306) as HJ' by (unfold january; f_equal; f_equal; lia).
  enough (0 <= before_month mon (leap_year y) + d < 365 + (if leap_year y then 1 else 0)) by lia. clear E HJ HJ'.
  destruct (leap_year y); revert Hd; refine (month_cases (fun m => _) mon ltac:(lia) _ _ _ _ _ _ _ _ _ _ _ _);
    intros Hd; unfold before_month, month_length in *;
    repeat match goal with |- context [nthZ ?l ?m] => let v := eval vm_compute in (nthZ l m) in change (nthZ l m) with v end;
    repeat match type of Hd with context [nthZ ?l ?m] => let v := eval vm_compute in (nthZ l m) in change (nthZ l m) with v in Hd end;
    cbn -[Z.add Z.lt Z.le] in *; lia.
Qed.
Lemma month_to_secs_ok mon leap : 0 <= mon < 12 -> month_to_secs mon leap = 86400 * before_month mon leap.
Proof.
  intros Hm. refine (month_cases (fun m => _) mon ltac:(lia) _ _ _ _ _ _ _ _ _ _ _ _); by destruct leap.
Qed.

Lemma tm_of_secs t y mon d : date (t / 86400 - 11017) y mon d -> - 2 ^ 32 <= y <= 2 ^ 32 -> tm_to_secs (tm_of t y mon d) = t.
Proof.
  intros [E Hm Hd] Hy. unfold tm_to_secs, tm_of. cbn [tm_year tm_mon tm_mday tm_hour tm_min tm_sec].
  destruct (Z.leb_spec 12 mon), (Z.ltb_spec mon 0); try lia. cbn [orb]. rewrite year_to_secs_ok by done.
  rewrite month_to_secs_ok by done. clear Hd. set (b := before_month mon (leap_year y)) in *. set (j := january y) in *.
  clearbody b j. euclid.
Qed.

(** The times whose year fits in an [int]. *)
Definition first_time : Z := 86400 * (january (INT_MIN - 100) + 11017).
Definition last_time : Z := 86400 * (january (INT_MAX + 1 - 100) + 11017).

(** C33: calendar time.  For every time whose year fits in an [int], [gmtime_r] gives the date
    in the Gregorian calendar: the month and the day of it that make up the number of days since
    1970, the hours, minutes and seconds of the day, the day of the week (1 January 1970 was a
    Thursday) and the day of the year; [timegm] takes it back to the time it came from, and
    changes no field of it.  For every other time, [gmtime_r] reports an overflow. *)
Theorem gmtime_timegm_roundtrip (t : Z) :
  (first_time <= t < last_time ->
     exists y mon d, date (t / 86400 - 11017) y mon d /\ INT_MIN <= y + 100 <= INT_MAX /\
       gmtime_r t = Some (Some (tm_of t y mon d)) /\ timegm (tm_of t y mon d) = Some (Some (t, tm_of t y mon d))) /\
  (t < first_time \/ last_time <= t -> gmtime_r t = Some None).
Proof.
  assert (INT_MIN * 31622400 <= first_time /\ last_time <= INT_MAX * 31622400) as [Hf Hl] by (split; by vm_compute).
  assert (INT_MIN * 31622400 <= t <= INT_MAX * 31622400 -> exists y mon d, date (t / 86400 - 11017) y mon d /\
    gmtime_r t = (if (INT_MAX <? y + 100) || (y + 100 <? INT_MIN) then Some None else Some (Some (tm_of t y mon d))) /\
    (first_time <= t < last_time <-> INT_MIN <= y + 100 <= INT_MAX)) as Hmain.
  { intros Ht. destruct (secs_to_tm_date t Ht) as (y & mon & d & Hd & E). exists y, mon, d. split; [done|]. split; [done|].
    pose proof (date_bounds _ _ _ _ Hd) as Hb. unfold first_time, last_time. pose proof (january_mono (y + 1) (INT_MIN - 100)) as J1.
    pose proof (january_mono (INT_MIN - 100) y) as J2. pose proof (january_mono (y + 1) (INT_MAX + 1 - 100)) as J3.
    pose proof (january_mono (INT_MAX + 1 - 100) y) as J4.
    set (a := january (INT_MIN - 100)) in *. set (b := january (INT_MAX + 1 - 100)) in *. clearbody a b. clear Hd E Ht Hf Hl.
    unfold INT_MIN, INT_MAX in *. split; intros H; euclid. }
  split.
  - intros Ht. destruct Hmain as (y & mon & d & Hd & E & Hr); [lia|]. apply Hr in Ht. exists y, mon, d. split; [done|]. split; [done|].
    destruct (Z.ltb_spec INT_MAX (y + 100)), (Z.ltb_spec (y + 100) INT_MIN); try lia. cbn [orb] in E. split; [done|].
    unfold timegm. rewrite tm_of_secs by (done || unfold INT_MIN, INT_MAX in *; lia). unfold gmtime_r in E. by rewrite E.
  - intros Ht. destruct (decide (INT_MIN * 31622400 <= t <= INT_MAX * 31622400)) as [Hin|Hout].
    + destruct Hmain as (y & mon & d & Hd & -> & Hr); [done|].
      destruct (Z.ltb_spec INT_MAX (y + 100)), (Z.ltb_spec (y + 100) INT_MIN); try done. lia.
    + unfold gmtime_r, secs_to_tm. destruct (Z.ltb_spec t (INT_MIN * 31622400)); [done|].
      by destruct (Z.ltb_spec (INT_MAX * 31622400) t); [|lia].
Qed.
Lemma gmtime_timegm_roundtrip_witness :
  exists y mon d, date (951782400 / 86400 - 11017) y mon d /\ INT_MIN <= y + 100 <= INT_MAX /\
    gmtime_r 951782400 = Some (Some (tm_of 951782400 y mon d)) /\
    timegm (tm_of 951782400 y mon d) = Some (Some (951782400, tm_of 951782400 y mon d)).
Proof. apply (gmtime_timegm_roundtrip 951782400). split; by vm_compute. Defined.
End Calendar.
