(* ===== verification/Search.v ===== *)
(** Search trees of the C library (search/tsearch.c, tdelete.c, tfind.c, twalk.c,
    tdestroy.c).

    A tree is a pointer to a [node] with a key, two children and the height of the tree below
    it.  The functions remember the way down in an array of pointers to the pointers they
    followed ([slot]: the variable [*rootp] or a child of a node); the array has [MAXH] places,
    and a step beyond them is a fault.  Keys are compared by a function of the caller, [cmp];
    [malloc] gives an address that is not in use, or null. *)
From S2P Require Import Prelude KMonad.

Module Search.

(** ** State *)
Definition MAXH : Z := 8 * 8 * 3 / 2.

Record node := Node { key : Z; a0 : Z; a1 : Z; h : Z }.
Definition child (n : node) (d : bool) : Z := if d then a1 n else a0 n.
Definition set_child (d : bool) (p : Z) (n : node) : node :=
  if d then Node (key n) (a0 n) p (h n) else Node (key n) p (a1 n) (h n).
Definition set_h (x : Z) (n : node) : node := Node (key n) (a0 n) (a1 n) x.
Definition set_key (k : Z) (n : node) : node := Node k (a0 n) (a1 n) (h n).

(** The variable [*rootp] and the nodes that are allocated. *)
Record trees := Trees { root : Z; nodes : gmap Z node }.
Inductive slot := Rootp | Sub (n : Z) (d : bool).

Definition load (n : Z) : M trees node := fun s =>
  if n =? 0 then None else match nodes s !! n with Some x => Some (x, s) | None => None end.
Definition update (n : Z) (f : node -> node) : M trees unit :=
  let! x := load n in modify (fun s => Trees (root s) (<[n := f x]> (nodes s))).
Definition read (p : slot) : M trees Z :=
  match p with Rootp => gets root | Sub n d => let! x := load n in ret (child x d) end.
Definition write (p : slot) (v : Z) : M trees unit :=
  match p with
  | Rootp => modify (fun s => Trees v (nodes s))
  | Sub n d => update n (set_child d v)
  end.

Section Ops.
Context (cmp : Z -> Z -> Z) (malloc : gmap Z node -> Z).

(** ** Balancing *)
Definition height (n : Z) : M trees Z := if n =? 0 then ret 0 else let! x := load n in ret (h x).

Definition rot (p : slot) (x : Z) (dir : bool) : M trees Z :=
  let! nx := load x in
  let y := child nx dir in
  let! ny := load y in
  let z := child ny (negb dir) in
  let hx := h nx in
  let! hz := height z in
  let! hd := height (child ny dir) in
  if hd <? hz then
    let! nz := load z in
    update x (set_child dir (child nz (negb dir))) ;;;
    let! nz := load z in
    update y (set_child (negb dir) (child nz dir)) ;;;
    update z (set_child (negb dir) x) ;;;
    update z (set_child dir y) ;;;
    update x (set_h hz) ;;;
    update y (set_h hz) ;;;
    update z (set_h (s32 (hz + 1))) ;;;
    write p z ;;;
    let! nz := load z in
    ret (s32 (h nz - hx))
  else
    update x (set_child dir z) ;;;
    update y (set_child (negb dir) x) ;;;
    update x (set_h (s32 (hz + 1))) ;;;
    update y (set_h (s32 (hz + 2))) ;;;
    write p y ;;;
    let! ny := load y in
    ret (s32 (h ny - hx)).

Definition tsearch_balance (p : slot) : M trees Z :=
  let! n := read p in
  let! x := load n in
  let! h0 := height (child x false) in
  let! h1 := height (child x true) in
  if u32 (h0 - h1 + 1) <? 3 then
    let old := h x in
    let new := if h0 <? h1 then s32 (h1 + 1) else s32 (h0 + 1) in
    update n (set_h new) ;;;
    ret (s32 (new - old))
  else rot p n (h0 <? h1).

(** ** Searching
    The way down from [n]; [path] is the array [a], the last entry first, with [room] free
    places. *)
Fixpoint search_down (room : nat) (k n : Z) (path : list slot) : M trees (Z * list slot) :=
  if n =? 0 then ret (0, path) else
  let! x := load n in
  let c := cmp k (key x) in
  if c =? 0 then ret (n, path)
  else
    match room with
    | O => fault
    | S room => search_down room k (child x (0 <? c)) (Sub n (0 <? c) :: path)
    end.

(** [while (i && __tsearch_balance(a[--i]));] *)
Fixpoint rebalance (path : list slot) : M trees unit :=
  match path with
  | [] => ret tt
  | p :: path => let! c := tsearch_balance p in if truth c then rebalance path else ret tt
  end.

Definition tsearch (k : Z) (rootp : bool) : M trees Z :=
  if negb rootp then ret 0 else
  let! n := gets root in
  let! '(n, path) := search_down (Z.to_nat (MAXH - 1)) k n [Rootp] in
  if truth n then ret n
  else
    let! r := gets (fun s => malloc (nodes s)) in
    if r =? 0 then ret 0
    else
      modify (fun s => Trees (root s) (<[r := Node k 0 0 1]> (nodes s))) ;;;
      match path with
      | [] => fault
      | p :: path => write p r ;;; rebalance path ;;; ret r
      end.

(** The loop of [tfind]. *)
Fixpoint find_loop (fuel : nat) (k n : Z) : M trees Z :=
  match fuel with
  | O => fault
  | S fuel =>
      if n =? 0 then ret 0 else
      let! x := load n in
      let c := cmp k (key x) in
      if c =? 0 then ret n else find_loop fuel k (child x (0 <? c))
  end.
Definition tfind (k : Z) (rootp : bool) : M trees Z :=
  if negb rootp then ret 0 else
  let! n := gets root in
  let! fuel := gets (fun s => S (base.size (nodes s))) in
  find_loop fuel k n.

(** ** Deleting *)

(** [while (n->a[1]) { a[i++] = &n->a[1]; n = n->a[1]; }] *)
Fixpoint go_right (room : nat) (n : Z) (path : list slot) : M trees (Z * list slot) :=
  let! x := load n in
  if child x true =? 0 then ret (n, path)
  else
    match room with
    | O => fault
    | S room => go_right room (child x true) (Sub n true :: path)
    end.

(** [while (--i && __tsearch_balance(a[i]));]: [a[0]] is not looked at. *)
Fixpoint rebalance_above (path : list slot) : M trees unit :=
  match path with
  | p :: ((_ :: _) as path) =>
      let! c := tsearch_balance p in if truth c then rebalance_above path else ret tt
  | _ => ret tt
  end.

(** The node to free, the way to it, and the child that takes its place. *)
Definition victim (n : Z) (path : list slot) : M trees (Z * list slot * Z) :=
  let! x := load n in
  if truth (child x false) then
    let deleted := n in
    match (Z.to_nat (MAXH + 1) - length path)%nat with
    | O => fault
    | S room =>
        let! '(n, path) := go_right room (child x false) (Sub n false :: path) in
        let! y := load n in
        update deleted (set_key (key y)) ;;;
        let! y := load n in
        ret (n, path, child y false)
    end
  else ret (n, path, child x true).

Definition tdelete (k : Z) (rootp : bool) : M trees Z :=
  if negb rootp then ret 0 else
  let! n := gets root in
  let! '(n, path) := search_down (Z.to_nat (MAXH - 1)) k n [Rootp; Rootp] in
  if n =? 0 then ret 0
  else
    match path with
    | _ :: p :: _ =>
        let! parent := read p in
        let! '(n, path, c) := victim n path in
        modify (fun s => Trees (root s) (delete n (nodes s))) ;;;
        match path with
        | [] => fault
        | p :: path => write p c ;;; rebalance_above path ;;; ret parent
        end
    | _ => fault
    end.

(** ** Walking
    The calls of [action], in order: the node, the kind of visit and the depth. *)
Inductive VISIT := preorder | postorder | endorder | leaf.

Fixpoint walk (fuel : nat) (r d : Z) : M trees (list (Z * VISIT * Z)) :=
  match fuel with
  | O => fault
  | S fuel =>
      if r =? 0 then ret [] else
      let! x := load r in
      if h x =? 1 then ret [(r, leaf, d)]
      else
        let! l1 := walk fuel (child x false) (d + 1) in
        let! l2 := walk fuel (child x true) (d + 1) in
        ret ([(r, preorder, d)] ++ l1 ++ [(r, postorder, d)] ++ l2 ++ [(r, endorder, d)])
  end.
Definition twalk (r : Z) : M trees (list (Z * VISIT * Z)) :=
  let! fuel := gets (fun s => S (base.size (nodes s))) in
  walk fuel r 0.

(** [tdestroy]: the keys given to [freekey], if there is one, in order. *)
Fixpoint destroy (freekey : bool) (fuel : nat) (r : Z) : M trees (list Z) :=
  match fuel with
  | O => fault
  | S fuel =>
      if r =? 0 then ret [] else
      let! x := load r in
      let! l1 := destroy freekey fuel (child x false) in
      let! x := load r in
      let! l2 := destroy freekey fuel (child x true) in
      let! x := load r in
      modify (fun s => Trees (root s) (delete r (nodes s))) ;;;
      ret (l1 ++ l2 ++ (if freekey then [key x] else []))
  end.
Definition tdestroy (freekey : bool) (r : Z) : M trees (list Z) :=
  let! fuel := gets (fun s => S (base.size (nodes s))) in
  destroy freekey fuel r.
End Ops.

End Search.
