(* ===== verification/SearchTree.v ===== *)
(** Balanced search trees as values: the reference the functions of Search are proved
    against.

    [tree] is a tree of nodes with their addresses and stored heights, [frame] a node on the
    way down without the child the way goes through; [plug c t] puts a subtree back into its
    place.  [balance] is what one step of balancing does to a tree, and [unwind] what the loop
    up the tree does; both keep the entries and their order. *)
From S2P Require Import Prelude.
#[global] Open Scope Z_scope.

Module SearchTree.

Inductive tree := E | T (p h : Z) (l : tree) (k : Z) (r : tree).

#[export] Instance tree_eq_dec : EqDecision tree.
Proof. solve_decision. Defined.

Definition ptr (t : tree) : Z := match t with E => 0 | T p _ _ _ _ => p end.
Definition ht (t : tree) : Z := match t with E => 0 | T _ h _ _ _ => h end.

(** Addresses and keys, from left to right. *)
Fixpoint entries (t : tree) : list (Z * Z) :=
  match t with E => [] | T p _ l k r => entries l ++ (p, k) :: entries r end.

(** Stored heights are right, and the heights of siblings differ by at most one. *)
Fixpoint avl (t : tree) : Prop :=
  match t with
  | E => True
  | T _ h l _ r => h = Z.max (ht l) (ht r) + 1 /\ -1 <= ht l - ht r <= 1 /\ avl l /\ avl r
  end.

Lemma avl_ht t : avl t -> 0 <= ht t /\ (t ≠ E -> 0 < ht t).
Proof.
  induction t as [|p h l IHl k r IHr]; cbn; [done|]. intros (-> & _ & Hl & Hr).
  destruct (IHl Hl), (IHr Hr). split; [lia|]. lia.
Qed.

(** ** The number of entries
    A tree of height [n] has at least as many entries as the [n]-th of these numbers. *)
Fixpoint fewest (n : nat) : Z * Z :=
  match n with O => (0, 1) | S n => let '(a, b) := fewest n in (b, a + b + 1) end.

Lemma fewest_mono n : 0 <= (fewest n).1 /\ (fewest n).1 < (fewest n).2.
Proof. induction n as [|n IH]; cbn; [lia|]. destruct (fewest n). cbn in *. lia. Qed.
Lemma fewest_S n : fewest (S n) = ((fewest n).2, (fewest n).1 + (fewest n).2 + 1).
Proof. cbn. by destruct (fewest n). Qed.
Lemma fewest_le n m : (n <= m)%nat -> (fewest n).1 <= (fewest m).1.
Proof.
  induction 1 as [|m _ IH]; [lia|]. rewrite fewest_S. pose proof (fewest_mono m). cbn. lia.
Qed.

Lemma avl_entries t : avl t -> (fewest (Z.to_nat (ht t))).1 <= Z.of_nat (length (entries t)).
Proof.
  induction t as [|p h l IHl k r IHr]; [done|]. cbn [avl ht entries]. intros (-> & Hd & Hl & Hr).
  specialize (IHl Hl). specialize (IHr Hr). destruct (avl_ht l Hl) as [? _], (avl_ht r Hr) as [? _].
  set (m := Z.max (ht l) (ht r)). replace (Z.to_nat (m + 1)) with (S (Z.to_nat m)) by lia.
  rewrite fewest_S, length_app. cbn [fst length].
  assert ((fewest (Z.to_nat m)).2 <= (fewest (Z.to_nat (ht l))).1 + (fewest (Z.to_nat (ht r))).1 + 1); [|lia].
  destruct (Z.to_nat m) as [|n] eqn:En.
  { cbn. pose proof (fewest_mono (Z.to_nat (ht l))). pose proof (fewest_mono (Z.to_nat (ht r))). lia. }
  rewrite fewest_S. cbn [snd]. pose proof (fewest_S n) as Es.
  assert ((fewest n).2 = (fewest (S n)).1) as -> by (by rewrite Es).
  assert (Z.to_nat (ht l) = S n /\ (n <= Z.to_nat (ht r))%nat \/
    Z.to_nat (ht r) = S n /\ (n <= Z.to_nat (ht l))%nat) as [[-> Hle]|[-> Hle]] by lia;
    apply fewest_le in Hle; lia.
Qed.

(** Fewer than 2^64 entries: less than 92 levels. *)
Lemma avl_ht_bound t : avl t -> Z.of_nat (length (entries t)) < 2 ^ 64 -> ht t < 92.
Proof.
  intros Ht Hn. destruct (Z.lt_ge_cases (ht t) 92) as [|Hge]; [done|]. exfalso.
  pose proof (avl_entries t Ht). pose proof (fewest_le 92 (Z.to_nat (ht t)) ltac:(lia)) as Hle.
  assert (2 ^ 64 < (fewest 92).1) by (by vm_compute). lia.
Qed.

(** ** Balancing *)

(** The child on the side [d], and a node from the child on that side and the other one. *)
Definition sub (d : bool) (t : tree) : tree :=
  match t with E => E | T _ _ l _ r => if d then r else l end.
Definition join (d : bool) (p h k : Z) (this other : tree) : tree :=
  if d then T p h other k this else T p h this k other.

Definition rotate (d : bool) (p h k : Z) (x y : tree) : tree :=
  match y with
  | E => join d p h k y x
  | T py hy _ ky _ =>
      let z := sub (negb d) y in
      let o := sub d y in
      if ht o <? ht z then
        match z with
        | E => E
        | T pz _ _ kz _ =>
            join d pz (ht z + 1) kz (join d py (ht z) ky o (sub d z))
              (join d p (ht z) k (sub (negb d) z) x)
        end
      else join d py (ht z + 2) ky o (join d p (ht z + 1) k z x)
  end.

Definition balance (t : tree) : tree :=
  match t with
  | E => E
  | T p h l k r =>
      if (-1 <=? ht l - ht r) && (ht l - ht r <=? 1)
      then T p (if ht l <? ht r then ht r + 1 else ht l + 1) l k r
      else if ht l <? ht r then rotate true p h k l r else rotate false p h k r l
  end.

Ltac reassoc := repeat (rewrite <- app_assoc; cbn [app]).

Lemma entries_join d p h k t o :
  entries (join d p h k t o) = if d then entries o ++ (p, k) :: entries t else entries t ++ (p, k) :: entries o.
Proof. by destruct d. Qed.

(** A subtree that is higher than its sibling is a node. *)
Lemma higher_node t o : (ht o <? ht t) = true -> avl o -> exists p h l k r, t = T p h l k r.
Proof. intros Hlt Ho. destruct (avl_ht o Ho) as [? _]. zb. destruct t; cbn in *; [lia|eauto 6]. Qed.

Lemma rotate_entries d p h k x y : avl y -> entries (rotate d p h k x y) = entries (join d p h k y x).
Proof.
  destruct y as [|py hy yl ky yr]; [done|]. intros (_ & _ & Hl & Hr). cbn [rotate].
  destruct (_ <? _) eqn:Eh.
  - destruct (higher_node _ _ Eh ltac:(by destruct d)) as (pz & hz & zl & kz & zr & Ez). rewrite Ez.
    destruct d; cbn in *; subst; cbn; by reassoc.
  - destruct d; cbn; by reassoc.
Qed.

(** [y] is two levels higher than [x]: the rotation balances the tree, and it is as high as
    [y] or one level higher. *)
Lemma rotate_avl d p h k x y :
  avl x -> avl y -> ht y = ht x + 2 ->
  avl (rotate d p h k x y) /\ ht y <= ht (rotate d p h k x y) <= ht y + 1.
Proof.
  intros Hx Hy Hh. destruct (avl_ht x Hx) as [Hx0 _].
  destruct y as [|py hy yl ky yr]; [cbn in Hh; lia|]. destruct Hy as (-> & Hd & Hl & Hr).
  destruct (avl_ht _ Hl) as [? _], (avl_ht _ Hr) as [? _]. cbn [rotate]. cbn [ht] in *.
  destruct (_ <? _) eqn:Eh.
  - destruct (higher_node _ _ Eh ltac:(by destruct d)) as (pz & hz & zl & kz & zr & Ez).
    rewrite Ez in *. zb.
    assert (avl (T pz hz zl kz zr)) as (-> & ? & Hzl & Hzr) by (rewrite <- Ez; by destruct d).
    destruct (avl_ht _ Hzl) as [? _], (avl_ht _ Hzr) as [? _].
    destruct d; cbn in *; subst; cbn in *; split_and!; (done || lia).
  - zb. destruct d; cbn in *; split_and!; (done || lia).
Qed.

Lemma balance_entries t : avl (sub false t) -> avl (sub true t) -> entries (balance t) = entries t.
Proof.
  destruct t as [|p h l k r]; [done|]. cbn [sub balance]. intros Hl Hr.
  destruct (_ && _); [done|]. by destruct (_ <? _); rewrite rotate_entries.
Qed.

(** The heights of the children differ by at most two. *)
Lemma balance_avl p h l k r :
  avl l -> avl r -> -2 <= ht l - ht r <= 2 ->
  avl (balance (T p h l k r)) /\
  Z.max (ht l) (ht r) <= ht (balance (T p h l k r)) <= Z.max (ht l) (ht r) + 1 /\
  (-1 <= ht l - ht r <= 1 -> ht (balance (T p h l k r)) = Z.max (ht l) (ht r) + 1).
Proof.
  intros Hl Hr Hd. cbn [balance]. destruct (_ && _) eqn:E1.
  - zb. destruct (Z.ltb_spec (ht l) (ht r)); cbn; split_and!; (done || lia).
  - apply andb_false_iff in E1. destruct (_ <? _) eqn:E2; zb.
    + destruct (rotate_avl true p h k l r) as [? ?]; [done..| |]; [destruct E1; zb; lia|].
      split_and!; (done || destruct E1; zb; lia).
    + destruct (rotate_avl false p h k r l) as [? ?]; [done..| |]; [destruct E1; zb; lia|].
      split_and!; (done || destruct E1; zb; lia).
Qed.

(** ** The way down
    A node without the child on the side [d]; the innermost one comes first. *)
Inductive frame := F (d : bool) (p h k : Z) (other : tree).
Definition plug1 (f : frame) (t : tree) : tree := let 'F d p h k o := f in join d p h k t o.
Fixpoint plug (c : list frame) (t : tree) : tree :=
  match c with [] => t | f :: c => plug c (plug1 f t) end.

(** The entries before and after the place the way leads to. *)
Fixpoint before (c : list frame) : list (Z * Z) :=
  match c with
  | [] => []
  | F d p _ k o :: c => before c ++ (if d then entries o ++ [(p, k)] else [])
  end.
Fixpoint after (c : list frame) : list (Z * Z) :=
  match c with
  | [] => []
  | F d p _ k o :: c => (if d then [] else (p, k) :: entries o) ++ after c
  end.

Lemma plug_entries c t : entries (plug c t) = before c ++ entries t ++ after c.
Proof.
  revert t. induction c as [|[d p h k o] c IH]; intros t; cbn; [by rewrite app_nil_r|].
  rewrite IH, entries_join. destruct d; cbn; by reassoc.
Qed.

Lemma plug1_avl f t u : avl (plug1 f t) -> avl u -> ht u = ht t -> avl (plug1 f u) /\ ht (plug1 f u) = ht (plug1 f t).
Proof. destruct f as [[] p h k o]; cbn; intros (? & ? & ? & ?) ? ->; done. Qed.
Lemma plug1_inner f t : avl (plug1 f t) -> avl t.
Proof. destruct f as [[] p h k o]; cbn; tauto. Qed.
Lemma plug_inner c t : avl (plug c t) -> avl t.
Proof. revert t. induction c as [|f c IH]; intros t; [done|]. intros ?%IH. by eapply plug1_inner. Qed.

(** Exchanging a subtree for one of the same height. *)
Lemma plug_avl c t u : avl (plug c t) -> avl u -> ht u = ht t -> avl (plug c u).
Proof.
  revert t u. induction c as [|f c IH]; intros t u; [done|]. cbn. intros Ht Hu Hh.
  destruct (plug1_avl f t u) as [? ?]; [by eapply plug_inner|done..|]. by eapply IH.
Qed.

Lemma plug_ht_same c t u : ht u = ht t -> ht (plug c u) = ht (plug c t).
Proof.
  revert t u. induction c as [|[d p h k o] c IH]; intros t u Hh; [done|]. apply IH. by destruct d.
Qed.

(** The way is not longer than the tree is high. *)
Lemma plug_ht c t : avl (plug c t) -> Z.of_nat (length c) + ht t <= ht (plug c t).
Proof.
  revert t. induction c as [|f c IH]; intros t; cbn; [lia|]. intros Ht. specialize (IH _ Ht).
  apply plug_inner in Ht. destruct f as [[] p h k o]; cbn in *; lia.
Qed.

(** The loop up the tree: it stops where the height is what it was. *)
Definition fh (f : frame) : Z := let 'F _ _ h _ _ := f in h.
Fixpoint unwind (c : list frame) (t : tree) : tree :=
  match c with
  | [] => t
  | f :: c => let u := balance (plug1 f t) in if ht u =? fh f then plug c u else unwind c u
  end.

(** One step of it: a subtree [t0] of a balanced tree was exchanged for [t], the height of
    which differs by at most one. *)
Lemma balance_step f t0 t :
  avl (plug1 f t0) -> avl t -> -1 <= ht t - ht t0 <= 1 ->
  avl (balance (plug1 f t)) /\ -1 <= ht (balance (plug1 f t)) - ht (plug1 f t0) <= 1 /\
  entries (balance (plug1 f t)) = entries (plug1 f t).
Proof.
  destruct f as [[] p h k o]; cbn [plug1 join]; intros (-> & Hd & Ho & Ht0) Ht Hh;
    (rewrite balance_entries by done).
  - destruct (balance_avl p (Z.max (ht o) (ht t0) + 1) o k t) as (? & ? & ?); [done..|lia|].
    cbn [ht]. split_and!; (done || lia).
  - destruct (balance_avl p (Z.max (ht t0) (ht o) + 1) t k o) as (? & ? & ?); [done..|lia|].
    cbn [ht]. split_and!; (done || lia).
Qed.

Lemma unwind_ok c t0 t :
  avl (plug c t0) -> avl t -> -1 <= ht t - ht t0 <= 1 ->
  avl (unwind c t) /\ entries (unwind c t) = entries (plug c t).
Proof.
  revert t0 t. induction c as [|f c IH]; intros t0 t Hc Ht Hh; [done|]. cbn [unwind plug] in *.
  destruct (balance_step f t0 t) as (Hb & Hbh & He); [by eapply plug_inner|done..|].
  assert (fh f = ht (plug1 f t0)) as -> by (by destruct f as [[]]).
  destruct (Z.eqb_spec (ht (balance (plug1 f t))) (ht (plug1 f t0))).
  - split; [by eapply plug_avl|]. by rewrite !plug_entries, He.
  - destruct (IH _ _ Hc Hb Hbh) as [? ->]. split; [done|]. by rewrite !plug_entries, He.
Qed.

End SearchTree.
