(* ===== verification/SearchRep.v ===== *)
(** Search trees in memory.

    [holds X s c t]: the nodes in memory are those of the subtree [t] and of the way [c] that
    leads to it, and the rest of the memory, [X].  The steps of the functions of Search are
    proved against the functions of SearchTree on this relation. *)
From S2P Require Import Prelude KMonad Search SearchTree.

Module SearchRep.
Import Search SearchTree.

Definition addrs (t : tree) : list Z := (entries t).*1.
Fixpoint caddrs (c : list frame) : list Z :=
  match c with [] => [] | F _ p _ _ o :: c => p :: addrs o ++ caddrs c end.

(** ** The relation *)
Fixpoint rep (m : gmap Z node) (t : tree) : Prop :=
  match t with
  | E => True
  | T p h l k r => p ≠ 0 /\ m !! p = Some (Node k (ptr l) (ptr r) h) /\ rep m l /\ rep m r
  end.

(** A node from its child on the side [d] and the other one. *)
Definition nd (d : bool) (k h this other : Z) : node :=
  if d then Node k other this h else Node k this other h.
Fixpoint crep (s : trees) (c : list frame) (q : Z) : Prop :=
  match c with
  | [] => root s = q
  | F d p h k o :: c =>
      p ≠ 0 /\ nodes s !! p = Some (nd d k h q (ptr o)) /\ rep (nodes s) o /\ crep s c p
  end.

(** The addresses [A] are in use, in addition to [X]. *)
Record region (X m : gmap Z node) (A : list Z) : Prop := {
  region_nodup : NoDup A;
  region_ptrs : Forall (fun q => 0 < q < 2 ^ 64) A;
  region_apart : forall q, q ∈ A -> X !! q = None;
  region_rest : forall q, q ∉ A -> m !! q = X !! q }.

Lemma region_perm X m A B : A ≡ₚ B -> region X m A -> region X m B.
Proof.
  intros HAB [? ? Ha Hr]. split; [by rewrite <- HAB..| |]; intros q; rewrite <- HAB; auto.
Qed.
#[export] Instance region_proper X m : Proper ((≡ₚ) ==> iff) (region X m).
Proof. intros A B HAB. split; by apply region_perm.
Qed.

Definition holds (X : gmap Z node) (s : trees) (c : list frame) (t : tree) : Prop :=
  crep s c (ptr t) /\ rep (nodes s) t /\ region X (nodes s) (addrs t ++ caddrs c).

Definition slot_of (c : list frame) : slot :=
  match c with [] => Rootp | F d p _ _ _ :: _ => Sub p d end.
(** The entries of the array [a] below the one for the subtree itself, the last one first. *)
Fixpoint path (c : list frame) : list slot :=
  match c with [] => [] | _ :: c => slot_of c :: path c end.

Lemma addrs_join d p h k t o : addrs (join d p h k t o) ≡ₚ p :: addrs t ++ addrs o.
Proof. unfold addrs. rewrite entries_join. destruct d; rewrite fmap_app; cbn; solve_Permutation. Qed.

Lemma ptr_join d p h k t o : ptr (join d p h k t o) = p.
Proof. by destruct d. Qed.
Lemma rep_join m d p h k t o :
  rep m (join d p h k t o) <-> p ≠ 0 /\ m !! p = Some (nd d k h (ptr t) (ptr o)) /\ rep m t /\ rep m o.
Proof. destruct d; cbn; tauto. Qed.

(** A subtree on the way, or a larger subtree at the end of a shorter way. *)
Lemma holds_up X s f c t : holds X s (f :: c) t <-> holds X s c (plug1 f t).
Proof.
  destruct f as [d p h k o]. unfold holds. cbn [plug1 crep caddrs].
  rewrite addrs_join, ptr_join, rep_join.
  assert ((p :: addrs t ++ addrs o) ++ caddrs c ≡ₚ addrs t ++ p :: addrs o ++ caddrs c) as ->
    by solve_Permutation. tauto.
Qed.
Lemma holds_plug X s c t : holds X s c t <-> holds X s [] (plug c t).
Proof. revert t. induction c as [|f c IH]; intros t; [done|]. by rewrite holds_up, IH. Qed.

Lemma rep_frame m m' t : (forall q, q ∈ addrs t -> m' !! q = m !! q) -> rep m t -> rep m' t.
Proof.
  induction t as [|p h l IHl k r IHr]; [done|]. unfold addrs. cbn. rewrite fmap_app. cbn.
  intros Hq (? & Hp & Hl & Hr). split_and!; [done| | |].
  - rewrite Hq; [done|]. set_solver.
  - apply IHl; [|done]. intros q Hin. apply Hq. set_solver.
  - apply IHr; [|done]. intros q Hin. apply Hq. set_solver.
Qed.
Lemma crep_frame s s' c q :
  root s' = root s -> (forall p, p ∈ caddrs c -> nodes s' !! p = nodes s !! p) ->
  crep s c q -> crep s' c q.
Proof.
  intros Hr. revert q. induction c as [|[d p h k o] c IH]; intros q; cbn; [congruence|].
  intros Hq (? & Hp & Ho & Hc). split_and!; [done| | |].
  - rewrite Hq; [done|]. set_solver.
  - eapply rep_frame; [|done]. intros ??. apply Hq. set_solver.
  - apply IH; [|done]. intros ??. apply Hq. set_solver.
Qed.

(** ** Reading and writing *)
Lemma wp_node n s x Q : n ≠ 0 -> nodes s !! n = Some x -> Q x s -> wp (load n) s Q.
Proof. intros Hn Hx HQ. unfold wp, load. by rewrite (proj2 (Z.eqb_neq _ _) Hn), Hx. Qed.
Lemma wp_set_node n f s x Q :
  n ≠ 0 -> nodes s !! n = Some x -> Q tt (Trees (root s) (<[n := f x]> (nodes s))) ->
  wp (update n f) s Q.
Proof. intros Hn Hx HQ. unfold update. wp1. eapply wp_node; [done..|]. by wp1. Qed.

Lemma wp_height t s Q : rep (nodes s) t -> Q (ht t) s -> wp (height (ptr t)) s Q.
Proof.
  destruct t; cbn [rep ptr ht]; intros Ht HQ; unfold height; [by apply wp_ret|].
  destruct Ht as (Hp & Hn & _). rewrite (proj2 (Z.eqb_neq _ _) Hp). wp1.
  eapply wp_node; [done..|]. by wp1.
Qed.

Lemma wp_read X s c t Q : holds X s c t -> Q (ptr t) s -> wp (read (slot_of c)) s Q.
Proof.
  intros (Hc & _) HQ. destruct c as [|[d p h k o] c]; cbn in *.
  - apply wp_gets. by rewrite Hc.
  - destruct Hc as (? & ? & _). wp1. eapply wp_node; [done..|]. wp1. by destruct d.
Qed.

(** The nodes of a subtree are arranged anew, and the slot gets a new root. *)
Lemma wp_relink X s c t m' t' v Q :
  holds X s c t -> v = ptr t' -> rep m' t' -> region X m' (addrs t' ++ caddrs c) ->
  (forall q, q ∈ caddrs c -> m' !! q = nodes s !! q) ->
  (forall s', holds X s' c t' -> Q tt s') ->
  wp (write (slot_of c) v) (Trees (root s) m') Q.
Proof.
  intros (Hc & Ht & Hr) -> Ht' [Hnd Hps Hap Hre] Hm HQ. destruct c as [|[d p h k o] c]; cbn [slot_of write].
  - wp1. apply HQ. by repeat split.
  - assert (p ∈ caddrs (F d p h k o :: c)) as Hpc by (cbn; set_solver).
    destruct Hc as (Hp0 & Hp & Ho & Hc).
    eapply wp_set_node; [done|cbn [nodes]; rewrite Hm by done; exact Hp|]. apply HQ.
    apply NoDup_app in Hnd as Hnd'. destruct Hnd' as (_ & Hdis & Hndc). cbn [caddrs] in Hndc.
    apply NoDup_cons in Hndc as [Hpo Hndc].
    split; [|split].
    + cbn [crep nodes root]. split_and!; [done| | |].
      * rewrite lookup_insert_eq. by destruct d.
      * eapply rep_frame; [|exact Ho]. intros q Hq. rewrite lookup_insert_ne by set_solver.
        apply Hm. cbn. set_solver.
      * eapply crep_frame; [..|exact Hc]; [done|]. cbn [nodes]. intros q Hq.
        rewrite lookup_insert_ne by set_solver. apply Hm. cbn. set_solver.
    + cbn [nodes]. eapply rep_frame; [|exact Ht']. intros q Hq.
      rewrite lookup_insert_ne; [done|]. intros <-. by apply (Hdis p).
    + cbn [nodes]. split; [done..|]. intros q Hq.
      rewrite lookup_insert_ne; [by apply Hre|]. set_solver.
Qed.

(** ** Balancing *)
Lemma nd_child d k h a b : child (nd d k h a b) d = a /\ child (nd d k h a b) (negb d) = b.
Proof. by destruct d. Qed.
Lemma nd_h d k h a b : Search.h (nd d k h a b) = h.
Proof. by destruct d. Qed.
Lemma nd_this d k h a b v : set_child d v (nd d k h a b) = nd d k h v b.
Proof. by destruct d. Qed.
Lemma nd_other d k h a b v : set_child (negb d) v (nd d k h a b) = nd d k h a v.
Proof. by destruct d. Qed.
Lemma nd_set_h d k h a b v : set_h v (nd d k h a b) = nd d k v a b.
Proof. by destruct d. Qed.
Lemma node_nd d p h l k r :
  exists t o, T p h l k r = join d p h k t o /\ t = sub d (T p h l k r) /\ o = sub (negb d) (T p h l k r).
Proof. destruct d; by eexists _, _. Qed.
Lemma sub_join d p h k t o : sub d (join d p h k t o) = t /\ sub (negb d) (join d p h k t o) = o.
Proof. by destruct d. Qed.
Lemma ht_join d p h k t o : ht (join d p h k t o) = h.
Proof. by destruct d. Qed.

(** The two rotations, on both sides. *)
Lemma rotate_single d p h k x py hy ky o z :
  (ht o <? ht z) = false ->
  rotate d p h k x (join d py hy ky o z) = join d py (ht z + 2) ky o (join d p (ht z + 1) k z x).
Proof. intros Hh. destruct d; cbn; by rewrite Hh. Qed.
Lemma rotate_double d p h k x py hy ky o pz hz kz zd zn :
  (ht o <? hz) = true ->
  rotate d p h k x (join d py hy ky o (join d pz hz kz zd zn)) =
  join d pz (hz + 1) kz (join d py hz ky o zd) (join d p hz k zn x).
Proof. intros Hh. destruct d; cbn; by rewrite Hh. Qed.

Ltac nd_simp :=
  repeat first
    [ rewrite (proj1 (nd_child _ _ _ _ _)) | rewrite (proj2 (nd_child _ _ _ _ _)) | rewrite nd_h
    | rewrite nd_this | rewrite nd_other | rewrite nd_set_h ].
Ltac finds := cbn [nodes]; repeat (rewrite lookup_insert_eq || rewrite lookup_insert_ne by congruence); done.
Ltac tree_step :=
  repeat first
    [ wp1
    | eapply wp_node; [done|finds|]
    | eapply wp_set_node; [done|finds|]
    | apply wp_height; [done|] ]; nd_simp; cbn [root nodes].

Lemma region_insert X m A q x : q ∈ A -> region X m A -> region X (<[q := x]> m) A.
Proof.
  intros Hq [? ? ? Hr]. split; [done..|]. intros q' Hq'. rewrite lookup_insert_ne by set_solver. auto.
Qed.
Lemma rep_insert m t q x : q ∉ addrs t -> rep m t -> rep (<[q := x]> m) t.
Proof. intros Hq. apply rep_frame. intros q' Hq'. apply lookup_insert_ne. set_solver. Qed.

(** Subtrees keep their nodes when nodes outside of them change. *)
Ltac reps := repeat (apply rep_insert; [done|]); done.
(** Nodes in a list of addresses without duplicates are different. *)
Ltac distinct H :=
  repeat match type of H with
  | NoDup (_ :: _) => let Hn := fresh "Hn" in apply NoDup_cons in H as [Hn H];
      rewrite ?not_elem_of_cons, ?not_elem_of_app in Hn; destruct_and! Hn
  end.

Lemma wp_rot_double X s c d p h k x py hy ky o pz hz kz zd zn Q :
  holds X s c (join d p h k (join d py hy ky o (join d pz hz kz zd zn)) x) ->
  (ht o <? hz) = true -> 0 <= hz < 200 -> 0 <= h < 200 ->
  (forall s', holds X s' c (join d pz (hz + 1) kz (join d py hz ky o zd) (join d p hz k zn x)) ->
    Q (hz + 1 - h) s') ->
  wp (rot (slot_of c) p d) s Q.
Proof.
  intros Hs Hh Hhz Hh0 HQ. pose proof Hs as (_ & Hr & Hreg).
  rewrite !rep_join, !ptr_join in Hr.
  destruct Hr as (Hp0 & Hp & (Hpy0 & Hpy & Ho & (Hpz0 & Hpz & Hzd & Hzn)) & Hx).
  pose (A := p :: py :: pz :: addrs o ++ addrs zd ++ addrs zn ++ addrs x ++ caddrs c).
  assert (region X (nodes s) A) as Hreg'.
  { eapply region_perm; [|exact Hreg]. rewrite !addrs_join. subst A. solve_Permutation. }
  pose proof (region_nodup _ _ _ Hreg') as Hnd. unfold A in Hnd. distinct Hnd.
  unfold rot. wp1. eapply wp_node; [done..|]. nd_simp. wp1. eapply wp_node; [done..|]. nd_simp.
  wp1. rewrite <- (ptr_join d pz hz kz zd zn). apply wp_height. { by rewrite rep_join. }
  wp1. apply wp_height; [done|]. rewrite ht_join, ptr_join, Hh.
  do 3 tree_step. rewrite (swrap_small 32 (hz + 1)) by (unfold in_s; lia).
  eapply (wp_relink X s c _ _ (join d pz (hz + 1) kz (join d py hz ky o zd) (join d p hz k zn x)));
    [exact Hs|by rewrite ptr_join| | | |].
  - rewrite !rep_join, !ptr_join. split_and!; (finds || reps).
  - apply (region_perm _ _ A); [rewrite !addrs_join; subst A; solve_Permutation|].
    repeat (apply region_insert; [subst A; rewrite !elem_of_cons; tauto|]). exact Hreg'.
  - intros q Hq. rewrite !lookup_insert_ne by congruence. done.
  - intros s' Hs'. pose proof Hs' as (_ & Hr' & _).
    rewrite rep_join in Hr'. destruct Hr' as (_ & Hz' & _). tree_step.
    rewrite swrap_small by (unfold in_s; lia). by apply HQ.
Qed.

Lemma wp_rot_single X s c d p h k x py hy ky o z Q :
  holds X s c (join d p h k (join d py hy ky o z) x) ->
  (ht o <? ht z) = false -> 0 <= ht z < 200 -> 0 <= h < 200 ->
  (forall s', holds X s' c (join d py (ht z + 2) ky o (join d p (ht z + 1) k z x)) ->
    Q (ht z + 2 - h) s') ->
  wp (rot (slot_of c) p d) s Q.
Proof.
  intros Hs Hh Hhz Hh0 HQ. pose proof Hs as (_ & Hr & Hreg).
  rewrite !rep_join, !ptr_join in Hr. destruct Hr as (Hp0 & Hp & (Hpy0 & Hpy & Ho & Hz) & Hx).
  pose (A := p :: py :: addrs o ++ addrs z ++ addrs x ++ caddrs c).
  assert (region X (nodes s) A) as Hreg'.
  { eapply region_perm; [|exact Hreg]. rewrite !addrs_join. subst A. solve_Permutation. }
  pose proof (region_nodup _ _ _ Hreg') as Hnd. unfold A in Hnd. distinct Hnd.
  unfold rot. wp1. eapply wp_node; [done..|]. nd_simp. wp1. eapply wp_node; [done..|]. nd_simp.
  wp1. apply wp_height; [done|]. wp1. apply wp_height; [done|]. rewrite Hh.
  tree_step. rewrite !(swrap_small 32 (ht z + _)) by (unfold in_s; lia).
  eapply (wp_relink X s c _ _ (join d py (ht z + 2) ky o (join d p (ht z + 1) k z x)));
    [exact Hs|by rewrite ptr_join| | | |].
  - rewrite !rep_join, !ptr_join. split_and!; (finds || reps).
  - apply (region_perm _ _ A); [rewrite !addrs_join; subst A; solve_Permutation|].
    repeat (apply region_insert; [subst A; rewrite !elem_of_cons; tauto|]). exact Hreg'.
  - intros q Hq. rewrite !lookup_insert_ne by congruence. done.
  - intros s' Hs'. pose proof Hs' as (_ & Hr' & _).
    rewrite rep_join in Hr'. destruct Hr' as (_ & Hz' & _). tree_step.
    rewrite swrap_small by (unfold in_s; lia). by apply HQ.
Qed.

Lemma wp_rot X s c d p h k x y Q :
  holds X s c (join d p h k y x) -> avl y -> ht y = ht x + 2 -> 0 <= ht x < 190 -> 0 <= h < 200 ->
  (forall s', holds X s' c (rotate d p h k x y) -> Q (ht (rotate d p h k x y) - h) s') ->
  wp (rot (slot_of c) p d) s Q.
Proof.
  intros Hs Hy Hh Hx Hh0 HQ. destruct y as [|py hy yl ky yr]; [cbn in Hh; lia|].
  destruct (node_nd d py hy yl ky yr) as (o & z & Ey & _). rewrite Ey in *.
  assert (avl o /\ avl z /\ hy = Z.max (ht o) (ht z) + 1) as (Ho & Hz & ->)
    by (destruct d; cbn in Hy; destruct Hy as (-> & _ & ? & ?); split_and!; (done || lia)).
  rewrite ht_join in Hh. destruct (avl_ht _ Ho) as [? _], (avl_ht _ Hz) as [? _].
  destruct (ht o <? ht z) eqn:Eh.
  - destruct (higher_node _ _ Eh Ho) as (pz & hz & zl & kz & zr & ->).
    destruct (node_nd d pz hz zl kz zr) as (zd & zn & Ez & _). rewrite Ez in *.
    rewrite ht_join in *. rewrite rotate_double in HQ by done. rewrite ht_join in HQ.
    eapply wp_rot_double; [exact Hs|done|lia..|exact HQ].
  - rewrite rotate_single in HQ by done. rewrite ht_join in HQ.
    eapply wp_rot_single; [exact Hs|done|lia..|exact HQ].
Qed.

(** A node gets a new height or a new key. *)
Lemma holds_node X s c p h l k r h' k' :
  holds X s c (T p h l k r) ->
  holds X (Trees (root s) (<[p := Node k' (ptr l) (ptr r) h']> (nodes s))) c (T p h' l k' r).
Proof.
  intros (Hc & (Hp0 & Hp & Hl & Hr) & Hreg).
  assert (region X (nodes s) (p :: addrs l ++ addrs r ++ caddrs c)) as Hreg'.
  { eapply region_perm; [|exact Hreg]. rewrite (addrs_join false p h k l r : addrs (T _ _ _ _ _) ≡ₚ _).
    solve_Permutation. }
  pose proof (region_nodup _ _ _ Hreg') as Hnd. distinct Hnd. split; [|split].
  - eapply crep_frame; [..|exact Hc]; [done|]. intros q Hq. apply lookup_insert_ne. congruence.
  - cbn. split_and!; (finds || reps).
  - cbn [nodes]. apply (region_perm _ _ (p :: addrs l ++ addrs r ++ caddrs c)).
    + rewrite (addrs_join false p h' k' l r : addrs (T _ _ _ _ _) ≡ₚ _). solve_Permutation.
    + apply region_insert; [|done]. rewrite elem_of_cons. tauto.
Qed.

(** [__tsearch_balance]: the tree is balanced, the result is how much higher it is than its
    root said. *)
Lemma wp_balance X s c p h l k r Q :
  holds X s c (T p h l k r) -> avl l -> avl r -> -2 <= ht l - ht r <= 2 ->
  ht l < 190 -> ht r < 190 -> 0 <= h < 200 ->
  (forall s', holds X s' c (balance (T p h l k r)) -> Q (ht (balance (T p h l k r)) - h) s') ->
  wp (tsearch_balance (slot_of c)) s Q.
Proof.
  intros Hs Hl Hr Hd Hlh Hrh Hh HQ. pose proof Hs as (_ & Hrep & Hreg).
  destruct Hrep as (Hp0 & Hp & Hl' & Hr'). destruct (avl_ht _ Hl) as [? _], (avl_ht _ Hr) as [? _].
  unfold tsearch_balance. wp1. eapply wp_read; [exact Hs|]. cbn [ptr].
  wp1. eapply wp_node; [done..|]. cbn [child a0 a1 Search.h].
  wp1. apply wp_height; [done|]. wp1. apply wp_height; [done|].
  assert ((u32 (ht l - ht r + 1) <? 3) = ((-1 <=? ht l - ht r) && (ht l - ht r <=? 1))) as ->.
  { revert Hd. generalize (ht l - ht r). intros x Hx.
    assert (x = -2 \/ x = -1 \/ x = 0 \/ x = 1 \/ x = 2) as Hc by lia.
    by destruct Hc as [->|[->|[->|[->| ->]]]]. }
  cbn [balance] in HQ. destruct (_ && _) eqn:Eb.
  - wp1. eapply wp_set_node; [done..|]. wp1.
    assert ((if ht l <? ht r then s32 (ht r + 1) else s32 (ht l + 1)) =
      (if ht l <? ht r then ht r + 1 else ht l + 1)) as ->
      by (destruct (_ <? _); apply swrap_small; unfold in_s; lia).
    rewrite swrap_small by (unfold in_s; destruct (_ <? _); lia).
    apply HQ. by apply (holds_node X s c p h l k r).
  - apply andb_false_iff in Eb. destruct (_ <? _) eqn:Elt; zb.
    + apply (wp_rot X s c true p h k l r); (done || destruct Eb; zb; lia).
    + apply (wp_rot X s c false p h k r l); (done || destruct Eb; zb; lia).
Qed.
End SearchRep.
