(* ===== verification/SearchProps.v ===== *)
(** Search trees are ordered sets.

    [ordered] is the order of the keys, [seek], [place] and [without] are the operations of an
    ordered list of entries: the specification of [tsearch], [tfind] and [tdelete].  The laws
    of the caller's comparison are the class [Comparator], those of [malloc] the class
    [NodeSupply]. *)
From stdpp Require Import sorting.
From S2P Require Import Prelude KMonad Search SearchTree SearchRep.

Module SearchProps.
Import Search SearchTree SearchRep.

(** ** Specification *)
Class Comparator (cmp : Z -> Z -> Z) : Prop := {
  cmp_flip : forall a b, 0 < cmp a b <-> cmp b a < 0;
  cmp_le_lt : forall a b c, cmp a b <= 0 -> cmp b c < 0 -> cmp a c < 0;
  cmp_lt_le : forall a b c, cmp a b < 0 -> cmp b c <= 0 -> cmp a c < 0 }.

Class NodeSupply (malloc : gmap Z node -> Z) : Prop :=
  malloc_fresh m : malloc m = 0 \/ 0 < malloc m < 2 ^ 64 /\ m !! malloc m = None.

Section Spec.
Context (cmp : Z -> Z -> Z).

Definition keys (t : tree) : list Z := (entries t).*2.
Definition ordered : list Z -> Prop := StronglySorted (fun a b => cmp a b < 0).

(** The entry with the key [k]; a new entry put in its place. *)
Fixpoint seek (k : Z) (es : list (Z * Z)) : option Z :=
  match es with [] => None | (p, k') :: es => if cmp k k' =? 0 then Some p else seek k es end.
Fixpoint place (e : Z * Z) (es : list (Z * Z)) : list (Z * Z) :=
  match es with
  | [] => [e]
  | e' :: es => if cmp e.2 e'.2 <? 0 then e :: e' :: es else e' :: place e es
  end.
Definition without (k : Z) (ks : list Z) : list Z := filter (fun k' => cmp k k' ≠ 0) ks.

Context `{!Comparator cmp}.

Definition below (k : Z) (es : list (Z * Z)) : Prop := Forall (fun e => 0 < cmp k e.2) es.
Definition above (k : Z) (es : list (Z * Z)) : Prop := Forall (fun e => cmp k e.2 < 0) es.

Lemma cmp_sym a b : cmp a b = 0 -> cmp b a = 0.
Proof. intros H. pose proof (cmp_flip a b). pose proof (cmp_flip b a). lia. Qed.

Lemma seek_below k es es' : below k es -> seek k (es ++ es') = seek k es'.
Proof.
  induction 1 as [|[p k'] es Hk _ IH]; [done|]. cbn in *. by rewrite (proj2 (Z.eqb_neq _ _)) by lia.
Qed.
Lemma seek_above k es : above k es -> seek k es = None.
Proof. induction 1 as [|[p k'] es Hk _ IH]; [done|]. cbn in *. by rewrite (proj2 (Z.eqb_neq _ _)) by lia. Qed.
Lemma place_between p k es es' : below k es -> above k es' -> place (p, k) (es ++ es') = es ++ (p, k) :: es'.
Proof.
  intros Hb Ha. induction Hb as [|e es Hk _ IH]; cbn in *.
  - destruct Ha as [|e es' Hk]; cbn; [done|]. by rewrite (proj2 (Z.ltb_lt _ _)).
  - rewrite (proj2 (Z.ltb_ge _ _)) by lia. by rewrite IH.
Qed.
Lemma without_apart k es : below k es \/ above k es -> without k es.*2 = es.*2.
Proof.
  unfold without. intros H. induction es as [|e es IH]; [done|]. rewrite fmap_cons.
  assert (cmp k e.2 ≠ 0 /\ (below k es \/ above k es)) as [? ?].
  { destruct H as [H|H]; apply Forall_cons in H as [? ?]; (split; [lia|by constructor]). }
  rewrite filter_cons_True by done. by rewrite IH.
Qed.

(** An entry of an ordered list: what is before and after it. *)
Lemma ordered_at es p k' es' k :
  ordered (es ++ (p, k') :: es').*2 ->
  (0 <= cmp k k' -> below k es) /\ (cmp k k' <= 0 -> above k es').
Proof.
  unfold ordered, below, above. rewrite fmap_app, fmap_cons. cbn [snd].
  intros (H1 & _ & H2)%StronglySorted_app. apply StronglySorted_inv in H2 as [_ H2].
  split; intros Hk; apply Forall_forall; intros [q k''] Hin.
  - assert (cmp k'' k' < 0).
    { apply H1; [|by left]. apply list_elem_of_fmap. by exists (q, k''). }
    cbn. apply cmp_flip. eapply cmp_lt_le; [done|]. pose proof (cmp_flip k k'). pose proof (cmp_flip k' k). lia.
  - cbn. eapply cmp_le_lt; [exact Hk|]. rewrite Forall_forall in H2. apply H2.
    apply list_elem_of_fmap. by exists (q, k'').
Qed.
End Spec.

(** ** The height of a tree in memory *)
Lemma region_length X m A : region X m A -> Z.of_nat (length A) < 2 ^ 64.
Proof.
  intros [Hnd Hp _ _]. assert (A ⊆+ seqZ 1 (2 ^ 64 - 1)) as Hs%submseteq_length.
  { apply NoDup_submseteq; [done|]. intros q Hq. apply elem_of_seqZ.
    rewrite Forall_forall in Hp. specialize (Hp q Hq). lia. }
  rewrite length_seqZ in Hs. lia.
Qed.
Lemma holds_ht X s t : holds X s [] t -> avl t -> ht t < 92.
Proof.
  intros (_ & _ & Hreg) Ht. apply avl_ht_bound; [done|]. apply region_length in Hreg.
  rewrite app_nil_r in Hreg. unfold addrs in Hreg. by rewrite length_fmap in Hreg.
Qed.

Lemma addrs_plug c t : addrs (plug c t) ≡ₚ addrs t ++ caddrs c.
Proof.
  revert t. induction c as [|[d p h k o] c IH]; intros t; cbn [plug plug1 caddrs];
    [by rewrite app_nil_r|]. rewrite IH, addrs_join. solve_Permutation.
Qed.
Lemma rep_some m t q : rep m t -> q ∈ addrs t -> is_Some (m !! q).
Proof.
  induction t as [|p h l IHl k r IHr]; cbn; [set_solver|]. intros (_ & Hp & Hl & Hr).
  unfold addrs. cbn. rewrite fmap_app, elem_of_app, fmap_cons, elem_of_cons.
  intros [?|[->|?]]; eauto.
Qed.
Lemma holds_some X s c t q : holds X s c t -> q ∈ addrs t ++ caddrs c -> is_Some (nodes s !! q).
Proof.
  rewrite holds_plug, <- addrs_plug. intros (_ & Hr & _). by apply rep_some.
Qed.

(** ** Searching *)
Section Ops.
Context (cmp : Z -> Z -> Z) `{!Comparator cmp}.
Context (malloc : gmap Z node -> Z) `{!NodeSupply malloc}.

(** Where the key is, or where it belongs. *)
Fixpoint locate (k : Z) (t : tree) (c : list frame) : tree * list frame :=
  match t with
  | E => (E, c)
  | T p h l k' r =>
      if cmp k k' =? 0 then (t, c)
      else if 0 <? cmp k k' then locate k r (F true p h k' l :: c)
      else locate k l (F false p h k' r :: c)
  end.

Lemma locate_plug k t c : plug (locate k t c).2 (locate k t c).1 = plug c t.
Proof.
  revert c. induction t as [|p h l IHl k' r IHr]; intros c; [done|]. cbn [locate].
  destruct (_ =? _); [done|]. destruct (_ <? _); [by rewrite IHr|by rewrite IHl].
Qed.
Lemma locate_key k t c p h l k' r : (locate k t c).1 = T p h l k' r -> cmp k k' = 0.
Proof.
  revert c. induction t as [|p1 h1 l1 IHl k1 r1 IHr]; intros c; [done|]. cbn [locate].
  destruct (_ =? _) eqn:Ek; [|destruct (_ <? _); eauto]. cbn. zb. by intros [= -> -> -> -> ->].
Qed.

Lemma locate_between k t c :
  ordered cmp (keys t) -> below cmp k (before c) -> above cmp k (after c) ->
  below cmp k (before (locate k t c).2) /\ above cmp k (after (locate k t c).2).
Proof.
  revert c. induction t as [|p h l IHl k' r IHr]; intros c Ho Hb Ha; [done|]. cbn [locate].
  destruct (_ =? _) eqn:Ek; [done|]. unfold keys in *. cbn [entries] in Ho.
  destruct (ordered_at cmp _ _ _ _ k Ho) as [Hlo Hhi].
  rewrite fmap_app in Ho. apply StronglySorted_app in Ho as (_ & Hl & Hr).
  apply StronglySorted_inv in Hr as [Hr _]. zb.
  destruct (_ <? _) eqn:Es; zb.
  - apply IHr; [done| |by cbn]. cbn. unfold below in *. rewrite !Forall_app, Forall_singleton.
    cbn. split_and!; [done|apply Hlo; lia|lia].
  - apply IHl; [done|by cbn; rewrite app_nil_r|]. cbn. unfold above in *.
    rewrite Forall_cons, Forall_app. cbn. split_and!; [lia|apply Hhi; lia|done].
Qed.

(** The way down. *)
Lemma wp_search_down X k base room c t s Q :
  holds X s c t -> avl t -> ht t <= Z.of_nat room ->
  (let '(t', c') := locate k t c in Q (ptr t', slot_of c' :: path c' ++ base) s) ->
  wp (search_down cmp room k (ptr t) (slot_of c :: path c ++ base)) s Q.
Proof.
  revert c room. induction t as [|p h l IHl k' r IHr]; intros c room Hs Ht Hroom HQ.
  { destruct room; by apply wp_ret. }
  pose proof Hs as (_ & (Hp0 & Hp & _) & _). destruct Ht as (-> & Hd & Hl & Hr).
  destruct (avl_ht _ Hl) as [? _], (avl_ht _ Hr) as [? _]. cbn [ht] in Hroom.
  destruct room as [|room]; [lia|]. cbn [search_down ptr locate] in *.
  rewrite (proj2 (Z.eqb_neq _ _) Hp0). wp1. eapply wp_node; [done..|]. cbn [key child a0 a1].
  destruct (_ =? _); [by wp1|]. destruct (_ <? _).
  - apply (IHr (F true p (Z.max (ht l) (ht r) + 1) k' l :: c)); [|done|lia|done].
    by apply holds_up.
  - apply (IHl (F false p (Z.max (ht l) (ht r) + 1) k' r :: c)); [|done|lia|done].
    by apply holds_up.
Qed.

(** The way up. *)
Lemma wp_rebalance X c t0 t s Q :
  holds X s c t -> avl (plug c t0) -> ht (plug c t0) < 180 -> avl t -> -1 <= ht t - ht t0 <= 1 ->
  (forall s', holds X s' [] (unwind c t) -> Q tt s') ->
  wp (rebalance (path c)) s Q.
Proof.
  revert t0 t s. induction c as [|f c IH]; intros t0 t s Hs Hc Hch Ht Hd HQ; cbn [path rebalance].
  { apply wp_ret. by apply HQ. }
  cbn [plug] in *. pose proof (plug_ht _ _ Hc). pose proof (plug_inner _ _ Hc) as Hf.
  destruct (balance_step f t0 t) as (Hb & Hbd & _); [done..|].
  apply holds_up in Hs. wp1.
  assert (fh f = ht (plug1 f t0)) as Hfh by (by destruct f as [[]]).
  assert (exists p l k r, plug1 f t = T p (fh f) l k r /\ avl l /\ avl r /\
    -2 <= ht l - ht r <= 2 /\ ht l < 190 /\ ht r < 190 /\ 0 <= fh f < 200) as
    (p & l & k & r & Ef & Hl & Hr & ? & ? & ? & ?).
  { destruct (avl_ht _ Hf) as [? _]. destruct f as [[] p h k o]; cbn in Hf; destruct Hf as (-> & ? & ? & ?);
      cbn in *; eexists _, _, _, _; (split; [done|]); split_and!; (done || lia). }
  eapply wp_balance; [rewrite <- Ef; exact Hs|done..|]. rewrite <- Ef. intros s' Hs'.
  cbn [unwind] in HQ. unfold truth.
  assert ((ht (balance (plug1 f t)) - fh f =? 0) = (ht (balance (plug1 f t)) =? fh f)) as -> by lia.
  destruct (_ =? _) eqn:Eh; cbn.
  - apply wp_ret, HQ. by rewrite <- holds_plug.
  - eapply IH; [exact Hs'|exact Hc|lia|done|lia|exact HQ].
Qed.

(** ** Inserting
    A search tree in memory, next to [X]. *)
Record search_tree (X : gmap Z node) (s : trees) (t : tree) : Prop := {
  st_holds : holds X s [] t;
  st_avl : avl t;
  st_ordered : ordered cmp (keys t) }.

(** Where the search ends: at the key, or at an empty place between smaller and larger keys. *)
Lemma locate_cases X s k t :
  search_tree X s t ->
  exists t' c', locate k t [] = (t', c') /\ plug c' t' = t /\ holds X s c' t' /\
    below cmp k (before c') /\ above cmp k (after c') /\
    match t' with E => seek cmp k (entries t) = None
    | T p h l k' r => cmp k k' = 0 /\ seek cmp k (entries t) = Some p /\
        below cmp k (entries l) /\ above cmp k (entries r) end.
Proof.
  intros [Hs Ht Ho]. destruct (locate k t []) as [t' c'] eqn:El. exists t', c'.
  pose proof (locate_plug k t []) as Hp. pose proof (locate_between k t [] Ho ltac:(constructor) ltac:(constructor)) as [Hb Ha].
  pose proof (locate_key k t []) as Hk. rewrite El in *. cbn [fst snd plug] in *.
  split_and!; [done|done|by rewrite holds_plug, Hp|done|done|]. unfold keys in Ho.
  rewrite <- Hp, plug_entries in *. rewrite seek_below by done.
  destruct t' as [|p h l k' r]; cbn [entries app].
  { by apply seek_above. }
  specialize (Hk _ _ _ _ _ eq_refl). cbn [entries] in Ho. rewrite <- app_assoc in Ho. cbn in Ho.
  rewrite app_assoc in Ho. apply (ordered_at cmp _ _ _ _ k) in Ho as [Hlo Hhi].
  specialize (Hlo ltac:(lia)). specialize (Hhi ltac:(lia)).
  apply Forall_app in Hlo as [_ Hlo]. apply Forall_app in Hhi as [Hhi _].
  split_and!; [done| |done|done]. rewrite <- app_assoc, seek_below by done. cbn. by rewrite Hk.
Qed.

Lemma place_ordered p k es es' :
  below cmp k es -> above cmp k es' -> ordered cmp (es ++ es').*2 -> ordered cmp (es ++ (p, k) :: es').*2.
Proof.
  unfold ordered, below, above. rewrite !fmap_app, fmap_cons. cbn [snd].
  intros Hb Ha (H1 & H2 & H3)%StronglySorted_app. apply StronglySorted_app. rewrite Forall_forall in Hb.
  split_and!; [|done|].
  - intros x y Hx [->|Hy]%elem_of_cons; [|by apply H1]. apply list_elem_of_fmap in Hx as ([q k'] & -> & Hin).
    by apply cmp_flip, (Hb (q, k')).
  - apply StronglySorted_cons. split; [|done]. apply Forall_fmap. exact Ha.
Qed.

(** The new node at the end of the way. *)
Lemma wp_new_node X s c k r Q :
  holds X s c E -> 0 < r < 2 ^ 64 -> nodes s !! r = None ->
  (forall s', holds X s' c (T r 1 E k E) -> Q tt s') ->
  wp (write (slot_of c) r) (Trees (root s) (<[r := Node k 0 0 1]> (nodes s))) Q.
Proof.
  intros Hs Hr Hf HQ. assert (r ∉ caddrs c) as Hrc.
  { intros Hin. destruct (holds_some X s c E r Hs Hin) as [? ?]. congruence. }
  pose proof Hs as (_ & _ & [Hnd Hp Ha Hre]).
  eapply (wp_relink X s c _ _ (T r 1 E k E)); [done|done| | | |done].
  - cbn. split_and!; [lia|by rewrite lookup_insert_eq|done..].
  - change (addrs (T r 1 E k E) ++ caddrs c) with (r :: caddrs c). split.
    + by apply NoDup_cons.
    + by apply Forall_cons.
    + intros q [->|Hq]%elem_of_cons; [|by apply Ha]. by rewrite <- Hre.
    + intros q [??]%not_elem_of_cons. rewrite lookup_insert_ne by done. by apply Hre.
  - intros q Hq. apply lookup_insert_ne. congruence.
Qed.

(** [tsearch] on a search tree returns, within the [MAXH] places of its array, with the
    node that has the key if there is one, and nothing changed; otherwise it adds a new
    node in the place of the key among the entries, keeps the tree balanced and ordered and
    the rest of the memory as it is, or gives null when there is no memory. *)
Lemma tsearch_ok X s t k :
  search_tree X s t ->
  wp (tsearch cmp malloc k true) s (fun v s' =>
    match seek cmp k (entries t) with
    | Some p => v = p /\ s' = s
    | None =>
        v = malloc (nodes s) /\
        if v =? 0 then s' = s
        else exists t', search_tree X s' t' /\ entries t' = place cmp (v, k) (entries t)
    end).
Proof.
  intros Hst. destruct (locate_cases X s k t Hst) as (t' & c & El & Ep & Hs & Hb & Ha & Hk).
  destruct Hst as [Hs0 Ht Ho]. pose proof (holds_ht _ _ _ Hs0 Ht).
  unfold tsearch. cbn [negb]. wp1. wp1. wp1.
  assert (root s = ptr t) as -> by (by destruct Hs0).
  eapply (wp_search_down X k [] _ [] t); [done|done| |].
  { change (Z.of_nat (Z.to_nat (MAXH - 1))) with 95. lia. }
  rewrite El. destruct t' as [|p h l k' r]; cbn [ptr].
  - rewrite Hk. unfold truth. cbn. wp1. wp1. wp1; zb; [wp1; by rewrite E0|].
    destruct (malloc_fresh (nodes s)) as [?|[Hr Hf]]; [done|]. wp1. wp1. wp1.
    rewrite app_nil_r. apply (wp_new_node X s c k); [done..|]. intros s' Hs'. wp1.
    eapply (wp_rebalance X c E); [done|by rewrite Ep|rewrite Ep; lia|by cbn|by cbn|].
    intros s2 Hs2. wp1. split; [done|]. rewrite (proj2 (Z.eqb_neq _ _)) by done.
    exists (unwind c (T (malloc (nodes s)) 1 E k E)).
    destruct (unwind_ok c E (T (malloc (nodes s)) 1 E k E)) as [? He]; [by rewrite Ep|by cbn|by cbn|].
    rewrite <- Ep in Ho |- *. unfold keys in Ho. rewrite !plug_entries in He, Ho |- *. cbn in *.
    split; [split; [done..|]|].
    + unfold keys. rewrite He. by apply place_ordered.
    + by rewrite place_between.
  - destruct Hk as (_ & -> & _). destruct Hs as (_ & (? & _) & _). unfold truth.
    rewrite (proj2 (Z.eqb_neq p 0)) by done. by wp1.
Qed.
End Ops.
End SearchProps.
