(* ===== verification/SearchDelete.v ===== *)
(** Search trees: deleting. *)
From stdpp Require Import sorting.
From S2P Require Import Prelude KMonad Search SearchTree SearchRep SearchProps.

Module SearchDelete.
Import Search SearchTree SearchRep SearchProps.

Lemma holds_through X s c c' t : holds X s (c ++ c') t <-> holds X s c' (plug c t).
Proof. revert t. induction c as [|f c IH]; intros t; [done|]. cbn [app plug]. by rewrite holds_up, IH. Qed.
Lemma plug_app c c' t : plug (c ++ c') t = plug c' (plug c t).
Proof. revert t. induction c as [|f c IH]; intros t; [done|]. cbn. by rewrite IH. Qed.
Lemma length_path c : length (path c) = length c.
Proof. induction c as [|f c IH]; cbn; [done|]. by rewrite IH. Qed.

(** The way does not depend on the keys. *)
Lemma path_key c1 c d p h k k' o :
  slot_of (c1 ++ F d p h k o :: c) = slot_of (c1 ++ F d p h k' o :: c) /\
  path (c1 ++ F d p h k o :: c) = path (c1 ++ F d p h k' o :: c).
Proof. induction c1 as [|f c1 [IH1 IH2]]; [done|]. cbn. by rewrite IH1, IH2. Qed.

(** [a[0]] is not balanced. *)
Lemma rebalance_above_path l p s : rebalance_above (l ++ [p]) s = rebalance l s.
Proof.
  revert s. induction l as [|q l IH]; intros s; [done|]. cbn [app].
  destruct (l ++ [p]) as [|q' l'] eqn:El; [by destruct l|]. rewrite <- El in *.
  transitivity ((let! c := tsearch_balance q in
    if truth c then rebalance_above (l ++ [p]) else ret tt) s); [by rewrite El|].
  cbn [rebalance]. unfold bind. destruct (tsearch_balance q s) as [[c s']|]; [|done].
  destruct (truth c); [apply IH|done].
Qed.

(** The rightmost node of a tree. *)
Lemma wp_go_right X base c t room s Q :
  holds X s c t -> avl t -> t ≠ E -> ht t <= Z.of_nat room + 1 ->
  (forall c1 p h l k, plug c1 (T p h l k E) = t -> after c1 = [] ->
    Q (p, slot_of (c1 ++ c) :: path (c1 ++ c) ++ base) s) ->
  wp (go_right room (ptr t) (slot_of c :: path c ++ base)) s Q.
Proof.
  revert c room. induction t as [|p h l _ k r IHr]; intros c room Hs Ht Hne Hroom HQ; [done|].
  pose proof Hs as (_ & (Hp0 & Hp & Hl' & Hr') & _). destruct Ht as (-> & Hd & Hl & Hr).
  destruct (avl_ht _ Hl) as [? _], (avl_ht _ Hr) as [? Hrn]. cbn [ht] in Hroom.
  assert (wp (load p) s (fun x s' => s' = s /\ child x true = ptr r)) as Hload
    by (by eapply wp_node).
  assert (forall room Q', (ptr r =? 0) = true ->  Q' (p, slot_of c :: path c ++ base) s ->
    wp (go_right room p (slot_of c :: path c ++ base)) s Q') as Hstop.
  { intros room' Q' E0 HQ'. destruct room'; cbn [go_right]; wp1;
      (eapply wp_mono; [exact Hload|]; intros x s' [-> ->]; by rewrite E0). }
  destruct r as [|pr hr lr kr rr].
  - apply Hstop; [done|]. by apply (HQ [] p (Z.max (ht l) (ht E) + 1) l k).
  - specialize (Hrn ltac:(done)). destruct room as [|room]; [lia|]. cbn [go_right ptr] in *.
    wp1. eapply wp_mono; [exact Hload|]. intros x s' [-> ->].
    destruct Hr' as (Hpr0 & _). rewrite (proj2 (Z.eqb_neq _ _) Hpr0).
    apply (IHr (F true p (Z.max (ht l) hr + 1) k l :: c)); [by apply holds_up|done|done|lia|].
    intros c1 p1 h1 l1 k1 Ep Ea.
    replace (c1 ++ F true p (Z.max (ht l) hr + 1) k l :: c) with
      ((c1 ++ [F true p (Z.max (ht l) hr + 1) k l]) ++ c) by (by rewrite <- app_assoc).
    apply (HQ _ p1 h1 l1 k1); [by rewrite plug_app, Ep|].
    clear - Ea. induction c1 as [|[d ? ? ? ?] c1 IH]; [done|]. cbn in *.
    apply app_eq_nil in Ea as [-> Ea]. by apply IH.
Qed.

Lemma region_delete X m q A : region X m (q :: A) -> region X (delete q m) A.
Proof.
  intros [[Hq Hnd]%NoDup_cons [_ Hp]%Forall_cons Ha Hr]. split; [done..| |].
  - intros q' Hq'. apply Ha. by right.
  - intros q' Hq'. destruct (decide (q' = q)) as [->|Hne].
    + rewrite lookup_delete_eq. symmetry. apply Ha. by left.
    + rewrite lookup_delete_ne by done. apply Hr. by rewrite not_elem_of_cons.
Qed.

(** A node without a left or a right child is freed, its other child takes its place, and the
    tree is balanced again. *)
Lemma wp_unlink X s c p h l k r u (v : Z) Q :
  holds X s c (T p h l k r) -> (l = E /\ u = r \/ r = E /\ u = l) ->
  avl (plug c (T p h l k r)) -> ht (plug c (T p h l k r)) < 180 ->
  (forall s', holds X s' [] (unwind c u) -> Q v s') ->
  wp (modify (fun s => Trees (root s) (delete p (nodes s))) ;;;
      write (slot_of c) (ptr u) ;;; rebalance_above (path c ++ [Rootp]) ;;; ret v) s Q.
Proof.
  intros Hs Hu Hc Hh HQ. pose proof Hs as (_ & (Hp0 & Hp & Hl & Hr) & Hreg).
  assert (region X (nodes s) (p :: addrs u ++ caddrs c)) as Hreg'.
  { eapply region_perm; [|exact Hreg]. rewrite (addrs_join false p h k l r : addrs (T _ _ _ _ _) ≡ₚ _).
    destruct Hu as [[-> ->]|[-> ->]]; solve_Permutation. }
  pose proof (region_nodup _ _ _ Hreg') as Hnd. distinct Hnd.
  assert (rep (nodes s) u) as Hu' by (by destruct Hu as [[_ ->]|[_ ->]]).
  wp1. wp1. wp1. eapply (wp_relink X s c _ _ u); [exact Hs|done| |by apply region_delete| |].
  - eapply rep_frame; [|exact Hu']. intros q Hq. apply lookup_delete_ne. congruence.
  - intros q Hq. apply lookup_delete_ne. congruence.
  - intros s1 Hs1. wp1. pose proof (plug_inner _ _ Hc) as (Hhd & Hd & Hal & Har).
    destruct (avl_ht _ Hal) as [? _], (avl_ht _ Har) as [? _].
    assert (wp (rebalance (path c)) s1 (fun _ s' => holds X s' [] (unwind c u))) as Hre.
    { eapply (wp_rebalance X c (T p h l k r)); [done..| | |done];
        destruct Hu as [[-> ->]|[-> ->]]; cbn in *; (done || lia). }
    unfold wp in Hre |- *. rewrite rebalance_above_path. destruct (rebalance _ _) as [[[] s2]|]; [|done].
    by apply HQ.
Qed.

Section Ops.
Context (cmp : Z -> Z -> Z) `{!Comparator cmp}.

(** The node above the one with the key; the root for itself. *)
Definition parent_of (c : list frame) (t : tree) : Z :=
  match c with [] => ptr t | F _ p _ _ _ :: _ => p end.

Lemma wp_parent X s c t Q :
  holds X s c t -> Q (parent_of c t) s ->
  wp (match path c ++ [Rootp] with p :: _ => read p | [] => fault end) s Q.
Proof.
  intros Hs HQ. destruct c as [|[d p h k o] c]; cbn [path app].
  - apply (wp_read X s [] t); [done|exact HQ].
  - apply (wp_read X s c (plug1 (F d p h k o) t)); [by apply holds_up|]. cbn. by rewrite ptr_join.
Qed.

(** A tree without the entry between [before c ++ entries l] and [entries r ++ after c], and
    with one node less. *)
Definition removed (X : gmap Z node) (s' : trees) (c : list frame) (p h : Z) (l : tree) (k : Z) (r : tree) : Prop :=
  exists t' q, holds X s' [] t' /\ avl t' /\
    keys t' = (before c ++ entries l).*2 ++ (entries r ++ after c).*2 /\
    addrs (plug c (T p h l k r)) ≡ₚ q :: addrs t'.

(** The node has no left child: it is freed itself. *)
Lemma removed_here X s' c p h k r :
  avl (plug c (T p h E k r)) -> holds X s' [] (unwind c r) -> removed X s' c p h E k r.
Proof.
  intros Hc Hs'. pose proof (plug_inner _ _ Hc) as (-> & ? & _ & Hr). destruct (avl_ht _ Hr) as [? _].
  destruct (unwind_ok c (T p (Z.max (ht E) (ht r) + 1) E k r) r) as [? He]; [done..|cbn in *; lia|].
  exists (unwind c r), p. split_and!; [done..| |].
  - unfold keys. rewrite He, plug_entries. cbn. by rewrite app_nil_r, !fmap_app.
  - unfold addrs at 2. rewrite He. fold (addrs (plug c r)). rewrite !addrs_plug.
    rewrite (addrs_join false _ _ _ _ _ : addrs (T _ _ _ _ _) ≡ₚ _). solve_Permutation.
Qed.

(** The node gets the key of the one before it, which is freed. *)
Lemma removed_before X s' c p h k r c1 pn hn ln kn :
  avl (plug c (T p h (plug c1 (T pn hn ln kn E)) k r)) -> after c1 = [] ->
  holds X s' [] (unwind (c1 ++ F false p h kn r :: c) ln) ->
  removed X s' c p h (plug c1 (T pn hn ln kn E)) k r.
Proof.
  intros Hc Ha Hs'.
  assert (avl (plug (c1 ++ F false p h kn r :: c) (T pn hn ln kn E))) as Hc'.
  { rewrite plug_app. cbn [plug plug1 join]. eapply plug_avl; [exact Hc|apply (plug_inner _ _ Hc)|done]. }
  pose proof (plug_inner _ _ Hc') as (-> & ? & Hl & _). destruct (avl_ht _ Hl) as [? _].
  edestruct (unwind_ok (c1 ++ F false p h kn r :: c) _ ln Hc') as [? He]; [done|cbn in *; lia|].
  rewrite (plug_app c1) in He. cbn [plug plug1 join] in He.
  exists (unwind (c1 ++ F false p h kn r :: c) ln), pn. split_and!; [done..| |].
  - unfold keys. rewrite He, !plug_entries. cbn [entries]. rewrite !plug_entries, Ha. cbn [entries].
    rewrite !app_nil_r. repeat (rewrite fmap_app || rewrite fmap_cons). cbn [fmap list_fmap snd]. by reassoc.
  - unfold addrs at 2. rewrite He. fold (addrs (plug c (T p h (plug c1 ln) kn r))). rewrite !addrs_plug.
    rewrite !(addrs_join false _ _ _ _ _ : addrs (T _ _ _ _ _) ≡ₚ _), !addrs_plug.
    rewrite !(addrs_join false _ _ _ _ _ : addrs (T _ _ _ _ _) ≡ₚ _). solve_Permutation.
Qed.

(** The last step of [tdelete], once the node with the key is found. *)
Lemma wp_remove X s c p h l k r (v : Z) Q :
  holds X s c (T p h l k r) -> avl (plug c (T p h l k r)) -> ht (plug c (T p h l k r)) < 92 ->
  (forall s', removed X s' c p h l k r -> Q v s') ->
  wp (let! '(n, pth, ch) := victim p (slot_of c :: path c ++ [Rootp]) in
      modify (fun s => Trees (root s) (delete n (nodes s))) ;;;
      match pth with
      | [] => fault
      | q :: pth => write q ch ;;; rebalance_above pth ;;; ret v
      end) s Q.
Proof.
  intros Hs Hc Hh HQ. pose proof Hs as (_ & (Hp0 & Hp & Hl & Hr) & _).
  pose proof (plug_inner _ _ Hc) as Ht. pose proof (plug_ht _ _ Hc) as Hlen.
  unfold victim. wp1. wp1. eapply wp_node; [done..|]. cbn [child a0 a1]. unfold truth.
  destruct (decide (l = E)) as [->|Hne].
  { change (negb (ptr E =? 0)) with false. cbv iota. wp1.
    eapply (wp_unlink X s c p h E k r r); [done|by left|done|lia|]. intros s' Hs'.
    by apply HQ, removed_here. }
  assert (ptr l ≠ 0) as Hpl by (destruct l; [done|apply Hl]).
  rewrite (proj2 (Z.eqb_neq _ _) Hpl). cbn [negb length]. rewrite length_app, length_path. cbn [length].
  destruct Ht as (-> & ? & Hal & Har). cbn [ht] in Hlen.
  destruct (avl_ht _ Hal) as [_ Hal0], (avl_ht _ Har) as [? _]. specialize (Hal0 Hne).
  destruct (Z.to_nat (MAXH + 1) - _)%nat as [|room] eqn:Eroom;
    change (Z.to_nat (MAXH + 1)) with 97%nat in Eroom; [lia|].
  wp1. apply (wp_go_right X [Rootp] (F false p (Z.max (ht l) (ht r) + 1) k r :: c));
    [by apply holds_up|done|done|lia|].
  intros c1 pn hn ln kn El Ha. subst l.
  set (hp := Z.max _ _ + 1) in *. set (c2 := c1 ++ F false p hp kn r :: c).
  assert (holds X s (c1 ++ F false p hp k r :: c) (T pn hn ln kn E)) as Hs1
    by (apply holds_through, holds_up; exact Hs).
  pose proof Hs1 as (_ & (? & Hpn & _) & _). wp1. eapply wp_node; [done..|]. cbn [key].
  wp1. eapply wp_set_node; [done..|]. wp1.
  apply (holds_node X s c p hp _ k r hp kn) in Hs. unfold set_key. cbn [a0 a1 Search.h].
  set (s2 := Trees _ _) in *.
  assert (holds X s2 c2 (T pn hn ln kn E)) as Hs2 by (apply holds_through, holds_up; exact Hs).
  pose proof Hs2 as (_ & (_ & Hpn2 & _) & _). eapply wp_node; [done..|]. cbn [child a0 a1]. wp1.
  destruct (path_key c1 c false p hp k kn r) as [-> ->]. cbv iota.
  eapply (wp_unlink X s2 _ pn hn ln kn E ln); [exact Hs2|by right| | |].
  - rewrite plug_app. cbn [plug plug1 join]. eapply plug_avl; [exact Hc|apply (plug_inner _ _ Hc)|done].
  - rewrite plug_app. cbn [plug plug1 join].
    rewrite (plug_ht_same c (T p hp (plug c1 (T pn hn ln kn E)) k r)) by done. lia.
  - intros s' Hs'. by apply HQ, removed_before.
Qed.

Lemma ordered_without k ks : ordered cmp ks -> ordered cmp (without cmp k ks).
Proof.
  unfold ordered, without. induction ks as [|k' ks IH]; [done|]. rewrite StronglySorted_cons.
  intros [Hk Hs]. rewrite filter_cons. case_decide; [|by apply IH]. apply StronglySorted_cons.
  split; [|by apply IH]. rewrite Forall_forall in *. intros x [_ Hx]%list_elem_of_filter. by apply Hk.
Qed.
Lemma without_app k ks ks' : without cmp k (ks ++ ks') = without cmp k ks ++ without cmp k ks'.
Proof. apply filter_app. Qed.

Lemma parent_in c t : t ≠ E -> parent_of c t ∈ addrs (plug c t).
Proof.
  intros Hne. rewrite addrs_plug. destruct c as [|[d p h k o] c]; cbn.
  - destruct t as [|p h l k r]; [done|]. unfold addrs. cbn. rewrite app_nil_r, fmap_app. set_solver.
  - set_solver.
Qed.

(** [tdelete] on a search tree returns, within the [MAXH + 1] places of its array.  If no
    node has the key, it gives null and nothing changes.  Otherwise the keys that remain are
    the others in the same order, exactly one node is freed, the tree is balanced and ordered
    and the rest of the memory as it was; the result is one of the nodes the tree had. *)
Lemma tdelete_ok X s t k :
  search_tree cmp X s t ->
  wp (tdelete cmp k true) s (fun v s' =>
    match seek cmp k (entries t) with
    | None => v = 0 /\ s' = s
    | Some _ =>
        v ∈ addrs t /\
        exists t' q, search_tree cmp X s' t' /\ keys t' = without cmp k (keys t) /\
          addrs t ≡ₚ q :: addrs t'
    end).
Proof.
  intros Hst. destruct (locate_cases cmp X s k t Hst) as (t' & c & El & Ep & Hs & Hb & Ha & Hk).
  destruct Hst as [Hs0 Ht Ho]. pose proof (holds_ht _ _ _ Hs0 Ht).
  unfold tdelete. cbn [negb]. wp1. wp1. wp1.
  assert (root s = ptr t) as -> by (by destruct Hs0).
  eapply (wp_search_down cmp X k [Rootp] _ [] t); [done|done| |].
  { change (Z.of_nat (Z.to_nat (MAXH - 1))) with 95. lia. }
  rewrite El. destruct t' as [|p h l k' r]; cbn [ptr].
  { apply wp_ret. by rewrite Hk. }
  destruct Hk as (Hk & -> & Hbl & Har). pose proof Hs as (_ & (Hp0 & _) & _).
  rewrite (proj2 (Z.eqb_neq p 0)) by done.
  pose proof (wp_parent X s c _ (fun v s' => v = parent_of c (T p h l k' r) /\ s' = s) Hs
    ltac:(done)) as Hpar.
  destruct (path c ++ [Rootp]) as [|p0 pth] eqn:Epath; [done|]. wp1.
  eapply wp_mono; [exact Hpar|]. intros v s' [-> ->]. rewrite <- Epath.
  eapply wp_remove; [exact Hs|by rewrite Ep|by rewrite Ep|].
  intros s' (t' & q & Hs' & Ht' & Hkeys & Hq). rewrite Ep in Hq. split.
  { rewrite <- Ep. by apply parent_in. }
  exists t', q. assert (keys t' = without cmp k (keys t)) as Hw.
  { rewrite Hkeys. unfold keys. rewrite <- Ep, plug_entries. cbn [entries].
    rewrite !fmap_app, fmap_cons, !without_app. cbn [snd].
    assert (without cmp k (k' :: (entries r).*2) = without cmp k (entries r).*2) as ->
      by (unfold without; rewrite filter_cons_False; [done|]; intros Hn; by apply Hn).
    rewrite !without_apart by auto. by reassoc. }
  split; [|done]. split; [done..|]. rewrite Hw. by apply ordered_without.
Qed.

End Ops.
End SearchDelete.
