(* ===== verification/SearchWalk.v ===== *)
(** Search trees: finding, walking, destroying, and sequences of calls. *)
From stdpp Require Import sorting.
From S2P Require Import Prelude KMonad Search SearchTree SearchRep SearchProps SearchDelete.

Module SearchWalk.
Import Search SearchTree SearchRep SearchProps SearchDelete.

(** ** Fuel
    A loop down a tree takes fewer steps than there are nodes in memory. *)
Lemma ht_entries t : avl t -> ht t <= Z.of_nat (length (entries t)).
Proof.
  induction t as [|p h l IHl k r IHr]; [done|]. cbn [avl ht entries]. intros (-> & _ & Hl & Hr).
  rewrite length_app. cbn [length]. specialize (IHl Hl). specialize (IHr Hr). lia.
Qed.
Lemma rep_size m t : rep m t -> NoDup (addrs t) -> (length (entries t) <= base.size m)%nat.
Proof.
  intros Hr Hnd. rewrite <- (size_dom (D := gset Z)).
  transitivity (base.size (list_to_set (addrs t) : gset Z)).
  - rewrite size_list_to_set by done. unfold addrs. by rewrite length_fmap.
  - apply subseteq_size. intros q Hq%elem_of_list_to_set. apply elem_of_dom. by eapply rep_some.
Qed.
Lemma tree_fuel X s t : holds X s [] t -> avl t -> ht t < Z.of_nat (S (base.size (nodes s))).
Proof.
  intros (_ & Hr & Hreg) Ht. apply region_nodup in Hreg. rewrite app_nil_r in Hreg.
  pose proof (ht_entries t Ht). pose proof (rep_size _ _ Hr Hreg). lia.
Qed.

(** ** Finding *)
Section Find.
Context (cmp : Z -> Z -> Z) `{!Comparator cmp}.

Lemma wp_find_loop m k c t fuel s Q :
  nodes s = m -> rep m t -> avl t -> ht t < Z.of_nat fuel ->
  Q (ptr (locate cmp k t c).1) s -> wp (find_loop cmp fuel k (ptr t)) s Q.
Proof.
  intros <-. revert c fuel. induction t as [|p h l IHl k' r IHr]; intros c fuel Hrep Ht Hf HQ;
    destruct (avl_ht _ Ht) as [? _]; (destruct fuel as [|fuel]; [lia|]); [by apply wp_ret|].
  destruct Hrep as (Hp0 & Hp & Hl' & Hr'), Ht as (-> & _ & Hl & Hr).
  destruct (avl_ht _ Hl) as [? _], (avl_ht _ Hr) as [? _]. cbn [ht ptr find_loop locate] in *.
  rewrite (proj2 (Z.eqb_neq _ _) Hp0). wp1. eapply wp_node; [done..|]. cbn [key child a0 a1].
  destruct (_ =? _); [by wp1|]. destruct (_ <? _).
  - by eapply IHr; [..|lia|exact HQ].
  - by eapply IHl; [..|lia|exact HQ].
Qed.

(** [tfind] returns with the node that has the key, or null if there is none, and changes
    nothing. *)
Lemma tfind_ok X s t k :
  search_tree cmp X s t ->
  wp (tfind cmp k true) s (fun v s' => s' = s /\ v = default 0 (seek cmp k (entries t))).
Proof.
  intros Hst. destruct (locate_cases cmp X s k t Hst) as (t' & c & El & _ & _ & _ & _ & Hk).
  destruct Hst as [Hs Ht Ho]. pose proof Hs as (Hroot & Hr & _).
  unfold tfind. cbn [negb]. wp1. wp1. wp1. wp1. cbn in Hroot. rewrite Hroot.
  eapply (wp_find_loop _ k []); [done..|by eapply tree_fuel|]. rewrite El. split; [done|].
  destruct t'; [by rewrite Hk|by destruct Hk as (_ & -> & _)].
Qed.
End Find.

(** ** Walking *)
Fixpoint visits (t : tree) (d : Z) : list (Z * VISIT * Z) :=
  match t with
  | E => []
  | T p h l _ r =>
      if h =? 1 then [(p, leaf, d)]
      else [(p, preorder, d)] ++ visits l (d + 1) ++ [(p, postorder, d)] ++ visits r (d + 1) ++ [(p, endorder, d)]
  end.

#[export] Instance visit_eq_dec : EqDecision VISIT.
Proof. solve_decision. Defined.

(** The nodes in the order of their middle visits; the visits to one node. *)
Definition middle (v : VISIT) : bool := match v with postorder | leaf => true | _ => false end.
Definition in_order (l : list (Z * VISIT * Z)) : list Z :=
  (filter (fun e => middle e.1.2 = true) l).*1.*1.
Definition kinds (p : Z) (l : list (Z * VISIT * Z)) : list VISIT :=
  (filter (fun e => e.1.1 = p) l).*1.*2.

Lemma avl_leaf p h l k r : avl (T p h l k r) -> h = 1 -> l = E /\ r = E.
Proof.
  cbn. intros (-> & _ & Hl & Hr) Hh. destruct (avl_ht _ Hl) as [? Hln], (avl_ht _ Hr) as [? Hrn].
  split; [destruct l as [|]|destruct r as [|]]; try done; exfalso.
  - specialize (Hln ltac:(done)). lia.
  - specialize (Hrn ltac:(done)). lia.
Qed.

Lemma visits_in_order t d : avl t -> in_order (visits t d) = addrs t.
Proof.
  revert d. induction t as [|p h l IHl k r IHr]; intros d Ht; [done|]. cbn [visits].
  destruct (Z.eqb_spec h 1) as [Hh|].
  - by destruct (avl_leaf _ _ _ _ _ Ht Hh) as [-> ->].
  - destruct Ht as (_ & _ & Hl & Hr). unfold in_order, addrs in *. cbn [entries].
    rewrite !filter_app, !fmap_app, IHl, IHr by done. cbn. by rewrite app_nil_r.
Qed.

Lemma kinds_app p l l' : kinds p (l ++ l') = kinds p l ++ kinds p l'.
Proof. unfold kinds. by rewrite filter_app, !fmap_app. Qed.
Lemma kinds_out t p d : p ∉ addrs t -> avl t -> kinds p (visits t d) = [].
Proof.
  revert d. induction t as [|q h l IHl k r IHr]; intros d Hp Ht; [done|]. cbn [visits].
  rewrite (addrs_join false q h k l r : addrs (T q h l k r) ≡ₚ _), not_elem_of_cons, not_elem_of_app in Hp.
  destruct Hp as (Hq & ? & ?). destruct Ht as (_ & _ & ? & ?).
  assert (forall v d, kinds p [(q, v, d)] = []) as Hone
    by (intros; unfold kinds; rewrite filter_cons_False by (cbn; congruence); done).
  destruct (_ =? _); [done|]. by rewrite !kinds_app, !Hone, IHl, IHr.
Qed.
Lemma visits_kinds t p d :
  NoDup (addrs t) -> avl t -> p ∈ addrs t ->
  kinds p (visits t d) = [leaf] \/ kinds p (visits t d) = [preorder; postorder; endorder].
Proof.
  revert d. induction t as [|q h l IHl k r IHr]; intros d Hnd Ht Hp; [by apply not_elem_of_nil in Hp|].
  rewrite (addrs_join false q h k l r : addrs (T q h l k r) ≡ₚ _) in Hnd, Hp.
  apply NoDup_cons in Hnd as [[Hql Hqr]%not_elem_of_app (Hndl & Hlr & Hndr)%NoDup_app].
  destruct Ht as (Hh & Hd & Hl & Hr).
  assert (forall v d, kinds q [(q, v, d)] = [v]) as Hsame
    by (intros; unfold kinds; by rewrite filter_cons_True).
  assert (forall v d, p ≠ q -> kinds p [(q, v, d)] = []) as Hone
    by (intros; unfold kinds; rewrite filter_cons_False by (cbn; congruence); done).
  cbn [visits]. destruct (Z.eqb_spec h 1) as [Hh1|].
  - destruct (avl_leaf q h l k r) as [-> ->]; [done..|]. apply elem_of_cons in Hp as [->|Hp]; [|set_solver].
    left. by apply Hsame.
  - rewrite !kinds_app. apply elem_of_cons in Hp as [->|[Hp|Hp]%elem_of_app].
    + right. by rewrite !Hsame, !kinds_out.
    + rewrite !Hone by set_solver. rewrite (kinds_out r) by set_solver. rewrite !app_nil_r. by apply IHl.
    + rewrite !Hone by set_solver. rewrite (kinds_out l) by set_solver. rewrite app_nil_r. by apply IHr.
Qed.

Lemma wp_walk m t d fuel s Q :
  nodes s = m -> rep m t -> avl t -> ht t < Z.of_nat fuel ->
  Q (visits t d) s -> wp (walk fuel (ptr t) d) s Q.
Proof.
  intros <-. revert d fuel Q. induction t as [|p h l IHl k r IHr]; intros d fuel Q Hrep Ht Hf HQ;
    destruct (avl_ht _ Ht) as [? _]; (destruct fuel as [|fuel]; [lia|]); [by apply wp_ret|].
  destruct Hrep as (Hp0 & Hp & Hl' & Hr'), Ht as (Hh & _ & Hl & Hr).
  destruct (avl_ht _ Hl) as [? _], (avl_ht _ Hr) as [? _]. cbn [ht ptr walk visits] in *.
  rewrite (proj2 (Z.eqb_neq _ _) Hp0). wp1. eapply wp_node; [done..|]. cbn [key child a0 a1 Search.h].
  destruct (_ =? _); [by wp1|]. wp1. apply IHl; [done..|lia|]. wp1. apply IHr; [done..|lia|]. by wp1.
Qed.


(** ** Destroying *)
Fixpoint post_keys (t : tree) : list Z :=
  match t with E => [] | T _ _ l k r => post_keys l ++ post_keys r ++ [k] end.
Lemma post_keys_perm t : post_keys t ≡ₚ keys t.
Proof.
  induction t as [|p h l IHl k r IHr]; [done|]. unfold keys in *. cbn [post_keys entries].
  rewrite fmap_app, fmap_cons, IHl, IHr. cbn [snd]. solve_Permutation.
Qed.

Lemma wp_destroy b t fuel s Q :
  rep (nodes s) t -> NoDup (addrs t) -> avl t -> ht t < Z.of_nat fuel ->
  (forall s', root s' = root s ->
    (forall q, q ∈ addrs t -> nodes s' !! q = None) ->
    (forall q, q ∉ addrs t -> nodes s' !! q = nodes s !! q) ->
    Q (if b : bool then post_keys t else []) s') ->
  wp (destroy b fuel (ptr t)) s Q.
Proof.
  revert fuel s Q. induction t as [|p h l IHl k r IHr]; intros fuel s Q Hrep Hnd Ht Hf HQ;
    destruct (avl_ht _ Ht) as [? _]; (destruct fuel as [|fuel]; [lia|]).
  { apply wp_ret. destruct b; (apply HQ; [done|set_solver|done]). }
  destruct Hrep as (Hp0 & Hp & Hl' & Hr'), Ht as (-> & _ & Hl & Hr).
  setoid_rewrite (addrs_join false p _ k l r : addrs (T p _ l k r) ≡ₚ _) in HQ.
  rewrite (addrs_join false p _ k l r : addrs (T p _ l k r) ≡ₚ _) in Hnd.
  apply NoDup_cons in Hnd as [[Hpl Hpr]%not_elem_of_app (Hndl & Hlr & Hndr)%NoDup_app].
  cbn [ht ptr destroy] in *. rewrite (proj2 (Z.eqb_neq _ _) Hp0). wp1. eapply wp_node; [done..|].
  cbn [child a0 a1]. wp1. apply IHl; [done..|lia|]. intros s1 Hroot1 Hin1 Hout1.
  wp1. eapply wp_node; [done|rewrite Hout1 by done; exact Hp|]. cbn [child a0 a1].
  wp1. apply IHr; [|done..|lia|].
  { eapply rep_frame; [|exact Hr']. intros q Hq. apply Hout1. intros Hq'. by apply (Hlr q). }
  intros s2 Hroot2 Hin2 Hout2.
  wp1. eapply wp_node; [done|rewrite Hout2, Hout1 by done; exact Hp|]. cbn [key]. wp1. wp1. wp1.
  assert ((if b then post_keys l else []) ++ (if b then post_keys r else []) ++ (if b then [k] else []) =
    (if b then post_keys (T p (Z.max (ht l) (ht r) + 1) l k r) else [])) as -> by (by destruct b).
  apply HQ; cbn [root nodes]; [congruence| |].
  - intros q [->|Hq]%elem_of_cons; [apply lookup_delete_eq|].
    destruct (decide (q = p)) as [->|]; [apply lookup_delete_eq|]. rewrite lookup_delete_ne by done.
    destruct (decide (q ∈ addrs r)); [by apply Hin2|]. rewrite Hout2 by done.
    apply elem_of_app in Hq as [Hq|Hq]; [by apply Hin1|done].
  - intros q [? [? ?]%not_elem_of_app]%not_elem_of_cons.
    rewrite lookup_delete_ne, Hout2, Hout1 by done. done.
Qed.

(** C37: [tdestroy] returns and frees every node of the tree, nothing else, and gives every key
    to [freekey], if there is one, exactly once. *)
Theorem tdestroy_frees cmp X s t b :
  search_tree cmp X s t ->
  wp (tdestroy b (root s)) s (fun ks s' => nodes s' = X /\ ks ≡ₚ (if b then keys t else [])).
Proof.
  intros [Hs Ht Ho]. pose proof Hs as (Hroot & Hr & Hreg). cbn in Hroot.
  rewrite app_nil_r in Hreg. destruct Hreg as [Hnd _ Ha Hre].
  unfold tdestroy. wp1. wp1. rewrite Hroot. apply wp_destroy; [done..|by eapply tree_fuel|].
  intros s' _ Hin Hout. split; [|destruct b; [apply post_keys_perm|done]].
  apply map_eq. intros q. destruct (decide (q ∈ addrs t)) as [Hq|Hq].
  - by rewrite Hin, Ha.
  - by rewrite Hout, Hre.
Qed.

(** ** Sequences of calls *)
Section Calls.
Context (cmp : Z -> Z -> Z) `{!Comparator cmp}.
Context (malloc : gmap Z node -> Z) `{!NodeSupply malloc}.

Inductive op := Insert (k : Z) | Delete (k : Z) | Find (k : Z).
Definition call (o : op) : M trees Z :=
  match o with
  | Insert k => tsearch cmp malloc k true
  | Delete k => tdelete cmp k true
  | Find k => tfind cmp k true
  end.
Fixpoint calls (os : list op) : M trees (list Z) :=
  match os with
  | [] => ret []
  | o :: os => let! v := call o in let! vs := calls os in ret (v :: vs)
  end.

(** An ordered set of keys: which results a call may have, and what it does to the set. *)
Definition has (k : Z) (ks : list Z) : bool := existsb (fun k' => cmp k k' =? 0) ks.
Fixpoint add (k : Z) (ks : list Z) : list Z :=
  match ks with [] => [k] | k' :: ks => if cmp k k' <? 0 then k :: k' :: ks else k' :: add k ks end.
Inductive allowed : op -> list Z -> Z -> list Z -> Prop :=
  | insert_there k ks v : has k ks = true -> v ≠ 0 -> allowed (Insert k) ks v ks
  | insert_new k ks v : has k ks = false -> v ≠ 0 -> allowed (Insert k) ks v (add k ks)
  | insert_no_memory k ks : has k ks = false -> allowed (Insert k) ks 0 ks
  | delete_there k ks v : has k ks = true -> v ≠ 0 -> allowed (Delete k) ks v (without cmp k ks)
  | delete_missing k ks : has k ks = false -> allowed (Delete k) ks 0 ks
  | find_there k ks v : has k ks = true -> v ≠ 0 -> allowed (Find k) ks v ks
  | find_missing k ks : has k ks = false -> allowed (Find k) ks 0 ks.
Inductive behaves : list op -> list Z -> list Z -> list Z -> Prop :=
  | behaves_nil ks : behaves [] ks [] ks
  | behaves_cons o os ks v ks1 vs ks2 :
      allowed o ks v ks1 -> behaves os ks1 vs ks2 -> behaves (o :: os) ks (v :: vs) ks2.

Lemma has_seek k es : has k es.*2 = match seek cmp k es with Some _ => true | None => false end.
Proof. induction es as [|[p k'] es IH]; [done|]. cbn. by destruct (_ =? _). Qed.
Lemma seek_in k es p : seek cmp k es = Some p -> p ∈ es.*1.
Proof.
  induction es as [|[q k'] es IH]; [done|]. cbn. destruct (_ =? _).
  - intros [= ->]. by left.
  - intros ?. right. by apply IH.
Qed.
Lemma add_place p k es : (place cmp (p, k) es).*2 = add k es.*2.
Proof. induction es as [|[q k'] es IH]; [done|]. cbn. destruct (_ <? _); [done|]. cbn. by rewrite IH. Qed.

Lemma addrs_nonnull X s t p : search_tree cmp X s t -> p ∈ addrs t -> p ≠ 0.
Proof.
  intros [(_ & _ & Hreg) _ _] Hp. rewrite app_nil_r in Hreg. apply region_ptrs in Hreg.
  rewrite Forall_forall in Hreg. specialize (Hreg p Hp). lia.
Qed.

(** One call. *)
Lemma call_allowed X s t o :
  search_tree cmp X s t ->
  wp (call o) s (fun v s' => exists t', search_tree cmp X s' t' /\ allowed o (keys t) v (keys t')).
Proof.
  intros Hst. destruct o as [k|k|k]; cbn [call]; pose proof (has_seek k (entries t)) as Hh;
    fold (keys t) in Hh.
  - eapply wp_mono; [by apply (tsearch_ok cmp malloc X s t k)|]. cbv beta. intros v s' Hv.
    destruct (seek cmp k (entries t)) as [p|] eqn:Es.
    + destruct Hv as [-> ->]. exists t. split; [done|]. constructor; [done|].
      by eapply (addrs_nonnull X s t), seek_in.
    + destruct Hv as [_ Hv]. destruct (v =? 0) eqn:Ev; zb.
      * subst. exists t. split; [done|]. by constructor.
      * destruct Hv as (t' & Ht' & He). exists t'. split; [done|].
        assert (keys t' = add k (keys t)) as -> by (unfold keys; by rewrite He, add_place).
        by constructor.
  - eapply wp_mono; [by apply (tdelete_ok cmp X s t k)|]. cbv beta. intros v s' Hv.
    destruct (seek cmp k (entries t)) as [p|] eqn:Es.
    + destruct Hv as (Hv & t' & q & Ht' & Hk & _). exists t'. split; [done|]. rewrite Hk.
      constructor; [done|]. by apply (addrs_nonnull X s t).
    + destruct Hv as [-> ->]. exists t. split; [done|]. by constructor.
  - eapply wp_mono; [by apply (tfind_ok cmp X s t k)|]. cbv beta. intros v s' [-> ->].
    exists t. split; [done|]. destruct (seek cmp k (entries t)) as [p|] eqn:Es; constructor; [done| |done].
    by eapply (addrs_nonnull X s t), seek_in.
Qed.

Lemma calls_behave X s t os :
  search_tree cmp X s t ->
  wp (calls os) s (fun vs s' => exists t', search_tree cmp X s' t' /\ behaves os (keys t) vs (keys t')).
Proof.
  revert s t. induction os as [|o os IH]; intros s t Hst; cbn [calls].
  { wp1. exists t. split; [done|constructor]. }
  wp1. eapply wp_mono; [by apply call_allowed|]. cbv beta. intros v s1 (t1 & Ht1 & Ho).
  wp1. eapply wp_mono; [by apply IH|]. cbv beta. intros vs s2 (t2 & Ht2 & Hos).
  wp1. exists t2. split; [done|]. by econstructor.
Qed.

Lemma empty_tree X : search_tree cmp X (Trees 0 X) E.
Proof. split; [|done|constructor]. split; [done|split; [done|]]. split; [constructor..|set_solver|done]. Qed.

(** C35: Every sequence of calls of [tsearch], [tdelete] and [tfind] on a tree that is empty at
    first returns, whatever memory is left: no loop runs on, no array of slots overflows and
    no freed node is used.  The results are those of an ordered set of keys, and at the end
    the memory holds a balanced search tree of the keys in the set, and what was there before. *)
Theorem search_calls_return X os :
  wp (calls os) (Trees 0 X) (fun vs s' =>
    exists t, behaves os [] vs (keys t) /\ search_tree cmp X s' t).
Proof.
  eapply wp_mono; [by apply calls_behave, empty_tree|]. cbv beta.
  intros vs s' (t & ? & ?). by exists t.
Qed.

Lemma length_add k ks : length (add k ks) = S (length ks).
Proof. induction ks as [|k' ks IH]; [done|]. cbn. destruct (_ <? _); cbn; [done|]. by rewrite IH. Qed.
Lemma cmp_refl k : cmp k k = 0.
Proof. pose proof (cmp_flip k k). lia. Qed.
Lemma has_add k ks : has k (add k ks) = true.
Proof.
  unfold has. induction ks as [|k' ks IH]; cbn; [by rewrite cmp_refl|]. destruct (_ <? _); cbn.
  - by rewrite cmp_refl.
  - rewrite IH. apply orb_true_r.
Qed.
Lemma without_add k ks : has k ks = false -> without cmp k (add k ks) = ks.
Proof.
  assert (forall ks, without cmp k (k :: ks) = without cmp k ks) as Hk.
  { intros l. unfold without. apply filter_cons_False. intros Hn. by apply Hn, cmp_refl. }
  assert (forall k' ks, cmp k k' ≠ 0 -> without cmp k (k' :: ks) = k' :: without cmp k ks) as Hk'.
  { intros k' l Hk'. unfold without. by apply filter_cons_True. }
  assert (forall ks, has k ks = false -> without cmp k ks = ks) as Hnone.
  { intros l. induction l as [|k' l IH]; [done|]. cbn [has existsb]. intros [? ?]%orb_false_iff. zb. by rewrite Hk', IH. }
  induction ks as [|k' l IH]; cbn [add]; [done|]. intros Hh. pose proof Hh as Hh'.
  cbn [has existsb] in Hh'. apply orb_false_iff in Hh' as [? ?]. zb. destruct (_ <? _).
  - by rewrite Hk, Hnone.
  - by rewrite Hk', IH.
Qed.

(** A key that was not in the tree is added by [tsearch] and removed again by [tdelete]:
    the keys are what they were, and as many nodes are in use. *)
Theorem tsearch_tdelete_roundtrip X s t k :
  search_tree cmp X s t -> has k (keys t) = false -> malloc (nodes s) ≠ 0 ->
  wp (tsearch cmp malloc k true ;;; tdelete cmp k true) s (fun v s' =>
    v ≠ 0 /\ exists t', search_tree cmp X s' t' /\ keys t' = keys t /\ length (addrs t') = length (addrs t)).
Proof.
  intros Hst Hnew Hm. wp1. eapply wp_mono; [by apply (tsearch_ok cmp malloc X s t k)|]. cbv beta.
  intros r s1 Hr. pose proof Hnew as Hnone. unfold keys in Hnone. rewrite has_seek in Hnone.
  destruct (seek cmp k (entries t)) eqn:Es; [done|].
  destruct Hr as [-> Hr]. rewrite (proj2 (Z.eqb_neq _ _) Hm) in Hr. destruct Hr as (t1 & Ht1 & He).
  assert (keys t1 = add k (keys t)) as Hk1 by (unfold keys; by rewrite He, add_place).
  eapply wp_mono; [by apply (tdelete_ok cmp X s1 t1 k)|]. cbv beta. intros v s2 Hv.
  pose proof (has_seek k (entries t1)) as Hh. fold (keys t1) in Hh. rewrite Hk1, has_add in Hh.
  destruct (seek cmp k (entries t1)) as [p|]; [|done].
  destruct Hv as (Hv & t2 & q & Ht2 & Hk2 & Hq). split; [by apply (addrs_nonnull X s1 t1)|].
  exists t2. split_and!; [done|by rewrite Hk2, Hk1, without_add|].
  apply (f_equal length) in Hk1. apply Permutation_length in Hq. cbn in Hq.
  unfold addrs, keys in *. rewrite !length_fmap in *. rewrite length_add, length_fmap in Hk1. lia.
Qed.
End Calls.

(** ** Examples: keys compared as numbers, a memory of a thousand nodes *)
Definition by_value (a b : Z) : Z := a - b.
Definition thousand (m : gmap Z node) : Z :=
  match list_find (fun p => m !! p = None) (seqZ 1 1000) with Some (_, p) => p | None => 0 end.

#[export] Instance by_value_ok : Comparator by_value.
Proof. unfold by_value. split; intros; lia. Qed.
#[export] Instance thousand_ok : NodeSupply thousand.
Proof.
  intros m. unfold thousand. destruct (list_find _ _) as [[i p]|] eqn:El; [right|by left].
  apply list_find_Some in El as (Hi & Hp & _). apply lookup_seqZ in Hi. split; [lia|done].
Qed.

(** A tree of three nodes, and a fourth one that does not belong to it. *)
Definition other : gmap Z node := {[ 9 := Node 90 0 0 1 ]}.
Definition three : trees :=
  Trees 2 (<[1 := Node 10 0 0 1]> (<[2 := Node 20 1 3 2]> (<[3 := Node 30 0 0 1]> other))).
Definition three_tree : tree := T 2 2 (T 1 1 E 10 E) 20 (T 3 1 E 30 E).

Lemma three_ok : search_tree by_value other three three_tree.
Proof.
  split; [|by cbn|].
  - split; [done|split; [by vm_compute|]]. split.
    + apply (bool_decide_unpack _). by vm_compute.
    + repeat constructor.
    + intros q Hq. change (q ∈ [1; 2; 3]) in Hq. apply lookup_singleton_ne. set_solver.
    + intros q Hq. change (q ∉ [1; 2; 3]) in Hq. unfold three. cbn [nodes]. rewrite !lookup_insert_ne by set_solver. done.
  - repeat constructor.
Qed.

(** Insertions in ascending order, a lookup, a deletion that frees another node. *)
Example calls_run :
  option_map fst (calls by_value thousand [Insert 5; Insert 6; Insert 7; Insert 8; Find 7; Insert 6; Delete 6; Find 6] (Trees 0 ∅))
  = Some [1; 2; 3; 4; 3; 2; 2; 0].
Proof. by vm_compute. Qed.

Lemma search_calls_return_witness :
  wp (calls by_value thousand [Insert 5; Insert 6; Insert 7; Delete 6; Find 6]) (Trees 0 other) (fun vs s' =>
    exists t, behaves by_value [Insert 5; Insert 6; Insert 7; Delete 6; Find 6] [] vs (keys t) /\
      search_tree by_value other s' t).
Proof. apply (search_calls_return by_value thousand). Defined.

Lemma tsearch_tdelete_roundtrip_witness :
  wp (tsearch by_value thousand 25 true ;;; tdelete by_value 25 true) three (fun v s' =>
    v ≠ 0 /\ exists t', search_tree by_value other s' t' /\ keys t' = keys three_tree /\
      length (addrs t') = length (addrs three_tree)).
Proof. apply (tsearch_tdelete_roundtrip by_value thousand); [apply three_ok|done|by vm_compute]. Defined.


Lemma tdestroy_frees_witness :
  wp (tdestroy true (root three)) three (fun ks s' => nodes s' = other /\ ks ≡ₚ keys three_tree).
Proof. apply (tdestroy_frees by_value other three three_tree true). apply three_ok. Defined.

End SearchWalk.
