(* ===== verification/HashTable.v ===== *)
(** Hash tables of the C library (search/hsearch.c).

    A table has a power of two of slots; an empty slot has a null key.  A key that is not in
    the slot its hash gives is looked for in the slots at distances 1, 3, 6, ... from it.  When
    the table is three quarters full, it is copied into a larger one.  Keys are strings in a
    byte memory [m], which the functions read only; loops over strings have [fuel].  Whether
    [calloc] finds the memory for an array is a parameter. *)
From S2P Require Import Prelude KMonad KString.
#[global] Open Scope Z_scope.

Module HashTable.
Import KString.

Record ENTRY := Entry { key : Z; data : Z }.
Inductive ACTION := FIND | ENTER.
(** [struct __tab]; the array is absent (a null pointer) in a table that is just created. *)
Record tab := Tab { entries : option (list ENTRY); mask : Z; used : Z }.
Record hsearch_data := Htab { __tab : option tab }.

Definition MINSIZE : Z := 8.
Definition MAXSIZE : Z := (2 ^ 64 - 1) / 2 + 1.

Section Ops.
Context (m : mem) (fuel : nat) (calloc : hsearch_data -> Z -> Z -> bool).

Definition opt {A} (o : option A) : M hsearch_data A := match o with Some a => ret a | None => fault end.

(** ** Strings *)
Fixpoint hash_loop (n : nat) (p h : Z) : option Z :=
  match n with
  | O => None
  | S n => if rd m p =? 0 then Some h else hash_loop n (p + 1) (u64 (31 * h + rd m p))
  end.
Definition keyhash (k : Z) : option Z := hash_loop fuel k 0.

(** string/strcmp.c *)
Fixpoint strcmp_loop (n : nat) (l r : Z) : option Z :=
  match n with
  | O => None
  | S n => if (rd m l =? rd m r) && truth (rd m l) then strcmp_loop n (l + 1) (r + 1) else Some (rd m l - rd m r)
  end.
Definition strcmp (l r : Z) : option Z := strcmp_loop fuel l r.

(** ** Slots *)
Definition get_tab : M hsearch_data tab := let! s := gets __tab in opt s.
Definition set_tab (t : tab) : M hsearch_data unit := modify (fun _ => Htab (Some t)).
Definition get_slot (p : Z) : M hsearch_data ENTRY :=
  let! t := get_tab in let! es := opt (entries t) in opt (es !! Z.to_nat p).
Definition set_slot (p : Z) (e : ENTRY) : M hsearch_data unit :=
  let! t := get_tab in let! es := opt (entries t) in let! _ := opt (es !! Z.to_nat p) in
  set_tab (Tab (Some (<[Z.to_nat p := e]> es)) (mask t) (used t)).

(** [for (i=..., j=1; ; i+=j++)] over the slots [i & mask]; [n] slots are tried. *)
Fixpoint probe (n : nat) (stop : ENTRY -> M hsearch_data bool) (i j : Z) : M hsearch_data Z :=
  match n with
  | O => fault
  | S n =>
      let! t := get_tab in
      let! e := get_slot (i &&& mask t) in
      let! b := stop e in
      if b then ret (i &&& mask t) else probe n stop (u64 (i + j)) (u64 (j + 1))
  end.
Definition slots : M hsearch_data nat := let! t := get_tab in ret (Z.to_nat (mask t + 1)).

Definition lookup (k hash : Z) : M hsearch_data Z :=
  let! n := slots in
  probe n (fun e =>
    if key e =? 0 then ret true
    else let! c := opt (strcmp (key e) k) in ret (c =? 0)) hash 1.

(** ** The size of the table *)
Fixpoint size_loop (n : nat) (newsize nel : Z) : option Z :=
  match n with
  | O => None
  | S n => if newsize <? nel then size_loop n (u64 (newsize * 2)) nel else Some newsize
  end.

(** Copying one entry into the new table. *)
Definition rehash (e : ENTRY) : M hsearch_data unit :=
  if truth (key e) then
    let! i := opt (keyhash (key e)) in
    let! n := slots in
    let! p := probe n (fun newe => ret (key newe =? 0)) i 1 in
    set_slot p e
  else ret tt.

Definition resize (nel : Z) : M hsearch_data Z :=
  let! t := get_tab in
  let oldtab := entries t in
  let nel := if MAXSIZE <? nel then MAXSIZE else nel in
  let! newsize := opt (size_loop 64 MINSIZE nel) in
  let! ok := gets (fun s => calloc s newsize 16) in
  if negb ok then ret 0
  else
    set_tab (Tab (Some (replicate (Z.to_nat newsize) (Entry 0 0))) (newsize - 1) (used t)) ;;;
    match oldtab with
    | None => ret 1
    | Some old =>
        for_to (mask t + 1) (fun i => let! e := opt (old !! Z.to_nat i) in rehash e) ;;;
        ret 1
    end.

(** ** The functions *)
Definition hcreate_r (nel : Z) : M hsearch_data Z :=
  let! ok := gets (fun s => calloc s 1 24) in
  if negb ok then modify (fun _ => Htab None) ;;; ret 0
  else
    set_tab (Tab None 0 0) ;;;
    let! r := resize nel in
    when (r =? 0) (modify (fun _ => Htab None)) ;;;
    ret r.

Definition hdestroy_r : M hsearch_data unit := modify (fun _ => Htab None).

(** The result, and the entry [*retval] points to (its slot) or null. *)
Definition hsearch_r (item : ENTRY) (action : ACTION) : M hsearch_data (Z * option Z) :=
  let! hash := opt (keyhash (key item)) in
  let! p := lookup (key item) hash in
  let! e := get_slot p in
  if truth (key e) then ret (1, Some p)
  else
    match action with
    | FIND => ret (0, None)
    | ENTER =>
        set_slot p item ;;;
        let! t := get_tab in
        let used' := u64 (used t + 1) in
        set_tab (Tab (entries t) (mask t) used') ;;;
        if u64 (mask t - mask t / 4) <? used' then
          let! r := resize (u64 (2 * used')) in
          if r =? 0 then
            let! t := get_tab in
            set_tab (Tab (entries t) (mask t) (u64 (used t - 1))) ;;;
            let! e := get_slot p in
            set_slot p (Entry 0 (data e)) ;;;
            ret (0, None)
          else
            let! p := lookup (key item) hash in
            ret (1, Some p)
        else ret (1, Some p)
    end.

Definition hcreate (nel : Z) : M hsearch_data Z := hcreate_r nel.
Definition hdestroy : M hsearch_data unit := hdestroy_r.
Definition hsearch (item : ENTRY) (action : ACTION) : M hsearch_data (option Z) :=
  let! '(_, e) := hsearch_r item action in ret e.
End Ops.

End HashTable.
