(* ===== verification/HashProbe.v ===== *)
(** The order in which the slots of a hash table are tried.

    The distances 0, 1, 3, 6, ... are the triangular numbers; modulo a power of two they are
    all different up to that power, so every slot is tried. *)
From S2P Require Import Prelude.
#[global] Open Scope Z_scope.

Module HashProbe.

Definition tri (j : Z) : Z := j * (j + 1) / 2.

Lemma tri_double j : 2 * tri j = j * (j + 1).
Proof.
  unfold tri. symmetry. apply Z_div_exact_2; [lia|]. rewrite Zmod_even, Z.even_mul, Z.even_add.
  by destruct (Z.even j).
Qed.
Lemma tri_succ j : tri (j + 1) = tri j + (j + 1).
Proof. pose proof (tri_double j). pose proof (tri_double (j + 1)). lia. Qed.
Lemma tri_nonneg j : 0 <= j -> 0 <= tri j.
Proof. intros. pose proof (tri_double j). nia. Qed.

(** A power of two that divides a product with an odd number divides the other factor. *)
Lemma odd_divide k a b : 0 <= k -> Z.odd a = true -> (2 ^ k | a * b) -> (2 ^ k | b).
Proof.
  intros Hk Ha. revert b. pattern k. apply natlike_ind; [|clear k Hk|exact Hk].
  { intros b _. apply Z.divide_1_l. }
  intros k Hk IH b [c Hc]. rewrite Z.pow_succ_r in * by done.
  assert (Z.even b = true) as [b' ->]%Z.even_spec.
  { assert (Z.even (a * b) = true) as He by (rewrite Hc; rewrite !Z.even_mul; by destruct (Z.even c)).
    rewrite Z.even_mul, <- Z.negb_odd, Ha in He. done. }
  apply Z.mul_divide_mono_l. apply IH. exists c. lia.
Qed.

Lemma tri_inj n i j :
  0 <= n -> 0 <= i < 2 ^ n -> 0 <= j < 2 ^ n -> (2 ^ n | tri i - tri j) -> i = j.
Proof.
  intros Hn Hi Hj [c Hc]. pose proof (tri_double i). pose proof (tri_double j).
  assert ((i - j) * (i + j + 1) = c * 2 ^ (n + 1)) as Hp.
  { rewrite Z.pow_add_r by lia. change (2 ^ 1) with 2. lia. }
  assert (2 ^ (n + 1) = 2 * 2 ^ n) as H2 by (rewrite Z.pow_add_r by lia; lia).
  destruct (Z.odd (i + j + 1)) eqn:Eo.
  - assert ((2 ^ (n + 1) | i - j)) as [d Hd].
    { apply (odd_divide _ (i + j + 1)); [lia|done|]. exists c. lia. }
    clear - Hd H2 Hi Hj. rewrite H2 in Hd. clear H2. generalize dependent (2 ^ n). intros P Hi Hj Hd.
    destruct (Z.lt_trichotomy d 0) as [|[->|]]; [exfalso; nia|lia|exfalso; nia].
  - assert (Z.odd (i - j) = true) as Eo'.
    { replace (i - j) with (i + j + 1 - (2 * j + 1)) by lia.
      rewrite Z.odd_sub, Eo, Z.odd_add, Z.odd_mul. done. }
    assert ((2 ^ (n + 1) | i + j + 1)) as [d Hd].
    { apply (odd_divide _ (i - j)); [lia|done|]. by exists c. }
    clear - Hd H2 Hi Hj. rewrite H2 in Hd. clear H2. generalize dependent (2 ^ n). intros P Hi Hj Hd.
    exfalso. destruct (Z.le_gt_cases d 0); nia.
Qed.

(** The slot tried in step [j], in a table of [2 ^ n] slots. *)
Definition slot (n h j : Z) : Z := (h + tri j) mod 2 ^ n.

Lemma slot_range n h j : 0 <= n -> 0 <= slot n h j < 2 ^ n.
Proof. intros. apply Z.mod_pos_bound. lia. Qed.

Lemma probe_inj n h i j :
  0 <= n -> 0 <= i < 2 ^ n -> 0 <= j < 2 ^ n -> slot n h i = slot n h j -> i = j.
Proof.
  intros Hn Hi Hj He. apply (tri_inj n); [done..|]. unfold slot in He.
  replace (tri i - tri j) with ((h + tri i) - (h + tri j)) by lia.
  apply Z.mod_divide; [lia|]. rewrite Zminus_mod, He, Z.sub_diag. by apply Z.mod_0_l; lia.
Qed.

(** Every slot is tried. *)
Lemma slot_surj n h p : 0 <= n -> 0 <= p < 2 ^ n -> exists j, 0 <= j < 2 ^ n /\ slot n h j = p.
Proof.
  intros Hn Hp. pose (l := slot n h <$> seqZ 0 (2 ^ n)).
  assert (NoDup l) as Hnd.
  { apply NoDup_fmap_2_strong; [|apply NoDup_seqZ]. intros i j Hi%elem_of_seqZ Hj%elem_of_seqZ.
    apply probe_inj; lia. }
  assert (l ≡ₚ seqZ 0 (2 ^ n)) as Hl.
  { apply submseteq_length_Permutation.
    - apply NoDup_submseteq; [done|]. intros q (j & -> & _)%list_elem_of_fmap.
      apply elem_of_seqZ. pose proof (slot_range n h j Hn). lia.
    - unfold l. by rewrite length_fmap. }
  assert (p ∈ l) as (j & -> & Hj%elem_of_seqZ)%list_elem_of_fmap.
  { rewrite Hl. apply elem_of_seqZ. lia. }
  exists j. split; [lia|done].
Qed.

End HashProbe.
