(* ===== verification/HashProps.v ===== *)
(** Hash tables are finite maps from strings to entries.

    [at_ n es k j p]: the search for [k] in the slots [es] ends in step [j], in the slot [p].
    In a [table] the search for the key of every entry ends at that entry.  [hash_table s G]:
    the table in memory stands for the finite map [G]. *)
From S2P Require Import Prelude KMonad KString KStringProps HashTable HashProbe.
#[global] Open Scope Z_scope.

Module HashProps.
Import KString KStringProps HashTable HashProbe.

(** The first of the steps up to [j0] that has a property. *)
Lemma least (P : Z -> Prop) `{!forall j, Decision (P j)} j0 :
  0 <= j0 -> P j0 -> exists j, 0 <= j <= j0 /\ P j /\ forall i, 0 <= i < j -> ~ P i.
Proof.
  intros H0 Hj0. assert (forall b, 0 <= b ->
    (exists j, 0 <= j <= b /\ P j /\ forall i, 0 <= i < j -> ~ P i) \/ forall i, 0 <= i <= b -> ~ P i) as Hb.
  { apply natlike_ind.
    - destruct (decide (P 0)); [left; exists 0|right]; [split_and!; [lia..|done|lia]|].
      intros i Hi. by replace i with 0 by lia.
    - intros b Hb [(j & ? & ? & ?)|Hn]; [left; exists j; split_and!; [lia..|done|done]|].
      destruct (decide (P (Z.succ b))); [left; exists (Z.succ b)|right].
      + split_and!; [lia..|done|]. intros i ?. apply Hn. lia.
      + intros i ?. destruct (decide (i = Z.succ b)) as [->|]; [done|]. apply Hn. lia. }
  destruct (Hb j0 H0) as [|Hn]; [done|]. by destruct (Hn j0 ltac:(lia)).
Qed.

Section Props.
Context (m : mem) (fuel : nat) (calloc : hsearch_data -> Z -> Z -> bool) (text : Z -> list Z).

(** ** Keys *)
Definition good (a : Z) : Prop := a ≠ 0 /\ cstr m a (text a) /\ (length (text a) < fuel)%nat.
Definition hash (k : list Z) : Z := fold_left (fun h c => u64 (31 * h + c)) k 0.

Lemma hash_range k : in_u 64 (hash k).
Proof.
  unfold hash. assert (in_u 64 0) as H0 by done. revert H0. generalize 0.
  induction k as [|c k IH]; intros h Hh; [done|]. cbn. apply IH. by apply wrap_range.
Qed.
Lemma hash_loop_ok n a l h :
  cstr m a l -> (length l < n)%nat ->
  hash_loop m n a h = Some (fold_left (fun h c => u64 (31 * h + c)) l h).
Proof.
  revert a l h. induction n as [|n IH]; intros a l h Hc Hn; [lia|]. cbn [hash_loop].
  destruct l as [|c l].
  - by rewrite (cstr_nil _ _ Hc).
  - destruct (cstr_cons _ _ _ _ Hc) as (-> & Hb & _ & Hc'). unfold byte_ok in Hb.
    rewrite (proj2 (Z.eqb_neq c 0)) by lia. cbn in *. apply IH; [done|lia].
Qed.
Lemma keyhash_ok a : good a -> keyhash m fuel a = Some (hash (text a)).
Proof. intros (_ & Hc & Hf). by apply hash_loop_ok. Qed.

Lemma strcmp_loop_ok n a b la lb :
  cstr m a la -> cstr m b lb -> (length la < n)%nat ->
  exists c, strcmp_loop m n a b = Some c /\ (c = 0 <-> la = lb).
Proof.
  revert a b la lb. induction n as [|n IH]; intros a b la lb Ha Hb Hn; [lia|]. cbn [strcmp_loop].
  destruct la as [|x la], lb as [|y lb].
  - rewrite (cstr_nil _ _ Ha), (cstr_nil _ _ Hb). by exists 0.
  - destruct (cstr_cons _ _ _ _ Hb) as (-> & Hy & _ & _). unfold byte_ok in Hy.
    rewrite (cstr_nil _ _ Ha), (proj2 (Z.eqb_neq 0 y)) by lia. cbn.
    eexists. split; [done|]. split; [lia|done].
  - destruct (cstr_cons _ _ _ _ Ha) as (-> & Hx & _ & _). unfold byte_ok in Hx.
    rewrite (cstr_nil _ _ Hb), (proj2 (Z.eqb_neq x 0)) by lia. cbn.
    eexists. split; [done|]. split; [lia|done].
  - destruct (cstr_cons _ _ _ _ Ha) as (-> & Hx & _ & Ha').
    destruct (cstr_cons _ _ _ _ Hb) as (-> & Hy & _ & Hb'). unfold byte_ok in *. unfold truth.
    rewrite (proj2 (Z.eqb_neq x 0)) by lia. destruct (Z.eqb_spec x y) as [->|Hne]; cbn.
    + destruct (IH _ _ _ _ Ha' Hb') as (c & -> & Hc); [cbn in Hn; lia|]. exists c. split; [done|].
      rewrite Hc. split; [by intros ->|by intros [= ->]].
    + eexists. split; [done|]. split; [lia|]. by intros [= -> _].
Qed.
Lemma strcmp_ok a b :
  good a -> good b -> exists c, strcmp m fuel a b = Some c /\ (c = 0 <-> text a = text b).
Proof. intros (_ & Ha & Hf) (_ & Hb & _). by apply strcmp_loop_ok. Qed.

(** ** Where a search ends *)
Definition stops (k : list Z) (e : ENTRY) : Prop := key e = 0 \/ text (key e) = k.
#[local] Instance stops_dec k e : Decision (stops k e).
Proof. unfold stops. apply _. Defined.

Definition slot_at (es : list ENTRY) (p : Z) : option ENTRY := es !! Z.to_nat p.
Definition at_ (n : Z) (es : list ENTRY) (k : list Z) (j p : Z) : Prop :=
  0 <= j < 2 ^ n /\ p = slot n (hash k) j /\ (exists e, slot_at es p = Some e /\ stops k e) /\
  forall i, 0 <= i < j -> exists e, slot_at es (slot n (hash k) i) = Some e /\ ~ stops k e.

Lemma at_unique n es k j p j' p' : at_ n es k j p -> at_ n es k j' p' -> p = p'.
Proof.
  intros (? & -> & (e & He & Hs) & Hi) (? & -> & (e' & He' & Hs') & Hi').
  destruct (Z.lt_trichotomy j j') as [Hl|[->|Hl]]; [|done|].
  - destruct (Hi' j) as (e2 & He2 & Hn2); [lia|]. rewrite He in He2. by injection He2 as ->.
  - destruct (Hi j') as (e2 & He2 & Hn2); [lia|]. rewrite He' in He2. by injection He2 as ->.
Qed.

(** There is an empty slot: the search ends. *)
Definition may_end (n : Z) (es : list ENTRY) (k : list Z) (j : Z) : Prop :=
  match slot_at es (slot n (hash k) j) with Some e => stops k e | None => False end.
#[local] Instance may_end_dec n es k j : Decision (may_end n es k j).
Proof. unfold may_end. destruct (slot_at _ _); apply _. Defined.
Lemma at_exists n es k q e :
  0 <= n -> Z.of_nat (length es) = 2 ^ n -> es !! q = Some e -> key e = 0 ->
  exists j p, at_ n es k j p.
Proof.
  intros Hn Hlen Hq He. pose proof (lookup_lt_Some _ _ _ Hq) as Hlt.
  assert (forall p, 0 <= p < 2 ^ n -> exists e, slot_at es p = Some e) as Hall.
  { intros p Hp. apply lookup_lt_is_Some. lia. }
  destruct (slot_surj n (hash k) (Z.of_nat q)) as (j0 & Hj0 & Ej0); [done|lia|].
  destruct (least (may_end n es k) j0) as (j & Hj & Hs & Hi); [lia| |].
  { unfold may_end, slot_at. rewrite Ej0, Nat2Z.id, Hq. by left. }
  unfold may_end in *. exists j, (slot n (hash k) j). split_and!; [lia..|done| |].
  - destruct (slot_at es (slot n (hash k) j)); [by eexists|done].
  - intros i Hi'. destruct (Hall (slot n (hash k) i)) as [e' He']; [by apply slot_range|].
    exists e'. split; [done|]. specialize (Hi i ltac:(lia)). by rewrite He' in Hi.
Qed.

(** ** Tables *)
Record table (n : Z) (es : list ENTRY) : Prop := {
  tb_n : 3 <= n <= 60;
  tb_len : Z.of_nat (length es) = 2 ^ n;
  tb_at : forall p e, es !! p = Some e -> key e ≠ 0 ->
    good (key e) /\ exists j, at_ n es (text (key e)) j (Z.of_nat p) }.

Definition count (es : list ENTRY) : nat := length (filter (fun e => key e ≠ 0) es).
Definition contents (es : list ENTRY) (G : gmap (list Z) ENTRY) : Prop :=
  forall k e, G !! k = Some e <-> e ∈ es /\ key e ≠ 0 /\ text (key e) = k.

Lemma count_app es es' : count (es ++ es') = (count es + count es')%nat.
Proof. unfold count. by rewrite filter_app, length_app. Qed.
Lemma count_one e : count [e] = if decide (key e ≠ 0) then 1%nat else 0%nat.
Proof. unfold count. rewrite filter_cons. by case_decide. Qed.
Lemma count_insert es p e0 e :
  es !! p = Some e0 -> (count (<[p := e]> es) + count [e0] = count es + count [e])%nat.
Proof.
  intros Hp. pose proof (take_drop_middle es p e0 Hp) as He.
  rewrite insert_take_drop by (by eapply lookup_lt_Some).
  rewrite <- He at 3. rewrite (cons_middle e), (cons_middle e0), !count_app. lia.
Qed.
Lemma count_null es : (count es < length es)%nat -> exists q e, es !! q = Some e /\ key e = 0.
Proof.
  induction es as [|e es IH]; [cbn; lia|]. intros Hc. destruct (decide (key e = 0)).
  { by exists 0%nat, e. }
  change (e :: es) with ([e] ++ es) in Hc. rewrite count_app, count_one, decide_True in Hc by done.
  destruct IH as (q & e' & ? & ?); [cbn in Hc; lia|]. by exists (S q), e'.
Qed.

(** The entry at the end of a search is the one of the map. *)
Lemma contents_at n es G k j p e :
  table n es -> contents es G -> at_ n es k j p -> slot_at es p = Some e ->
  G !! k = if decide (key e = 0) then None else Some e.
Proof.
  intros Ht Hc Ha He. destruct Ha as (Hj & Hp & (e' & He' & Hs) & Hi) eqn:Ea. clear Ea.
  rewrite He in He'. injection He' as <-. case_decide as Hk.
  - destruct (G !! k) as [e'|] eqn:EG; [|done]. exfalso. apply Hc in EG as (Hin & Hk' & Ht').
    apply list_elem_of_lookup in Hin as [q Hq]. destruct (tb_at _ _ Ht q e' Hq Hk') as (_ & j' & Ha').
    rewrite Ht' in Ha'. pose proof (at_unique _ _ _ _ _ _ _ Ha Ha') as ->.
    unfold slot_at in He. rewrite Nat2Z.id in He. congruence.
  - apply Hc. split_and!; [|done|by destruct Hs]. by eapply list_elem_of_lookup_2.
Qed.

(** ** Filling an empty slot *)
Lemma slot_set_ne es p q e : 0 <= p -> 0 <= q -> p ≠ q -> slot_at (<[Z.to_nat p := e]> es) q = slot_at es q.
Proof. intros. unfold slot_at. apply list_lookup_insert_ne. lia. Qed.
Lemma slot_set_eq es p e e0 : slot_at es p = Some e0 -> slot_at (<[Z.to_nat p := e]> es) p = Some e.
Proof. intros Hp. apply list_lookup_insert_eq. by eapply lookup_lt_Some. Qed.

(** Searches that end elsewhere do not go through the slot. *)
Lemma at_set n es k j q p e0 e :
  0 <= n -> 0 <= p -> slot_at es p = Some e0 -> key e0 = 0 -> q ≠ p ->
  at_ n es k j q -> at_ n (<[Z.to_nat p := e]> es) k j q.
Proof.
  intros Hn Hp0 Hp Hk Hq (Hj & -> & (e1 & He1 & Hs) & Hi).
  pose proof (slot_range n (hash k) j Hn). split_and!; [lia..|done| |].
  - exists e1. by rewrite slot_set_ne by lia.
  - intros i Hij. destruct (Hi i Hij) as (e2 & He2 & Hns). exists e2. split; [|done].
    pose proof (slot_range n (hash k) i Hn). rewrite slot_set_ne; [done|lia..|].
    intros ->. rewrite Hp in He2. injection He2 as <-. apply Hns. by left.
Qed.

Lemma table_set n es p e0 e :
  table n es -> 0 <= p -> slot_at es p = Some e0 -> key e0 = 0 ->
  (key e ≠ 0 -> good (key e) /\ exists j, at_ n (<[Z.to_nat p := e]> es) (text (key e)) j p) ->
  table n (<[Z.to_nat p := e]> es).
Proof.
  intros [Hn Hlen Ha] Hp0 Hp Hk He. split; [done|by rewrite length_insert|].
  intros q e1 Hq Hk1. destruct (decide (Z.of_nat q = p)) as [<-|Hne].
  - pose proof (slot_set_eq es _ e e0 Hp) as Hq'. unfold slot_at in Hq'. rewrite Nat2Z.id in Hq'.
    rewrite Nat2Z.id in Hq. rewrite Hq in Hq'. injection Hq' as <-. by apply He.
  - pose proof (slot_set_ne es p (Z.of_nat q) e ltac:(lia) ltac:(lia) ltac:(lia)) as Hs.
    unfold slot_at in Hs. rewrite Nat2Z.id, Hq in Hs. symmetry in Hs.
    destruct (Ha q e1 Hs Hk1) as (? & j & ?). split; [done|]. exists j. eapply at_set; [lia|done..|].
    done.
Qed.

(** A new entry at the end of the search for its key. *)
Lemma table_enter n es G j p e0 e :
  table n es -> contents es G -> good (key e) ->
  at_ n es (text (key e)) j p -> slot_at es p = Some e0 -> key e0 = 0 ->
  table n (<[Z.to_nat p := e]> es) /\ contents (<[Z.to_nat p := e]> es) (<[text (key e) := e]> G) /\
  count (<[Z.to_nat p := e]> es) = S (count es).
Proof.
  intros Ht Hc Hg Ha Hp Hk. pose proof Ha as (Hj & Epp & _ & Hi).
  pose proof (tb_n _ _ Ht). pose proof (slot_range n (hash (text (key e))) j ltac:(lia)) as Hr. rewrite <- Epp in Hr.
  pose proof (contents_at _ _ _ _ _ _ _ Ht Hc Ha Hp) as HG. rewrite decide_True in HG by done.
  destruct Hg as (Hke & Hg). split_and!.
  - eapply table_set; [done|lia|done..|]. intros _. split; [done|]. exists j.
    split_and!; [lia..|done| |].
    + exists e. split; [by eapply slot_set_eq|]. by right.
    + intros i Hij. destruct (Hi i Hij) as (e2 & He2 & Hns). exists e2. split; [|done].
      pose proof (slot_range n (hash (text (key e))) i ltac:(lia)). rewrite slot_set_ne; [done|lia..|].
      intros Ei. rewrite <- Ei, Hp in He2. injection He2 as <-. apply Hns. by left.
  - intros k e1. destruct (decide (k = text (key e))) as [->|Hne].
    + rewrite lookup_insert_eq. split.
      * intros [= <-]. split; [|done]. by eapply list_elem_of_lookup_2, slot_set_eq.
      * intros ([q Hq]%list_elem_of_lookup & Hk1 & Ht1). f_equal.
        destruct (decide (q = Z.to_nat p)) as [->|Hqp].
        { pose proof (slot_set_eq es p e e0 Hp) as Hq'. unfold slot_at in Hq'. congruence. }
        rewrite list_lookup_insert_ne in Hq by done. exfalso.
        assert (G !! text (key e) = Some e1); [|congruence]. apply Hc. split; [|done].
        by eapply list_elem_of_lookup_2.
    + rewrite lookup_insert_ne by done. rewrite (Hc k e1). split; intros (Hin & Hk1 & Ht1); (split; [|done]).
      * apply list_elem_of_lookup in Hin as [q Hq]. apply (list_elem_of_lookup_2 _ q).
        rewrite list_lookup_insert_ne; [done|]. intros <-. unfold slot_at in Hp. congruence.
      * apply list_elem_of_lookup in Hin as [q Hq]. apply (list_elem_of_lookup_2 _ q).
        rewrite list_lookup_insert_ne in Hq; [done|]. intros <-.
        pose proof (slot_set_eq es p e e0 Hp) as Hq'. unfold slot_at in Hq'. congruence.
  - pose proof (count_insert es (Z.to_nat p) e0 e Hp) as Hn. rewrite !count_one in Hn.
    rewrite decide_False, decide_True in Hn by (done || lia). lia.
Qed.

(** Another empty slot in its place. *)
Lemma table_empty n es G p e0 d :
  table n es -> contents es G -> 0 <= p -> slot_at es p = Some e0 -> key e0 = 0 ->
  table n (<[Z.to_nat p := Entry 0 d]> es) /\ contents (<[Z.to_nat p := Entry 0 d]> es) G /\
  count (<[Z.to_nat p := Entry 0 d]> es) = count es.
Proof.
  intros Ht Hc Hp0 Hp Hk. split_and!.
  - by eapply table_set.
  - intros k e1. rewrite (Hc k e1). split; intros (Hin & Hk1 & Ht1); (split; [|done]);
      apply list_elem_of_lookup in Hin as [q Hq]; apply (list_elem_of_lookup_2 _ q);
      (destruct (decide (q = Z.to_nat p)) as [->|Hqp]; [exfalso|]).
    + unfold slot_at in Hp. congruence.
    + by rewrite list_lookup_insert_ne.
    + pose proof (slot_set_eq es p (Entry 0 d) e0 Hp) as Hq'. unfold slot_at in Hq'.
      rewrite Hq in Hq'. by injection Hq' as ->.
    + by rewrite list_lookup_insert_ne in Hq.
  - pose proof (count_insert es (Z.to_nat p) e0 (Entry 0 d) Hp) as Hn. rewrite !count_one in Hn.
    rewrite !decide_False in Hn by (cbn; lia). lia.
Qed.

Lemma empty_table n :
  3 <= n <= 60 ->
  let es := replicate (Z.to_nat (2 ^ n)) (Entry 0 0) in table n es /\ contents es ∅ /\ count es = 0%nat.
Proof.
  intros Hn es.
  assert (forall p e, es !! p = Some e -> key e = 0) as Hnull by (intros p e [-> _]%lookup_replicate_1; done).
  split_and!.
  - split; [done|unfold es; rewrite length_replicate; lia|]. intros p e Hp Hk. by apply Hnull in Hp.
  - intros k e. rewrite lookup_empty. split; [done|]. intros ([p Hp]%list_elem_of_lookup & Hk & _).
    by apply Hnull in Hp.
  - unfold es. generalize (Z.to_nat (2 ^ n)). intros k. by induction k.
Qed.
End Props.
End HashProps.
