(* ===== verification/HashSearch.v ===== *)
(** The functions on hash tables refine the operations of a finite map.

    [hash_table s G]: the table in memory has an empty slot in four, and stands for the finite
    map [G]. *)
From S2P Require Import Prelude KMonad KString KStringProps HashTable HashProbe HashProps.
#[global] Open Scope Z_scope.

Module HashSearch.
Import KString KStringProps HashTable HashProbe HashProps.

Section Search.
Context (m : mem) (fuel : nat) (calloc : hsearch_data -> Z -> Z -> bool) (text : Z -> list Z).
Abbreviation good := (good m fuel text).
Abbreviation at_ := (at_ text).
Abbreviation table := (table m fuel text).
Abbreviation contents := (contents text).

(** The state with a table of [2 ^ n] slots. *)
Definition mk (n : Z) (es : list ENTRY) (u : Z) : hsearch_data := Htab (Some (Tab (Some es) (2 ^ n - 1) u)).

Lemma wp_get_slot n es u p e Q :
  slot_at es p = Some e -> Q e (mk n es u) -> wp (get_slot p) (mk n es u) Q.
Proof. intros Hp HQ. unfold wp, get_slot, bind, mk, slot_at in *. cbn. by rewrite Hp. Qed.
Lemma wp_set_slot n es u p e0 e Q :
  slot_at es p = Some e0 -> Q tt (mk n (<[Z.to_nat p := e]> es) u) -> wp (set_slot p e) (mk n es u) Q.
Proof. intros Hp HQ. unfold wp, set_slot, bind, mk, slot_at in *. cbn. by rewrite Hp. Qed.

(** ** Probing *)
Lemma probe_index n h j : 0 <= n <= 64 -> u64 (h + tri j) &&& (2 ^ n - 1) = slot n h j.
Proof.
  intros Hn. rewrite land_mask_mod by lia. unfold slot, wrap.
  apply Z.mod_mod_divide. exists (2 ^ (64 - n)). rewrite <- Z.pow_add_r by lia. f_equal. lia.
Qed.
Lemma probe_next h j : u64 (u64 (h + tri j) + u64 (j + 1)) = u64 (h + tri (j + 1)).
Proof. unfold wrap. rewrite <- Zplus_mod, tri_succ. f_equal. lia. Qed.
Lemma probe_count j : u64 (u64 (j + 1) + 1) = u64 (j + 1 + 1).
Proof. unfold wrap. by rewrite Zplus_mod_idemp_l. Qed.

(** The loop stops at the first slot that has the property. *)
Lemma wp_probe n es u (st : ENTRY -> Prop) stop h j Q :
  0 <= n <= 64 ->
  (forall e R, e ∈ es -> (forall b, (b = true <-> st e) -> R b (mk n es u)) -> wp (stop e) (mk n es u) R) ->
  (exists e, slot_at es (slot n h j) = Some e /\ st e) ->
  (forall i, 0 <= i < j -> exists e, slot_at es (slot n h i) = Some e /\ ~ st e) ->
  Q (slot n h j) (mk n es u) ->
  forall cnt i, 0 <= i <= j -> j - i < Z.of_nat cnt ->
  wp (probe cnt stop (u64 (h + tri i)) (u64 (i + 1))) (mk n es u) Q.
Proof.
  intros Hn Hstop (ej & Hej & Hstj) Hi HQ cnt. induction cnt as [|cnt IH]; intros i Hij Hc; [lia|].
  cbn [probe]. wp1. apply wp_bind, wp_gets. cbn [mk __tab opt]. wp1. cbn [mask]. rewrite probe_index by done.
  destruct (decide (i = j)) as [->|Hne].
  - wp1. eapply wp_get_slot; [done|]. wp1. apply Hstop; [by eapply list_elem_of_lookup_2|].
    intros b Hb. destruct b; [by wp1|]. discriminate (proj2 Hb Hstj).
  - destruct (Hi i) as (e & He & Hst); [lia|].
    wp1. eapply wp_get_slot; [done|]. wp1. apply Hstop; [by eapply list_elem_of_lookup_2|].
    intros b Hb. destruct b; [by destruct Hst; apply Hb|].
    rewrite probe_next, probe_count. apply IH; lia.
Qed.

Lemma wp_slots n es u Q : Q (Z.to_nat (2 ^ n)) (mk n es u) -> wp slots (mk n es u) Q.
Proof.
  intros HQ. unfold wp, slots, bind, get_tab, gets, mk, opt, ret. cbn -[Z.to_nat Z.pow].
  by replace (2 ^ n - 1 + 1) with (2 ^ n) by lia.
Qed.

(** The start of a loop. *)
Lemma probe_start h : in_u 64 h -> h = u64 (h + tri 0) /\ 1 = u64 (0 + 1).
Proof. intros Hh. split; [|done]. change (tri 0) with 0. by rewrite Z.add_0_r, wrap_small. Qed.

Lemma wp_lookup n es u a j p Q :
  table n es -> good a -> at_ n es (text a) j p -> Q p (mk n es u) ->
  wp (lookup m fuel a (hash (text a))) (mk n es u) Q.
Proof.
  intros Ht Ha (Hj & -> & He & Hi) HQ. unfold lookup. wp1. apply wp_slots.
  destruct (probe_start (hash (text a))) as [Eh E1]; [apply hash_range|]. rewrite Eh at 1. rewrite E1.
  pose proof (tb_n _ _ _ _ _ Ht).
  eapply (wp_probe n es u (stops text (text a))); [lia| |done|done|done|lia|lia].
  intros e R Hin HR. destruct (Z.eqb_spec (key e) 0) as [Hk|Hk].
  - wp1. apply HR. split; [by left|done].
  - apply list_elem_of_lookup in Hin as [q Hq]. destruct (tb_at _ _ _ _ _ Ht q e Hq Hk) as [Hg _].
    destruct (strcmp_ok m fuel text (key e) a) as (c & Hc & Hc0); [done..|]. rewrite Hc. wp1. cbn [opt]. wp1. wp1.
    apply HR. rewrite Z.eqb_eq, Hc0. unfold stops. tauto.
Qed.

(** ** A larger table *)
Lemma size_loop_ok k n nel :
  3 <= n -> 64 <= n + Z.of_nat k -> 2 ^ n < 2 ^ 64 -> nel <= 2 ^ 63 ->
  exists n', size_loop k (2 ^ n) nel = Some (2 ^ n') /\ n <= n' /\ nel <= 2 ^ n'.
Proof.
  revert n. induction k as [|k IH]; intros n Hn Hk H64 Hnel.
  { assert (2 ^ 64 <= 2 ^ n) by (apply Z.pow_le_mono_r; lia). lia. }
  cbn [size_loop]. destruct (Z.ltb_spec (2 ^ n) nel) as [Hlt|Hge]; [|exists n; split_and!; (done || lia)].
  assert (n < 63) as Hn63.
  { destruct (Z.lt_ge_cases n 63); [done|]. assert (2 ^ 63 <= 2 ^ n) by (apply Z.pow_le_mono_r; lia). lia. }
  assert (2 ^ n * 2 = 2 ^ (n + 1)) as E2 by (rewrite Z.pow_add_r by lia; lia).
  assert (2 ^ (n + 1) < 2 ^ 64) as Hb by (apply Z.pow_lt_mono_r; lia).
  rewrite E2, wrap_small by (unfold in_u; lia).
  destruct (IH (n + 1)) as (n' & He & ? & ?); [lia|lia|lia|lia|]. exists n'. split_and!; [done|lia|done].
Qed.

Lemma contents_unique es G G' : contents es G -> contents es G' -> G = G'.
Proof.
  intros H H'. apply map_eq. intros k. apply option_eq. intros e. by rewrite (H k e), (H' k e).
Qed.
Lemma contents_snoc es G e :
  contents es G ->
  contents (es ++ [e]) (if decide (key e = 0) then G else <[text (key e) := e]> G) \/
  exists e', key e ≠ 0 /\ G !! text (key e) = Some e'.
Proof.
  intros Hc. destruct (decide (key e = 0)) as [H0|H0].
  { left. intros k e1. rewrite (Hc k e1), elem_of_app, list_elem_of_singleton.
    split; [by intros (? & ? & ?); auto|]. intros ([?| ->] & ? & ?); [done|lia]. }
  destruct (G !! text (key e)) as [e'|] eqn:EG; [by right; exists e'|]. left.
  intros k e1. rewrite elem_of_app, list_elem_of_singleton. destruct (decide (k = text (key e))) as [->|Hk].
  - rewrite lookup_insert_eq. split; [intros [= <-]; auto|]. intros ([Hin| ->] & ? & ?); [|done].
    assert (G !! text (key e) = Some e1) by (by apply Hc). congruence.
  - rewrite lookup_insert_ne by done. rewrite (Hc k e1). split; [by intros (? & ? & ?); auto|].
    intros ([?| ->] & ? & ?); [done|congruence].
Qed.

(** Copying an entry that is not yet in the new table. *)
Lemma wp_rehash n es u G e Q :
  table n es -> contents es G -> (count es < length es)%nat ->
  good (key e) -> G !! text (key e) = None ->
  (forall es', table n es' -> contents es' (<[text (key e) := e]> G) -> count es' = S (count es) ->
    Q tt (mk n es' u)) ->
  wp (rehash m fuel e) (mk n es u) Q.
Proof.
  intros Ht Hc Hcnt Hg HG HQ. unfold rehash, truth. rewrite (proj2 (Z.eqb_neq _ 0)) by apply Hg. cbn [negb].
  rewrite keyhash_ok with (text := text) by done. wp1. cbn [opt]. wp1. wp1. apply wp_slots.
  pose proof (tb_n _ _ _ _ _ Ht) as Hn. pose proof (tb_len _ _ _ _ _ Ht) as Hlen.
  destruct (count_null es Hcnt) as (q & eq & Hq & Hkq).
  destruct (at_exists text n es (text (key e)) q eq ltac:(lia) Hlen Hq Hkq) as (j & p & Ha).
  pose proof Ha as (Hj & Ep & (e0 & He0 & Hs0) & Hi).
  pose proof (contents_at m fuel text _ _ _ _ _ _ _ Ht Hc Ha He0) as Hk0. rewrite HG in Hk0.
  case_decide as Hk; [|done].
  destruct (probe_start (hash (text (key e)))) as [Eh E1]; [apply hash_range|]. wp1. rewrite Eh, E1.
  eapply (wp_probe n es u (fun e => key e = 0) _ _ j); [lia| | | | |lia|lia].
  - intros e1 R _ HR. wp1. apply HR. apply Z.eqb_eq.
  - rewrite <- Ep. by exists e0.
  - intros i Hij. destruct (Hi i Hij) as (e2 & ? & Hns). exists e2. split; [done|].
    intros Hk2. apply Hns. by left.
  - rewrite <- Ep. eapply wp_set_slot; [done|].
    destruct (table_enter m fuel text n es G j p e0 e) as (? & ? & ?); [done..|]. by apply HQ.
Qed.

(** No key is in the table twice. *)
Lemma keys_differ n es p q e e' :
  table n es -> es !! p = Some e -> es !! q = Some e' -> key e ≠ 0 -> key e' ≠ 0 ->
  text (key e) = text (key e') -> p = q.
Proof.
  intros Ht Hp Hq Hk Hk' Htx. destruct (tb_at _ _ _ _ _ Ht p e Hp Hk) as (_ & j & Ha).
  destruct (tb_at _ _ _ _ _ Ht q e' Hq Hk') as (_ & j' & Ha'). rewrite Htx in Ha.
  pose proof (at_unique _ _ _ _ _ _ _ _ Ha Ha'). lia.
Qed.

Lemma count_take_le es i : (count (take i es) <= count es)%nat.
Proof. rewrite <- (take_drop i es) at 2. rewrite count_app. lia. Qed.

(** The copying loop: the first [i] entries are in the new table. *)
Lemma wp_copy n es G n' u Q :
  table n es -> contents es G -> (count es <= Z.to_nat (2 ^ n'))%nat -> 3 <= n' <= 60 ->
  (forall es', table n' es' -> contents es' G -> count es' = count es -> Q tt (mk n' es' u)) ->
  wp (for_to (2 ^ n) (fun i => let! e := opt (es !! Z.to_nat i) in rehash m fuel e))
    (mk n' (replicate (Z.to_nat (2 ^ n')) (Entry 0 0)) u) Q.
Proof.
  intros Ht Hc Hcnt Hn' HQ. pose proof (tb_len _ _ _ _ _ Ht) as Hlen.
  eapply (wp_for_to (fun i s => exists es' G', s = mk n' es' u /\ table n' es' /\ contents es' G' /\
    contents (take (Z.to_nat i) es) G' /\ count es' = count (take (Z.to_nat i) es))); [lia| | |].
  - intros i s Hi (es' & G' & -> & Ht' & Hc' & Hct & Hn). pose proof (tb_len _ _ _ _ _ Ht') as Hlen'.
    destruct (lookup_lt_is_Some_2 es (Z.to_nat i)) as [e He]; [lia|]. rewrite He. cbn [opt]. wp1. wp1.
    replace (Z.to_nat (i + 1)) with (S (Z.to_nat i)) by lia. rewrite (take_S_r _ _ e) by done.
    pose proof (contents_snoc _ _ e Hct) as Hs. rewrite count_app, count_one.
    destruct (decide (key e = 0)) as [Hk|Hk].
    + rewrite decide_False by lia. unfold rehash, truth. rewrite Hk. apply wp_ret.
      destruct Hs as [Hs|(e' & ? & _)]; [|done]. eexists es', G'. split_and!; [done..|lia].
    + rewrite decide_True by done.
      destruct (tb_at _ _ _ _ _ Ht _ e He Hk) as [Hg _].
      assert (G' !! text (key e) = None) as HG'.
      { destruct (G' !! text (key e)) as [e'|] eqn:EG; [|done]. exfalso.
        apply Hct in EG as ([q Hq]%list_elem_of_lookup & Hk' & Htx).
        apply lookup_take_Some in Hq as [Hq Hlt].
        pose proof (keys_differ n es q (Z.to_nat i) e' e Ht Hq He Hk' Hk Htx). lia. }
      destruct Hs as [Hs|(e' & _ & ?)]; [|congruence].
      eapply (wp_rehash n' es' u G'); [done..| |done|done|].
      { pose proof (count_take_le es (S (Z.to_nat i))) as Hle. rewrite (take_S_r _ _ e), count_app, count_one in Hle by done.
        rewrite decide_True in Hle by done. lia. }
      intros es2 Ht2 Hc2 Hn2. exists es2, (<[text (key e) := e]> G'). split_and!; [done..|lia].
  - destruct (empty_table m fuel text n' Hn') as (? & ? & H0).
    exists (replicate (Z.to_nat (2 ^ n')) (Entry 0 0)), ∅. split_and!; [done..| |by rewrite H0].
    intros k e. rewrite lookup_empty. cbn. split; [done|]. intros (Hin & _). by apply not_elem_of_nil in Hin.
  - intros s (es' & G' & -> & Ht' & Hc' & Hct & Hn). rewrite take_ge in * by lia.
    rewrite (contents_unique _ _ _ Hc Hct) in HQ. by apply HQ.
Qed.

Context (calloc_fits : forall s n sz, calloc s n sz = true -> n * sz < 2 ^ 64).

(** The size [resize] chooses, if there is memory for it. *)
Lemma wp_newsize (s : hsearch_data) nel Q :
  0 <= nel < 2 ^ 64 ->
  (forall n', 3 <= n' -> (calloc s (2 ^ n') 16 = true -> n' <= 60 /\ nel <= 2 ^ n') -> Q (2 ^ n') s) ->
  wp (opt (size_loop 64 MINSIZE (if MAXSIZE <? nel then MAXSIZE else nel))) s Q.
Proof.
  intros Hnel HQ. change MINSIZE with (2 ^ 3). change MAXSIZE with (2 ^ 63).
  destruct (size_loop_ok 64 3 (if 2 ^ 63 <? nel then 2 ^ 63 else nel)) as (n' & -> & Hn' & Hle);
    [lia|lia|lia|destruct (Z.ltb_spec (2 ^ 63) nel); lia|].
  cbn [opt]. wp1. apply HQ; [lia|]. intros Hc%calloc_fits.
  assert (n' < 60) as Hn60.
  { apply (Z.pow_lt_mono_r_iff 2); [lia..|]. change (2 ^ 64) with (2 ^ 60 * 16) in Hc. lia. }
  split; [lia|]. destruct (Z.ltb_spec (2 ^ 63) nel); [|done].
  assert (2 ^ n' < 2 ^ 60) by (apply Z.pow_lt_mono_r; lia). lia.
Qed.

Lemma wp_resize n es G u nel Q :
  table n es -> contents es G -> 0 <= nel < 2 ^ 64 -> Z.of_nat (count es) <= nel ->
  Q 0 (mk n es u) ->
  (forall n' es', table n' es' -> contents es' G -> count es' = count es -> nel <= 2 ^ n' ->
    Q 1 (mk n' es' u)) ->
  wp (resize m fuel calloc nel) (mk n es u) Q.
Proof.
  intros Ht Hc Hnel Hcnt HQ0 HQ1. unfold resize. wp1. apply wp_bind, wp_gets. cbn [mk __tab opt]. wp1.
  cbn [entries mask used]. wp1. apply wp_newsize; [done|]. intros n' Hn' Hok. wp1. wp1.
  destruct (calloc _ _ _) eqn:Ec; cbn [negb]; [|by wp1]. destruct (Hok eq_refl) as [Hn60 Hle].
  wp1. apply wp_modify. wp1. replace (2 ^ n - 1 + 1) with (2 ^ n) by lia.
  eapply (wp_copy n es G n'); [done..|lia|lia|]. intros es' Ht' Hc' Hn. wp1. by apply HQ1.
Qed.

(** ** The functions *)
Definition hash_table (s : hsearch_data) (G : gmap (list Z) ENTRY) : Prop :=
  exists n es, s = mk n es (Z.of_nat (count es)) /\ table n es /\ contents es G /\
    Z.of_nat (count es) <= 3 * 2 ^ (n - 2).

(** What a result points to. *)
Definition pointee (s : hsearch_data) (p : option Z) : option ENTRY :=
  p ← p; t ← __tab s; es ← entries t; slot_at es p.

Lemma quarter n : 3 <= n <= 60 -> 2 ^ n = 4 * 2 ^ (n - 2) /\ 2 <= 2 ^ (n - 2) < 2 ^ 59 /\
  u64 (2 ^ n - 1 - (2 ^ n - 1) / 4) = 3 * 2 ^ (n - 2).
Proof.
  intros Hn. assert (2 ^ n = 4 * 2 ^ (n - 2)) as E.
  { change 4 with (2 ^ 2). rewrite <- Z.pow_add_r by lia. f_equal. lia. }
  assert (2 ^ 1 <= 2 ^ (n - 2)) by (apply Z.pow_le_mono_r; lia).
  assert (2 ^ (n - 2) < 2 ^ 59) by (apply Z.pow_lt_mono_r; lia).
  split_and!; [done|lia|done|]. rewrite E.
  replace ((4 * 2 ^ (n - 2) - 1) / 4) with (2 ^ (n - 2) - 1).
  - rewrite wrap_small; [lia|]. unfold in_u. lia.
  - apply Z.div_unique with 3; lia.
Qed.

(** Three quarters of the slots at most are used: a search ends. *)
Lemma search_ends n es k :
  table n es -> Z.of_nat (count es) <= 3 * 2 ^ (n - 2) ->
  exists j p e, at_ n es k j p /\ slot_at es p = Some e /\ 0 <= p.
Proof.
  intros Ht Hc. pose proof (tb_n _ _ _ _ _ Ht) as Hn. pose proof (tb_len _ _ _ _ _ Ht) as Hlen.
  destruct (quarter n Hn) as (E & ? & _).
  destruct (count_null es) as (q & eq & Hq & Hkq); [lia|].
  destruct (at_exists text n es k q eq ltac:(lia) Hlen Hq Hkq) as (j & p & Ha).
  pose proof Ha as (_ & -> & (e & He & _) & _). exists j, (slot n (hash k) j), e. split_and!; [done..|].
  apply slot_range. lia.
Qed.

Definition search_post (s : hsearch_data) (G : gmap (list Z) ENTRY) (item : ENTRY) (action : ACTION)
    (rp : Z * option Z) (s' : hsearch_data) : Prop :=
  let '(r, p) := rp in
  match G !! text (key item), action with
  | Some e, _ => r = 1 /\ pointee s' p = Some e /\ s' = s
  | None, FIND => r = 0 /\ p = None /\ s' = s
  | None, ENTER =>
      r = 0 /\ p = None /\ hash_table s' G \/
      r = 1 /\ pointee s' p = Some item /\ hash_table s' (<[text (key item) := item]> G)
  end.

(** Entering a new entry: the table may have to grow. *)
Lemma wp_grow n es G j p e0 item Q :
  table n es -> contents es G -> Z.of_nat (count es) <= 3 * 2 ^ (n - 2) ->
  good (key item) -> at_ n es (text (key item)) j p -> slot_at es p = Some e0 -> key e0 = 0 -> 0 <= p ->
  (forall s', hash_table s' G -> Q (0, None) s') ->
  (forall p' s', pointee s' (Some p') = Some item -> hash_table s' (<[text (key item) := item]> G) ->
    Q (1, Some p') s') ->
  wp (set_slot p item ;;;
      let! t := get_tab in
      let used' := u64 (used t + 1) in
      set_tab (Tab (entries t) (mask t) used') ;;;
      if u64 (mask t - mask t / 4) <? used' then
        let! r := resize m fuel calloc (u64 (2 * used')) in
        if r =? 0 then
          let! t := get_tab in
          set_tab (Tab (entries t) (mask t) (u64 (used t - 1))) ;;;
          let! e := get_slot p in
          set_slot p (Entry 0 (data e)) ;;;
          ret (0, None)
        else
          let! p := lookup m fuel (key item) (hash (text (key item))) in
          ret (1, Some p)
      else ret (1, Some p)) (mk n es (Z.of_nat (count es))) Q.
Proof.
  intros Ht Hc Hcnt Hg Ha Hp Hk Hp0 HQ0 HQ1.
  pose proof (tb_n _ _ _ _ _ Ht) as Hn. destruct (quarter n Hn) as (E & Hq & Eq).
  destruct (table_enter m fuel text n es G j p e0 item) as (Ht1 & Hc1 & Hn1); [done..|].
  wp1. eapply wp_set_slot; [done|]. set (es1 := <[Z.to_nat p := item]> es) in *.
  wp1. apply wp_bind, wp_gets. cbn [mk __tab opt]. wp1. cbn [entries mask used]. cbv zeta.
  assert (slot_at es1 p = Some item) as Hp1 by (by eapply slot_set_eq).
  assert (u64 (Z.of_nat (count es) + 1) = Z.of_nat (count es1)) as ->
    by (rewrite wrap_small; unfold in_u; lia).
  rewrite Eq. wp1. apply wp_modify. fold (mk n es1 (Z.of_nat (count es1))).
  destruct (Z.ltb_spec (3 * 2 ^ (n - 2)) (Z.of_nat (count es1))) as [Hfull|Hroom].
  2: { wp1. apply HQ1; [exact Hp1|]. by exists n, es1. }
  rewrite wrap_small by (unfold in_u; lia). wp1. eapply wp_resize; [done..|lia|lia| |].
  - cbn [Z.eqb]. wp1. apply wp_bind, wp_gets. cbn [mk __tab opt]. wp1. cbn [entries mask used].
    wp1. apply wp_modify. wp1. eapply wp_get_slot; [exact Hp1|].
    destruct (table_empty m fuel text n es G p e0 (data item)) as (Ht2 & Hc2 & Hn2); [done..|].
    assert (u64 (Z.of_nat (count es1) - 1) = Z.of_nat (count es)) as ->
      by (rewrite wrap_small; unfold in_u; lia).
    wp1. eapply wp_set_slot; [exact Hp1|]. wp1. apply HQ0. exists n, (<[Z.to_nat p := Entry 0 (data item)]> es).
    subst es1. rewrite list_insert_insert_eq, Hn2. by split_and!.
  - intros n' es' Ht' Hc' Hn' Hle. cbn [Z.eqb].
    pose proof (tb_n _ _ _ _ _ Ht') as Hb'. destruct (quarter n' Hb') as (E' & ? & _).
    assert (Z.of_nat (count es') <= 3 * 2 ^ (n' - 2)) as Hcnt' by lia.
    destruct (search_ends n' es' (text (key item)) Ht' Hcnt') as (j' & p' & e' & Ha' & He' & _).
    wp1. eapply wp_lookup; [done..|]. wp1. apply HQ1.
    + pose proof (contents_at m fuel text _ _ _ _ _ _ _ Ht' Hc' Ha' He') as HG. rewrite lookup_insert_eq in HG.
      case_decide; [done|]. injection HG as ->. exact He'.
    + exists n', es'. rewrite <- Hn'. by split_and!.
Qed.

Lemma hsearch_ok s G item action :
  hash_table s G -> good (key item) ->
  wp (hsearch_r m fuel calloc item action) s (search_post s G item action).
Proof.
  intros (n & es & -> & Ht & Hc & Hcnt) Hg. unfold hsearch_r.
  rewrite keyhash_ok with (text := text) by done. wp1. cbn [opt]. wp1.
  destruct (search_ends n es (text (key item)) Ht Hcnt) as (j & p & e & Ha & He & Hp0).
  pose proof (contents_at m fuel text _ _ _ _ _ _ _ Ht Hc Ha He) as HG.
  wp1. eapply wp_lookup; [done..|]. wp1. eapply wp_get_slot; [done|]. unfold truth.
  case_decide as Hk.
  - rewrite Hk. cbn [Z.eqb negb]. destruct action.
    + wp1. unfold search_post. by rewrite HG.
    + eapply wp_grow; [done..| |].
      * intros s' Hs'. unfold search_post. rewrite HG. by left.
      * intros p' s' Hp' Hs'. unfold search_post. rewrite HG. by right.
  - rewrite (proj2 (Z.eqb_neq _ 0)) by done. cbn [negb]. wp1. unfold search_post. rewrite HG.
    by split_and!.
Qed.

Lemma hcreate_ok s nel :
  0 <= nel < 2 ^ 64 ->
  wp (hcreate_r m fuel calloc nel) s (fun r s' => r = 0 /\ s' = Htab None \/ r = 1 /\ hash_table s' ∅).
Proof.
  intros Hnel. unfold hcreate_r. wp1. wp1. destruct (calloc s 1 24); cbn [negb].
  2: { wp1. wp1. wp1. by left. }
  wp1. apply wp_modify. wp1. unfold resize. wp1. apply wp_bind, wp_gets. cbn [__tab opt]. wp1.
  cbn [entries mask used]. wp1. apply wp_newsize; [done|]. intros n' Hn' Hok. wp1. wp1.
  destruct (calloc _ _ _); cbn [negb].
  2: { wp1. cbn [Z.eqb when]. wp1. wp1. wp1. by left. }
  destruct (Hok eq_refl) as [Hn60 _]. wp1. apply wp_modify. wp1. cbn [Z.eqb when]. wp1. wp1. wp1.
  right. split; [done|].
  destruct (empty_table m fuel text n' ltac:(lia)) as (Ht & Hc & H0).
  exists n', (replicate (Z.to_nat (2 ^ n')) (Entry 0 0)). rewrite H0.
  split_and!; [done..|]. destruct (quarter n' ltac:(lia)) as (_ & ? & _). lia.
Qed.

(** ** Sequences of calls
    A finite map: which results a call may have, and what it does to the map. *)
Inductive map_step : gmap (list Z) ENTRY -> ENTRY * ACTION -> Z * option ENTRY -> gmap (list Z) ENTRY -> Prop :=
  | found G item a e : G !! text (key item) = Some e -> map_step G (item, a) (1, Some e) G
  | missing G item : G !! text (key item) = None -> map_step G (item, FIND) (0, None) G
  | entered G item :
      G !! text (key item) = None ->
      map_step G (item, ENTER) (1, Some item) (<[text (key item) := item]> G)
  | no_memory G item : G !! text (key item) = None -> map_step G (item, ENTER) (0, None) G.
Inductive map_steps : gmap (list Z) ENTRY -> list (ENTRY * ACTION) -> list (Z * option ENTRY) ->
    gmap (list Z) ENTRY -> Prop :=
  | steps_nil G : map_steps G [] [] G
  | steps_cons G o r G1 os rs G2 :
      map_step G o r G1 -> map_steps G1 os rs G2 -> map_steps G (o :: os) (r :: rs) G2.

(** The calls, with the entry each result points to. *)
Fixpoint searches (os : list (ENTRY * ACTION)) : M hsearch_data (list (Z * option ENTRY)) :=
  match os with
  | [] => ret []
  | (item, a) :: os =>
      let! '(r, p) := hsearch_r m fuel calloc item a in
      let! e := gets (fun s => pointee s p) in
      let! rs := searches os in
      ret ((r, e) :: rs)
  end.

Lemma searches_ok s G os :
  hash_table s G -> Forall (fun o => good (key o.1)) os ->
  wp (searches os) s (fun rs s' => exists G', map_steps G os rs G' /\ hash_table s' G').
Proof.
  intros Hs Hg. revert s G Hs. induction Hg as [|[item a] os Hg _ IH]; intros s G Hs; cbn [searches].
  { wp1. exists G. split; [constructor|done]. }
  wp1. eapply wp_mono; [by apply hsearch_ok|]. intros [r p] s1 Hpost. wp1. wp1. wp1.
  assert (exists G1, map_step G (item, a) (r, pointee s1 p) G1 /\ hash_table s1 G1) as (G1 & Hstep & Hs1).
  { unfold search_post in Hpost. destruct (G !! text (key item)) as [e|] eqn:EG; [|destruct a].
    - destruct Hpost as (-> & -> & ->). exists G. by split; [constructor|].
    - destruct Hpost as (-> & -> & ->). exists G. by split; [constructor|].
    - destruct Hpost as [(-> & -> & ?)|(-> & -> & ?)]; eexists; (split; [by constructor|done]). }
  eapply wp_mono; [by apply IH|]. cbv beta. intros rs s2 (G2 & Hsteps & Hs2). wp1.
  exists G2. split; [|done]. by econstructor.
Qed.

End Search.

(** ** An example: two strings, a megabyte of memory *)
Definition two : mem := put_string (bytes "ab") 100 (put_string (bytes "cd") 200 ∅).
Definition two_text (a : Z) : list Z := if a =? 100 then bytes "ab" else bytes "cd".
Definition megabyte (_ : hsearch_data) (n sz : Z) : bool := n * sz <? 2 ^ 20.
Definition two_calls : list (ENTRY * ACTION) :=
  [(Entry 100 7, ENTER); (Entry 200 8, ENTER); (Entry 100 0, FIND); (Entry 200 9, ENTER)].

Lemma two_good : good two 10 two_text 100 /\ good two 10 two_text 200.
Proof.
  destruct (put_string_spec (bytes "cd") 200 ∅) as [Hcd _]; [by apply bytes_ok|done..|].
  destruct (put_string_spec (bytes "ab") 100 (put_string (bytes "cd") 200 ∅)) as [Hab Hf];
    [by apply bytes_ok|done..|].
  split; (split; [done|]; split; [|cbn; lia]); [exact Hab|].
  eapply cstr_frame; [exact Hcd|]. intros b Hb. apply Hf. cbn in Hb |- *. lia.
Qed.

Example two_run :
  option_map fst (searches two 10 megabyte two_calls (mk 3 (replicate 8 (Entry 0 0)) 0)) =
  Some [(1, Some (Entry 100 7)); (1, Some (Entry 200 8)); (1, Some (Entry 100 7)); (1, Some (Entry 200 8))].
Proof. by vm_compute. Qed.

End HashSearch.
