(* ===== verification/SearchList.v ===== *)
(** Linear search and queues of the C library (search/lsearch.c, insque.c).

    [lsearch] and [lfind] go through an array of [n] elements of [width] bytes in a byte
    memory; the comparison is a parameter, called with the addresses of the key and of an
    element.  [insque] and [remque] link an element into a doubly linked list and out of it;
    the elements are a map from addresses to pairs of pointers. *)
From S2P Require Import Prelude KMonad KString KStringProps.
#[global] Open Scope Z_scope.

Module SearchList.
Import KString KStringProps.

(** ** lsearch.c *)
Section Linear.
Context (compar : mem -> Z -> Z -> Z).

Fixpoint scan_elems (k : nat) (m : mem) (key p width : Z) : option Z :=
  match k with
  | O => None
  | S k => if compar m key p =? 0 then Some p else scan_elems k m key (p + width) width
  end.
Definition lfind (m : mem) (key base n width : Z) : Z := default 0 (scan_elems (Z.to_nat n) m key base width).

Fixpoint copy (k : nat) (dst src : Z) (m : mem) : mem :=
  match k with O => m | S k => copy k (dst + 1) (src + 1) (wr dst (rd m src) m) end.
(** The address of the element, the new number of elements, and the memory. *)
Definition lsearch (m : mem) (key base n width : Z) : Z * Z * mem :=
  match scan_elems (Z.to_nat n) m key base width with
  | Some p => (p, n, m)
  | None => (base + n * width, n + 1, copy (Z.to_nat width) (base + n * width) key m)
  end.

Lemma scan_elems_spec k m key p width :
  match scan_elems k m key p width with
  | Some q => exists i, 0 <= i < Z.of_nat k /\ q = p + i * width /\ compar m key q = 0 /\
      forall j, 0 <= j < i -> compar m key (p + j * width) ≠ 0
  | None => forall j, 0 <= j < Z.of_nat k -> compar m key (p + j * width) ≠ 0
  end.
Proof.
  revert p. induction k as [|k IH]; intros p; cbn [scan_elems]; [lia|].
  destruct (Z.eqb_spec (compar m key p) 0) as [He|He].
  { exists 0. split_and!; [lia..|done|lia]. }
  assert (forall j, 0 <= j -> (1 <= j -> compar m key (p + width + (j - 1) * width) ≠ 0) ->
    compar m key (p + j * width) ≠ 0) as Hstep.
  { intros j Hj Hn. destruct (decide (j = 0)) as [->|]; [by rewrite Z.mul_0_l, Z.add_0_r|].
    replace (p + j * width) with (p + width + (j - 1) * width) by lia. apply Hn. lia. }
  specialize (IH (p + width)). destruct (scan_elems k m key (p + width) width) as [q|].
  - destruct IH as (i & Hi & -> & Hc & Hn). exists (i + 1). split_and!; [lia..|done|].
    intros j Hj. apply Hstep; [lia|]. intros. apply Hn. lia.
  - intros j Hj. apply Hstep; [lia|]. intros. apply IH. lia.
Qed.

(** Copying to a place behind the source does not change the source. *)
Lemma copy_spec k dst src m :
  (forall i, 0 <= rd m i < 256) -> src + Z.of_nat k <= dst \/ dst + Z.of_nat k <= src ->
  (forall i, 0 <= i < Z.of_nat k -> rd (copy k dst src m) (dst + i) = rd m (src + i)) /\
  (forall b, b < dst \/ dst + Z.of_nat k <= b -> rd (copy k dst src m) b = rd m b).
Proof.
  revert dst src m. induction k as [|k IH]; intros dst src m Hb Hd; cbn [copy]; [split; [lia|done]|].
  assert (rd (wr dst (rd m src) m) dst = rd m src) as H0 by (rewrite rd_write_eq; by apply wrap_small, Hb).
  assert (forall b, b ≠ dst -> rd (wr dst (rd m src) m) b = rd m b) as Hne by (intros; by apply rd_write_ne).
  destruct (IH (dst + 1) (src + 1) (wr dst (rd m src) m)) as [H1 H2]; [|lia|].
  { intros i. destruct (decide (i = dst)) as [->|]; [by rewrite H0|by rewrite Hne]. }
  split.
  - intros i Hi. destruct (decide (i = 0)) as [->|].
    + rewrite H2, !Z.add_0_r by lia. done.
    + replace (dst + i) with (dst + 1 + (i - 1)) by lia. rewrite H1, Hne by lia. f_equal. lia.
  - intros b Hb'. rewrite H2, Hne by lia. done.
Qed.

(** [lsearch] gives the first element that is equal to the key; if there is none, it copies
    the key behind the last one. *)
Theorem lsearch_finds m key base n width :
  0 <= n -> 0 <= width -> (forall i, 0 <= rd m i < 256) ->
  (key + width <= base \/ base + (n + 1) * width <= key) ->
  let '(p, n', m') := lsearch m key base n width in
  (exists i, 0 <= i < n /\ p = base + i * width /\ compar m key p = 0 /\
    (forall j, 0 <= j < i -> compar m key (base + j * width) ≠ 0) /\ n' = n /\ m' = m) \/
  ((forall j, 0 <= j < n -> compar m key (base + j * width) ≠ 0) /\ n' = n + 1 /\ p = base + n * width /\
    (forall i, 0 <= i < width -> rd m' (p + i) = rd m (key + i)) /\
    (forall b, b < p \/ p + width <= b -> rd m' b = rd m b)).
Proof.
  intros Hn Hw Hb Hd. unfold lsearch. pose proof (scan_elems_spec (Z.to_nat n) m key base width) as Hs.
  destruct (scan_elems _ m key base width) as [q|].
  - left. destruct Hs as (i & Hi & -> & ? & ?). exists i. split_and!; [lia|lia|done..].
  - right. destruct (copy_spec (Z.to_nat width) (base + n * width) key m) as [H1 H2]; [done|nia|].
    rewrite Z2Nat.id in * by lia. split_and!; [|done|done|done|done]. intros j Hj. apply Hs. lia.
Qed.
End Linear.

(** ** insque.c *)
Record qelem := Q { next : Z; prev : Z }.
Abbreviation queue := (gmap Z qelem).

Definition get (p : Z) : M queue qelem := fun s =>
  if p =? 0 then None else match s !! p with Some x => Some (x, s) | None => None end.
Definition set_next (p v : Z) : M queue unit :=
  let! x := get p in modify (fun s => <[p := Q v (prev x)]> s).
Definition set_prev (p v : Z) : M queue unit :=
  let! x := get p in modify (fun s => <[p := Q (next x) v]> s).

Definition insque (e p : Z) : M queue unit :=
  if p =? 0 then set_prev e 0 ;;; set_next e 0
  else
    let! x := get p in
    set_next e (next x) ;;;
    set_prev e p ;;;
    set_next p e ;;;
    let! y := get e in
    if truth (next y) then set_prev (next y) e else ret tt.

Definition remque (e : Z) : M queue unit :=
  let! x := get e in
  when (truth (next x)) (let! x := get e in set_prev (next x) (prev x)) ;;;
  let! x := get e in
  when (truth (prev x)) (let! x := get e in set_next (prev x) (next x)).

(** A list of elements, linked from [p] to a last null pointer. *)
Fixpoint linked (s : queue) (before p : Z) (l : list Z) : Prop :=
  match l with
  | [] => p = 0
  | x :: l => p = x /\ x ≠ 0 /\ exists n, s !! x = Some (Q n before) /\ linked s x n l
  end.

Lemma linked_frame s s' b p l :
  (forall x, x ∈ l -> s' !! x = s !! x) -> linked s b p l -> linked s' b p l.
Proof.
  revert b p. induction l as [|x l IH]; intros b p Hf; [done|]. cbn. intros (-> & ? & n & Hx & Hl).
  split_and!; [done..|]. exists n. rewrite Hf by by left. split; [done|]. apply IH; [|done].
  intros y Hy. apply Hf. by right.
Qed.

(** The part of a list from [p] on is exchanged. *)
Lemma linked_tail s s' b h l1 p r r' :
  linked s b h (l1 ++ p :: r) -> (forall x, x ∈ l1 -> s' !! x = s !! x) ->
  (forall bp, linked s bp p (p :: r) -> linked s' bp p (p :: r')) ->
  linked s' b h (l1 ++ p :: r').
Proof.
  revert b h. induction l1 as [|x l1 IH]; intros b h Hl Hf Ht.
  - pose proof Hl as (-> & _). by apply Ht.
  - destruct Hl as (-> & ? & n & Hx & Hl). cbn. split_and!; [done..|]. exists n.
    rewrite Hf by by left. split; [done|]. apply IH; [done| |done]. intros y Hy. apply Hf. by right.
Qed.
(** What a list says of an element and its successor. *)
Lemma linked_mid s b h l1 p r :
  linked s b h (l1 ++ p :: r) ->
  p ≠ 0 /\ exists bp n, s !! p = Some (Q n bp) /\ linked s p n r.
Proof.
  revert b h. induction l1 as [|x l1 IH]; intros b h; [intros (_ & ? & n & ?)|intros (_ & _ & n & _ & ?)]; eauto.
Qed.

Lemma wp_get p s x R : p ≠ 0 -> s !! p = Some x -> R x s -> wp (get p) s R.
Proof. intros Hp Hx HR. unfold wp, get. by rewrite (proj2 (Z.eqb_neq _ _) Hp), Hx. Qed.
Lemma wp_set_next p v s x R :
  p ≠ 0 -> s !! p = Some x -> R tt (<[p := Q v (prev x)]> s) -> wp (set_next p v) s R.
Proof. intros Hp Hx HR. unfold set_next. wp1. eapply wp_get; [done..|]. by wp1. Qed.
Lemma wp_set_prev p v s x R :
  p ≠ 0 -> s !! p = Some x -> R tt (<[p := Q (next x) v]> s) -> wp (set_prev p v) s R.
Proof. intros Hp Hx HR. unfold set_prev. wp1. eapply wp_get; [done..|]. by wp1. Qed.

Ltac found := repeat (rewrite lookup_insert_eq || rewrite lookup_insert_ne by congruence); done.
Ltac q_step :=
  repeat first
    [ progress cbn [next prev] | lazymatch goal with |- wp (bind _ _) _ _ => apply wp_bind end | eapply wp_get; [done|found|] | eapply wp_set_next; [done|found|]
    | eapply wp_set_prev; [done|found|] | progress cbv beta ]; cbn [next prev].

(** [insque] puts an element behind another one, and changes no others but its neighbours. *)
Theorem insque_links s b h l1 p l2 e x :
  linked s b h (l1 ++ p :: l2) -> NoDup (e :: l1 ++ p :: l2) -> e ≠ 0 -> s !! e = Some x ->
  wp (insque e p) s (fun _ s' =>
    linked s' b h (l1 ++ p :: e :: l2) /\
    forall y, y ∉ e :: l1 ++ p :: l2 -> s' !! y = s !! y).
Proof.
  intros Hl [Hne [_ [Hd [Hp2 Hnd2]%NoDup_cons]]%NoDup_app]%NoDup_cons He0 He.
  destruct (linked_mid _ _ _ _ _ _ Hl) as (Hp0 & bp & n & Hp & Hr).
  assert (p ≠ e) by (intros ->; set_solver).
  unfold insque. rewrite (proj2 (Z.eqb_neq _ _) Hp0). q_step. unfold truth.
  assert (forall s', s' !! p = Some (Q e bp) -> s' !! e = Some (Q n p) -> linked s' e n l2 ->
    (forall y, y ∉ e :: p :: l2 -> s' !! y = s !! y) ->
    linked s' b h (l1 ++ p :: e :: l2) /\ forall y, y ∉ e :: l1 ++ p :: l2 -> s' !! y = s !! y) as Hdone.
  { intros s' Hp' He' Hl' Hf. split.
    - eapply linked_tail; [exact Hl| |].
      + intros y Hy. apply Hf. specialize (Hd y Hy). rewrite !not_elem_of_cons in *. set_solver.
      + intros bp' (_ & _ & n' & Hp2' & _). rewrite Hp in Hp2'. injection Hp2' as <- <-.
        split_and!; [done..|]. exists e. split; [done|]. split_and!; [done..|]. exists n. by split.
    - intros y Hy. apply Hf. set_solver. }
  destruct l2 as [|z l2].
  - cbn in Hr. subst n. apply wp_ret, Hdone; [found|found|done|].
    intros y Hy. rewrite !not_elem_of_cons in Hy. rewrite !lookup_insert_ne by naive_solver. done.
  - destruct Hr as (-> & Hz0 & n' & Hz & Hr). rewrite (proj2 (Z.eqb_neq _ _) Hz0). cbn [negb].
    assert (z ≠ p /\ z ≠ e) as [? ?] by (split; intros ->; set_solver).
    eapply wp_set_prev; [done|found|]. cbn [next]. apply NoDup_cons in Hnd2 as [Hz2 _]. apply Hdone; [found|found| |].
    + split_and!; [done..|]. exists n'. split; [found|]. eapply linked_frame; [|exact Hr].
      intros y Hy. rewrite !lookup_insert_ne; [done|set_solver..].
    + intros y Hy. rewrite !not_elem_of_cons in Hy. rewrite !lookup_insert_ne by naive_solver. done.
Qed.

(** [remque] takes the element behind another one out of the list. *)
Theorem remque_unlinks s b h l1 p e l2 :
  linked s b h (l1 ++ p :: e :: l2) -> NoDup (l1 ++ p :: e :: l2) ->
  wp (remque e) s (fun _ s' =>
    linked s' b h (l1 ++ p :: l2) /\
    forall y, y ∉ l1 ++ p :: l2 -> s' !! y = s !! y).
Proof.
  intros Hl [_ [Hd [Hp2 [He2 Hnd2]%NoDup_cons]%NoDup_cons]]%NoDup_app.
  destruct (linked_mid _ _ _ _ _ _ Hl) as (Hp0 & bp & n & Hp & (-> & He0 & n' & He & Hr)).
  assert (p ≠ e) by (intros ->; set_solver).
  assert (forall s', s' !! p = Some (Q n' bp) -> linked s' p n' l2 ->
    (forall y, y ∉ p :: l2 -> s' !! y = s !! y) ->
    linked s' b h (l1 ++ p :: l2) /\ forall y, y ∉ l1 ++ p :: l2 -> s' !! y = s !! y) as Hdone.
  { intros s' Hp' Hl' Hf. split.
    - eapply linked_tail; [exact Hl| |].
      + intros y Hy. apply Hf. specialize (Hd y Hy). rewrite !not_elem_of_cons in *. set_solver.
      + intros bp' (_ & _ & n2 & Hp2' & _). rewrite Hp in Hp2'. injection Hp2' as <- <-.
        split_and!; [done..|]. by exists n'.
    - intros y Hy. apply Hf. set_solver. }
  unfold remque. wp1. eapply wp_get; [done..|]. cbn [next]. unfold truth. wp1. destruct l2 as [|z l2].
  - cbn in Hr. subst n'. apply wp_ret. wp1. eapply wp_get; [done..|]. cbn [prev].
    rewrite (proj2 (Z.eqb_neq _ _) Hp0). cbn [negb when]. q_step. apply Hdone; [found|done|].
    intros y Hy. rewrite !not_elem_of_cons in Hy. rewrite !lookup_insert_ne by naive_solver. done.
  - destruct Hr as (-> & Hz0 & n2 & Hz & Hr). rewrite (proj2 (Z.eqb_neq _ _) Hz0). cbn [negb when].
    assert (z ≠ p /\ z ≠ e) as [? ?] by (split; intros ->; set_solver).
    q_step. rewrite (proj2 (Z.eqb_neq _ _) Hp0). cbn [negb when]. q_step.
    apply NoDup_cons in Hnd2 as [Hz2 _]. apply Hdone; [found| |].
    + split_and!; [done..|]. exists n2. split; [found|]. eapply linked_frame; [|exact Hr].
      intros y Hy. rewrite !lookup_insert_ne; [done|set_solver..].
    + intros y Hy. rewrite !not_elem_of_cons in Hy. rewrite !lookup_insert_ne by naive_solver. done.
Qed.
End SearchList.
