(* ===== verification/Qsort.v ===== *)
(** Sorting in the C library (stdlib/qsort.c: smoothsort; stdlib/bsearch.c).

    The array lives in a byte memory; elements have [width] bytes and are compared by a function
    of the caller, called with two addresses ([cmp]).  [p] is the bit vector of two words that
    says which sizes of heap the array is cut into, [lp] the table of these sizes in bytes, [ar]
    the addresses along which elements move.  A read of an entry of [lp] that was not
    computed, a step beyond the places of [ar] or [lp], and a shift by the width of a word are
    faults.  [tmp] is the address of the 256 bytes of buffer of [cycle]; [ctz] is the bit scan of
    the processor, which is undefined for zero. *)
From S2P Require Import Prelude KMonad KString SearchList.
#[global] Open Scope Z_scope.

Module Qsort.
Import KString.

Definition opt {A} (o : option A) : M mem A := match o with Some a => ret a | None => fault end.
Definition memcpy (dst src n : Z) : M mem unit := modify (SearchList.copy (Z.to_nat n) dst src).

Section Qsort.
Context (cmp : mem -> Z -> Z -> Z) (tmp : Z) (ctz : Z -> Z).

Definition compare (a b : Z) : M mem Z := gets (fun m => cmp m a b).

(** ** Two words of bits *)
Definition pntz (p : Z * Z) : Z :=
  let r := ctz (u64 (p.1 - 1)) in
  if truth r then r
  else let r := 64 + ctz p.2 in if negb (r =? 64) then r else 0.

Definition shl (p : Z * Z) (n : Z) : option (Z * Z) :=
  let '(p0, p1, n) := if 64 <=? n then (0, p.1, n - 64) else (p.1, p.2, n) in
  if (1 <=? n) && (n <? 64)
  then Some (u64 (p0 <<< n), u64 (p1 <<< n) ||| (p0 >>> (64 - n)))
  else None.
Definition shr (p : Z * Z) (n : Z) : option (Z * Z) :=
  let '(p0, p1, n) := if 64 <=? n then (p.2, 0, n - 64) else (p.1, p.2, n) in
  if (1 <=? n) && (n <? 64)
  then Some ((p0 >>> n) ||| u64 (p1 <<< (64 - n)), p1 >>> n)
  else None.

(** ** Moving elements *)
Definition places : nat := 113.
Definition push (ar : list Z) (a : Z) : M mem (list Z) :=
  if (length ar <? places)%nat then ret (ar ++ [a]) else fault.

(** [for(i = 0; i < n; i++) memcpy(ar[i], ar[i + 1], l)], where [ar[n]] is [tmp]. *)
Fixpoint move_chunk (ar : list Z) (l : Z) : M mem unit :=
  match ar with
  | [] => ret tt
  | a :: ar' => memcpy a (match ar' with [] => tmp | b :: _ => b end) l ;;; move_chunk ar' l
  end.
Fixpoint cycle_loop (fuel : nat) (width : Z) (ar : list Z) : M mem unit :=
  if width =? 0 then ret tt
  else
    match fuel, ar with
    | S fuel, a :: _ =>
        let l := if 256 <? width then 256 else width in
        memcpy tmp a l ;;;
        move_chunk ar l ;;;
        cycle_loop fuel (width - l) ((fun a => a + l) <$> ar)
    | _, _ => fault
    end.
Definition cycle (width : Z) (ar : list Z) : M mem unit :=
  if (length ar <? 2)%nat then ret tt
  else if (length ar <? places)%nat then cycle_loop (Z.to_nat width) width ar
  else fault.

(** ** Heaps *)
Definition get_lp (lp : list Z) (i : Z) : M mem Z := if i <? 0 then fault else opt (lp !! Z.to_nat i).

Fixpoint sift_loop (fuel : nat) (width ar0 head pshift : Z) (lp ar : list Z) : M mem (list Z) :=
  if pshift <=? 1 then ret ar
  else
    match fuel with
    | O => fault
    | S fuel =>
        let rt := head - width in
        let! s := get_lp lp (pshift - 2) in
        let lf := head - width - s in
        let! c1 := compare ar0 lf in
        let! c2 := if 0 <=? c1 then compare ar0 rt else ret (-1) in
        if (0 <=? c1) && (0 <=? c2) then ret ar
        else
          let! c := compare lf rt in
          if 0 <=? c
          then let! ar := push ar lf in sift_loop fuel width ar0 lf (pshift - 1) lp ar
          else let! ar := push ar rt in sift_loop fuel width ar0 rt (pshift - 2) lp ar
    end.
Definition sift (head width pshift : Z) (lp : list Z) : M mem unit :=
  let! ar := sift_loop (Z.to_nat pshift) width head head pshift lp [head] in
  cycle width ar.

(** The loop of [trinkle]: the array [ar], and the last values of [head], [pshift], [trusty]. *)
Fixpoint trinkle_loop (fuel : nat) (width ar0 head : Z) (p : Z * Z) (pshift : Z) (trusty : bool)
    (lp ar : list Z) : M mem (list Z * Z * Z * bool) :=
  if (p.1 =? 1) && (p.2 =? 0) then ret (ar, head, pshift, trusty)
  else
    match fuel with
    | O => fault
    | S fuel =>
        let! s := get_lp lp pshift in
        let stepson := head - s in
        let! c := compare stepson ar0 in
        if c <=? 0 then ret (ar, head, pshift, trusty)
        else
          let! stop :=
            if negb trusty && (1 <? pshift) then
              let rt := head - width in
              let! s := get_lp lp (pshift - 2) in
              let lf := head - width - s in
              let! c1 := compare rt stepson in
              if 0 <=? c1 then ret true
              else let! c2 := compare lf stepson in ret (0 <=? c2)
            else ret false in
          if stop then ret (ar, head, pshift, trusty)
          else
            let! ar := push ar stepson in
            let trail := pntz p in
            let! p := opt (shr p trail) in
            trinkle_loop fuel width ar0 stepson p (pshift + trail) false lp ar
    end.
Definition trinkle (head width : Z) (p : Z * Z) (pshift : Z) (trusty : bool) (lp : list Z) : M mem unit :=
  let! '(ar, head, pshift, trusty) := trinkle_loop 128 width head head p pshift trusty lp [head] in
  if negb trusty then cycle width ar ;;; sift head width pshift lp else ret tt.

(** ** The table of sizes *)
Fixpoint lp_loop (room : nat) (width size a b : Z) (lp : list Z) : option (list Z) :=
  match room with
  | O => None
  | S room =>
      let x := u64 (a + b + width) in
      if x <? size then lp_loop room width size b x (lp ++ [x]) else Some (lp ++ [x])
  end.
Definition lp_table (width size : Z) : option (list Z) := lp_loop 94 width size width width [width; width].

(** ** qsort *)
Fixpoint build (fuel : nat) (width high : Z) (lp : list Z) (head : Z) (p : Z * Z) (pshift : Z)
    : M mem (Z * (Z * Z) * Z) :=
  if negb (head <? high) then ret (head, p, pshift)
  else
    match fuel with
    | O => fault
    | S fuel =>
        let! '(p, pshift) :=
          if (p.1 &&& 3) =? 3 then
            sift head width pshift lp ;;;
            let! p := opt (shr p 2) in
            ret (p, pshift + 2)
          else
            let! s := get_lp lp (pshift - 1) in
            (if high - head <=? s then trinkle head width p pshift false lp else sift head width pshift lp) ;;;
            if pshift =? 1 then let! p := opt (shl p 1) in ret (p, 0)
            else let! p := opt (shl p (pshift - 1)) in ret (p, 1) in
        build fuel width high lp (head + width) (p.1 ||| 1, p.2) pshift
    end.

Fixpoint shrink (fuel : nat) (width : Z) (lp : list Z) (head : Z) (p : Z * Z) (pshift : Z) : M mem unit :=
  if (pshift =? 1) && (p.1 =? 1) && (p.2 =? 0) then ret tt
  else
    match fuel with
    | O => fault
    | S fuel =>
        let! '(p, pshift) :=
          if pshift <=? 1 then
            let trail := pntz p in
            let! p := opt (shr p trail) in
            ret (p, pshift + trail)
          else
            let! p := opt (shl p 2) in
            let pshift := pshift - 2 in
            let p := (Z.lxor p.1 7, p.2) in
            let! p := opt (shr p 1) in
            let! s := get_lp lp pshift in
            trinkle (head - s - width) width p (pshift + 1) true lp ;;;
            let! p := opt (shl p 1) in
            let p := (p.1 ||| 1, p.2) in
            trinkle (head - width) width p pshift true lp ;;;
            ret (p, pshift) in
        shrink fuel width lp (head - width) p pshift
    end.

Definition qsort (base nel width : Z) : M mem unit :=
  let size := u64 (width * nel) in
  if size =? 0 then ret tt
  else
    let high := base + size - width in
    let! lp := opt (lp_table width size) in
    let! '(head, p, pshift) := build (Z.to_nat nel) width high lp base (1, 0) 1 in
    trinkle head width p pshift false lp ;;;
    shrink (Z.to_nat nel) width lp head p pshift.

(** ** bsearch *)
Fixpoint bsearch_loop (fuel : nat) (key base nel width : Z) : M mem Z :=
  if nel <=? 0 then ret 0
  else
    match fuel with
    | O => fault
    | S fuel =>
        let try := base + width * (nel / 2) in
        let! sign := compare key try in
        if sign <? 0 then bsearch_loop fuel key base (nel / 2) width
        else if 0 <? sign then bsearch_loop fuel key (try + width) (nel - (nel / 2 + 1)) width
        else ret try
    end.
Definition bsearch (key base nel width : Z) : M mem Z := bsearch_loop 65 key base nel width.
End Qsort.

(** A run: bytes compared as numbers. *)
Fixpoint ctz_loop (k : nat) (x : Z) : Z :=
  match k with O => 0 | S k => if Z.odd x then 0 else 1 + ctz_loop k (x / 2) end.
Definition ctz_ref : Z -> Z := ctz_loop 64.
Definition byte_cmp (m : mem) (a b : Z) : Z := rd m a - rd m b.
Definition demo_bytes : list Z := [5; 3; 9; 1; 7; 7; 2; 8; 0; 4; 6; 3; 11; 2; 250; 1; 0; 77; 13].
Fixpoint put_list (l : list Z) (a : Z) : mem := match l with [] => ∅ | c :: l => <[a := c]> (put_list l (a + 1)) end.
Example qsort_run :
  option_map (fun r => map (fun i => rd r.2 (1000 + i)) (seqZ 0 19))
    (qsort byte_cmp 5000 ctz_ref 1000 19 1 (put_list demo_bytes 1000))
  = Some [0; 0; 1; 1; 2; 2; 3; 3; 4; 5; 6; 7; 7; 8; 9; 11; 13; 77; 250].
Proof. vm_compute. reflexivity. Qed.
End Qsort.
