(* ===== verification/Smooth.v ===== *)
(** Smoothsort on arrays as functions: the reference of the model of [qsort].

    [leo k] are the Leonardo numbers, the sizes of the heaps.  [heap f k h]: the [leo k]
    elements that end at [h] are a heap with its root at [h]: a left subtree of order [k - 1],
    a right one of order [k - 2] and the root.  [forest f h ks]: adjacent heaps of the orders
    [ks], from right to left; [chain f h ks]: their roots descend from right to left.  [siftf]
    and [trinklef] are the two repairs of the algorithm; values move by exchanges. *)
From S2P Require Import Prelude.
#[global] Open Scope Z_scope.

Module Smooth.

(** ** Leonardo numbers *)
Fixpoint leo (k : nat) : Z :=
  match k with O => 1 | S k' => match k' with O => 1 | S k'' => leo k' + leo k'' + 1 end end.

Lemma leo_SS k : leo (S (S k)) = leo (S k) + leo k + 1.
Proof. done. Qed.
Lemma leo_pos k : 1 <= leo k /\ 1 <= leo (S k).
Proof. induction k as [|k [IH1 IH2]]; [done|]. split; [done|]. rewrite leo_SS. lia. Qed.
Lemma leo_pos1 k : 1 <= leo k.
Proof. apply leo_pos. Qed.
Lemma leo_le_S k : leo k <= leo (S k).
Proof. destruct k as [|k]; [done|]. rewrite leo_SS. pose proof (leo_pos1 k). lia. Qed.
Lemma leo_mono j k : (j <= k)%nat -> leo j <= leo k.
Proof. induction 1 as [|k _ IH]; [lia|]. pose proof (leo_le_S k). lia. Qed.
Lemma leo_lt j k : (j < k)%nat -> (2 <= k)%nat -> leo j < leo k.
Proof.
  intros Hj Hk. destruct k as [|[|k]]; [lia|lia|]. rewrite leo_SS.
  pose proof (leo_mono j (S k) ltac:(lia)). pose proof (leo_pos1 k). lia.
Qed.

Section Order.
Context {V : Type} (ord : V -> V -> Z).
Definition ge (x y : V) : Prop := 0 <= ord x y.

(** The laws of a comparison function. *)
Class Order : Prop := {
  ord_flip : forall x y, 0 < ord x y <-> ord y x < 0;
  ge_trans : forall x y z, ge x y -> ge y z -> ge x z }.
Context `{!Order}.

#[global] Instance ge_dec x y : Decision (ge x y).
Proof. unfold ge. apply _. Defined.

Lemma ge_refl x : ge x x.
Proof. unfold ge. pose proof (ord_flip x x). lia. Qed.
Lemma not_ge x y : ~ ge x y -> ge y x.
Proof. unfold ge. pose proof (ord_flip x y). pose proof (ord_flip y x). lia. Qed.

(** ** Arrays *)
Abbreviation array := (Z -> V).
Definition swap (f : array) (i j : Z) : array := fun x =>
  if x =? i then f j else if x =? j then f i else f x.

Lemma swap_l f i j : swap f i j i = f j.
Proof. unfold swap. by rewrite Z.eqb_refl. Qed.
Lemma swap_r f i j : swap f i j j = f i.
Proof. unfold swap. destruct (Z.eqb_spec j i) as [->|]; [done|]. by rewrite Z.eqb_refl. Qed.
Lemma swap_ne f i j x : x ≠ i -> x ≠ j -> swap f i j x = f x.
Proof. intros. unfold swap. by rewrite !(proj2 (Z.eqb_neq _ _)). Qed.

(** The same elements, arranged differently between [lo] and [hi]. *)
Definition elems (n : Z) (f : array) : list V := f <$> seqZ 0 n.
Record shuffles (lo hi : Z) (f g : array) : Prop := {
  sh_out : forall x, x <= lo \/ hi < x -> g x = f x;
  sh_in : forall x, lo < x <= hi -> exists y, lo < y <= hi /\ g x = f y;
  sh_back : forall x, lo < x <= hi -> exists y, lo < y <= hi /\ f x = g y;
  sh_perm : forall n, -1 <= lo -> hi < n -> elems n g ≡ₚ elems n f }.

Lemma shuffles_refl lo hi f : shuffles lo hi f f.
Proof. split; [done|intros x Hx; by exists x..|done]. Qed.
Lemma shuffles_trans lo hi f g h : shuffles lo hi f g -> shuffles lo hi g h -> shuffles lo hi f h.
Proof.
  intros [O1 I1 B1 P1] [O2 I2 B2 P2]. split.
  - intros x Hx. by rewrite O2, O1.
  - intros x Hx. destruct (I2 x Hx) as (y & Hy & ->). apply I1. lia.
  - intros x Hx. destruct (B1 x Hx) as (y & Hy & ->). apply B2. lia.
  - intros n ? ?. by rewrite P2, P1.
Qed.
Lemma shuffles_mono lo hi lo' hi' f g :
  lo' <= lo -> hi <= hi' -> shuffles lo hi f g -> shuffles lo' hi' f g.
Proof.
  intros Hlo Hhi [O I B P]. split.
  - intros x Hx. apply O. lia.
  - intros x Hx. destruct (decide (lo < x <= hi)) as [Hin|Hout].
    + destruct (I x Hin) as (y & ? & ->). exists y. split; [lia|done].
    + exists x. split; [lia|]. apply O. lia.
  - intros x Hx. destruct (decide (lo < x <= hi)) as [Hin|Hout].
    + destruct (B x Hin) as (y & ? & ->). exists y. split; [lia|done].
    + exists x. split; [lia|]. symmetry. apply O. lia.
  - intros n ? ?. apply P; lia.
Qed.

Lemma seqZ_one a : seqZ a 1 = [a].
Proof. done. Qed.
Lemma elems_split n f i :
  0 <= i < n -> elems n f = (f <$> seqZ 0 i) ++ f i :: (f <$> seqZ (i + 1) (n - i - 1)).
Proof.
  intros Hi. unfold elems. replace n with (i + (1 + (n - i - 1))) at 1 by lia.
  rewrite seqZ_app by lia. rewrite (seqZ_app _ 1), seqZ_one, Z.add_0_l by lia. by rewrite !fmap_app.
Qed.
Lemma fmap_same (f g : array) a len : (forall x, a <= x < a + len -> f x = g x) -> f <$> seqZ a len = g <$> seqZ a len.
Proof. intros Hfg. apply list_fmap_ext. intros i x Hx. apply Hfg. apply lookup_seqZ in Hx. lia. Qed.

Lemma swap_perm n f i j : 0 <= i < n -> 0 <= j < n -> i < j -> elems n (swap f i j) ≡ₚ elems n f.
Proof.
  intros Hi Hj Hij. rewrite !(elems_split n _ i) by lia. rewrite swap_l.
  replace (n - i - 1) with ((j - i - 1) + (1 + (n - j - 1))) by lia.
  rewrite seqZ_app by lia. replace (i + 1 + (j - i - 1)) with j by lia.
  rewrite (seqZ_app _ 1), seqZ_one by lia. rewrite !fmap_app. cbn [fmap list_fmap]. rewrite swap_r.
  rewrite (fmap_same (swap f i j) f 0 i) by (intros; apply swap_ne; lia).
  rewrite (fmap_same (swap f i j) f (i + 1) (j - i - 1)) by (intros; apply swap_ne; lia).
  rewrite (fmap_same (swap f i j) f (j + 1) (n - j - 1)) by (intros; apply swap_ne; lia).
  solve_Permutation.
Qed.
Lemma swap_shuffles lo hi f i j : lo < i <= hi -> lo < j <= hi -> i ≠ j -> shuffles lo hi f (swap f i j).
Proof.
  intros Hi Hj Hne. split.
  - intros x Hx. apply swap_ne; lia.
  - intros x Hx. destruct (decide (x = i)) as [->|]; [exists j; by rewrite swap_l|].
    destruct (decide (x = j)) as [->|]; [exists i; by rewrite swap_r|]. exists x. by rewrite swap_ne.
  - intros x Hx. destruct (decide (x = i)) as [->|]; [exists j; by rewrite swap_r|].
    destruct (decide (x = j)) as [->|]; [exists i; by rewrite swap_l|]. exists x. by rewrite swap_ne.
  - intros n ? ?. destruct (decide (i < j)); [apply swap_perm; lia|].
    transitivity (elems n (swap f j i)); [|apply swap_perm; lia].
    unfold elems. rewrite (fmap_same (swap f i j) (swap f j i)); [done|].
    intros x _. unfold swap. destruct (Z.eqb_spec x i), (Z.eqb_spec x j); congruence.
Qed.

(** ** Heaps *)
Fixpoint heap (f : array) (k : nat) (h : Z) : Prop :=
  match k with
  | O => True
  | S k1 =>
      match k1 with
      | O => True
      | S k2 => ge (f h) (f (h - 1 - leo k2)) /\ ge (f h) (f (h - 1)) /\
          heap f k1 (h - 1 - leo k2) /\ heap f k2 (h - 1)
      end
  end.
Lemma heap_SS f k h :
  heap f (S (S k)) h <-> ge (f h) (f (h - 1 - leo k)) /\ ge (f h) (f (h - 1)) /\
    heap f (S k) (h - 1 - leo k) /\ heap f k (h - 1).
Proof. done. Qed.
(** A heap but for its root. *)
Definition subs (f : array) (k : nat) (h : Z) : Prop :=
  match k with
  | S (S k2) => heap f (S k2) (h - 1 - leo k2) /\ heap f k2 (h - 1)
  | _ => True
  end.
Lemma heap_subs f k h : heap f k h -> subs f k h.
Proof. destruct k as [|[|k]]; [done..|]. by intros (_ & _ & ?). Qed.

(** Induction over the subtrees. *)
Lemma order_ind (P : nat -> Prop) :
  P 0%nat -> P 1%nat -> (forall k, P k -> P (S k) -> P (S (S k))) -> forall k, P k.
Proof.
  intros H0 H1 HS k. assert (P k /\ P (S k)) as [? _]; [|done].
  induction k as [|k [? ?]]; [done|]. split; [done|]. by apply HS.
Qed.

Lemma heap_frame f g k h :
  (forall x, h - leo k < x <= h -> g x = f x) -> heap f k h -> heap g k h.
Proof.
  revert h. induction k as [| |k IH2 IH1] using order_ind; intros h Hf; [done..|].
  rewrite !heap_SS. intros (Hl & Hr & Hhl & Hhr). rewrite leo_SS in Hf.
  pose proof (leo_pos1 k). pose proof (leo_pos1 (S k)).
  rewrite !Hf by lia. split_and!; [done..| |].
  - apply IH1; [|done]. intros x Hx. apply Hf. lia.
  - apply IH2; [|done]. intros x Hx. apply Hf. lia.
Qed.
Lemma heap_max f k h : heap f k h -> forall x, h - leo k < x <= h -> ge (f h) (f x).
Proof.
  revert h. induction k as [| |k IH2 IH1] using order_ind; intros h Hh x Hx.
  1,2: cbn in Hx; replace x with h by lia; apply ge_refl.
  apply heap_SS in Hh as (Hl & Hr & Hhl & Hhr). rewrite leo_SS in Hx.
  destruct (decide (x = h)) as [->|]; [apply ge_refl|].
  destruct (decide (x <= h - 1 - leo k)).
  - eapply ge_trans; [exact Hl|]. apply IH1; [done|lia].
  - eapply ge_trans; [exact Hr|]. apply IH2; [done|lia].
Qed.

(** ** Repairing the root *)
Fixpoint siftf (k : nat) (f : array) (h : Z) : array :=
  match k with
  | O => f
  | S k1 =>
      match k1 with
      | O => f
      | S k2 =>
          let rt := h - 1 in
          let lf := h - 1 - leo k2 in
          if decide (ge (f h) (f lf) /\ ge (f h) (f rt)) then f
          else if decide (ge (f lf) (f rt)) then siftf k1 (swap f h lf) lf
          else siftf k2 (swap f h rt) rt
      end
  end.

Lemma siftf_SS k f h :
  siftf (S (S k)) f h =
    if decide (ge (f h) (f (h - 1 - leo k)) /\ ge (f h) (f (h - 1))) then f
    else if decide (ge (f (h - 1 - leo k)) (f (h - 1)))
    then siftf (S k) (swap f h (h - 1 - leo k)) (h - 1 - leo k)
    else siftf k (swap f h (h - 1)) (h - 1).
Proof. done. Qed.

Lemma siftf_shuffles k f h : shuffles (h - leo k) h f (siftf k f h).
Proof.
  revert f h. induction k as [| |k IH2 IH1] using order_ind; intros f h; [apply shuffles_refl..|].
  rewrite siftf_SS, leo_SS. pose proof (leo_pos1 k). pose proof (leo_pos1 (S k)).
  case_decide; [apply shuffles_refl|]. case_decide.
  - eapply shuffles_trans; [apply (swap_shuffles _ _ _ h (h - 1 - leo k)); lia|].
    eapply shuffles_mono; [| |apply IH1]; lia.
  - eapply shuffles_trans; [apply (swap_shuffles _ _ _ h (h - 1)); lia|].
    eapply shuffles_mono; [| |apply IH2]; lia.
Qed.

(** A tree of which only the root of one subtree was lowered: what [siftf] makes of the
    subtree is below the new root. *)
Lemma below_root lo hi f g y :
  shuffles lo hi f g -> (forall x, lo < x <= hi -> ge y (f x)) -> forall x, lo < x <= hi -> ge y (g x).
Proof. intros [_ I _ _] Hy x Hx. destruct (I x Hx) as (z & Hz & ->). by apply Hy. Qed.

Lemma subs_frame f g k h :
  (forall x, h - leo k < x < h -> g x = f x) -> subs f k h -> subs g k h.
Proof.
  destruct k as [|[|k]]; [done..|]. rewrite leo_SS. intros Hf [Hl Hr].
  pose proof (leo_pos1 k). pose proof (leo_pos1 (S k)).
  split; (eapply heap_frame; [|done]); intros x Hx; apply Hf; lia.
Qed.

(** The root [h] is exchanged for that of a heap [c], which is repaired. *)
Lemma sift_child k f h c :
  (forall f h, subs f k h -> heap (siftf k f h) k h) ->
  h <= c - leo k \/ c < h -> heap f k c -> ge (f c) (f h) ->
  let g := siftf k (swap f h c) c in
  heap g k c /\ g h = f c /\ ge (f c) (g c) /\ forall x, x ≠ h -> x <= c - leo k \/ c < x -> g x = f x.
Proof.
  intros IH Hh Hc Hge g. pose proof (leo_pos1 k). pose proof (siftf_shuffles k (swap f h c) c) as Hs.
  assert (h ≠ c) by lia. split_and!.
  - apply IH. eapply subs_frame; [|by apply heap_subs]. intros x Hx. apply swap_ne; lia.
  - unfold g. rewrite (sh_out _ _ _ _ Hs) by lia. apply swap_l.
  - eapply (below_root _ _ _ _ (f c) Hs); [|lia]. intros x Hx.
    destruct (decide (x = c)) as [->|]; [by rewrite swap_r|]. rewrite swap_ne by lia. by eapply heap_max.
  - intros x Hne Hx. unfold g. rewrite (sh_out _ _ _ _ Hs) by lia. apply swap_ne; lia.
Qed.

Lemma siftf_heap k f h : subs f k h -> heap (siftf k f h) k h.
Proof.
  revert f h. induction k as [| |k IH2 IH1] using order_ind; intros f h; [done..|].
  intros [Hl Hr]. rewrite siftf_SS. pose proof (leo_pos1 k). pose proof (leo_pos1 (S k)).
  case_decide as Hok; [by rewrite heap_SS; destruct Hok; split_and!|].
  assert (forall x y z : V, ~ (ge x y /\ ge x z) -> ge y z -> ge y x) as Hmax.
  { intros x y z Hn Hyz. destruct (decide (ge x y)) as [Hxy|Hxy]; [|by apply not_ge].
    eapply ge_trans; [exact Hyz|]. apply not_ge. tauto. }
  case_decide as Hlr; rewrite heap_SS.
  - destruct (sift_child (S k) f h (h - 1 - leo k)) as (Hc & Eh & Hgc & Hout); [done|lia|done|by eapply Hmax|].
    rewrite Eh, (Hout (h - 1)) by lia. split_and!; [done..|].
    eapply heap_frame; [|exact Hr]. intros x Hx. apply Hout; lia.
  - apply not_ge in Hlr as Hrl.
    destruct (sift_child k f h (h - 1)) as (Hc & Eh & Hgc & Hout);
      [done|lia|done|eapply (Hmax _ _ (f (h - 1 - leo k))); tauto|].
    rewrite Eh, (Hout (h - 1 - leo k)) by lia. split_and!; [done..| |done].
    eapply heap_frame; [|exact Hl]. intros x Hx. apply Hout; lia.
Qed.

(** ** Forests *)
Fixpoint forest (f : array) (h : Z) (ks : list nat) : Prop :=
  match ks with [] => True | k :: ks => heap f k h /\ forest f (h - leo k) ks end.
Fixpoint chain (f : array) (h : Z) (ks : list nat) : Prop :=
  match ks with
  | [] => True
  | k :: ks => match ks with [] => True | _ => ge (f h) (f (h - leo k)) end /\ chain f (h - leo k) ks
  end.
Definition total (ks : list nat) : Z := foldr (fun k s => leo k + s) 0 ks.

Lemma total_sizes_cons k ks : total (k :: ks) = leo k + total ks.
Proof. done. Qed.
Lemma total_nonneg ks : 0 <= total ks.
Proof. induction ks as [|k ks IH]; [done|]. rewrite total_sizes_cons. pose proof (leo_pos1 k). lia. Qed.

Lemma forest_frame f g h ks :
  (forall x, h - total ks < x <= h -> g x = f x) -> forest f h ks -> forest g h ks.
Proof.
  revert h. induction ks as [|k ks IH]; intros h Hf; [done|]. rewrite total_sizes_cons in Hf. intros [Hh Hks].
  pose proof (leo_pos1 k). pose proof (total_nonneg ks). split.
  - eapply heap_frame; [|exact Hh]. intros x Hx. apply Hf. lia.
  - apply IH; [|done]. intros x Hx. apply Hf. lia.
Qed.
Lemma chain_roots_frame f g h ks :
  (forall x, h - total ks < x <= h -> g x = f x) -> chain f h ks -> chain g h ks.
Proof.
  revert h. induction ks as [|k ks IH]; intros h Hf; [done|]. rewrite total_sizes_cons in Hf. intros [Hh Hks]. pose proof (leo_pos1 k). pose proof (total_nonneg ks). split.
  - destruct ks as [|k2 ks]; [done|]. rewrite total_sizes_cons in Hf.
    pose proof (leo_pos1 k2). pose proof (total_nonneg ks). by rewrite !Hf by lia.
  - apply IH; [|done]. intros x Hx. apply Hf. lia.
Qed.
Lemma forest_max f h ks :
  forest f h ks -> chain f h ks -> forall x, h - total ks < x <= h -> ge (f h) (f x).
Proof.
  revert h. induction ks as [|k ks IH]; intros h Hf Hc x Hx; [cbn in Hx; lia|].
  rewrite total_sizes_cons in Hx. destruct Hf as [Hh Hks], Hc as [H1 Hc].
  destruct (decide (h - leo k < x)); [apply (heap_max f k); [done|lia]|].
  destruct ks as [|k2 ks]; [cbn in Hx; lia|]. eapply ge_trans; [exact H1|]. apply IH; [done..|lia].
Qed.

(** ** Moving a root to its place among the roots *)
Fixpoint trinklef (ks : list nat) (k : nat) (trusty : bool) (f : array) (h : Z) : array :=
  let stop := if trusty then f else siftf k f h in
  match ks with
  | [] => stop
  | k2 :: ks =>
      let st := h - leo k in
      if ord (f st) (f h) <=? 0 then stop
      else if negb trusty &&
        match k with
        | S (S j) => bool_decide (ge (f (h - 1)) (f st)) || bool_decide (ge (f (h - 1 - leo j)) (f st))
        | _ => false
        end then stop
      else trinklef ks k2 false (swap f h st) st
  end.

Lemma trinklef_shuffles ks k b f h :
  shuffles (h - total (k :: ks)) h f (trinklef ks k b f h).
Proof.
  revert k b f h. induction ks as [|k2 ks IH]; intros k b f h; rewrite total_sizes_cons.
  all: assert (shuffles (h - (leo k + total [])) h f (if b then f else siftf k f h)) as Hstop
    by (replace (h - (leo k + total [])) with (h - leo k) by (cbn; lia);
        destruct b; [apply shuffles_refl|apply siftf_shuffles]).
  { exact Hstop. }
  assert (shuffles (h - (leo k + total (k2 :: ks))) h f (if b then f else siftf k f h)) as Hstop'.
  { pose proof (total_nonneg (k2 :: ks)). eapply shuffles_mono; [| |exact Hstop]; cbn in *; lia. }
  cbn [trinklef]. destruct (_ <=? _); [done|]. destruct (_ && _); [done|].
  pose proof (leo_pos1 k). pose proof (leo_pos1 k2). pose proof (total_nonneg ks).
  eapply shuffles_trans; [apply (swap_shuffles _ _ _ h (h - leo k)); rewrite ?total_sizes_cons; lia|].
  eapply shuffles_mono; [| |apply IH]; rewrite ?total_sizes_cons; lia.
Qed.

(** Where the root stays: some element of its tree is as large as the next root, so the tree,
    once repaired, is. *)
Lemma forest_stop ks k k2 (b : bool) f h g :
  (if b then heap f k h else subs f k h) -> g = (if b then f else siftf k f h) ->
  forest f (h - leo k) (k2 :: ks) -> chain f (h - leo k) (k2 :: ks) ->
  (exists x, h - leo k < x <= h /\ ge (f x) (f (h - leo k))) ->
  forest g h (k :: k2 :: ks) /\ chain g h (k :: k2 :: ks).
Proof.
  intros Hk Eg Hks Hc (x & Hx & Hge). pose proof (leo_pos1 k).
  assert (heap g k h /\ shuffles (h - leo k) h f g) as [Hg1 Hg2].
  { rewrite Eg. destruct b; [split; [done|apply shuffles_refl]|]. split; [by apply siftf_heap|apply siftf_shuffles]. }
  assert (forall y, y <= h - leo k -> g y = f y) as Hout by (intros y Hy; apply (sh_out _ _ _ _ Hg2); lia).
  split; split.
  - done.
  - eapply forest_frame; [|exact Hks]. intros y Hy. apply Hout. lia.
  - rewrite (Hout (h - leo k)) by lia. eapply ge_trans; [|exact Hge].
    destruct (sh_back _ _ _ _ Hg2 x Hx) as (y & Hy & ->). by apply (heap_max g k).
  - eapply chain_roots_frame; [|exact Hc]. intros y Hy. apply Hout. lia.
Qed.

(** A larger root over the same subtrees. *)
Lemma swap_heap k f h st :
  subs f k h -> st <= h - leo k ->
  (forall j, k = S (S j) -> ge (f st) (f (h - 1 - leo j)) /\ ge (f st) (f (h - 1))) ->
  heap (swap f h st) k h.
Proof.
  intros Hs Hst Hge. destruct k as [|[|j]]; [done..|]. destruct (Hge j eq_refl) as [? ?]. destruct Hs as [Hl Hr].
  rewrite leo_SS in Hst. pose proof (leo_pos1 j). pose proof (leo_pos1 (S j)).
  rewrite heap_SS, swap_l, !swap_ne by lia.
  split_and!; [done..| |]; (eapply heap_frame; [|done]); intros x Hx; apply swap_ne; lia.
Qed.

(** The root is not in its place only if the next one is larger; it may be exchanged for it when
    its own children are smaller. *)
Lemma trinklef_ok ks k (b : bool) f h :
  (if b then heap f k h else subs f k h) -> forest f (h - leo k) ks -> chain f (h - leo k) ks ->
  forest (trinklef ks k b f h) h (k :: ks) /\ chain (trinklef ks k b f h) h (k :: ks).
Proof.
  revert k b f h. induction ks as [|k2 ks IH]; intros k b f h Hk Hks Hc.
  { cbn. destruct b; [done|]. split_and!; [by apply siftf_heap|done..]. }
  pose proof (leo_pos1 k). pose proof (leo_pos1 k2). pose proof (total_nonneg ks).
  set (st := h - leo k) in *.
  assert ((exists x, st < x <= h /\ ge (f x) (f st)) -> forest (if b then f else siftf k f h) h (k :: k2 :: ks) /\
    chain (if b then f else siftf k f h) h (k :: k2 :: ks)) as Hstop by (by apply (forest_stop ks k k2 b f h)).
  cbn [trinklef]. fold st. destruct (Z.leb_spec (ord (f st) (f h)) 0) as [Hle|Hgt].
  { apply Hstop. exists h. split; [lia|]. unfold ge. pose proof (ord_flip (f h) (f st)). pose proof (ord_flip (f st) (f h)). lia. }
  assert (ge (f st) (f h)) as Hst by (unfold ge; lia).
  set (v := swap f h st). destruct (negb b && _) eqn:Eb.
  { apply Hstop. destruct b; [done|]. destruct k as [|[|j]]; [done..|]. cbn [negb andb] in Eb.
    rewrite leo_SS in *. pose proof (leo_pos1 j). pose proof (leo_pos1 (S j)).
    apply orb_true_iff in Eb as [Eb|Eb]; apply bool_decide_eq_true in Eb; eexists; (split; [|exact Eb]); unfold st; rewrite ?leo_SS; lia. }
  assert (heap v k h) as Hv.
  { apply swap_heap; [destruct b; [by apply heap_subs|done]|unfold st; lia|]. intros j ->. destruct b.
    - apply heap_SS in Hk as (? & ? & _). split; by eapply ge_trans.
    - cbn [negb andb] in Eb. apply orb_false_iff in Eb as [E1 E2].
      apply bool_decide_eq_false in E1, E2. split; by apply not_ge. }
  destruct Hks as [Hk2 Hks], Hc as [Hc1 Hc].
  destruct (IH k2 false v st) as [Hf' Hc'].
  - eapply subs_frame; [|by apply heap_subs]. intros x Hx. apply swap_ne; unfold st in *; lia.
  - eapply forest_frame; [|exact Hks]. intros x Hx. apply swap_ne; unfold st in *; lia.
  - eapply chain_roots_frame; [|exact Hc]. intros x Hx. apply swap_ne; unfold st in *; lia.
  - pose proof (trinklef_shuffles ks k2 false v st) as Hsh. set (g := trinklef ks k2 false v st) in *.
    assert (forall x, st < x -> g x = v x) as Hout by (intros x Hx; apply (sh_out _ _ _ _ Hsh); lia).
    split; split; [|done| |done].
    + eapply heap_frame; [|exact Hv]. intros x Hx. apply Hout. unfold st. lia.
    + rewrite (Hout h) by (unfold st; lia). unfold v at 1. rewrite swap_l.
      eapply (below_root _ _ _ _ _ Hsh); [|rewrite total_sizes_cons; unfold st; lia]. intros x Hx.
      destruct (decide (x = st)) as [->|]; [unfold v; by rewrite swap_r|].
      unfold v. rewrite swap_ne by (unfold st in *; lia). apply (forest_max f st (k2 :: ks)); done.
Qed.

(** ** Building the forest
    The trees to the left of the last one are heaps.  A tree is final when what follows is too
    short for it to become a subtree; from a final tree on, the roots are in order. *)
Section Phases.
Context (n : Z).

Definition final (h : Z) (k : nat) : Prop := n - 1 - h <= leo (pred k).
#[global] Instance final_dec h k : Decision (final h k).
Proof. unfold final. apply _. Defined.
Fixpoint good (f : array) (h : Z) (ks : list nat) : Prop :=
  match ks with
  | [] => True
  | k :: ks' => heap f k h /\ good f (h - leo k) ks' /\ (final h k -> chain f h ks)
  end.
Fixpoint spaced (ks : list nat) : Prop :=
  match ks with
  | [] => True
  | k :: ks' => match ks' with [] => True | k2 :: _ => (k + 2 <= k2)%nat end /\ spaced ks'
  end.
Record building (f : array) (h : Z) (k : nat) (ks : list nat) : Prop := {
  bd_total : total (k :: ks) = h + 1;
  bd_subs : subs f k h;
  bd_good : good f (h - leo k) ks;
  bd_spaced : spaced ks;
  bd_next : match ks with [] => True | k2 :: _ => (k < k2)%nat end;
  bd_zero : k = 0%nat -> exists ks', ks = 1%nat :: ks' }.

Lemma good_forest f h ks : good f h ks -> forest f h ks.
Proof. revert h. induction ks as [|k ks IH]; intros h; [done|]. intros (? & ? & _). split; auto. Qed.
Lemma forest_good f h ks : forest f h ks -> chain f h ks -> good f h ks.
Proof.
  revert h. induction ks as [|k ks IH]; intros h; [done|]. intros [? ?] Hc. pose proof Hc as [_ ?].
  split_and!; auto.
Qed.
Lemma good_frame f g h ks :
  (forall x, h - total ks < x <= h -> g x = f x) -> good f h ks -> good g h ks.
Proof.
  revert h. induction ks as [|k ks IH]; intros h Hf; [done|]. rewrite total_sizes_cons in Hf.
  pose proof (leo_pos1 k). pose proof (total_nonneg ks). intros (Hh & Hg & Hc). split_and!.
  - eapply heap_frame; [|exact Hh]. intros x Hx. apply Hf. lia.
  - apply IH; [|done]. intros x Hx. apply Hf. lia.
  - intros Hfin. eapply chain_roots_frame; [|by apply Hc]. rewrite total_sizes_cons. done.
Qed.

(** The tree before a final tree that is not its left sibling is final. *)
Lemma final_left f h k ks :
  good f (h - leo k) ks -> n - 1 - h <= leo (pred k) ->
  match ks with [] => True | k2 :: _ => (1 <= k /\ k + 2 <= k2)%nat \/ n - 1 - h = 0 /\ (k < k2)%nat end ->
  chain f (h - leo k) ks.
Proof.
  destruct ks as [|k2 ks]; [done|]. intros (_ & _ & Hc) Hfin Hk. apply Hc. unfold final.
  destruct Hk as [Hk|[H0 Hk]].
  - pose proof (leo_mono (S (S (pred k))) (pred k2) ltac:(lia)) as Hm. rewrite leo_SS in Hm.
    pose proof (leo_mono k (S (pred k)) ltac:(lia)). lia.
  - pose proof (leo_mono k (pred k2) ltac:(lia)). lia.
Qed.

Lemma build_start f : building f 0 1 [].
Proof. by split. Qed.

Lemma build_merge f h k ks :
  building f h k (S k :: ks) -> building (siftf k f h) (h + 1) (S (S k)) ks.
Proof.
  intros [Ht Hs (Hh & Hg & _) Hsp _ _]. rewrite !total_sizes_cons in Ht.
  pose proof (leo_pos1 k). pose proof (leo_pos1 (S k)). pose proof (total_nonneg ks).
  pose proof (siftf_shuffles k f h) as Hsh.
  assert (forall x, x <= h - leo k -> siftf k f h x = f x) as Hout by (intros x Hx; apply (sh_out _ _ _ _ Hsh); lia).
  split.
  - rewrite total_sizes_cons, leo_SS. lia.
  - split; replace (h + 1 - 1) with h by lia; [|by apply siftf_heap].
    eapply heap_frame; [|exact Hh]. intros x Hx. apply Hout. lia.
  - rewrite leo_SS. replace (h + 1 - (leo (S k) + leo k + 1)) with (h - leo k - leo (S k)) by lia.
    eapply good_frame; [|exact Hg]. intros x Hx. apply Hout. lia.
  - apply Hsp.
  - destruct ks as [|k3 ks]; [done|]. destruct Hsp as [? _]. lia.
  - done.
Qed.

(** The last tree is repaired, and the next element is a tree of its own. *)
Definition settle (f : array) (h : Z) (k : nat) (ks : list nat) : array :=
  if decide (final h k) then trinklef ks k false f h else siftf k f h.
Lemma build_new f h k ks :
  building f h k ks -> (1 <= k)%nat ->
  match ks with [] => True | k2 :: _ => (k + 2 <= k2)%nat end ->
  building (settle f h k ks) (h + 1) (if decide (k = 1%nat) then 0%nat else 1%nat) (k :: ks).
Proof.
  intros [Ht Hs Hg Hsp Hnx _] Hk Hgap.
  assert (leo (if decide (k = 1%nat) then 0%nat else 1%nat) = 1) as H1' by (by case_decide).
  split.
  - rewrite total_sizes_cons, H1'. lia.
  - by case_decide.
  - rewrite H1'. replace (h + 1 - 1) with h by lia. unfold settle. destruct (decide (final h k)) as [Hfin|Hfin].
    + destruct (trinklef_ok ks k false f h) as [? ?]; [done|by apply good_forest| |by apply forest_good].
      apply final_left; [done..|]. destruct ks; [done|]. left. lia.
    + cbn. split_and!; [by apply siftf_heap| |done].
      pose proof (siftf_shuffles k f h) as Hsh. eapply good_frame; [|exact Hg]. intros x Hx.
      apply (sh_out _ _ _ _ Hsh). lia.
  - done.
  - case_decide; lia.
  - case_decide as Hk1; [subst k|done]. by exists ks.
Qed.

(** At the end every tree is final. *)
Lemma build_end f k ks :
  building f (n - 1) k ks -> forest f (n - 1 - leo k) ks /\ chain f (n - 1 - leo k) ks.
Proof.
  intros [_ _ Hg _ Hnx _]. split; [by apply good_forest|]. pose proof (leo_pos1 (pred k)).
  apply final_left; [done|lia|]. destruct ks; [done|]. right. split; [lia|done].
Qed.

(** ** Taking the forest apart
    What is behind [h] is in order, and not smaller than anything before. *)
Definition tail (f : array) (h : Z) : Prop := forall i j, 0 <= i -> i < j -> h < j < n -> ge (f j) (f i).
Fixpoint ascending (ks : list nat) : Prop :=
  match ks with
  | [] => True
  | k :: ks' => match ks' with [] => True | k2 :: _ => (k < k2)%nat end /\ ascending ks'
  end.
Record falling (f : array) (h : Z) (k : nat) (ks : list nat) : Prop := {
  fl_total : total (k :: ks) = h + 1;
  fl_forest : forest f h (k :: ks);
  fl_chain : chain f h (k :: ks);
  fl_ascending : ascending (k :: ks);
  fl_zero : k = 0%nat -> ks ≠ [];
  fl_tail : tail f h }.

Lemma tail_shuffles f g lo hi h : shuffles lo hi f g -> -1 <= lo -> hi <= h -> tail f h -> tail g h.
Proof.
  intros Hsh Hlo Hhi Ht i j Hi Hij Hj. rewrite (sh_out _ _ _ _ Hsh j) by lia.
  destruct (decide (lo < i <= hi)) as [Hin|]; [|rewrite (sh_out _ _ _ _ Hsh i) by lia; by apply Ht].
  destruct (sh_in _ _ _ _ Hsh i Hin) as (y & Hy & ->). apply Ht; lia.
Qed.
(** The last root is the largest of what is left. *)
Lemma falling_tail f h k ks : falling f h k ks -> tail f (h - 1).
Proof.
  intros [Ht Hf Hc _ _ Htl] i j Hi Hij Hj. destruct (decide (j = h)) as [->|]; [|apply Htl; lia].
  apply (forest_max f h (k :: ks)); [done..|]. lia.
Qed.

Lemma spaced_ascending ks : spaced ks -> ascending ks.
Proof.
  induction ks as [|k ks IH]; [done|]. intros [Hk Hs]. split; [|auto]. destruct ks; [done|lia].
Qed.
Lemma falling_start f k ks :
  building f (n - 1) k ks -> falling (trinklef ks k false f (n - 1)) (n - 1) k ks.
Proof.
  intros Hb. destruct (build_end _ _ _ Hb) as [Hf Hc]. destruct Hb as [Ht Hs _ Hsp Hnx Hz].
  destruct (trinklef_ok ks k false f (n - 1)) as [? ?]; [done..|]. split; [done..| | |].
  - split; [done|by apply spaced_ascending].
  - intros Hk. destruct (Hz Hk) as [ks' ->]. done.
  - intros i j. lia.
Qed.

Lemma falling_drop f h k k2 ks : falling f h k (k2 :: ks) -> (k <= 1)%nat -> falling f (h - 1) k2 ks.
Proof.
  intros Hfl Hk. pose proof (falling_tail _ _ _ _ Hfl). destruct Hfl as [Ht [_ Hf] [_ Hc] [Hn Ha] _ _].
  assert (leo k = 1) as H1 by (destruct k as [|[|]]; [done..|lia]). rewrite H1, total_sizes_cons in *.
  split; [lia|done..| |done]. intros ->. lia.
Qed.

Lemma falling_split f h k ks :
  falling f h (S (S k)) ks ->
  let f1 := trinklef ks (S k) true f (h - 1 - leo k) in
  falling (trinklef (S k :: ks) k true f1 (h - 1)) (h - 1) k (S k :: ks).
Proof.
  intros Hfl f1. pose proof (falling_tail _ _ _ _ Hfl) as Htl.
  destruct Hfl as [Ht [(_ & _ & Hl & Hr)%heap_SS Hf] [_ Hc] [Hn Ha] _ _].
  rewrite leo_SS in *. rewrite total_sizes_cons, leo_SS in Ht.
  pose proof (leo_pos1 k). pose proof (leo_pos1 (S k)). pose proof (total_nonneg ks).
  replace (h - (leo (S k) + leo k + 1)) with (h - 1 - leo k - leo (S k)) in * by lia.
  destruct (trinklef_ok ks (S k) true f (h - 1 - leo k)) as [Hf1 Hc1]; [done..|]. fold f1 in Hf1, Hc1.
  pose proof (trinklef_shuffles ks (S k) true f (h - 1 - leo k)) as Hs1. fold f1 in Hs1.
  pose proof (trinklef_shuffles (S k :: ks) k true f1 (h - 1)) as Hs2.
  destruct (trinklef_ok (S k :: ks) k true f1 (h - 1)) as [Hf2 Hc2]; [|done|done|].
  { eapply heap_frame; [|exact Hr]. intros x Hx. apply (sh_out _ _ _ _ Hs1). lia. }
  split; [rewrite !total_sizes_cons; lia|done|done| |done|].
  - split; [lia|]. split; [|done]. destruct ks; [done|lia].
  - rewrite total_sizes_cons in Hs1. rewrite !total_sizes_cons in Hs2. eapply tail_shuffles; [exact Hs2|lia|lia|].
    eapply tail_shuffles; [exact Hs1|lia|lia|done].
Qed.

(** One element is left: everything is in order. *)
Lemma falling_end f h : falling f h 1 [] -> forall i j, 0 <= i -> i < j < n -> ge (f j) (f i).
Proof.
  intros [Ht _ _ _ _ Htl] i j Hi Hj. cbn in Ht. apply Htl; lia.
Qed.
End Phases.
End Order.
End Smooth.
