(* ===== verification/QsortBits.v ===== *)
(** The bit vector and the table of sizes of [qsort].

    [enc k ks] is the word that stands for a forest of the orders [k :: ks] (from right to left):
    its bits are the orders, counted from [k].  As long as the orders are below 62, the second
    word of the vector is zero. *)
From S2P Require Import Prelude KMonad KString Qsort Smooth.
#[global] Open Scope Z_scope.

Module QsortBits.
Import Qsort Smooth.

Fixpoint enc (k : nat) (ks : list nat) : Z :=
  match ks with [] => 1 | k2 :: ks' => 1 + 2 ^ (Z.of_nat k2 - Z.of_nat k) * enc k2 ks' end.
Lemma enc_cons k k2 ks : enc k (k2 :: ks) = 1 + 2 ^ (Z.of_nat k2 - Z.of_nat k) * enc k2 ks.
Proof. done. Qed.

(** Orders that fit. *)
Definition fits (ks : list nat) : Prop := ascending ks /\ Forall (fun k => (k <= 61)%nat) ks.
Lemma fits_tail k ks : fits (k :: ks) -> fits ks.
Proof. intros [[_ ?] [_ ?]%Forall_cons]. by split. Qed.
Lemma fits_next k k2 ks : fits (k :: k2 :: ks) -> (k < k2 <= 61)%nat.
Proof. intros [[? _] [_ [? _]%Forall_cons]%Forall_cons]. lia. Qed.
Lemma fits_head k ks : fits (k :: ks) -> (k <= 61)%nat.
Proof. by intros [_ [? _]%Forall_cons]. Qed.

Lemma pow2_split a b : 0 <= a -> 0 <= b -> 2 ^ (a + b) = 2 ^ a * 2 ^ b.
Proof. intros. by apply Z.pow_add_r. Qed.

Lemma enc_bound k ks : fits (k :: ks) -> 1 <= enc k ks < 2 ^ (62 - Z.of_nat k).
Proof.
  revert k. induction ks as [|k2 ks IH]; intros k Hf.
  - cbn. pose proof (fits_head _ _ Hf). split; [lia|]. apply Z.pow_gt_1; lia.
  - pose proof (fits_next _ _ _ Hf) as Hk. specialize (IH k2 (fits_tail _ _ Hf)). rewrite enc_cons.
    replace (62 - Z.of_nat k) with ((Z.of_nat k2 - Z.of_nat k) + (62 - Z.of_nat k2)) by lia.
    rewrite pow2_split by lia.
    assert (2 ^ 1 <= 2 ^ (Z.of_nat k2 - Z.of_nat k)) by (apply Z.pow_le_mono_r; lia). nia.
Qed.
Lemma enc_small k ks : fits (k :: ks) -> 1 <= enc k ks < 2 ^ 62.
Proof.
  intros Hf. pose proof (enc_bound _ _ Hf). pose proof (fits_head _ _ Hf).
  assert (2 ^ (62 - Z.of_nat k) <= 2 ^ 62) by (apply Z.pow_le_mono_r; lia). lia.
Qed.
Lemma pow2_even d : 1 <= d -> exists a, 2 ^ d = 2 * a /\ 0 < a.
Proof.
  intros Hd. exists (2 ^ (d - 1)). replace d with (1 + (d - 1)) at 1 by lia. rewrite pow2_split by lia.
  split; [done|]. apply Z.pow_pos_nonneg; lia.
Qed.
Lemma enc_odd k ks : fits (k :: ks) -> exists a, enc k ks = 2 * a + 1 /\ 0 <= a.
Proof.
  intros Hf. pose proof (enc_bound _ _ Hf) as Hb. destruct ks as [|k2 ks]; [by exists 0|].
  rewrite enc_cons in *. pose proof (fits_next _ _ _ Hf).
  destruct (pow2_even (Z.of_nat k2 - Z.of_nat k)) as (a & -> & Ha); [lia|].
  exists (a * enc k2 ks). split; [lia|]. pose proof (enc_bound _ _ (fits_tail _ _ Hf)). nia.
Qed.
Lemma enc_one k ks : fits (k :: ks) -> (enc k ks =? 1) = match ks with [] => true | _ => false end.
Proof.
  intros Hf. destruct ks as [|k2 ks]; [done|]. apply Z.eqb_neq. rewrite enc_cons.
  pose proof (enc_bound _ _ (fits_tail _ _ Hf)). pose proof (fits_next _ _ _ Hf).
  assert (0 < 2 ^ (Z.of_nat k2 - Z.of_nat k)) by (apply Z.pow_pos_nonneg; lia). nia.
Qed.

(** ** Operations *)
Lemma shr_low x n : 0 <= x < 2 ^ 64 -> 1 <= n < 64 -> shr (x, 0) n = Some (x / 2 ^ n, 0).
Proof.
  intros Hx Hn. unfold shr. cbn [fst snd]. rewrite (proj2 (Z.leb_gt 64 n)) by lia.
  rewrite (proj2 (Z.leb_le 1 n)), (proj2 (Z.ltb_lt n 64)) by lia. cbn [andb].
  rewrite !Z.shiftl_0_l, Z.shiftr_0_l, Z.lor_0_r, Z.shiftr_div_pow2 by lia. done.
Qed.
Lemma shl_low x n : 0 <= x -> 1 <= n < 64 -> x * 2 ^ n < 2 ^ 64 -> shl (x, 0) n = Some (x * 2 ^ n, 0).
Proof.
  intros Hx Hn Hb. unfold shl. cbn [fst snd]. rewrite (proj2 (Z.leb_gt 64 n)) by lia.
  rewrite (proj2 (Z.leb_le 1 n)), (proj2 (Z.ltb_lt n 64)) by lia. cbn [andb].
  rewrite !Z.shiftl_0_l, Z.lor_0_l, Z.shiftl_mul_pow2, Z.shiftr_div_pow2 by lia.
  rewrite wrap_small by (unfold in_u; nia). rewrite Z.div_small; [done|]. split; [done|].
  replace (2 ^ 64) with (2 ^ (64 - n) * 2 ^ n) in Hb by (rewrite <- Z.pow_add_r by lia; f_equal; lia).
  assert (0 < 2 ^ n) by (apply Z.pow_pos_nonneg; lia). nia.
Qed.

Lemma div_enc d e : 1 <= d -> (1 + 2 ^ d * e) / 2 ^ d = e.
Proof.
  intros Hd. destruct (pow2_even d Hd) as (a & Ha & ?). symmetry. apply Z.div_unique with 1; lia.
Qed.
Lemma shr_next k k2 ks :
  fits (k :: k2 :: ks) -> shr (enc k (k2 :: ks), 0) (Z.of_nat k2 - Z.of_nat k) = Some (enc k2 ks, 0).
Proof.
  intros Hf. pose proof (enc_small _ _ Hf). pose proof (fits_next _ _ _ Hf).
  rewrite shr_low by lia. by rewrite enc_cons, div_enc by lia.
Qed.

Section Ctz.
Context (ctz : Z -> Z)
  (ctz_ok : forall j y, 0 <= j -> Z.odd y = true -> 0 < 2 ^ j * y < 2 ^ 64 -> ctz (2 ^ j * y) = j).
Lemma pntz_next k k2 ks :
  fits (k :: k2 :: ks) -> pntz ctz (enc k (k2 :: ks), 0) = Z.of_nat k2 - Z.of_nat k.
Proof.
  intros Hf. pose proof (enc_small _ _ Hf) as Hs. pose proof (fits_next _ _ _ Hf).
  pose proof (enc_bound _ _ (fits_tail _ _ Hf)). destruct (enc_odd _ _ (fits_tail _ _ Hf)) as (a & Ha & _).
  unfold pntz. cbn [fst]. rewrite enc_cons in *.
  assert (0 < 2 ^ (Z.of_nat k2 - Z.of_nat k)) by (apply Z.pow_pos_nonneg; lia).
  rewrite wrap_small by (unfold in_u; lia).
  replace (1 + 2 ^ (Z.of_nat k2 - Z.of_nat k) * enc k2 ks - 1) with
    (2 ^ (Z.of_nat k2 - Z.of_nat k) * enc k2 ks) by lia.
  rewrite ctz_ok; [|lia| |nia].
  - unfold truth. by rewrite (proj2 (Z.eqb_neq _ 0)) by lia.
  - rewrite Ha. by rewrite Z.odd_add, Z.odd_mul.
Qed.
End Ctz.

(** Two orders that differ by one are merged. *)
Lemma low_bits k ks :
  fits (k :: ks) ->
  ((enc k ks &&& 3) =? 3) = match ks with k2 :: _ => (k2 =? S k)%nat | [] => false end.
Proof.
  intros Hf. change 3 with (2 ^ 2 - 1) at 1. rewrite land_mask_mod by lia. change (2 ^ 2) with 4.
  destruct ks as [|k2 ks]; [done|]. rewrite enc_cons. pose proof (fits_next _ _ _ Hf).
  destruct (enc_odd _ _ (fits_tail _ _ Hf)) as (a & -> & _).
  destruct (Nat.eqb_spec k2 (S k)) as [->|Hne].
  - replace (Z.of_nat (S k) - Z.of_nat k) with 1 by lia. apply Z.eqb_eq.
    symmetry. apply Z.mod_unique_pos with a; lia.
  - apply Z.eqb_neq. replace (Z.of_nat k2 - Z.of_nat k) with (2 + (Z.of_nat k2 - Z.of_nat k - 2)) by lia.
    rewrite pow2_split by lia. generalize (2 ^ (Z.of_nat k2 - Z.of_nat k - 2)). intros c Hc.
    assert (1 = 3); [|lia]. rewrite <- Hc. apply Z.mod_unique_pos with (c * (2 * a + 1)); lia.
Qed.

Lemma set_bit0 x : Z.even x = true -> x ||| 1 = x + 1.
Proof.
  intros [a ->]%Z.even_spec. apply (lor_aligned_add 1); [lia| |done].
  change (2 ^ 1) with 2. rewrite Z.mul_comm. apply Z.mod_mul. lia.
Qed.

(** [shr(p, 2)] and [p[0] |= 1]: the orders [k] and [k + 1] become [k + 2]. *)
Lemma merge_bits k ks :
  fits (k :: S k :: ks) -> fits (S (S k) :: ks) ->
  exists x, shr (enc k (S k :: ks), 0) 2 = Some (x, 0) /\ x ||| 1 = enc (S (S k)) ks.
Proof.
  intros Hf Hf'. pose proof (enc_small _ _ Hf). rewrite shr_low by lia. eexists. split; [done|].
  rewrite enc_cons. replace (Z.of_nat (S k) - Z.of_nat k) with 1 by lia. change (2 ^ 1) with 2. change (2 ^ 2) with 4.
  destruct ks as [|k3 ks]; [done|]. pose proof (fits_next _ _ _ Hf'). rewrite !enc_cons.
  replace (Z.of_nat k3 - Z.of_nat (S k)) with (1 + (Z.of_nat k3 - Z.of_nat (S (S k)))) by lia.
  rewrite pow2_split by lia. change (2 ^ 1) with 2.
  destruct (pow2_even (Z.of_nat k3 - Z.of_nat (S (S k)))) as (a & -> & _); [lia|].
  replace ((1 + 2 * (1 + 2 * (2 * a) * enc k3 ks)) / 4) with (2 * (a * enc k3 ks)).
  - rewrite set_bit0; [lia|]. by rewrite Z.even_mul.
  - apply Z.div_unique with 3; lia.
Qed.

(** [shl] and [p[0] |= 1]: a smaller order is added. *)
Lemma add_bits j k ks :
  (j < k)%nat -> fits (k :: ks) ->
  exists x, shl (enc k ks, 0) (Z.of_nat k - Z.of_nat j) = Some (x, 0) /\ x ||| 1 = enc j (k :: ks).
Proof.
  intros Hj Hf. pose proof (enc_bound _ _ Hf) as Hb. pose proof (fits_head _ _ Hf).
  assert (0 < 2 ^ (Z.of_nat k - Z.of_nat j)) as Hp by (apply Z.pow_pos_nonneg; lia).
  rewrite shl_low; [|lia|lia|].
  2: { assert (2 ^ (62 - Z.of_nat k) * 2 ^ (Z.of_nat k - Z.of_nat j) <= 2 ^ 62).
       { rewrite <- pow2_split by lia. apply Z.pow_le_mono_r; lia. }
       assert (2 ^ 62 < 2 ^ 64) by done. nia. }
  eexists. split; [done|]. rewrite enc_cons, Z.add_comm, Z.mul_comm. apply set_bit0.
  destruct (pow2_even (Z.of_nat k - Z.of_nat j)) as (a & -> & _); [lia|]. by rewrite !Z.even_mul.
Qed.

(** [shl(p, 2)], [p[0] ^= 7], [shr(p, 1)]: the order [k + 2] becomes [k + 1]. *)
Lemma flip_bits e : Z.odd e = true -> Z.lxor (e * 4) 7 = e * 4 - 1.
Proof.
  intros [a ->]%Z.odd_spec.
  assert (forall b, 0 <= b < 8 -> 8 * a + b = Z.lxor (8 * a) b) as Hadd.
  { intros b Hb. apply Z.add_nocarry_lxor. apply Z.bits_inj'. intros i Hi.
    rewrite Z.land_spec, Z.testbit_0_l. destruct (decide (i < 3)).
    - rewrite (testbit_aligned 3); [done| |lia]. change (2 ^ 3) with 8. rewrite Z.mul_comm. by apply Z.mod_mul.
    - rewrite (testbit_high 3 b) by (unfold in_u; lia). apply andb_false_r. }
  replace ((2 * a + 1) * 4) with (8 * a + 4) by lia. rewrite (Hadd 4) at 1 by lia.
  rewrite Z.lxor_assoc. change (Z.lxor 4 7) with 3. rewrite <- Hadd by lia. lia.
Qed.
Lemma halves_bits k ks :
  fits (S (S k) :: ks) ->
  exists x, shl (enc (S (S k)) ks, 0) 2 = Some (x, 0) /\
    shr (Z.lxor x 7, 0) 1 = Some (enc (S k) ks, 0).
Proof.
  intros Hf. pose proof (enc_small _ _ Hf). destruct (enc_odd _ _ Hf) as (a & Ea & Ha).
  rewrite shl_low by (change (2 ^ 2) with 4; lia). eexists. split; [done|]. change (2 ^ 2) with 4.
  rewrite flip_bits by (rewrite Ea; by rewrite Z.odd_add, Z.odd_mul).
  rewrite shr_low by lia. do 2 f_equal. change (2 ^ 1) with 2.
  transitivity (2 * enc (S (S k)) ks - 1); [symmetry; apply Z.div_unique with 1; lia|].
  destruct ks as [|k2 ks]; [done|]. rewrite !enc_cons. pose proof (fits_next _ _ _ Hf).
  replace (Z.of_nat k2 - Z.of_nat (S k)) with (1 + (Z.of_nat k2 - Z.of_nat (S (S k)))) by lia.
  rewrite pow2_split by lia. lia.
Qed.

(** ** The table *)
Lemma lp_loop_ok width size : 0 < width -> 0 < size <= 2 ^ 62 ->
  forall room k lp,
  (forall j, (j <= S k)%nat -> lp !! j = Some (width * leo j)) -> length lp = S (S k) ->
  width * leo k < size \/ k = 0%nat -> width * leo (S k) < size \/ k = 0%nat -> width <= size ->
  (exists j, (k < j <= k + room)%nat /\ size <= width * leo (S j)) ->
  exists lp', lp_loop room width size (width * leo k) (width * leo (S k)) lp = Some lp' /\
    forall j, width * leo j <= size -> lp' !! j = Some (width * leo j).
Proof.
  intros Hw Hsz room. induction room as [|room IH]; intros k lp Hlp Hlen Hk1 Hk2 Hws (j & Hj & Hle); [lia|].
  cbn [lp_loop]. assert (width * leo k + width * leo (S k) + width = width * leo (S (S k))) as Ex
    by (rewrite leo_SS; lia). rewrite Ex.
  assert (width * leo k <= size /\ width * leo (S k) <= size) as [? ?].
  { split; [destruct Hk1 as [?| ->]|destruct Hk2 as [?| ->]]; (lia || cbn [leo]; lia). }
  pose proof (leo_pos1 (S (S k))). rewrite wrap_small by (unfold in_u; nia).
  assert (forall i, (i <= S (S k))%nat -> (lp ++ [width * leo (S (S k))]) !! i = Some (width * leo i)) as Hlp'.
  { intros i Hi. destruct (decide (i = S (S k))) as [->|].
    - rewrite lookup_app_r by lia. rewrite Hlen, Nat.sub_diag. done.
    - rewrite lookup_app_l by lia. apply Hlp. lia. }
  destruct (Z.ltb_spec (width * leo (S (S k))) size) as [Hlt|Hge].
  - apply (IH (S k)); [done|rewrite length_app, Hlen; cbn; lia| |by left|done|].
    + left. pose proof (leo_le_S (S k)). nia.
    + exists j. split; [|done]. destruct (decide (j = S k)) as [->|]; [|lia]. lia.
  - eexists. split; [done|]. intros i Hi. apply Hlp'. destruct (decide (i <= S (S k))%nat); [done|].
    exfalso. pose proof (leo_lt (S (S k)) i ltac:(lia) ltac:(lia)). nia.
Qed.
Lemma lp_table_ok width n :
  0 < width -> 0 < n <= leo 62 -> width * n <= 2 ^ 62 ->
  exists lp, lp_table width (width * n) = Some lp /\ forall k, leo k <= n -> lp !! k = Some (width * leo k).
Proof.
  intros Hw Hn Hs. destruct (lp_loop_ok width (width * n) Hw ltac:(nia) 94 0 [width; width])
    as (lp & Hlp & Hall).
  - intros [|[|j]] Hj; [cbn; f_equal; lia..|lia].
  - done.
  - by right.
  - by right.
  - nia.
  - exists 61%nat. split; [lia|]. nia.
  - exists lp. unfold lp_table. cbn [leo] in Hlp. rewrite !Z.mul_1_r in Hlp. split; [done|].
    intros k Hk. apply Hall. nia.
Qed.
End QsortBits.
