(* ===== verification/QsortMem.v ===== *)
(** Moving elements: [cycle] on the byte memory moves every element of a path to the place
    before it, and the first one to the last place.

    [arr m f]: the elements in memory are those of the array [f].  [rot f ps] is [f] after
    exchanging its elements along [ps]. *)
From S2P Require Import Prelude KMonad KString SearchList Qsort Smooth.
#[global] Open Scope Z_scope.

Module QsortMem.
Import KString Qsort Smooth.

(** ** Exchanges along a path *)
Section Rot.
Context {V : Type}.
Fixpoint rot (f : Z -> V) (ps : list Z) : Z -> V :=
  match ps with
  | [] => f
  | p :: ps' => match ps' with [] => f | q :: _ => rot (swap f p q) ps' end
  end.
Lemma rot_cons f p q ps : rot f (p :: q :: ps) = rot (swap f p q) (q :: ps).
Proof. done. Qed.
Lemma rot_snoc f ps p q : rot f ((ps ++ [p]) ++ [q]) = swap (rot f (ps ++ [p])) p q.
Proof.
  revert f. induction ps as [|p0 ps IH]; intros f; [done|]. destruct ps as [|p1 ps]; [done|].
  rewrite <- !app_comm_cons, !rot_cons. rewrite !app_comm_cons. apply IH.
Qed.
Lemma rot_out f ps x : x ∉ ps -> rot f ps x = f x.
Proof.
  revert f. induction ps as [|p ps IH]; intros f Hx; [done|]. destruct ps as [|q ps]; [done|].
  rewrite rot_cons, IH by set_solver. apply swap_ne; set_solver.
Qed.
(** Every place gets the element of the next one, the last place that of the first. *)
Lemma rot_at f ps i p : NoDup ps -> ps !! i = Some p ->
  rot f ps p = f (default (default 0 (head ps)) (ps !! S i)).
Proof.
  revert f i. induction ps as [|p0 ps IH]; intros f i Hnd Hi; [done|]. destruct ps as [|q ps].
  { destruct i; [|done]. injection Hi as ->. done. }
  rewrite rot_cons. apply NoDup_cons in Hnd as [Hp0 Hnd]. destruct i as [|i].
  - injection Hi as ->. rewrite rot_out by done. apply swap_l.
  - cbn [lookup list_lookup] in Hi. rewrite (IH _ i) by done. cbn [head default]. change ((p0 :: q :: ps) !! S (S i)) with ((q :: ps) !! S i).
    destruct ((q :: ps) !! S i) as [z|] eqn:Ez; cbn; [|apply swap_r].
    apply swap_ne.
    + intros ->. apply Hp0. by eapply list_elem_of_lookup_2.
    + intros ->. assert (S i = 0%nat); [|lia]. eapply NoDup_lookup; [exact Hnd|exact Ez|done].
Qed.
Lemma rot_last f ps p : NoDup (ps ++ [p]) -> rot f (ps ++ [p]) p = f (default 0 (head (ps ++ [p]))).
Proof.
  intros Hnd. rewrite (rot_at f _ (length ps)); [|done|].
  - rewrite (lookup_ge_None_2 (ps ++ [p]) (S (length ps))); [done|]. rewrite length_app. cbn. lia.
  - rewrite lookup_app_r by done. by rewrite Nat.sub_diag.
Qed.
End Rot.

(** ** Bytes *)
Definition bytes (m : mem) : Prop := forall i, 0 <= rd m i < 256.
Definition apart (l x y : Z) : Prop := x + l <= y \/ y + l <= x.

Lemma copy_bytes k dst src m : bytes m -> bytes (SearchList.copy k dst src m).
Proof.
  revert dst src m. induction k as [|k IH]; intros dst src m Hb; [done|]. cbn. apply IH.
  intros i. unfold rd, wr. destruct (decide (i = dst)) as [->|].
  - rewrite lookup_insert_eq. apply (wrap_range 8). lia.
  - rewrite lookup_insert_ne by done. apply Hb.
Qed.

Section Cycle.
Context (tmp : Z).

Lemma move_chunk_ok l ar m :
  0 <= l -> bytes m -> pairwise (apart l) ar -> Forall (apart l tmp) ar ->
  wp (move_chunk tmp ar l) m (fun _ m' => bytes m' /\
    (forall i a, ar !! i = Some a -> forall b, 0 <= b < l ->
      rd m' (a + b) = rd m (default tmp (ar !! S i) + b)) /\
    (forall x, (forall a, a ∈ ar -> x < a \/ a + l <= x) -> rd m' x = rd m x)).
Proof.
  intros Hl. revert m. induction ar as [|a ar IH]; intros m Hb Hp Ht; cbn [move_chunk].
  { by apply wp_ret. }
  destruct Hp as [Hpa Hp]. apply Forall_cons in Ht as [Hta Ht].
  set (src := match ar with [] => tmp | b :: _ => b end).
  assert (apart l src a) as Hsrc.
  { unfold src. destruct ar as [|b ar]; [done|]. apply Forall_cons in Hpa as [H _]. unfold apart in *. lia. }
  assert (default tmp (ar !! 0%nat) = src) as Esrc by (by destruct ar).
  wp1. unfold memcpy. wp1.
  destruct (SearchList.copy_spec (Z.to_nat l) a src m) as [H1 H2]; [done|unfold apart in Hsrc; lia|].
  rewrite Z2Nat.id in H1, H2 by done.
  eapply wp_mono; [apply IH; [by apply copy_bytes|done..]|]. cbv beta. intros [] m' (Hb' & Hm & Ho).
  rewrite Forall_forall in Hpa. split_and!; [done| |].
  - intros [|i] x Hx b Hbl.
    + injection Hx as <-. change ((a :: ar) !! 1%nat) with (ar !! 0%nat). rewrite Esrc, Ho; [by apply H1|].
      intros y Hy. specialize (Hpa y Hy). unfold apart in Hpa. lia.
    + change ((a :: ar) !! S i) with (ar !! i) in Hx. change ((a :: ar) !! S (S i)) with (ar !! S i).
      rewrite (Hm i x Hx b Hbl). apply H2.
      destruct (ar !! S i) as [y|] eqn:Ey; cbn.
      * specialize (Hpa y ltac:(by eapply list_elem_of_lookup_2)). unfold apart in Hpa. lia.
      * unfold apart in Hta. lia.
  - intros x Hx. rewrite Ho, H2; [done| |].
    + apply Hx. by left.
    + intros y Hy. apply Hx. by right.
Qed.

(** ** Elements *)
Context (base n width : Z) (Hwidth : 0 < width)
  (Htmp : tmp + 256 <= base \/ base + n * width <= tmp).
Definition addr (i : Z) : Z := base + i * width.
Definition elem (m : mem) (a : Z) : list Z := (fun b => rd m (a + b)) <$> seqZ 0 width.
Definition arr (m : mem) (f : Z -> list Z) : Prop := bytes m /\ forall i, 0 <= i < n -> elem m (addr i) = f i.
(** Outside of the array and of the buffer nothing changes. *)
Definition same_outside (m m' : mem) : Prop :=
  forall x, x < base \/ base + n * width <= x -> x < tmp \/ tmp + 256 <= x -> rd m' x = rd m x.
Definition on_array (ps : list Z) : Prop := NoDup ps /\ Forall (fun p => 0 <= p < n) ps.

Lemma addr_apart p q : p ≠ q -> addr p + width <= addr q \/ addr q + width <= addr p.
Proof. unfold addr. intros. destruct (Z.lt_trichotomy p q) as [|[|]]; [left|lia|right]; nia. Qed.
Lemma addr_in p : 0 <= p < n -> base <= addr p /\ addr p + width <= base + n * width.
Proof. unfold addr. nia. Qed.

Definition succ_of (ps : list Z) (i : nat) : Z := default (default 0 (head ps)) (ps !! S i).
Record moved (m0 m : mem) (ps : list Z) (o : Z) : Prop := {
  mv_bytes : bytes m;
  mv_in : forall i p, ps !! i = Some p -> forall b, 0 <= b < o ->
    rd m (addr p + b) = rd m0 (addr (succ_of ps i) + b);
  mv_out : forall x, (forall p, p ∈ ps -> x < addr p \/ addr p + o <= x) -> x < tmp \/ tmp + 256 <= x ->
    rd m x = rd m0 x }.

(** The part of an element that is not yet moved. *)
Lemma moved_rest m0 m ps o q b :
  on_array ps -> moved m0 m ps o -> q ∈ ps -> 0 <= o <= b -> b < width ->
  rd m (addr q + b) = rd m0 (addr q + b).
Proof.
  intros [_ Hin] Hm Hq Ho Hb. rewrite Forall_forall in Hin. pose proof (addr_in q (Hin q Hq)).
  apply (mv_out _ _ _ _ Hm); [|lia]. intros p Hp. destruct (decide (p = q)) as [->|Hne]; [lia|].
  pose proof (addr_apart p q Hne). lia.
Qed.

Lemma chunk_apart o l ps : on_array ps -> 0 <= l <= 256 -> 0 <= o -> o + l <= width ->
  pairwise (apart l) ((fun p => addr p + o) <$> ps) /\ Forall (apart l tmp) ((fun p => addr p + o) <$> ps).
Proof.
  intros [Hnd Hin] Hl Ho Hol. split.
  - clear Hin. induction Hnd as [|p ps Hp _ IH]; cbn; [done|]. split; [|done].
    apply Forall_fmap, Forall_forall. intros q Hq. cbn. assert (p ≠ q) as Hne by set_solver.
    pose proof (addr_apart p q Hne). unfold apart. lia.
  - apply Forall_fmap. eapply Forall_impl; [exact Hin|]. intros p Hp. cbn. pose proof (addr_in p Hp).
    unfold apart. lia.
Qed.

(** One chunk. *)
Lemma chunk_ok m0 m p0 ps o l :
  on_array (p0 :: ps) -> moved m0 m (p0 :: ps) o -> 0 <= o -> 0 < l <= 256 -> o + l <= width ->
  wp (memcpy tmp (addr p0 + o) l ;;; move_chunk tmp ((fun p => addr p + o) <$> p0 :: ps) l) m
    (fun _ m' => moved m0 m' (p0 :: ps) (o + l)).
Proof.
  intros Hon Hm Ho Hl Hol. destruct (chunk_apart o l (p0 :: ps) Hon ltac:(lia) Ho Hol) as [Hpw Hft].
  pose proof Hon as [_ Hin]. apply Forall_cons in Hin as Hin'. destruct Hin' as [Hp0 _].
  pose proof (addr_in p0 Hp0).
  wp1. unfold memcpy. wp1.
  destruct (SearchList.copy_spec (Z.to_nat l) tmp (addr p0 + o) m) as [H1 H2];
    [apply (mv_bytes _ _ _ _ Hm)|lia|]. rewrite Z2Nat.id in H1, H2 by lia.
  eapply wp_mono; [apply (move_chunk_ok l); [lia|apply copy_bytes, (mv_bytes _ _ _ _ Hm)|done..]|].
  cbv beta. intros [] m' (Hb' & Hmv & Hout). rewrite Forall_forall in Hin. split; [done| |].
  - intros i p Hi b Hb. assert (p ∈ p0 :: ps) as Hp by (by eapply list_elem_of_lookup_2).
    pose proof (addr_in p (Hin p Hp)). destruct (decide (b < o)).
    + rewrite Hout, H2; [apply (mv_in _ _ _ _ Hm); [done|lia]|lia|]. intros a (q & -> & Hq)%list_elem_of_fmap.
      destruct (decide (q = p)) as [->|Hne]; [lia|]. pose proof (addr_apart q p Hne). lia.
    + replace (addr p + b) with (addr p + o + (b - o)) by lia.
      rewrite (Hmv i) by (lia || by rewrite list_lookup_fmap, Hi). rewrite list_lookup_fmap. unfold succ_of.
      destruct ((p0 :: ps) !! S i) as [q|] eqn:Eq; cbn [fmap option_fmap option_map from_option id].
      * assert (q ∈ p0 :: ps) as Hq by (by eapply list_elem_of_lookup_2). pose proof (addr_in q (Hin q Hq)).
        replace (addr q + o + (b - o)) with (addr q + b) by lia. rewrite H2 by lia.
        eapply moved_rest; [done..|lia|lia].
      * rewrite H1 by lia. cbn [head from_option id]. replace (addr p0 + o + (b - o)) with (addr p0 + b) by lia.
        eapply moved_rest; [done|done|by left|lia|lia].
  - intros x Hx Hxt. rewrite Hout, H2; [|lia|].
    + apply (mv_out _ _ _ _ Hm); [|done]. intros p Hp. specialize (Hx p Hp). lia.
    + intros a (q & -> & Hq)%list_elem_of_fmap. specialize (Hx q Hq). lia.
Qed.

Lemma cycle_loop_ok m0 p0 ps fuel o m :
  on_array (p0 :: ps) -> moved m0 m (p0 :: ps) o -> 0 <= o <= width -> width - o <= Z.of_nat fuel ->
  wp (cycle_loop tmp fuel (width - o) ((fun p => addr p + o) <$> p0 :: ps)) m
    (fun _ m' => moved m0 m' (p0 :: ps) width).
Proof.
  intros Hon. revert o m. induction fuel as [|fuel IH]; intros o m Hm Ho Hf; rewrite fmap_cons; cbn [cycle_loop].
  - replace o with width in * by lia. rewrite Z.sub_diag. by apply wp_ret.
  - destruct (Z.eqb_spec (width - o) 0) as [He|Hne].
    { apply wp_ret. by replace width with o by lia. }
    set (l := if 256 <? width - o then 256 else width - o).
    assert (0 < l <= 256 /\ o + l <= width) as [Hl Hol]
      by (unfold l; destruct (Z.ltb_spec 256 (width - o)); lia).
    pose proof (chunk_ok m0 m p0 ps o l Hon Hm ltac:(lia) Hl Hol) as Hchunk.
    apply wp_bind. unfold wp at 1 in Hchunk. unfold bind in Hchunk. unfold wp at 1.
    destruct (memcpy tmp (addr p0 + o) l m) as [[[] m1]|]; [|done].
    apply wp_bind. eapply wp_mono; [exact Hchunk|]. cbv beta. intros [] m2 Hm2.
    replace (width - o - l) with (width - (o + l)) by lia.
    specialize (IH (o + l) m2 Hm2 ltac:(lia) ltac:(lia)).
    assert ((fun a => a + l) <$> (addr p0 + o :: ((fun p => addr p + o) <$> ps)) =
      ((fun p => addr p + (o + l)) <$> p0 :: ps)) as ->; [|exact IH].
    rewrite !fmap_cons, <- list_fmap_compose. f_equal; [lia|]. apply list_fmap_ext. intros. cbn. lia.
Qed.

(** What [cycle] does to an array. *)
Lemma cycle_ok m f ps :
  arr m f -> on_array ps -> (length ps < places)%nat ->
  wp (cycle tmp width (addr <$> ps)) m (fun _ m' => arr m' (rot f ps) /\ same_outside m m').
Proof.
  intros [Hb Hf] Hon Hlen. unfold cycle. rewrite length_fmap.
  destruct (Nat.ltb_spec (length ps) 2) as [Hs|Hs].
  { apply wp_ret. split; [|by intros x]. destruct ps as [|p [|q ps]]; [done..|cbn in Hs; lia]. }
  rewrite (proj2 (Nat.ltb_lt _ _) Hlen). destruct ps as [|p0 ps]; [cbn in Hs; lia|].
  assert (addr <$> p0 :: ps = (fun p => addr p + 0) <$> p0 :: ps) as ->
    by (apply list_fmap_ext; intros; lia).
  replace width with (width - 0) at 2 by lia.
  eapply wp_mono; [apply (cycle_loop_ok m p0 ps); [done| |lia|lia]|].
  { split; [done|lia|done]. }
  cbv beta. intros [] m' Hm. pose proof Hon as [Hnd Hin]. rewrite Forall_forall in Hin. split.
  - split; [apply (mv_bytes _ _ _ _ Hm)|]. intros x Hx. unfold elem.
    destruct (decide (x ∈ p0 :: ps)) as [[i Hi]%list_elem_of_lookup|Hout].
    + rewrite (rot_at f _ i) by done. fold (succ_of (p0 :: ps) i).
      assert (0 <= succ_of (p0 :: ps) i < n) as Hsu.
      { unfold succ_of. destruct ((p0 :: ps) !! S i) as [q|] eqn:Eq; cbn; apply Hin; [|by left].
        by eapply list_elem_of_lookup_2. }
      rewrite <- Hf by done. apply list_fmap_ext. intros j b Hb'. apply lookup_seqZ in Hb' as [-> ?].
      apply (mv_in _ _ _ _ Hm); [done|lia].
    + rewrite rot_out, <- Hf by done. apply list_fmap_ext. intros j b Hb'. apply lookup_seqZ in Hb' as [-> ?].
      pose proof (addr_in x Hx). apply (mv_out _ _ _ _ Hm); [|lia]. intros p Hp.
      assert (p ≠ x) as Hne by set_solver. pose proof (addr_apart p x Hne). lia.
  - intros x Hx Hxt. apply (mv_out _ _ _ _ Hm); [|done]. intros p Hp. pose proof (addr_in p (Hin p Hp)). lia.
Qed.
End Cycle.
End QsortMem.
