(* ===== verification/QsortProps.v ===== *)
(** [qsort] sorts.

    The functions on memory are proved against smoothsort on arrays as functions ([Smooth]):
    a comparison of two addresses is one of two elements, and [cycle] makes the exchanges along
    the path that was recorded. *)
From stdpp Require Import sorting.
From S2P Require Import Prelude KMonad KString Qsort Smooth QsortBits QsortMem.
#[global] Open Scope Z_scope.

Module QsortProps.
Import KString Qsort Smooth QsortBits QsortMem.

Section Sort.
Context (cmp : mem -> Z -> Z -> Z) (tmp : Z) (ctz : Z -> Z) (base n width : Z).
Context (ord : list Z -> list Z -> Z) `{!Order ord}.
(** The comparison looks at the two elements only. *)
Context (Hcmp : forall m a b, cmp m a b = ord (elem width m a) (elem width m b)).
(** The bit scan of the processor, on words that are not zero. *)
Context (Hctz : forall j y, 0 <= j -> Z.odd y = true -> 0 < 2 ^ j * y < 2 ^ 64 -> ctz (2 ^ j * y) = j).
Context (Hwidth : 0 < width) (Hn : 0 < n) (Hbig : forall k, leo k <= n -> (k <= 61)%nat).
Context (Htmp : tmp + 256 <= base \/ base + n * width <= tmp).
Abbreviation addr := (addr base width).
Abbreviation arr := (arr base n width).
Abbreviation on_array := (on_array n).
Abbreviation same_outside := (same_outside tmp base n width).

Lemma wp_compare m f i j Q :
  arr m f -> 0 <= i < n -> 0 <= j < n -> Q (ord (f i) (f j)) m -> wp (compare cmp (addr i) (addr j)) m Q.
Proof. intros [_ Hf] Hi Hj HQ. apply wp_gets. by rewrite Hcmp, !Hf. Qed.

Context (lp : list Z) (Hlp : forall k, leo k <= n -> lp !! k = Some (width * leo k)).
Lemma wp_get_lp m i k Q :
  i = Z.of_nat k -> leo k <= n -> Q (width * leo k) m -> wp (get_lp lp i) m Q.
Proof.
  intros -> Hk HQ. unfold get_lp. rewrite (proj2 (Z.ltb_ge _ 0)) by lia. rewrite Nat2Z.id, Hlp by done.
  by apply wp_ret.
Qed.

Lemma wp_push m ps p Q :
  (length ps < places)%nat -> Q (addr <$> ps ++ [p]) m -> wp (push (addr <$> ps) (addr p)) m Q.
Proof.
  intros Hl HQ. unfold push. rewrite length_fmap, (proj2 (Nat.ltb_lt _ _) Hl). apply wp_ret.
  by rewrite fmap_app in HQ.
Qed.
Lemma on_array_snoc ps p : on_array ps -> p ∉ ps -> 0 <= p < n -> on_array (ps ++ [p]).
Proof.
  intros [Hnd Hin] Hp Hr. split; [|by apply Forall_app; split; [|constructor]].
  apply NoDup_app. split_and!; [done|set_solver|apply NoDup_singleton].
Qed.
Lemma addr_minus i j : addr i - width - width * j = addr (i - 1 - j) /\ addr i - width = addr (i - 1) /\
  addr i - width * j = addr (i - j).
Proof. unfold QsortMem.addr. lia. Qed.

(** A test of two comparisons, the second of which is made only if the first holds. *)
Lemma wp_both {B} m f i j c1 (T E : M mem B) Q :
  arr m f -> 0 <= i < n -> 0 <= j < n ->
  (0 <= c1 /\ ge ord (f i) (f j) -> wp T m Q) -> (~ (0 <= c1 /\ ge ord (f i) (f j)) -> wp E m Q) ->
  wp (let! c2 := if 0 <=? c1 then compare cmp (addr i) (addr j) else ret (-1) in
      if (0 <=? c1) && (0 <=? c2) then T else E) m Q.
Proof.
  intros Ha Hi Hj HT HE. unfold ge in *. wp1. destruct (Z.leb_spec 0 c1) as [H1|H1].
  - apply (wp_compare m f); [done..|]. cbn [andb].
    destruct (Z.leb_spec 0 (ord (f i) (f j))); [by apply HT|apply HE; lia].
  - apply wp_ret. cbn [andb]. apply HE. lia.
Qed.

(** ** sift
    The element that goes down is at the end of the path [ps ++ [h]]; [v] is the array after the
    exchanges along it. *)
Lemma wp_sift_loop k h ps f0 m fuel Q :
  let v := rot f0 (ps ++ [h]) in
  arr m f0 -> on_array (ps ++ [h]) -> leo k <= h + 1 -> h < n ->
  (forall x, h - leo k < x < h -> x ∉ ps) -> (length ps + 2 + k < places)%nat -> (k <= fuel)%nat ->
  (forall ps', on_array ps' -> (length ps' < places)%nat -> rot f0 ps' = siftf ord k v h -> Q (addr <$> ps') m) ->
  wp (sift_loop cmp fuel width (addr (default 0 (head (ps ++ [h])))) (addr h) (Z.of_nat k) lp (addr <$> ps ++ [h])) m Q.
Proof.
  revert h ps fuel. induction k as [| |k IH2 IH1] using order_ind; intros h ps fuel v Ha Hon Hk Hh Hfr Hlen Hfuel HQ.
  1,2: destruct fuel; (apply wp_ret, HQ; [done|rewrite length_app; cbn; lia|done]).
  destruct fuel as [|fuel]; [lia|]. cbn [sift_loop].
  rewrite (proj2 (Z.leb_gt (Z.of_nat (S (S k))) 1)) by lia.
  rewrite leo_SS in Hk, Hfr. pose proof (leo_pos1 k). pose proof (leo_pos1 (S k)).
  pose proof Hon as [Hnd Hin]. apply Forall_app in Hin as [_ [Hh0 _]%Forall_cons].
  set (x0 := default 0 (head (ps ++ [h]))).
  assert (0 <= x0 < n) as Hx0.
  { destruct Hon as [_ Hin]. rewrite Forall_forall in Hin. apply Hin. unfold x0. destruct ps; cbn; by left. }
  assert (v h = f0 x0) as Ev by (by apply rot_last).
  assert (forall y, h - (leo (S k) + leo k + 1) < y < h -> y ∉ ps ++ [h]) as Hfr'.
  { intros y Hy [Hy'|Hy']%elem_of_app; [by apply (Hfr y)|]. apply list_elem_of_singleton in Hy'. lia. }
  set (lf := h - 1 - leo k). set (rt := h - 1).
  assert (v lf = f0 lf) as El by (apply rot_out, Hfr'; unfold lf; lia).
  assert (v rt = f0 rt) as Er by (apply rot_out, Hfr'; unfold rt; lia).
  wp1. apply (wp_get_lp _ _ k); [lia|lia|].
  destruct (addr_minus h (leo k)) as (-> & -> & _). fold lf rt.
  wp1. apply (wp_compare m f0); [done|done|unfold lf; lia|].
  rewrite siftf_SS in HQ. fold lf rt in HQ. rewrite Ev, El, Er in HQ.
  apply (wp_both m f0); [done|done|unfold rt; lia| |]; intros Hg; [rewrite decide_True in HQ by done|rewrite decide_False in HQ by done].
  { apply wp_ret, HQ; [done|rewrite length_app; cbn; lia|done]. }
  wp1. apply (wp_compare m f0); [done|unfold lf; lia|unfold rt; lia|].
  destruct (decide _) as [Hlr|Hlr] in HQ; unfold ge in Hlr.
  - rewrite (proj2 (Z.leb_le 0 _)) by done. wp1. apply wp_push; [rewrite length_app; cbn; lia|].
    replace (Z.of_nat (S (S k)) - 1) with (Z.of_nat (S k)) by lia.
    replace x0 with (default 0 (head ((ps ++ [h]) ++ [lf]))) by (by destruct ps).
    apply IH1; [done|apply on_array_snoc; [done|apply Hfr'|]|..]; rewrite ?length_app; cbn [length]; try (unfold lf; lia).
    + intros y Hy. apply Hfr'. unfold lf in Hy. lia.
    + rewrite rot_snoc. exact HQ.
  - rewrite (proj2 (Z.leb_gt 0 _)) by lia. wp1. apply wp_push; [rewrite length_app; cbn; lia|].
    replace (Z.of_nat (S (S k)) - 2) with (Z.of_nat k) by lia.
    replace x0 with (default 0 (head ((ps ++ [h]) ++ [rt]))) by (by destruct ps).
    apply IH2; [done|apply on_array_snoc; [done|apply Hfr'|]|..]; rewrite ?length_app; cbn [length]; try (unfold rt; lia).
    + intros y Hy. apply Hfr'. unfold rt in Hy. lia.
    + rewrite rot_snoc. exact HQ.
Qed.

Lemma wp_sift k h f m Q :
  arr m f -> leo k <= h + 1 -> 0 <= h < n ->
  (forall m', arr m' (siftf ord k f h) -> same_outside m m' -> Q tt m') ->
  wp (sift cmp tmp (addr h) width (Z.of_nat k) lp) m Q.
Proof.
  intros Ha Hk Hh HQ. assert (k <= 61)%nat by (apply Hbig; lia). unfold sift. wp1.
  apply (wp_sift_loop k h [] f); [done| |done|lia|set_solver|unfold places; cbn; lia|lia|].
  { split; [apply NoDup_singleton|by constructor]. }
  intros ps' Hon Hlen He. eapply wp_mono; [by apply cycle_ok|]. cbv beta. intros [] m' [Ha' Ho].
  apply HQ; [|done]. by rewrite He in Ha'.
Qed.

(** ** trinkle *)
Lemma fits_length k ks : fits (k :: ks) -> (k + length ks <= 61)%nat.
Proof.
  revert k. induction ks as [|k2 ks IH]; intros k Hf; [pose proof (fits_head _ _ Hf); cbn; lia|].
  pose proof (fits_next _ _ _ Hf). specialize (IH k2 (fits_tail _ _ Hf)). cbn. lia.
Qed.

(** The loop ends at a root [h'] of order [k']; it has recorded the path to it. *)
Definition trinkled (f0 g : Z -> list Z) (r : list Z * Z * Z * bool) : Prop :=
  let '(ar, head, pshift, trusty) := r in
  if trusty then g = f0
  else exists ps' h' k', on_array ps' /\ (length ps' < places)%nat /\ leo k' <= h' + 1 /\ 0 <= h' < n /\
    ar = (addr <$> ps') /\ head = addr h' /\ pshift = Z.of_nat k' /\ g = siftf ord k' (rot f0 ps') h'.

Lemma trinkled_stop f0 ps h k (b : bool) :
  on_array (ps ++ [h]) -> (length ps + 1 < places)%nat -> leo k <= h + 1 -> 0 <= h < n -> (b = true -> ps = []) ->
  trinkled f0 (if b then rot f0 (ps ++ [h]) else siftf ord k (rot f0 (ps ++ [h])) h)
    (addr <$> ps ++ [h], addr h, Z.of_nat k, b).
Proof.
  intros Hon Hlen Hk Hh Hb. unfold trinkled. destruct b; [by rewrite Hb|].
  exists (ps ++ [h]), h, k. split_and!; [done|rewrite length_app; cbn; lia|done|lia|lia|done..].
Qed.

(** The test of the children. *)
Definition children_test (b : bool) (k : nat) (h st : Z) (v : Z -> list Z) : bool :=
  negb b && match k with
    | S (S j) => bool_decide (ge ord (v (h - 1)) (v st)) || bool_decide (ge ord (v (h - 1 - leo j)) (v st))
    | _ => false
    end.
Lemma wp_children f m (b : bool) k h st Q :
  arr m f -> leo k <= h + 1 -> h < n -> 0 <= st < n ->
  Q (children_test b k h st f) m ->
  wp (if negb b && (1 <? Z.of_nat k) then
        let! s := get_lp lp (Z.of_nat k - 2) in
        let! c1 := compare cmp (addr h - width) (addr st) in
        if 0 <=? c1 then ret true
        else let! c2 := compare cmp (addr h - width - s) (addr st) in ret (0 <=? c2)
      else ret false) m Q.
Proof.
  intros Ha Hk Hh Hst HQ. unfold children_test in HQ. destruct b; [by apply wp_ret|]. cbn [negb andb] in *.
  destruct k as [|[|j]]; [by apply wp_ret..|]. rewrite leo_SS in Hk. pose proof (leo_pos1 j). pose proof (leo_pos1 (S j)).
  rewrite (proj2 (Z.ltb_lt 1 _)) by lia. wp1. apply (wp_get_lp _ _ j); [lia|lia|].
  destruct (addr_minus h (leo j)) as (-> & -> & _).
  wp1. apply (wp_compare m f); [done|lia|lia|].
  destruct (Z.leb_spec 0 (ord (f (h - 1)) (f st))) as [H1|H1].
  - wp1. rewrite bool_decide_eq_true_2 in HQ by done. exact HQ.
  - rewrite bool_decide_eq_false_2 in HQ by (unfold ge; lia). cbn [orb] in HQ.
    wp1. apply (wp_compare m f); [done|lia|lia|]. wp1.
    replace (0 <=? ord (f (h - 1 - leo j)) (f st)) with (bool_decide (ge ord (f (h - 1 - leo j)) (f st))); [done|].
    unfold ge. destruct (Z.leb_spec 0 (ord (f (h - 1 - leo j)) (f st))); [by apply bool_decide_eq_true_2|].
    apply bool_decide_eq_false_2. lia.
Qed.

Lemma wp_trinkle_loop ks k h (b : bool) ps f0 m fuel Q :
  let v := rot f0 (ps ++ [h]) in
  arr m f0 -> on_array (ps ++ [h]) -> fits (k :: ks) -> total (k :: ks) <= h + 1 -> h < n ->
  (forall x, x < h -> x ∉ ps) -> (length ps + 2 + length ks < places)%nat -> (length ks <= fuel)%nat ->
  (b = true -> ps = []) ->
  (forall r, trinkled f0 (trinklef ord ks k b v h) r -> Q r m) ->
  wp (trinkle_loop cmp ctz fuel width (addr (default 0 (head (ps ++ [h])))) (addr h) (enc k ks, 0)
    (Z.of_nat k) b lp (addr <$> ps ++ [h])) m Q.
Proof.
  revert k h b ps fuel. induction ks as [|k2 ks IH]; intros k h b ps fuel v Ha Hon Hf Ht Hh Hfr Hlen Hfuel Hb HQ;
    rewrite total_sizes_cons in Ht; pose proof (leo_pos1 k);
    pose proof Hon as [Hnd [_ [Hh0 _]%Forall_cons]%Forall_app].
  { assert (leo k <= h + 1) by (cbn in Ht; lia).
    destruct fuel; apply wp_ret, HQ; (apply trinkled_stop; [done|cbn in *; lia|lia|lia|done]). }
  rewrite total_sizes_cons in Ht. pose proof (leo_pos1 k2). pose proof (total_nonneg ks).
  destruct fuel as [|fuel]; [cbn in Hfuel; lia|]. cbn [trinkle_loop fst snd]. rewrite (enc_one _ _ Hf). cbn [andb].
  set (x0 := default 0 (head (ps ++ [h]))). set (st := h - leo k).
  assert (0 <= x0 < n) as Hx0.
  { destruct Hon as [_ Hin]. rewrite Forall_forall in Hin. apply Hin. unfold x0. destruct ps; cbn; by left. }
  assert (v h = f0 x0) as Ev by (by apply rot_last).
  assert (forall y, y < h -> y ∉ ps ++ [h]) as Hfr'.
  { intros y Hy [Hy'|Hy']%elem_of_app; [by apply (Hfr y)|]. apply list_elem_of_singleton in Hy'. lia. }
  assert (forall y, y < h -> v y = f0 y) as Eo by (intros y Hy; by apply rot_out, Hfr').
  assert (trinkled f0 (if b then v else siftf ord k v h) (addr <$> ps ++ [h], addr h, Z.of_nat k, b)) as Hstop
    by (apply trinkled_stop; [done|cbn in *; lia|lia|lia|done]).
  wp1. apply (wp_get_lp _ _ k); [done|lia|]. destruct (addr_minus h (leo k)) as (_ & _ & ->). fold st.
  wp1. apply (wp_compare m f0); [done|unfold st; lia|done|].
  cbn [trinklef] in HQ. fold st in HQ. rewrite Ev, (Eo st) in HQ by (unfold st; lia).
  destruct (_ <=? 0); [by wp1; apply HQ|]. wp1.
  apply (wp_children f0); [done|lia|lia|unfold st; lia|].
  assert (children_test b k h st f0 = children_test b k h st v) as Ect.
  { unfold children_test. destruct k as [|[|j]]; [done..|]. pose proof (leo_pos1 j). rewrite !Eo by (unfold st; lia). done. }
  rewrite Ect. unfold children_test. rewrite (Eo st) by (unfold st; lia).
  destruct (negb b && _); [by wp1; apply HQ|].
  wp1. apply wp_push; [rewrite length_app; cbn in *; lia|].
  rewrite (pntz_next ctz Hctz), (shr_next _ _ _ Hf) by done. wp1. cbn [opt]. wp1.
  replace (Z.of_nat k + (Z.of_nat k2 - Z.of_nat k)) with (Z.of_nat k2) by lia.
  replace x0 with (default 0 (head ((ps ++ [h]) ++ [st]))) by (by destruct ps).
  apply IH; [done| |by eapply fits_tail|rewrite total_sizes_cons; unfold st; lia|unfold st; lia| |rewrite length_app; cbn in *; lia|cbn in Hfuel; lia|done|].
  - apply on_array_snoc; [done|apply Hfr'; unfold st; lia|unfold st; lia].
  - intros y Hy. apply Hfr'. unfold st in Hy. lia.
  - rewrite rot_snoc. exact HQ.
Qed.

Lemma same_outside_trans m1 m2 m3 : same_outside m1 m2 -> same_outside m2 m3 -> same_outside m1 m3.
Proof. intros H1 H2 x Hx Hxt. by rewrite H2, H1. Qed.
Lemma same_outside_refl m : same_outside m m.
Proof. by intros x. Qed.

Lemma wp_trinkle ks k h (b : bool) f m Q :
  arr m f -> fits (k :: ks) -> total (k :: ks) <= h + 1 -> 0 <= h < n ->
  (forall m', arr m' (trinklef ord ks k b f h) -> same_outside m m' -> Q tt m') ->
  wp (trinkle cmp tmp ctz (addr h) width (enc k ks, 0) (Z.of_nat k) b lp) m Q.
Proof.
  intros Ha Hf Ht Hh HQ. unfold trinkle. wp1. pose proof (fits_length _ _ Hf).
  apply (wp_trinkle_loop ks k h b [] f); [done| |done|done|lia|set_solver|unfold places; cbn; lia|lia|done|].
  { split; [apply NoDup_singleton|by constructor]. }
  intros [[[ar head] pshift] trusty] Hr. change (rot f ([] ++ [h])) with f in Hr. unfold trinkled in Hr. destruct trusty; cbn [negb].
  - wp1. apply HQ; [|apply same_outside_refl]. by rewrite Hr.
  - destruct Hr as (ps' & h' & k' & Hon & Hlen & Hk' & Hh' & -> & -> & -> & Hg).
    wp1. eapply wp_mono; [by apply cycle_ok|]. cbv beta. intros [] m1 [Ha1 Ho1].
    apply (wp_sift k' h' (rot f ps')); [done..|]. intros m2 Ha2 Ho2. rewrite <- Hg in Ha2.
    apply HQ; [done|]. by eapply same_outside_trans.
Qed.

(** ** Building the forest *)
Lemma total_fits k ks : ascending (k :: ks) -> total (k :: ks) <= n -> fits (k :: ks).
Proof.
  intros Ha Ht. split; [done|]. clear Ha. revert Ht. generalize (k :: ks). intros l.
  induction l as [|j l IH]; [done|]. rewrite total_sizes_cons. intros Hj.
  pose proof (leo_pos1 j). pose proof (total_nonneg l). constructor; [apply Hbig; lia|apply IH; lia].
Qed.
Lemma building_fits f h k ks : building ord n f h k ks -> h < n -> fits (k :: ks).
Proof.
  intros [Ht _ _ Hsp Hnx _] Hh. apply total_fits; [|lia]. split; [done|by apply spaced_ascending].
Qed.

(** One element more. *)
Lemma wp_build_step f h k ks m Q :
  arr m f -> building ord n f h k ks -> 0 <= h < n - 1 ->
  (forall m' f' k' ks' p,
    arr m' f' -> same_outside m m' -> elems n f' ≡ₚ elems n f -> building ord n f' (h + 1) k' ks' ->
    (p.1 ||| 1, p.2) = (enc k' ks', 0) -> Q (p, Z.of_nat k') m') ->
  wp (if (enc k ks &&& 3) =? 3 then
        sift cmp tmp (addr h) width (Z.of_nat k) lp ;;;
        let! p := opt (shr (enc k ks, 0) 2) in
        ret (p, Z.of_nat k + 2)
      else
        let! s := get_lp lp (Z.of_nat k - 1) in
        (if addr (n - 1) - addr h <=? s then trinkle cmp tmp ctz (addr h) width (enc k ks, 0) (Z.of_nat k) false lp
         else sift cmp tmp (addr h) width (Z.of_nat k) lp) ;;;
        if Z.of_nat k =? 1 then let! p := opt (shl (enc k ks, 0) 1) in ret (p, 0)
        else let! p := opt (shl (enc k ks, 0) (Z.of_nat k - 1)) in ret (p, 1)) m Q.
Proof.
  intros Ha Hb Hh HQ. pose proof (building_fits _ _ _ _ Hb ltac:(lia)) as Hf.
  rewrite (low_bits _ _ Hf). pose proof (bd_total _ _ _ _ _ _ Hb) as Ht. rewrite total_sizes_cons in Ht.
  pose proof (total_nonneg ks).
  destruct (match ks with k2 :: _ => (k2 =? S k)%nat | [] => false end) eqn:Em.
  - destruct ks as [|k2 ks]; [done|]. apply Nat.eqb_eq in Em. subst k2.
    pose proof (build_merge ord n _ _ _ _ Hb) as Hb'. pose proof (building_fits _ _ _ _ Hb' ltac:(lia)) as Hf'.
    wp1. apply (wp_sift k h f); [done|lia|lia|]. intros m' Ha' Ho'.
    destruct (merge_bits k ks Hf Hf') as (x & -> & Ex). wp1. cbn [opt]. wp1. wp1.
    replace (Z.of_nat k + 2) with (Z.of_nat (S (S k))) by lia. eapply HQ; [done|done| |done|cbn; by rewrite Ex].
    apply (sh_perm _ _ _ _ (siftf_shuffles ord k f h)); lia.
  - assert (1 <= k)%nat as Hk.
    { destruct k; [|lia]. destruct (bd_zero _ _ _ _ _ _ Hb eq_refl) as [ks' ->]. done. }
    assert (match ks with [] => True | k2 :: _ => (k + 2 <= k2)%nat end) as Hgap.
    { destruct ks as [|k2 ks]; [done|]. apply Nat.eqb_neq in Em. pose proof (fits_next _ _ _ Hf). lia. }
    pose proof (build_new ord n _ _ _ _ Hb Hk Hgap) as Hb'.
    wp1. apply (wp_get_lp _ _ (pred k)); [lia|pose proof (leo_mono (pred k) k ltac:(lia)); lia|].
    assert (addr (n - 1) - addr h = width * (n - 1 - h)) as -> by (unfold QsortMem.addr; lia).
    assert (forall m', arr m' (settle ord n f h k ks) -> same_outside m m' ->
      wp (if Z.of_nat k =? 1 then let! p := opt (shl (enc k ks, 0) 1) in ret (p, 0)
        else let! p := opt (shl (enc k ks, 0) (Z.of_nat k - 1)) in ret (p, 1)) m' Q) as Hnext.
    { intros m' Ha' Ho'. assert (elems n (settle ord n f h k ks) ≡ₚ elems n f) as Hp.
      { unfold settle. destruct (decide (final n h k)).
        - apply (sh_perm _ _ _ _ (trinklef_shuffles ord ks k false f h)); rewrite ?total_sizes_cons; lia.
        - apply (sh_perm _ _ _ _ (siftf_shuffles ord k f h)); lia. }
      destruct (decide (k = 1%nat)) as [->|Hk1].
      - destruct (add_bits 0 1 ks ltac:(lia) Hf) as (x & Hx & Ex). change (Z.of_nat 1 =? 1) with true. cbv iota.
        replace (Z.of_nat 1 - Z.of_nat 0) with 1 in Hx by lia.
        rewrite Hx. wp1. cbn [opt]. wp1. wp1.
        apply (HQ m' (settle ord n f h 1 ks) 0%nat (1%nat :: ks)); [done..|]. cbn. by rewrite Ex.
      - destruct (add_bits 1 k ks ltac:(lia) Hf) as (x & Hx & Ex).
        rewrite (proj2 (Z.eqb_neq _ 1)) by lia. change (Z.of_nat 1) with 1 in Hx. rewrite Hx. wp1. cbn [opt]. wp1. wp1.
        apply (HQ m' (settle ord n f h k ks) 1%nat (k :: ks)); [done..|]. cbn. by rewrite Ex. }
    wp1. unfold settle, final in Hnext. destruct (Z.leb_spec (width * (n - 1 - h)) (width * leo (pred k))) as [Hle|Hgt].
    + rewrite decide_True in Hnext by nia.
      apply (wp_trinkle ks k h false f); [done|done|rewrite total_sizes_cons; lia|lia|done].
    + rewrite decide_False in Hnext by nia. apply (wp_sift k h f); [done|lia|lia|done].
Qed.

Lemma wp_build f0 m0 fuel h k ks f m Q :
  arr m f -> building ord n f h k ks -> 0 <= h < n -> n - 1 - h <= Z.of_nat fuel ->
  elems n f ≡ₚ elems n f0 -> same_outside m0 m ->
  (forall m' f' k' ks', arr m' f' -> building ord n f' (n - 1) k' ks' -> elems n f' ≡ₚ elems n f0 ->
    same_outside m0 m' -> Q (addr (n - 1), (enc k' ks', 0), Z.of_nat k') m') ->
  wp (build cmp tmp ctz fuel width (addr (n - 1)) lp (addr h) (enc k ks, 0) (Z.of_nat k)) m Q.
Proof.
  revert h k ks f m. induction fuel as [|fuel IH]; intros h k ks f m Ha Hb Hh Hfuel Hp Ho HQ; cbn [build].
  all: assert (h = n - 1 -> wp (ret (addr h, (enc k ks, 0), Z.of_nat k)) m Q) as Hend
    by (intros ->; wp1; by eapply HQ).
  - assert (h = n - 1) as -> by lia. rewrite Z.ltb_irrefl. by apply Hend.
  - assert ((addr h <? addr (n - 1)) = (h <? n - 1)) as ->.
    { unfold QsortMem.addr. destruct (Z.ltb_spec h (n - 1)); [apply Z.ltb_lt|apply Z.ltb_ge]; nia. }
    destruct (Z.ltb_spec h (n - 1)); cbn [negb]; [|apply Hend; lia].
    wp1. apply (wp_build_step f); [done|done|lia|]. intros m' f' k' ks' p Ha' Ho' Hp' Hb' Ep.
    rewrite Ep. assert (addr h + width = addr (h + 1)) as -> by (unfold QsortMem.addr; lia).
    eapply IH; [done|done|lia|lia|by rewrite Hp'|by eapply same_outside_trans|done].
Qed.

(** ** Taking it apart *)
Lemma falling_fits f h k ks : falling ord n f h k ks -> h < n -> fits (k :: ks).
Proof. intros [Ht _ _ Ha _ _] Hh. apply total_fits; [done|lia]. Qed.

Lemma falling_first f k ks : falling ord n f 0 k ks -> k = 1%nat /\ ks = [].
Proof.
  intros Hfl. pose proof (fl_total _ _ _ _ _ _ Hfl) as Ht. pose proof (fl_zero _ _ _ _ _ _ Hfl) as Hz.
  rewrite total_sizes_cons in Ht. pose proof (leo_pos1 k). destruct ks as [|k2 ks].
  - split; [|done]. destruct k as [|[|k]]; [by destruct Hz|done|].
    rewrite leo_SS in *. change (total []) with 0 in Ht. pose proof (leo_pos1 k). pose proof (leo_pos1 (S k)). lia.
  - rewrite total_sizes_cons in *. pose proof (leo_pos1 k2). pose proof (total_nonneg ks). lia.
Qed.

Lemma wp_shrink f0 m0 fuel h k ks f m Q :
  arr m f -> falling ord n f h k ks -> 0 <= h < n -> h <= Z.of_nat fuel ->
  elems n f ≡ₚ elems n f0 -> same_outside m0 m ->
  (forall m' f', arr m' f' -> (forall i j, 0 <= i -> i < j < n -> ge ord (f' j) (f' i)) ->
    elems n f' ≡ₚ elems n f0 -> same_outside m0 m' -> Q tt m') ->
  wp (shrink cmp tmp ctz fuel width lp (addr h) (enc k ks, 0) (Z.of_nat k)) m Q.
Proof.
  revert h k ks f m. induction fuel as [|fuel IH]; intros h k ks f m Ha Hfl Hh Hfuel Hp Ho HQ; cbn [shrink fst snd];
    pose proof (falling_fits _ _ _ _ Hfl ltac:(lia)) as Hf; rewrite (enc_one _ _ Hf);
    pose proof (fl_total _ _ _ _ _ _ Hfl) as Ht; rewrite total_sizes_cons in Ht; pose proof (leo_pos1 k);
    pose proof (total_nonneg ks).
  all: destruct (decide (k = 1%nat /\ ks = [])) as [[-> ->]|Hmore];
    [apply wp_ret; eapply HQ; [done|by eapply falling_end|done..]|].
  - exfalso. apply Hmore, (falling_first f). by replace 0 with h by lia.
  - assert ((Z.of_nat k =? 1) && match ks with [] => true | _ => false end && (0 =? 0) = false) as ->.
    { destruct (Z.eqb_spec (Z.of_nat k) 1); [|done]. destruct ks; [|done]. exfalso. apply Hmore. split; [lia|done]. }
    destruct (addr_minus h 0) as (_ & -> & _).
    destruct (Z.leb_spec (Z.of_nat k) 1) as [Hk|Hk].
    + destruct ks as [|k2 ks].
      { exfalso. pose proof (fl_zero _ _ _ _ _ _ Hfl) as Hz. destruct k as [|[|k]]; [by destruct Hz|by apply Hmore|lia]. }
      wp1. rewrite (pntz_next ctz Hctz), (shr_next _ _ _ Hf) by done. wp1. cbn [opt]. wp1. wp1.
      replace (Z.of_nat k + (Z.of_nat k2 - Z.of_nat k)) with (Z.of_nat k2) by lia.
      rewrite total_sizes_cons in Ht. pose proof (leo_pos1 k2). pose proof (total_nonneg ks).
      eapply IH; [done|eapply falling_drop; [done..|lia]|lia|lia|done..].
    + destruct k as [|[|k]]; [lia..|]. pose proof (falling_split ord n f h k ks Hfl) as Hfl'. cbn zeta in Hfl'.
      rewrite leo_SS in Ht. pose proof (leo_pos1 k). pose proof (leo_pos1 (S k)).
      set (f1 := trinklef ord ks (S k) true f (h - 1 - leo k)) in *.
      set (f2 := trinklef ord (S k :: ks) k true f1 (h - 1)) in *.
      pose proof (falling_fits _ _ _ _ Hfl' ltac:(lia)) as Hf'.
      destruct (halves_bits k ks Hf) as (x & Ex & Ex'). rewrite Ex. wp1. wp1. cbn [opt]. wp1. cbn [fst snd].
      rewrite Ex'. wp1. cbn [opt]. wp1. wp1.
      apply (wp_get_lp _ _ k); [lia|lia|].
      assert (addr h - width * leo k - width = addr (h - 1 - leo k)) as -> by (unfold QsortMem.addr; lia).
      replace (Z.of_nat (S (S k)) - 2 + 1) with (Z.of_nat (S k)) by lia.
      wp1. apply (wp_trinkle ks (S k) _ true f); [done|by eapply fits_tail|rewrite total_sizes_cons; lia|lia|].
      intros m1 Ha1 Ho1. destruct (add_bits k (S k) ks ltac:(lia) (fits_tail _ _ Hf')) as (y & Ey & Ey').
      replace (Z.of_nat (S k) - Z.of_nat k) with 1 in Ey by lia. rewrite Ey. wp1. cbn [opt]. wp1. cbn [fst snd].
      rewrite Ey'. replace (Z.of_nat (S (S k)) - 2) with (Z.of_nat k) by lia.
      wp1. apply (wp_trinkle (S k :: ks) k _ true f1); [done|done|rewrite !total_sizes_cons; lia|lia|].
      intros m2 Ha2 Ho2. wp1. eapply (IH (h - 1) k (S k :: ks) f2); [done|done|lia|lia| | |done].
      * rewrite <- Hp. transitivity (elems n f1).
        -- apply (sh_perm _ _ _ _ (trinklef_shuffles ord (S k :: ks) k true f1 (h - 1))); rewrite ?total_sizes_cons; lia.
        -- apply (sh_perm _ _ _ _ (trinklef_shuffles ord ks (S k) true f (h - 1 - leo k))); rewrite ?total_sizes_cons; lia.
      * eapply same_outside_trans; [|done]. by eapply same_outside_trans.
Qed.
End Sort.

(** ** The whole *)
Definition array_of (base nel width : Z) (m : mem) : list (list Z) :=
  (fun i => elem width m (addr base width i)) <$> seqZ 0 nel.
Definition ordered {V} (ord : V -> V -> Z) : list V -> Prop := StronglySorted (fun x y => ord x y <= 0).

Lemma ordered_elems {V} (ord : V -> V -> Z) n (f : Z -> V) :
  (forall i j, 0 <= i -> i < j < n -> ord (f i) (f j) <= 0) -> ordered ord (elems n f).
Proof.
  intros Hf. unfold ordered, elems.
  assert (forall len a, 0 <= a -> a + Z.of_nat len <= n ->
    StronglySorted (fun x y => ord x y <= 0) (f <$> seqZ a (Z.of_nat len))) as Hs.
  { induction len as [|len IH]; intros a Ha Hlen; [constructor|].
    rewrite seqZ_cons by lia. rewrite fmap_cons. apply StronglySorted_cons. split.
    - apply Forall_fmap, Forall_forall. intros j Hj%elem_of_seqZ. cbn. apply Hf; lia.
    - replace (Z.pred (Z.of_nat (S len))) with (Z.of_nat len) by lia. apply IH; lia. }
  destruct (decide (0 <= n)); [|rewrite seqZ_nil by lia; constructor].
  specialize (Hs (Z.to_nat n) 0 ltac:(lia) ltac:(lia)). by rewrite Z2Nat.id in Hs.
Qed.

(** C39: [qsort] returns, and the array holds the same elements in ascending order; nothing else in
    memory changes but the buffer of [cycle].  The comparison may be any function of the contents of
    two elements that is a total preorder.  The array has fewer elements than the Leonardo number of
    order 62 (about ten million millions), so that one word of the bit vector is enough. *)
Theorem qsort_sorts cmp tmp ctz base nel width (ord : list Z -> list Z -> Z) m :
  Order ord -> (forall m a b, cmp m a b = ord (elem width m a) (elem width m b)) ->
  (forall j y, 0 <= j -> Z.odd y = true -> 0 < 2 ^ j * y < 2 ^ 64 -> ctz (2 ^ j * y) = j) ->
  bytes m -> 0 < width -> 0 <= nel < leo 62 -> width * nel <= 2 ^ 62 ->
  tmp + 256 <= base \/ base + nel * width <= tmp ->
  wp (qsort cmp tmp ctz base nel width) m (fun _ m' =>
    ordered ord (array_of base nel width m') /\
    array_of base nel width m' ≡ₚ array_of base nel width m /\
    same_outside tmp base nel width m m').
Proof.
  intros Ho Hcmp Hctz Hb Hw Hnel Hsize Htmp. unfold qsort. rewrite wrap_small by (unfold in_u; nia).
  destruct (decide (nel = 0)) as [->|Hne].
  { rewrite Z.mul_0_r. apply wp_ret. split_and!; [constructor|done|done]. }
  rewrite (proj2 (Z.eqb_neq _ 0)) by nia.
  destruct (lp_table_ok width nel) as (lp & -> & Hlp); [done|lia|done|]. wp1. cbn [opt]. wp1.
  assert (forall k, leo k <= nel -> (k <= 61)%nat) as Hbig.
  { intros k Hk. destruct (decide (k <= 61)%nat); [done|]. pose proof (leo_mono 62 k ltac:(lia)). lia. }
  set (f0 := fun i => elem width m (addr base width i)).
  assert (arr base nel width m f0) as Ha by (by split).
  assert (base + width * nel - width = addr base width (nel - 1)) as -> by (unfold addr; lia).
  assert (addr base width 0 = base) as E0 by (unfold addr; lia).
  wp1. change 1 with (Z.of_nat 1) at 3. change (1, 0) with (enc 1 [], 0).
  pose proof (wp_build cmp tmp ctz base nel width ord Hcmp Hctz Hw ltac:(lia) Hbig Htmp lp Hlp f0 m
    (Z.to_nat nel) 0 1 [] f0 m) as Hbuild. rewrite E0 in Hbuild.
  apply Hbuild; [done|apply build_start|lia|lia|done|apply same_outside_refl|]. clear Hbuild.
  intros m1 f1 k ks Ha1 Hb1 Hp1 Ho1. wp1.
  assert (fits (k :: ks)) as Hf by (by eapply building_fits; [done..|lia]).
  pose proof (bd_total _ _ _ _ _ _ Hb1) as Ht.
  apply (wp_trinkle cmp tmp ctz base nel width ord Hcmp Hctz Hw ltac:(lia) Hbig Htmp lp Hlp ks k (nel - 1) false f1);
    [done|done|lia|lia|].
  intros m2 Ha2 Ho2.
  eapply (wp_shrink cmp tmp ctz base nel width ord Hcmp Hctz Hw ltac:(lia) Hbig Htmp lp Hlp f0 m); [exact Ha2|by apply falling_start|lia|lia| | |].
  - rewrite <- Hp1. apply (sh_perm _ _ _ _ (trinklef_shuffles ord ks k false f1 (nel - 1))); lia.
  - by eapply same_outside_trans.
  - intros m3 f3 [_ Hf3] Hs3 Hp3 Ho3.
    assert (array_of base nel width m3 = elems nel f3) as ->.
    { apply list_fmap_ext. intros i x Hx. apply lookup_seqZ in Hx as [-> ?]. apply Hf3. lia. }
    split_and!; [|done|done]. apply ordered_elems. intros i j Hi Hj. specialize (Hs3 i j Hi Hj).
    unfold ge in Hs3. pose proof (ord_flip ord (f3 i) (f3 j)). lia.
Qed.

(** ** Binary search *)
Section Search.
Context (cmp : mem -> Z -> Z -> Z) (width : Z) (ord : list Z -> list Z -> Z) `{!Order ord}.
Context (Hcmp : forall m a b, cmp m a b = ord (elem width m a) (elem width m b)).

Lemma below x y z : ord z y <= 0 -> 0 < ord x y -> 0 < ord x z.
Proof.
  intros Hz Hx. destruct (Z.lt_ge_cases 0 (ord x z)); [done|exfalso].
  pose proof (ord_flip ord x y). pose proof (ord_flip ord y z). pose proof (ord_flip ord z y).
  pose proof (ord_flip ord x z). pose proof (ord_flip ord z x).
  pose proof (ge_trans ord y z x). unfold ge in *. lia.
Qed.
Lemma above x y z : ord y z <= 0 -> ord x y < 0 -> ord x z < 0.
Proof.
  intros Hz Hx. destruct (Z.lt_ge_cases (ord x z) 0); [done|exfalso].
  pose proof (ord_flip ord z y). pose proof (ord_flip ord y z).
  pose proof (ge_trans ord x z y). unfold ge in *. lia.
Qed.

(** The elements before the part that is searched are smaller than the key, those behind it
    larger. *)
Lemma wp_bsearch_loop m key base0 nel0 fuel lo n Q :
  let x := elem width m key in
  let f i := elem width m (addr base0 width i) in
  (forall i j, 0 <= i -> i < j < nel0 -> ord (f i) (f j) <= 0) ->
  0 <= lo -> 0 <= n -> lo + n <= nel0 -> n < 2 ^ (Z.of_nat fuel - 1) -> (1 <= fuel)%nat ->
  (forall i, 0 <= i < lo -> 0 < ord x (f i)) -> (forall i, lo + n <= i < nel0 -> ord x (f i) < 0) ->
  (forall i, 0 <= i < nel0 -> ord x (f i) = 0 -> Q (addr base0 width i) m) ->
  ((forall i, 0 <= i < nel0 -> ord x (f i) ≠ 0) -> Q 0 m) ->
  wp (bsearch_loop cmp fuel key (addr base0 width lo) n width) m Q.
Proof.
  intros x f Hs. revert lo n. induction fuel as [|fuel IH]; intros lo n Hlo Hn Hle Hf Hf1 Hlow Hhigh HQ HQ0; [lia|].
  cbn [bsearch_loop]. destruct (Z.leb_spec n 0) as [H0|H0].
  { apply wp_ret, HQ0. intros i Hi. destruct (decide (i < lo)).
    - specialize (Hlow i ltac:(lia)). lia.
    - specialize (Hhigh i ltac:(lia)). lia. }
  assert (1 <= fuel)%nat as Hf2.
  { destruct fuel; [|lia]. change (Z.of_nat 1 - 1) with 0 in Hf. change (2 ^ 0) with 1 in Hf. lia. }
  assert (2 ^ (Z.of_nat (S fuel) - 1) = 2 * 2 ^ (Z.of_nat fuel - 1)) as Ep.
  { replace (Z.of_nat (S fuel) - 1) with (1 + (Z.of_nat fuel - 1)) by lia. rewrite Z.pow_add_r by lia. lia. }
  set (mid := lo + n / 2). assert (0 <= n / 2 < n) as Hmid.
  { split; [apply Z.div_pos; lia|apply Z.div_lt; lia]. }
  assert (2 * (n / 2) <= n <= 2 * (n / 2) + 1) as Hhalf.
  { pose proof (Z.div_mod n 2). pose proof (Z.mod_pos_bound n 2). lia. }
  assert (addr base0 width lo + width * (n / 2) = addr base0 width mid) as -> by (unfold addr, mid; lia).
  wp1. apply wp_gets. rewrite Hcmp. fold x. change (elem width m (addr base0 width mid)) with (f mid).
  destruct (Z.ltb_spec (ord x (f mid)) 0) as [Hc|Hc].
  - apply IH; [lia|lia|lia|lia|lia|done| |done|done]. intros i Hi.
    destruct (decide (i = mid)) as [->|]; [done|]. apply (above _ (f mid)); [apply Hs; unfold mid in *; lia|done].
  - destruct (Z.ltb_spec 0 (ord x (f mid))) as [Hc'|Hc'].
    + assert (addr base0 width mid + width = addr base0 width (mid + 1)) as -> by (unfold addr; lia).
      apply IH; [unfold mid; lia|lia|unfold mid; lia|lia|lia| |intros i Hi; apply Hhigh; unfold mid in Hi; lia|done|done].
      intros i Hi. destruct (decide (i = mid)) as [->|]; [done|]. apply (below _ (f mid)); [apply Hs; unfold mid in *; lia|done].
    + wp1. apply HQ; [unfold mid; lia|lia].
Qed.
End Search.

Lemma ordered_lookup {V} (ord : V -> V -> Z) n (f : Z -> V) :
  ordered ord (f <$> seqZ 0 n) -> forall i j, 0 <= i -> i < j < n -> ord (f i) (f j) <= 0.
Proof.
  intros Hs i j Hi Hj. replace n with (j + (n - j)) in Hs by lia. rewrite seqZ_app, fmap_app in Hs by lia.
  apply StronglySorted_app in Hs as (Hs & _ & _). apply Hs; apply list_elem_of_fmap; eexists; (split; [done|]);
    apply elem_of_seqZ; lia.
Qed.

(** C40: [bsearch] in an ordered array returns an element that is equal to the key, or null if there is
    none; memory does not change. *)
Theorem bsearch_finds cmp key base nel width (ord : list Z -> list Z -> Z) m :
  Order ord -> (forall m a b, cmp m a b = ord (elem width m a) (elem width m b)) ->
  0 < base -> 0 < width -> 0 <= nel < 2 ^ 64 -> ordered ord (array_of base nel width m) ->
  wp (bsearch cmp key base nel width) m (fun r m' => m' = m /\
    (r = 0 /\ (forall x, x ∈ array_of base nel width m -> ord (elem width m key) x ≠ 0) \/
     r ≠ 0 /\ elem width m r ∈ array_of base nel width m /\ ord (elem width m key) (elem width m r) = 0)).
Proof.
  intros Ho Hcmp Hb Hw Hn Hs. unfold bsearch. replace base with (addr base width 0) at 1 by (unfold addr; lia).
  pose proof (ordered_lookup ord nel (fun i => elem width m (addr base width i)) Hs) as Hlk.
  apply (wp_bsearch_loop cmp width ord Hcmp m key base nel); [done|lia|lia|lia|lia|lia|lia|lia| |].
  - intros i Hi He. split; [done|]. right. split_and!; [unfold addr; nia| |done].
    apply list_elem_of_fmap. exists i. split; [done|]. apply elem_of_seqZ. lia.
  - intros Hne. split; [done|]. left. split; [done|]. intros x (i & -> & Hi%elem_of_seqZ)%list_elem_of_fmap. apply Hne. lia.
Qed.

(** ** An example: bytes compared as numbers *)
Definition head_ord (x y : list Z) : Z := default 0 (head x) - default 0 (head y).
#[export] Instance head_ord_ok : Order head_ord.
Proof. unfold head_ord. split; unfold ge; intros; lia. Qed.
Lemma byte_cmp_ok m a b : byte_cmp m a b = head_ord (elem 1 m a) (elem 1 m b).
Proof.
  unfold byte_cmp, head_ord, elem. change (seqZ 0 1) with [0]. rewrite !list_fmap_singleton. cbn [head default from_option id].
  by rewrite !Z.add_0_r.
Qed.
Lemma ctz_ref_ok j y : 0 <= j -> Z.odd y = true -> 0 < 2 ^ j * y < 2 ^ 64 -> ctz_ref (2 ^ j * y) = j.
Proof.
  intros Hj Hy Hb. assert (j < 64) as Hj64.
  { apply (Z.pow_lt_mono_r_iff 2); [lia..|]. assert (0 < 2 ^ j) by (apply Z.pow_pos_nonneg; lia).
    assert (0 < y) by (apply (Z.mul_pos_cancel_l (2 ^ j)); lia). nia. }
  unfold ctz_ref. clear Hb.
  assert (forall k, (Z.to_nat j < k)%nat -> ctz_loop k (2 ^ j * y) = j) as Hk; [|apply Hk; lia].
  clear Hj64. pattern j. apply natlike_ind; [| |done].
  - intros k Hk. destruct k as [|k]; [lia|]. cbn [ctz_loop]. by rewrite Z.mul_1_l, Hy.
  - intros i Hi IH k Hk. destruct k as [|k]; [lia|]. cbn [ctz_loop]. rewrite Z.pow_succ_r by done.
    replace (2 * 2 ^ i * y) with (2 * (2 ^ i * y)) by lia. rewrite Z.odd_mul. cbn [Z.odd andb].
    rewrite (Z.mul_comm 2), Z.div_mul, IH by lia. lia.
Qed.
Lemma put_list_bytes l a : Forall (fun c => 0 <= c < 256) l -> bytes (put_list l a).
Proof.
  intros Hl. revert a. induction Hl as [|c l Hc _ IH]; intros a i; [done|]. cbn. unfold rd.
  destruct (decide (i = a)) as [->|]; [by rewrite lookup_insert_eq|]. rewrite lookup_insert_ne by done. apply IH.
Qed.

Lemma qsort_sorts_witness :
  wp (qsort byte_cmp 5000 ctz_ref 1000 19 1) (put_list demo_bytes 1000) (fun _ m' =>
    ordered head_ord (array_of 1000 19 1 m') /\
    array_of 1000 19 1 m' ≡ₚ array_of 1000 19 1 (put_list demo_bytes 1000) /\
    same_outside 5000 1000 19 1 (put_list demo_bytes 1000) m').
Proof.
  apply (qsort_sorts byte_cmp 5000 ctz_ref 1000 19 1 head_ord).
  - apply head_ord_ok.
  - apply byte_cmp_ok.
  - apply ctz_ref_ok.
  - apply put_list_bytes. repeat (constructor; [lia|]). constructor.
  - lia.
  - split; [lia|]. apply (Z.lt_le_trans _ (leo 10)); [done|]. apply leo_mono. lia.
  - lia.
  - lia.
Defined.

Definition sorted_bytes : mem := put_list [1; 3; 3; 7; 20] 1000.
Lemma bsearch_finds_witness :
  wp (bsearch byte_cmp 1003 1000 5 1) sorted_bytes (fun r m' => m' = sorted_bytes /\
    (r = 0 /\ (forall x, x ∈ array_of 1000 5 1 sorted_bytes -> head_ord (elem 1 sorted_bytes 1003) x ≠ 0) \/
     r ≠ 0 /\ elem 1 sorted_bytes r ∈ array_of 1000 5 1 sorted_bytes /\
       head_ord (elem 1 sorted_bytes 1003) (elem 1 sorted_bytes r) = 0)).
Proof.
  apply (bsearch_finds byte_cmp 1003 1000 5 1 head_ord).
  - apply head_ord_ok.
  - apply byte_cmp_ok.
  - lia.
  - lia.
  - lia.
  - repeat constructor; by vm_compute.
Defined.
End QsortProps.
